(* ===== verification/_CoqProject ===== *)
-Q . S2P
Prelude.v
ZendHash.v
Log.v
LogTrace.v
Tally.v
LogFormat.v
LogAggregate.v
LogSpeedscope.v
LogRefs.v
FormatRefs.v
ScopeRefs.v
Timespec.v
Doubles.v
PendingList.v
Timer.v
TimerlibCommon.v
TimerlibPosix.v
PosixReady.v
PosixSignals.v
TimerlibKqueue.v
KqueueSystem.v
TimerSystem.v
PosixSystem.v
KqueueTimers.v
LogObject.v
ObjectRefs.v
Destructors.v
Objects.v
ObjectSystem.v
Exceptions.v
Methods.v
Lifecycle.v
Handlers.v
