(* ===== verification/Prelude.v ===== *)
(** * Excimer: a verification development

    Excimer is a PHP extension with a sampling profiler and interrupting
    timers, written in C. This library models it as executable functions and
    proves what makes it correct. The numbers C1, C2, ... are those of the
    properties.

    ** The program

    A timer of the operating system elapses in a thread of the timer library
    ([timerlib/]). Its handler counts the event, puts the timer on a list of
    pending timers and raises the [vm_interrupt] flag of the PHP virtual
    machine ([excimer_timer.c]). At the next safe point the virtual machine
    calls the interrupt function, which takes the timers off the list and
    calls their callbacks. The callback of an [ExcimerTimer] calls a PHP
    function; that of an [ExcimerProfiler] adds a sample of the PHP stack to
    an [ExcimerLog] ([excimer.c], [excimer_log.c]), and hands the log over to
    a PHP function when it is full. A log shares the common callers of its
    samples in one array of frames, and can be read as traces, as text for
    flame graphs, as data for speedscope, or aggregated by function.

    ** Files

    - [Prelude] (this file): outcomes of C code, the state monad, integers at
      their width, generic lemmas, the hint database [excimer].
    - [ZendHash]: the hash tables of PHP as a class [ZendHash] with its laws
      [ZendHashLaws] (order of insertion, unique keys, stable sort), and an
      instance on association lists that discharges them.
    - [Log]: [excimer_log.h] and the first half of [excimer_log.c]: entries,
      frames, [reverse_frames], [excimer_log_add] and what it calls. The
      invariant is [log_wf].
    - [LogTrace]: traces ([excimer_log_trace_to_array]), and the properties of
      the log.
    - [Tally]: counting in hash tables, shared by the formatters.
    - [LogFormat]: [excimer_log_format_collapsed].
    - [LogAggregate]: [excimer_log_aggr_by_func].
    - [LogSpeedscope]: [excimer_log_get_speedscope_data].
    - [LogRefs]: recording samples and [excimer_log_destroy] with the
      reference counts of the strings of a log, in a memory of counted
      strings.
    - [FormatRefs]: [excimer_log_format_collapsed] and
      [excimer_log_aggr_by_func] with the counts of the strings that they
      make, in the memory of [LogRefs].
    - [ScopeRefs]: [excimer_log_trace_to_array] and
      [excimer_log_get_speedscope_data] with the counts of their strings.
    - [Timespec]: [timerlib.h] and [timerlib_common.c]: arithmetic on [struct
      timespec], conversion from and to [double] (IEEE 754 binary64 as
      specified by [SpecFloat] of the Standard Library).
    - [Doubles]: multiplication and division of [double]s of bounded size, for
      the conversions of durations.
    - [PendingList]: the circular list of pending timers, on a memory of
      timers.
    - [Timer]: the rest of [excimer_timer.c], and [excimer_mutex.c]. The timer
      library is the class [Timerlib]. The invariant is [timer_inv].
    - [TimerlibCommon], [TimerlibPosix], [TimerlibKqueue]: the two
      implementations of [Timerlib], [timerlib_posix.c] and
      [timerlib_kqueue.c]. The system calls are parameters ([PosixEnv],
      [KqueueEnv]); the calls made and the errors reported are recorded.
    - [PosixReady]: the start of the handler thread on POSIX timers: the two
      threads and their mutex and condition variable as a step relation.
    - [PosixSignals]: the signal masks of the main thread and the handler
      threads, and signals that arrive at any moment, as a step relation.
    - [KqueueSystem]: the handler thread on kqueue, the queue of the kernel
      and the main thread that stops the timer, as a step relation.
    - [TimerSystem]: the threads of a process as a step relation: the critical
      section and the flag of the handler, interrupts, callbacks that create,
      start, stop and destroy timers, in any order.
    - [PosixSystem]: [TimerSystem] with the handler threads of
      [TimerlibPosix]: the kernel, the handlers and the main thread together.
      [KqueueTimers]: the same with the handler threads of [KqueueSystem].
    - [LogObject]: the classes [ExcimerLog] and [ExcimerLogEntry] of
      [excimer.c].
    - [ObjectRefs]: the references that the objects of [excimer.c] hold to
      each other, in a heap of counted objects with [zval_ptr_dtor] and the
      free handlers.
    - [Destructors]: the same with destructors, PHP code that runs in the
      middle of an operation that releases an object.
    - [Objects]: the classes [ExcimerProfiler] and [ExcimerTimer] of
      [excimer.c] and [excimer_set_timeout]. PHP values that are called are
      numbers; [is_callable] and [call_function] say what PHP does with them.
    - [ObjectSystem]: requests. PHP code is any program of method calls, and
      callbacks run such programs, which call the methods of all four classes,
      throw exceptions and catch them; timers elapse and interrupts come
      between the calls. The invariant is [obj_inv]; every event is a sequence
      of steps of [TimerSystem].
    - [Exceptions]: what becomes of events and samples when PHP code throws.
    - [Methods]: the tables of arguments and methods, and each method as PHP
      calls it: by name, with any values, which it parses first. [stubs/] is
      the specification of the types.
    - [Lifecycle]: the module entry: MINIT, MSHUTDOWN, RINIT, the release of
      the objects that a request leaves and the handler after it.
    - [Handlers]: how objects are allocated and how a method checks the object
      it is called on.

    ** How C is modelled

    A function that changes memory is a function from states to states and an
    [outcome]: a normal return, a fatal error of PHP, undefined behaviour or a
    loop that used up its fuel. Integers are in [Z]; conversions and unsigned
    arithmetic are reduced to the width of the C type. Additions to the 64-bit
    signed event counters wrap around, as they do on the compilers PHP
    supports. An array with its size is a list; a null pointer is [None]; a
    pointer to a timer or an object is a key of a finite map. PHP strings are
    Rocq strings, and a [HashTable] is a value of the class [ZendHash].
    Warnings are collected in the state, without the text PHP adds after a
    colon.

    Loops have fuel where they do not follow a list: loops over [prev_index]
    have one unit more than there are frames, which is enough in a well-formed
    log since the index of a caller is smaller (C38); the loop of the
    interrupt function needs one unit more than the list has timers (C20); the
    loops of a PHP program over a log have one unit more than there are
    entries (C37). The theorems say that the functions return, not only what
    they return.

    ** What is proved

    - The log: a sample is recorded and read back faithfully, up to the depth
      limit (C1, [depth_limit_bounds]); adding a sample keeps the log well
      formed on every path and reports its only error (C13); frames are shared
      ([resample_adds_no_frame], [frames_unique]), and what the key of this
      sharing leaves out ([same_line_same_frame]); all traces terminate (C38).
      With reference counts the log does the same (C27), and gives back every
      string it has taken (C23) but those of the truncation marker
      ([truncation_marker_leaks]).
    - The formatters: collapsed text (C14, C36, [collapsed_total]),
      aggregation (C18, [aggregate_sorted], [aggregate_self_total]) and
      speedscope (C19) say exactly what the entries say. Two of them lose
      strings: the collapsed format one for each stack
      ([collapsed_loses_lines]), aggregation one for each repetition of a
      function on a stack (C24); traces and the data for speedscope lose none
      (C25).
    - The timers: the linked list is a queue (C12); in every interleaving of
      the threads the data structures stay well formed (C2), no event is lost
      or counted twice (C3), no wake-up is lost (C28) and what is pending can
      be delivered (C29); an interrupt delivers everything in order (C20);
      starting a timer ([start_arms_timer]); in a thread-safe build events are
      put on the list of the wrong thread (C39).
    - The timer library: the handler thread on POSIX timers reports every
      expiration, ends when it is told to and reports nothing afterwards
      ([handler_thread_reports]); with the kernel and the PHP thread it is a
      run of [TimerSystem] (C5), in which every expiration reaches a callback
      or is still on its way (C4) and no handler is stuck (C30); it gets ready
      without a deadlock (C34), unless a wait fails ([failed_wait_blocks]); a
      timer releases what it acquired on every path (C32) and leaves the
      signals of the process alone (C33); arming and disarming
      ([posix_start_stop]); with the handler threads on kqueue it is such a
      run as well (C6), in which every expiration is accounted for (C7,
      [kqueue_system_reports], [kqueue_thread_reports]) and stopping a timer
      returns (C31, [kqueue_stop_ends]); on kqueue its remaining time and the
      interruption of its first wait ([kqueue_remaining_time],
      [kqueue_initial_interrupted]).
    - Time: conversion from floating point (C35, [from_double_invalid]),
      subtraction and addition ([timespec_subtract_exact],
      [timespec_add_exact]).
    - The objects: rotation of the log loses no sample (C11, [flush_rotates],
      [negative_limit_never_flushes]); starting a profiler
      ([profiler_start_runs]); iteration, counting and array access (C37,
      [array_access_consistent]); entries stay valid ([entry_object_stable]);
      an error path of [excimer_set_timeout] (C40).
    - References among objects: counts are right (C21), all is freed when
      there is no cycle (C26), the methods of a log do what they do without
      counts ([log_methods_erase]); the cycle that [current] makes
      ([cached_entry_leaks]), and callbacks that are replaced
      ([replaced_callback_leaks]), are not freed. Destructors that run in the
      middle of an operation do no harm (C22; logs and iterators never run
      any, [log_release_runs_no_php]), unless they change the callback that is
      being released ([reentered_release_crashes]). A method recognises the
      objects that it can work on ([check_identifies]), but does not look at
      the answer: clones ([cloned_object_crashes]) and entries without a log
      ([unconstructed_entry_crashes]) make it crash.
    - The whole: a request with arbitrary PHP code never crashes or hangs (C8)
      and is a run of the system of timers (C9); its calls return what the
      prototypes say ([calls_well_typed]) and what is documented, whatever the
      arguments (C15); and a process that serves requests leaves no timer
      behind (C10). An exception makes other timers lose events (C16) and
      profilers lose samples (C17).

    The system-level theorems C2, C3, C28, C29, and those of [ObjectSystem],
    [Methods] and [Lifecycle] are for builds of PHP without thread safety,
    where there is one PHP thread. [ObjectSystem] has timers that elapse
    between calls and events; C2 has the finer interleavings with the
    handler's critical section. A name in brackets is a theorem that supports
    the properties.

    ** Assumptions

    Calls of [ObjectSystem] and [Methods] are made on live objects, with
    durations that can be converted (the conversions of others are undefined,
    see [from_double_invalid]) and with a callable value for
    [excimer_set_timeout] (see C40). The interrupt functions of other
    extensions do not touch the timers. [php_mt_rand] returns a 32-bit number.
    In [ObjectRefs] PHP code uses an object only while it holds a reference to
    it. Calls of [ObjectSystem] and [Methods] are made on objects that
    [create_object] has made, not on clones (see [cloned_object_crashes]).

    ** What is not modelled

    Allocation, and its failure; lack of resources in [pthread] functions, and
    errors of mutexes, which abort the process; the output of [phpinfo]. In
    [TimerlibPosix] waiting for the handler thread is one step, which
    [PosixReady] justifies. The handler threads of [PosixSystem] and
    [KqueueTimers] have copies of their timer and of the state of the system
    calls. The references that [ObjectRefs] and [Destructors] count are those
    of programs of their own operations; the requests of [ObjectSystem] have
    no counts: there PHP code releases objects when it wants to, which
    includes what counting allows.

    Not modelled are also the stubs, the tests, the benchmarks and the build
    files, the stand-ins for functions that old versions of PHP lack (at the
    start of [excimer_log.c]), and builds with neither POSIX timers nor
    kqueue, which do not compile. *)

From stdpp Require Export base tactics option list numbers strings pretty gmap.
From Stdlib Require Export ZArith Lia.
From Stdlib Require Import Ascii.

Declare Scope excimer_scope.
Delimit Scope excimer_scope with exc.
#[global] Open Scope Z_scope.
#[global] Open Scope excimer_scope.
#[global] Arguments String.append !_ _ : simpl nomatch.
#[export] Set Default Goal Selector "!".

(** ** Outcomes of C code

    [Ok] is a normal return. [Fatal] is [zend_error_noreturn (E_ERROR, msg)],
    which leaves the function by [longjmp]. [Crash] is undefined behaviour the
    C code would run into: a null or dangling pointer dereference, an index
    outside an array. [Diverge] is a loop that used up its fuel. *)

Inductive outcome (A : Type) : Type :=
  | Ok (a : A)
  | Fatal (msg : string)
  | Crash (why : string)
  | Diverge.
Arguments Ok {A} a.
Arguments Fatal {A} msg.
Arguments Crash {A} why.
Arguments Diverge {A}.

Definition obind {A B : Type} (m : outcome A) (k : A -> outcome B) : outcome B :=
  match m with
  | Ok a => k a
  | Fatal msg => Fatal msg
  | Crash why => Crash why
  | Diverge => Diverge
  end.

#[export] Instance outcome_ret : MRet outcome := fun A a => Ok a.
#[export] Instance outcome_bind : MBind outcome := fun A B k m => obind m k.

Notation "'let!' x := m 'in' k" := (obind m (fun x => k))
  (at level 200, x name, m at level 100, k at level 200, right associativity) : excimer_scope.
Notation "'let!' ' x := m 'in' k" := (obind m (fun x => match x with x => k end))
  (at level 200, x strict pattern, m at level 100, k at level 200, right associativity,
   only parsing) : excimer_scope.

(** A null pointer is [None]; dereferencing it is a crash. *)
Definition deref {A : Type} (p : option A) : outcome A :=
  match p with
  | Some a => Ok a
  | None => Crash "null pointer dereference"
  end.

(** State passing with outcomes: a [Fatal] leaves behind the state that the
    function had reached, as [longjmp] does. *)
Definition M (S A : Type) : Type := S -> S * outcome A.

#[export] Instance M_ret {S} : MRet (M S) := fun A a s => (s, Ok a).
#[export] Instance M_bind {S} : MBind (M S) := fun A B k m s =>
  match m s with
  | (s', Ok a) => k a s'
  | (s', Fatal msg) => (s', Fatal msg)
  | (s', Crash why) => (s', Crash why)
  | (s', Diverge) => (s', Diverge)
  end.

Definition get_state {S} : M S S := fun s => (s, Ok s).
Definition put_state {S} (s : S) : M S unit := fun _ => (s, Ok tt).
Definition modify {S} (f : S -> S) : M S unit := fun s => (f s, Ok tt).
Definition lift {S A} (o : outcome A) : M S A := fun s => (s, o).

(** ** Machine integers

    The extension is built for 64-bit PHP: [zend_long] is [int64_t] and
    [size_t] is 64 bits wide. Values are [Z], kept in range by these
    conversions wherever the C code converts or can wrap around. *)

Definition UINT32_MAX : Z := 2 ^ 32 - 1.
Definition wrap_u32 (z : Z) : Z := z mod 2 ^ 32.
Definition wrap_u64 (z : Z) : Z := z mod 2 ^ 64.
Definition wrap_i32 (z : Z) : Z := (z + 2 ^ 31) mod 2 ^ 32 - 2 ^ 31.
Definition wrap_i64 (z : Z) : Z := (z + 2 ^ 63) mod 2 ^ 64 - 2 ^ 63.

Definition is_u32 (z : Z) : Prop := 0 <= z < 2 ^ 32.
Definition is_u64 (z : Z) : Prop := 0 <= z < 2 ^ 64.
Definition is_i32 (z : Z) : Prop := - 2 ^ 31 <= z < 2 ^ 31.
Definition is_i64 (z : Z) : Prop := - 2 ^ 63 <= z < 2 ^ 63.

(** [printf("%d", x)] and [ZEND_LONG_FMT]. *)
Definition printf_d (z : Z) : string := pretty (wrap_i32 z).
Definition printf_ld (z : Z) : string := pretty (wrap_i64 z).

(** [a[i]] for an index of a machine integer type. *)
Definition array_get {A} (l : list A) (i : Z) : option A :=
  if 0 <=? i then l !! Z.to_nat i else None.

Definition sum_Z (l : list Z) : Z := foldr Z.add 0 l.

(** How often [x] occurs in [l]. *)
Definition occurrences {A} `{EqDecision A} (x : A) (l : list A) : Z :=
  Z.of_nat (length (filter (fun y => y = x) l)).

(** [c] occurs in [s]. *)
Fixpoint str_mem (c : ascii) (s : string) : bool :=
  match s with
  | EmptyString => false
  | String c' s' => bool_decide (c' = c) || str_mem c s'
  end.

(** A character [printf] uses for a decimal integer. *)
Definition is_digit_or_dash (c : ascii) : bool :=
  let n := nat_of_ascii c in
  bool_decide (n = 45%nat) || (bool_decide (48 <= n)%nat && bool_decide (n <= 57)%nat).

Definition NUL : ascii := Ascii.zero.

(** ** Proof automation *)

Create HintDb excimer.
Create Rewrite HintDb excimer.

Ltac unfold_ints :=
  unfold is_u32, is_u64, is_i32, is_i64, wrap_u32, wrap_u64, wrap_i32,
    wrap_i64, UINT32_MAX in *.

(** Arithmetic on machine integers, including [mod] by a constant. *)
Ltac int_lia := unfold_ints; Z.to_euclidean_division_equations; lia.

(** Split a conjunction of [andb] and boolean comparisons in a hypothesis. *)
Ltac bool_hyps :=
  repeat match goal with
  | H : (_ && _)%bool = true |- _ => apply andb_prop in H as [? ?]
  | H : (_ <=? _) = true |- _ => apply Z.leb_le in H
  | H : (_ <=? _) = false |- _ => apply Z.leb_gt in H
  | H : (_ <? _) = true |- _ => apply Z.ltb_lt in H
  | H : (_ <? _) = false |- _ => apply Z.ltb_ge in H
  | H : (_ =? _) = true |- _ => apply Z.eqb_eq in H
  | H : (_ =? _) = false |- _ => apply Z.eqb_neq in H
  end.

(** Running a bind whose first part is known to succeed. *)
Lemma bind_ok {S A B} (m : M S A) (k : A -> M S B) s s' a :
  m s = (s', Ok a) -> (m ≫= k) s = k a s'.
Proof. intros Hm. unfold mbind, M_bind. by rewrite Hm. Qed.

(** ** Machine integers: lemmas *)

Lemma wrap_i64_small z : is_i64 z -> wrap_i64 z = z.
Proof. intros H. unfold wrap_i64, is_i64 in *. rewrite Z.mod_small; lia. Qed.

Lemma wrap_u64_small z : is_u64 z -> wrap_u64 z = z.
Proof. intros H. unfold wrap_u64, is_u64 in *. by rewrite Z.mod_small. Qed.

Lemma wrap_u32_small z : is_u32 z -> wrap_u32 z = z.
Proof. intros H. unfold wrap_u32, is_u32 in *. by rewrite Z.mod_small. Qed.

Lemma wrap_i64_range z : is_i64 (wrap_i64 z).
Proof. unfold wrap_i64, is_i64. pose proof (Z.mod_pos_bound (z + 2 ^ 63) (2 ^ 64)). lia. Qed.

Lemma wrap_u64_range z : is_u64 (wrap_u64 z).
Proof. unfold wrap_u64, is_u64. apply Z.mod_pos_bound. lia. Qed.

(** Wrapping only depends on the residue, so it can be postponed to the end of
    a computation. *)
Lemma wrap_i64_congr a b : a mod 2 ^ 64 = b mod 2 ^ 64 -> wrap_i64 a = wrap_i64 b.
Proof.
  intros H. unfold wrap_i64. f_equal.
  by rewrite <-(Zplus_mod_idemp_l a), H, Zplus_mod_idemp_l.
Qed.

Lemma wrap_i64_mod z : wrap_i64 z mod 2 ^ 64 = z mod 2 ^ 64.
Proof.
  unfold wrap_i64. rewrite Zminus_mod_idemp_l. f_equal. lia.
Qed.

Lemma wrap_u64_mod z : wrap_u64 z mod 2 ^ 64 = z mod 2 ^ 64.
Proof. unfold wrap_u64. by rewrite Z.mod_mod. Qed.

Lemma wrap_i64_add_l a b : wrap_i64 (wrap_i64 a + b) = wrap_i64 (a + b).
Proof.
  apply wrap_i64_congr. by rewrite <-Zplus_mod_idemp_l, wrap_i64_mod, Zplus_mod_idemp_l.
Qed.

Lemma wrap_i64_add_r a b : wrap_i64 (a + wrap_i64 b) = wrap_i64 (a + b).
Proof. rewrite Z.add_comm, wrap_i64_add_l. f_equal. lia. Qed.

Lemma wrap_i64_idemp a : wrap_i64 (wrap_i64 a) = wrap_i64 a.
Proof. apply wrap_i64_congr, wrap_i64_mod. Qed.

#[export] Hint Rewrite wrap_i64_add_l wrap_i64_add_r wrap_i64_idemp : excimer.

(** [printf("%d")] of a [uint32_t] prints a negative number from 2^31 on, but
    it still prints distinct numbers differently. *)
Lemma printf_d_inj a b : is_u32 a -> is_u32 b -> printf_d a = printf_d b -> a = b.
Proof.
  intros Ha Hb H. unfold printf_d in H. apply (inj pretty) in H. int_lia.
Qed.

(** ** Strings: lemmas *)

Lemma str_mem_app c s t : str_mem c (s +:+ t) = str_mem c s || str_mem c t.
Proof. induction s as [|a s IH]; simpl; [done|]. by rewrite IH, orb_assoc. Qed.

Lemma str_app_assoc (s t u : string) : (s +:+ t) +:+ u = s +:+ (t +:+ u).
Proof. induction s as [|a s IH]; simpl; [done|]. f_equal. apply IH. Qed.

Lemma str_app_nil_r (s : string) : s +:+ "" = s.
Proof. induction s as [|a s IH]; simpl; [done|]. f_equal. apply IH. Qed.

(** A string splits in only one way at the last occurrence of [c]. *)
Lemma str_split_last c s1 s2 t1 t2 :
  str_mem c t1 = false -> str_mem c t2 = false ->
  s1 +:+ String c t1 = s2 +:+ String c t2 -> s1 = s2 /\ t1 = t2.
Proof.
  intros H1 H2. revert s2.
  assert (Hin : forall s t, str_mem c (s +:+ String c t) = true).
  { intros s t. rewrite str_mem_app. simpl. by rewrite bool_decide_true, orb_true_r. }
  induction s1 as [|a s1 IH]; intros [|b s2]; simpl; intros [=].
  - done.
  - subst t1. by rewrite Hin in H1.
  - subst t2. by rewrite Hin in H2.
  - destruct (IH s2) as [-> ->]; [done|]. by subst.
Qed.

(** ... and in only one way at the first occurrence. *)
Lemma str_split_first c s1 s2 t1 t2 :
  str_mem c s1 = false -> str_mem c s2 = false ->
  s1 +:+ String c t1 = s2 +:+ String c t2 -> s1 = s2 /\ t1 = t2.
Proof.
  revert s2. induction s1 as [|a s1 IH]; intros [|b s2]; simpl.
  - by intros _ _ [= ->].
  - intros _ [Hb _]%orb_false_elim [= -> _]. by rewrite bool_decide_true in Hb.
  - intros [Ha _]%orb_false_elim _ [= -> _]. by rewrite bool_decide_true in Ha.
  - intros [_ H1]%orb_false_elim [_ H2]%orb_false_elim [= -> Heq].
    by destruct (IH s2 H1 H2 Heq) as [-> ->].
Qed.

Lemma pretty_N_go_mem c x s :
  is_digit_or_dash c = false -> str_mem c s = false ->
  str_mem c (pretty_N_go x s) = false.
Proof.
  intros Hc. revert s. induction (N.lt_wf_0 x) as [x _ IH]; intros s Hs.
  assert (x = 0 ∨ 0 < x)%N as [->|?] by lia; [by rewrite pretty_N_go_0|].
  rewrite pretty_N_go_step by done. apply IH; [by apply N.div_lt|].
  simpl. rewrite Hs, orb_false_r. apply bool_decide_eq_false_2. intros <-.
  revert Hc. unfold pretty_N_char. repeat case_match; by vm_compute.
Qed.

(** Decimal numbers hold nothing but digits and a sign. *)
Lemma pretty_Z_mem c (z : Z) : is_digit_or_dash c = false -> str_mem c (pretty z) = false.
Proof.
  intros Hc.
  assert (Hgo : forall n, str_mem c (pretty (A:=N) n) = false).
  { intros n. unfold pretty, pretty_N. case_decide.
    - simpl. rewrite orb_false_r. apply bool_decide_eq_false_2.
      intros <-. by vm_compute in Hc.
    - by apply pretty_N_go_mem. }
  destruct z; simpl.
  - apply (Hgo 0%N).
  - apply (Hgo (N.pos p)).
  - change (bool_decide ("-"%char = c) || str_mem c (pretty (N.pos p)) = false).
    rewrite Hgo, orb_false_r. apply bool_decide_eq_false_2. intros <-. by vm_compute in Hc.
Qed.

Lemma printf_d_no_nul z : str_mem NUL (printf_d z) = false.
Proof. by apply pretty_Z_mem. Qed.

(** ** Lists and sums: lemmas *)

Lemma sum_Z_app l1 l2 : sum_Z (l1 ++ l2) = sum_Z l1 + sum_Z l2.
Proof. unfold sum_Z. induction l1 as [|x l1 IH]; simpl; lia. Qed.

Lemma sum_Z_cons x l : sum_Z (x :: l) = x + sum_Z l.
Proof. done. Qed.

#[export] Hint Rewrite sum_Z_app sum_Z_cons : excimer.

Lemma array_get_lookup {A} (l : list A) (i : nat) : array_get l (Z.of_nat i) = l !! i.
Proof. unfold array_get. rewrite (proj2 (Z.leb_le _ _)) by lia. by rewrite Nat2Z.id. Qed.

Lemma array_get_Some {A} (l : list A) i x :
  array_get l i = Some x -> 0 <= i < Z.of_nat (length l) /\ l !! Z.to_nat i = Some x.
Proof.
  unfold array_get. case_match; bool_hyps; [|done].
  intros Hl. pose proof (lookup_lt_Some _ _ _ Hl). split; [lia|done].
Qed.

Lemma array_get_is_Some {A} (l : list A) i :
  0 <= i < Z.of_nat (length l) -> exists x, array_get l i = Some x.
Proof.
  intros Hi. unfold array_get. rewrite (proj2 (Z.leb_le _ _)) by lia.
  apply lookup_lt_is_Some_2. lia.
Qed.

Lemma array_get_app_l {A} (l1 l2 : list A) i x :
  array_get l1 i = Some x -> array_get (l1 ++ l2) i = Some x.
Proof.
  intros H. pose proof (array_get_Some _ _ _ H) as [Hi Hl].
  unfold array_get. rewrite (proj2 (Z.leb_le _ _)) by lia.
  by apply lookup_app_l_Some.
Qed.

#[export] Hint Resolve array_get_app_l wrap_i64_range wrap_u64_range : excimer.

(** ** Counting occurrences: lemmas *)

Section occurrences.
  Context {A : Type} `{EqDecision A}.
  Implicit Types (r : A) (l : list A).

Lemma occurrences_app r l1 l2 : occurrences r (l1 ++ l2) = occurrences r l1 + occurrences r l2.
Proof. unfold occurrences. rewrite filter_app, length_app. lia. Qed.

Lemma occurrences_cons r r' l :
  occurrences r (r' :: l) = (if decide (r' = r) then 1 else 0) + occurrences r l.
Proof. unfold occurrences. rewrite filter_cons. case_decide; simpl; lia. Qed.

Lemma occurrences_nonneg r l : 0 <= occurrences r l.
Proof. unfold occurrences. lia. Qed.

Lemma occurrences_perm r l1 l2 : l1 ≡ₚ l2 -> occurrences r l1 = occurrences r l2.
Proof. intros Hp. unfold occurrences. by rewrite Hp. Qed.

#[export] Instance occurrences_proper r : Proper ((≡ₚ) ==> (=)) (occurrences r).
Proof. intros l1 l2. apply occurrences_perm. Qed.

Lemma occurrences_notin r l : r ∉ l -> occurrences r l = 0.
Proof.
  intros Hn. induction l as [|r' l IH]; [done|].
  rewrite occurrences_cons, decide_False, IH by set_solver. done.
Qed.

Lemma occurrences_in r l : occurrences r l = 0 -> r ∉ l.
Proof.
  intros Hz Hin. assert (Hf : r ∈ filter (fun y => y = r) l) by by apply list_elem_of_filter.
  unfold occurrences in Hz. destruct (filter _ l); [by apply elem_of_nil in Hf|simpl in Hz; lia].
Qed.

(** Lists with the same occurrences are permutations of each other. *)
Lemma perm_occurrences l1 l2 : (forall r, occurrences r l1 = occurrences r l2) -> l1 ≡ₚ l2.
Proof.
  intros Hc. apply (Permutation_count_occ (fun x y => decide (x = y))). intros r.
  assert (Hf : forall l, Z.of_nat (count_occ (fun x y => decide (x = y)) l r) = occurrences r l).
  { induction l as [|x l IH]; [done|]. rewrite occurrences_cons. simpl. destruct (decide (x = r)); lia. }
  apply Nat2Z.inj. by rewrite !Hf.
Qed.

End occurrences.

(** Permutations of lists that are appended from the same parts. *)
Ltac perm_app :=
  apply perm_occurrences; let r := fresh "r" in intros r;
  rewrite ?occurrences_app, ?occurrences_cons, ?occurrences_app, ?occurrences_cons; lia.
