(* ===== verification/ZendHash.v ===== *)
(** * The interface of Zend's [HashTable]

    The extension keeps its tables in Zend's [HashTable], which is not part of
    the repository. [ZendHash] lists the operations the sources call, and
    [ZendHashLaws] their documented behaviour: a [HashTable] is an ordered
    dictionary that enumerates its buckets in insertion order. The model of the
    log is written against this interface; [alist_hash] is the plainest
    implementation of it and serves to evaluate the model on concrete input. *)

From S2P Require Import Prelude.
From Stdlib Require Import Sorting.Sorted.

(** ** Association lists: the abstract view of a table *)

Fixpoint alist_get {K V} `{EqDecision K} (k : K) (l : list (K * V)) : option V :=
  match l with
  | [] => None
  | (k', v) :: l' => if decide (k = k') then Some v else alist_get k l'
  end.

Fixpoint alist_set {K V} `{EqDecision K} (k : K) (v : V) (l : list (K * V)) : list (K * V) :=
  match l with
  | [] => []
  | (k', v') :: l' => if decide (k = k') then (k', v) :: l' else (k', v') :: alist_set k v l'
  end.

Definition alist_add {K V} `{EqDecision K} (k : K) (v : V) (l : list (K * V)) : list (K * V) :=
  match alist_get k l with
  | Some _ => l
  | None => l ++ [(k, v)]
  end.

(** Insertion sort by a C comparison function; stable. *)
Fixpoint sort_insert {A} (cmp : A -> A -> Z) (x : A) (l : list A) : list A :=
  match l with
  | [] => [x]
  | y :: l' => if cmp x y <=? 0 then x :: y :: l' else y :: sort_insert cmp x l'
  end.

Definition sort_by {A} (cmp : A -> A -> Z) (l : list A) : list A :=
  foldr (sort_insert cmp) [] l.

(** ** Operations *)

(** [zh_elems] is the sequence of buckets that [ZEND_HASH_FOREACH] visits.
    [zend_hash_find] returns a pointer to the stored value; a store through
    that pointer ([Z_LVAL_P(zp) += ...]) is [zend_hash_write]. *)
Class ZendHash (HT : Type -> Type -> Type) : Type := {
  zh_elems : forall {K V}, HT K V -> list (K * V);
  zend_new_array : forall {K V}, HT K V;
  zend_hash_find : forall {K V} `{EqDecision K}, K -> HT K V -> option V;
  zend_hash_add : forall {K V} `{EqDecision K}, K -> V -> HT K V -> HT K V;
  zend_hash_write : forall {K V} `{EqDecision K}, K -> V -> HT K V -> HT K V;
  zend_hash_sort : forall {K V}, ((K * V) -> (K * V) -> Z) -> HT K V -> HT K V
}.

#[global] Hint Mode ZendHash ! : typeclass_instances.

(** A comparison function orders the buckets [l]: it is total and transitive
    on them. [zend_hash_sort] promises nothing otherwise. *)
Definition cmp_orders {A} (cmp : A -> A -> Z) (l : list A) : Prop :=
  (forall x y, x ∈ l -> y ∈ l -> cmp x y <= 0 \/ cmp y x <= 0) /\
  (forall x y z, x ∈ l -> y ∈ l -> z ∈ l -> cmp x y <= 0 -> cmp y z <= 0 -> cmp x z <= 0).

Class ZendHashLaws (HT : Type -> Type -> Type) `{ZendHash HT} : Prop := {
  zh_elems_new : forall {K V}, zh_elems (zend_new_array : HT K V) = [];
  zend_hash_find_spec : forall {K V} `{EqDecision K} (k : K) (h : HT K V),
    zend_hash_find k h = alist_get k (zh_elems h);
  zend_hash_add_spec : forall {K V} `{EqDecision K} (k : K) (v : V) (h : HT K V),
    zh_elems (zend_hash_add k v h) = alist_add k v (zh_elems h);
  zend_hash_write_spec : forall {K V} `{EqDecision K} (k : K) (v : V) (h : HT K V),
    zh_elems (zend_hash_write k v h) = alist_set k v (zh_elems h);
  zend_hash_sort_perm : forall {K V} cmp (h : HT K V),
    zh_elems (zend_hash_sort cmp h) ≡ₚ zh_elems h;
  zend_hash_sort_sorted : forall {K V} cmp (h : HT K V),
    cmp_orders cmp (zh_elems h) ->
    StronglySorted (fun x y => cmp x y <= 0) (zh_elems (zend_hash_sort cmp h))
}.

(** ** The plain implementation: a list of buckets *)

Definition alist (K V : Type) : Type := list (K * V).

#[export] Instance alist_hash : ZendHash alist := {
  zh_elems K V h := h;
  zend_new_array K V := [];
  zend_hash_find K V _ k h := alist_get k h;
  zend_hash_add K V _ k v h := alist_add k v h;
  zend_hash_write K V _ k v h := alist_set k v h;
  zend_hash_sort K V cmp h := sort_by cmp h
}.

(** ** Association lists: lemmas *)

Section alist.
  Context {K V : Type} `{EqDecision K}.
  Implicit Types (k : K) (v : V) (l : list (K * V)).

Lemma alist_get_None k l : alist_get k l = None <-> k ∉ l.*1.
Proof.
  induction l as [|[k' v'] l IH]; csimpl; [set_solver|].
  case_decide; subst; set_solver.
Qed.

Lemma alist_get_elem k v l : alist_get k l = Some v -> (k, v) ∈ l.
Proof.
  induction l as [|[k' v'] l IH]; simpl; [done|].
  case_decide; intros; simplify_eq; set_solver.
Qed.

Lemma alist_elem_get k v l : NoDup l.*1 -> (k, v) ∈ l -> alist_get k l = Some v.
Proof.
  induction l as [|[k' v'] l IH]; csimpl; [set_solver|].
  intros [Hk Hl]%NoDup_cons [|Hin]%elem_of_cons; simplify_eq.
  - by rewrite decide_True.
  - rewrite decide_False; [by apply IH|]. intros ->.
    apply Hk, list_elem_of_fmap. by exists (k', v).
Qed.

Lemma alist_get_app k l1 l2 :
  alist_get k (l1 ++ l2) = match alist_get k l1 with Some v => Some v | None => alist_get k l2 end.
Proof. induction l1 as [|[k' v'] l1 IH]; simpl; [done|]. by case_decide. Qed.

Lemma alist_get_add k v l :
  alist_get k (alist_add k v l) =
    match alist_get k l with Some v' => Some v' | None => Some v end.
Proof.
  unfold alist_add. destruct (alist_get k l) eqn:E; [done|].
  rewrite alist_get_app, E. simpl. by rewrite decide_True.
Qed.

Lemma alist_get_add_ne k k' v l : k <> k' -> alist_get k (alist_add k' v l) = alist_get k l.
Proof.
  intros Hne. unfold alist_add. destruct (alist_get k' l); [done|].
  rewrite alist_get_app. simpl. rewrite decide_False by done. by destruct (alist_get k l).
Qed.

Lemma alist_get_set k v l :
  alist_get k (alist_set k v l) = match alist_get k l with Some _ => Some v | None => None end.
Proof.
  induction l as [|[k' v'] l IH]; simpl; [done|]. case_decide; subst; simpl.
  - by rewrite decide_True.
  - by rewrite decide_False.
Qed.

Lemma alist_get_set_ne k k' v l : k <> k' -> alist_get k (alist_set k' v l) = alist_get k l.
Proof.
  intros Hne. induction l as [|[k'' v''] l IH]; simpl; [done|].
  case_decide; subst; simpl; repeat case_decide; congruence.
Qed.

Lemma alist_set_keys k v l : (alist_set k v l).*1 = l.*1.
Proof. induction l as [|[k' v'] l IH]; csimpl; [done|]. case_decide; csimpl; congruence. Qed.

Lemma alist_add_keys k v l :
  (alist_add k v l).*1 = if decide (k ∈ l.*1) then l.*1 else l.*1 ++ [k].
Proof.
  unfold alist_add. destruct (alist_get k l) eqn:E.
  - rewrite decide_True; [done|]. apply alist_get_elem in E.
    apply list_elem_of_fmap. by exists (k, v0).
  - apply alist_get_None in E. rewrite decide_False by done. by rewrite fmap_app.
Qed.

Lemma alist_add_nodup k v l : NoDup l.*1 -> NoDup (alist_add k v l).*1.
Proof.
  intros Hl. rewrite alist_add_keys. case_decide; [done|].
  apply NoDup_app. split_and!; [done|set_solver|apply NoDup_singleton].
Qed.

Lemma alist_set_nodup k v l : NoDup l.*1 -> NoDup (alist_set k v l).*1.
Proof. by rewrite alist_set_keys. Qed.

End alist.

#[export] Hint Resolve alist_add_nodup alist_set_nodup : excimer.

(** ** Insertion sort *)

Section sorting.
  Context {A : Type} (cmp : A -> A -> Z).

Lemma sort_insert_perm x l : sort_insert cmp x l ≡ₚ x :: l.
Proof.
  induction l as [|y l IH]; simpl; [done|]. case_match; [done|].
  rewrite IH. apply perm_swap.
Qed.

Lemma sort_by_perm l : sort_by cmp l ≡ₚ l.
Proof.
  induction l as [|x l IH]; simpl; [done|]. by rewrite sort_insert_perm, IH.
Qed.

Lemma sort_insert_sorted x l :
  cmp_orders cmp (x :: l) ->
  StronglySorted (fun x y => cmp x y <= 0) l ->
  StronglySorted (fun x y => cmp x y <= 0) (sort_insert cmp x l).
Proof.
  intros [Htot Htrans]. induction l as [|y l IH]; simpl; intros Hl.
  { repeat constructor. }
  apply StronglySorted_inv in Hl as [Hl Hy]. rewrite Forall_forall in Hy.
  assert (Hsub : forall z, z ∈ x :: l -> z ∈ x :: y :: l) by set_solver.
  case_match; bool_hyps.
  - constructor; [constructor; [done|by apply Forall_forall]|].
    constructor; [done|]. apply Forall_forall. intros z Hz.
    apply (Htrans x y z); [set_solver..|done|auto].
  - assert (Hyx : cmp y x <= 0).
    { destruct (Htot x y); [set_solver..|lia|done]. }
    constructor.
    + apply IH; [auto|eauto|done].
    + apply Forall_forall. intros z. rewrite sort_insert_perm.
      intros [->|Hz]%elem_of_cons; auto.
Qed.

Lemma sort_by_sorted l :
  cmp_orders cmp l -> StronglySorted (fun x y => cmp x y <= 0) (sort_by cmp l).
Proof.
  induction l as [|x l IH]; simpl; intros [Htot Htrans]; [constructor|].
  assert (Hsub : forall z, z ∈ l -> z ∈ x :: l) by set_solver.
  apply sort_insert_sorted; [|apply IH; split; eauto].
  split; intros *; rewrite sort_by_perm; eauto.
Qed.

End sorting.

#[export] Instance alist_hash_laws : ZendHashLaws alist.
Proof.
  split; try done.
  - intros. apply sort_by_perm.
  - intros. by apply sort_by_sorted.
Qed.

(** ** Lookup after an update *)

Section find.
  Context {HT : Type -> Type -> Type} `{ZendHashLaws HT} {K V : Type} `{EqDecision K}.
  Implicit Types (k : K) (v : V) (h : HT K V).

Lemma hash_find_new k : zend_hash_find k (zend_new_array : HT K V) = None.
Proof. by rewrite zend_hash_find_spec, zh_elems_new. Qed.

Lemma hash_find_add k k' v h :
  zend_hash_find k (zend_hash_add k' v h) =
    if decide (k = k') then Some (default v (zend_hash_find k h)) else zend_hash_find k h.
Proof.
  rewrite !zend_hash_find_spec, zend_hash_add_spec. case_decide as Hk; subst.
  - rewrite alist_get_add. by destruct (alist_get k' (zh_elems h)).
  - by rewrite alist_get_add_ne.
Qed.

Lemma hash_find_write k k' v h :
  zend_hash_find k (zend_hash_write k' v h) =
    if decide (k = k') then (fun _ => v) <$> zend_hash_find k h else zend_hash_find k h.
Proof.
  rewrite !zend_hash_find_spec, zend_hash_write_spec. case_decide as Hk; subst.
  - rewrite alist_get_set. by destruct (alist_get k' (zh_elems h)).
  - by rewrite alist_get_set_ne.
Qed.

Lemma hash_add_nodup k v h : NoDup (zh_elems h).*1 -> NoDup (zh_elems (zend_hash_add k v h)).*1.
Proof. rewrite zend_hash_add_spec. apply alist_add_nodup. Qed.

Lemma hash_write_nodup k v h : NoDup (zh_elems h).*1 -> NoDup (zh_elems (zend_hash_write k v h)).*1.
Proof. rewrite zend_hash_write_spec. apply alist_set_nodup. Qed.

Lemma hash_sort_nodup cmp h : NoDup (zh_elems h).*1 -> NoDup (zh_elems (zend_hash_sort cmp h)).*1.
Proof. intros Hn. by rewrite (zend_hash_sort_perm cmp h). Qed.

Lemma hash_find_elem k v h :
  NoDup (zh_elems h).*1 -> zend_hash_find k h = Some v <-> (k, v) ∈ zh_elems h.
Proof.
  intros Hn. rewrite zend_hash_find_spec.
  split; [apply alist_get_elem|by apply alist_elem_get].
Qed.

Lemma hash_find_sort cmp k h :
  NoDup (zh_elems h).*1 -> zend_hash_find k (zend_hash_sort cmp h) = zend_hash_find k h.
Proof.
  intros Hn. apply option_eq. intros v. rewrite !hash_find_elem by auto using hash_sort_nodup.
  by rewrite (zend_hash_sort_perm cmp h).
Qed.

End find.
