(* ===== verification/Log.v ===== *)
(** * The sample log: data, recording of samples, accessors

    Models [excimer_log.h] and the core of [excimer_log.c]: the [frames] array
    with its reverse lookup table, the [entries] array, and the recursive
    [excimer_log_find_or_add_frame] that turns a VM stack into a chain of
    deduplicated frames linked by [prev_index].

    An array with its size field is a list. A VM stack, i.e. an
    [execute_data] pointer with its [prev_execute_data] chain, is the list of
    its frames, innermost call first; the null pointer is the empty list.
    [zend_string]s are values; [LogRefs] has their reference counts. *)

From S2P Require Import Prelude ZendHash.

(** ** Data *)

Record excimer_log_frame : Type := Frame {
  filename : option string;
  lineno : Z;
  closure_line : Z;
  class_name : option string;
  function_name : option string;
  prev_index : Z
}.

Record excimer_log_entry : Type := Entry {
  frame_index : Z;
  entry_event_count : Z;
  timestamp : Z
}.

#[export] Instance excimer_log_frame_eq_dec : EqDecision excimer_log_frame.
Proof. solve_decision. Defined.
#[export] Instance excimer_log_entry_eq_dec : EqDecision excimer_log_entry.
Proof. solve_decision. Defined.

Record excimer_log {HT : Type -> Type -> Type} : Type := Log {
  entries : list excimer_log_entry;
  frames : list excimer_log_frame;
  reverse_frames : HT string Z;
  max_depth : Z;
  epoch : Z;
  period : Z;
  log_event_count : Z
}.
Arguments excimer_log HT : clear implicits.

(** What the log reads of a function: [op_array.filename],
    [common.scope->name], [common.function_name], [op_array.line_start], and
    the values of the tests [ZEND_USER_CODE(common.type)] and
    [op_array.fn_flags & ZEND_ACC_CLOSURE]. *)
Record zend_function : Type := ZFunction {
  fn_user_code : bool;
  fn_filename : string;
  fn_scope_name : option string;
  fn_name : option string;
  fn_closure : bool;
  fn_line_start : Z
}.

(** A frame of the VM stack: [func] and [opline->lineno]. *)
Record zend_execute_data : Type := ExecData {
  ed_func : option zend_function;
  ed_lineno : Z
}.

(** Contents of the string constants of [excimer_log.c]. *)
Definition excimer_log_truncated_name : string := "excimer_truncated".
Definition excimer_log_fake_filename : string := "excimer fake file".

(** [ecalloc(1, sizeof(excimer_log_frame))]. *)
Definition zero_frame : excimer_log_frame :=
  Frame None 0 0 None None 0.

Definition excimer_safe_uint32 (i : Z) : outcome Z :=
  if (i <? 0) || (i >? UINT32_MAX) then Fatal "Integer out of range" else Ok i.

Section log.
  Context {HT : Type -> Type -> Type} `{ZendHash HT}.
  Implicit Types (log : excimer_log HT).

(** ** Sizes *)

Definition entries_size log : Z := Z.of_nat (length (entries log)).
Definition frames_size log : Z := Z.of_nat (length (frames log)).

(** ** Field updates *)

Definition set_entries (es : list excimer_log_entry) log : excimer_log HT :=
  Log HT es (frames log) (reverse_frames log) (max_depth log) (epoch log) (period log)
    (log_event_count log).

Definition set_max_depth (d : Z) log : excimer_log HT :=
  Log HT (entries log) (frames log) (reverse_frames log) d (epoch log) (period log)
    (log_event_count log).

Definition set_event_count (n : Z) log : excimer_log HT :=
  Log HT (entries log) (frames log) (reverse_frames log) (max_depth log) (epoch log)
    (period log) n.

Definition set_epoch (t : Z) log : excimer_log HT :=
  Log HT (entries log) (frames log) (reverse_frames log) (max_depth log) t (period log)
    (log_event_count log).

Definition set_period (p : Z) log : excimer_log HT :=
  Log HT (entries log) (frames log) (reverse_frames log) (max_depth log) (epoch log) p
    (log_event_count log).

(** [zend_hash_add(reverse_frames, key, frames_size)] followed by writing
    [frame] at the end of the reallocated [frames] array. *)
Definition push_frame (key : string) (frame : excimer_log_frame) log : excimer_log HT :=
  Log HT (entries log) (frames log ++ [frame])
    (zend_hash_add key (frames_size log) (reverse_frames log))
    (max_depth log) (epoch log) (period log) (log_event_count log).

(** ** Operations *)

(** [excimer_log_init] leaves [max_depth] and [period] as they were. *)
Definition excimer_log_init log : excimer_log HT :=
  Log HT [] [zero_frame] zend_new_array (max_depth log) 0 (period log) 0.

Definition excimer_log_set_max_depth (depth : Z) log : excimer_log HT :=
  set_max_depth depth log.

Definition excimer_log_copy_options (dest src : excimer_log HT) : excimer_log HT :=
  set_period (period src) (set_epoch (epoch src) (set_max_depth (max_depth src) dest)).

Definition truncation_frame : excimer_log_frame :=
  Frame (Some excimer_log_fake_filename) 1 0 None (Some excimer_log_truncated_name) 0.

(** Look [key] up in [reverse_frames]; if it is not there, enter it with a new
    frame at the end of [frames]. Both functions that add frames do this. *)
Definition find_or_push (key : string) (frame : excimer_log_frame) : M (excimer_log HT) Z :=
  log ← get_state;
  match zend_hash_find key (reverse_frames log) with
  | Some index => lift (excimer_safe_uint32 index)
  | None =>
      let new_index := frames_size log in
      _ ← modify (push_frame key frame);
      lift (excimer_safe_uint32 new_index)
  end.

Definition excimer_log_get_truncation_marker : M (excimer_log HT) Z :=
  find_or_push excimer_log_truncated_name truncation_frame.

(** The key of [reverse_frames]: file name, line and caller, NUL-separated. *)
Definition frame_key (fname : string) (line prev : Z) : string :=
  fname +:+ String NUL (printf_d line) +:+ String NUL (printf_d prev).

Definition make_frame (func : zend_function) (line prev : Z) : excimer_log_frame :=
  Frame (Some (fn_filename func)) line
    (if fn_closure func then fn_line_start func else 0)
    (fn_scope_name func) (fn_name func) prev.

(** The part of [excimer_log_find_or_add_frame] after [prev_index] is known. *)
Definition add_frame (ed : zend_execute_data) (prev_idx : Z) : M (excimer_log HT) Z :=
  match ed_func ed with
  | None => mret prev_idx
  | Some func =>
      if fn_user_code func then
        let frame := make_frame func (ed_lineno ed) prev_idx in
        let str_key := frame_key (fn_filename func) (lineno frame) (prev_index frame) in
        find_or_push str_key frame
      else mret prev_idx
  end.

Fixpoint excimer_log_find_or_add_frame (execute_data : list zend_execute_data)
    (depth : Z) : M (excimer_log HT) Z :=
  match execute_data with
  | [] => mret 0
  | ed :: prev_execute_data =>
      prev_idx ←
        match prev_execute_data with
        | [] => mret 0
        | _ =>
            log ← get_state;
            if negb (max_depth log =? 0) && (max_depth log <=? depth)
            then excimer_log_get_truncation_marker
            else excimer_log_find_or_add_frame prev_execute_data (depth + 1)
        end;
      add_frame ed prev_idx
  end.

Definition excimer_log_add (execute_data : list zend_execute_data)
    (event_count now : Z) : M (excimer_log HT) unit :=
  index ← excimer_log_find_or_add_frame execute_data 0;
  modify (fun log =>
    set_event_count (wrap_i64 (log_event_count log + event_count))
      (set_entries (entries log ++ [Entry index event_count now]) log)).

Definition excimer_log_get_size log : Z := wrap_i64 (entries_size log).

(** The second comparison is unsigned: [i] is converted to [size_t]. *)
Definition excimer_log_get_entry log (i : Z) : option excimer_log_entry :=
  if (0 <=? i) && (wrap_u64 i <? entries_size log) then array_get (entries log) i else None.

Definition excimer_log_get_frame log (i : Z) : option excimer_log_frame :=
  if (0 <? i) && (wrap_u64 i <? frames_size log) then array_get (frames log) i else None.

(** ** Specification *)

(** The frames on the way from frame [index] to the outermost caller. *)
Fixpoint chain_fuel (n : nat) (fs : list excimer_log_frame) (index : Z) : list excimer_log_frame :=
  match n with
  | O => []
  | S n' =>
      if index =? 0 then []
      else match array_get fs index with
           | Some f => f :: chain_fuel n' fs (prev_index f)
           | None => []
           end
  end.

Definition chain (fs : list excimer_log_frame) (index : Z) : list excimer_log_frame :=
  chain_fuel (Z.to_nat index) fs index.

(** Callers come before callees in the [frames] array. *)
Definition frames_ok (fs : list excimer_log_frame) : Prop :=
  forall i f, fs !! i = Some f -> (0 < i)%nat -> 0 <= prev_index f < Z.of_nat i.

(** [k] is the key under which [f] was entered in [reverse_frames]. *)
Definition key_of (f : excimer_log_frame) (k : string) : Prop :=
  (exists fname, filename f = Some fname /\ k = frame_key fname (lineno f) (prev_index f))
  \/ (k = excimer_log_truncated_name /\ f = truncation_frame).

Record log_wf log : Prop := LogWf {
  wf_zero : frames log !! 0%nat = Some zero_frame;
  wf_frames : frames_ok (frames log);
  wf_lineno : Forall (fun f => is_u32 (lineno f)) (frames log);
  wf_size : frames_size log <= 2 ^ 32;
  wf_lookup_sound : forall k i, zend_hash_find k (reverse_frames log) = Some i ->
    0 < i /\ exists f, array_get (frames log) i = Some f /\ key_of f k;
  wf_lookup_complete : forall i f, 0 < i -> array_get (frames log) i = Some f ->
    exists k, key_of f k /\ zend_hash_find k (reverse_frames log) = Some i;
  wf_entries : Forall (fun e => 0 <= frame_index e < frames_size log) (entries log);
  wf_event_count : log_event_count log = wrap_i64 (sum_Z (entry_event_count <$> entries log))
}.

(** [log2] only has more frames than [log1]; what [reverse_frames] knew, it
    still knows. *)
Record log_ext log1 log2 : Prop := LogExt {
  ext_frames : exists fs, frames log2 = frames log1 ++ fs;
  ext_lookup : forall k i, zend_hash_find k (reverse_frames log1) = Some i ->
    zend_hash_find k (reverse_frames log2) = Some i;
  ext_entries : entries log2 = entries log1;
  ext_max_depth : max_depth log2 = max_depth log1;
  ext_epoch : epoch log2 = epoch log1;
  ext_period : period log2 = period log1;
  ext_event_count : log_event_count log2 = log_event_count log1
}.

(** What a sample of a VM stack has to record: the user-code frames, innermost
    first, as file name and line. *)
Definition location : Type := option string * Z.

Definition frame_location (f : excimer_log_frame) : location := (filename f, lineno f).

Definition exec_locations (ed : zend_execute_data) : list location :=
  match ed_func ed with
  | Some func => if fn_user_code func then [(Some (fn_filename func), ed_lineno ed)] else []
  | None => []
  end.

Definition truncation_location : location := (Some excimer_log_fake_filename, 1).

(** The number of VM frames a sample looks at: all of them when the limit is
    zero, and otherwise one more than the limit. *)
Definition depth_limit (limit : Z) (stack : list zend_execute_data) : nat :=
  if limit =? 0 then length stack else S (Z.to_nat limit).

Definition sample_locations (limit : Z) (stack : list zend_execute_data) : list location :=
  (take (depth_limit limit stack) stack ≫= exec_locations)
  ++ (if (depth_limit limit stack <? length stack)%nat then [truncation_location] else []).

(** The same, counted from [depth] on, in the recursive form of the code. *)
Fixpoint locations_from (limit depth : Z) (stack : list zend_execute_data) : list location :=
  match stack with
  | [] => []
  | ed :: prev =>
      exec_locations ed ++
      match prev with
      | [] => []
      | _ =>
          if negb (limit =? 0) && (limit <=? depth) then [truncation_location]
          else locations_from limit (depth + 1) prev
      end
  end.

(** The function that runs at a source location: closure line, class, name. *)
Definition function_info : Type := Z * option string * option string.
Definition frame_function (f : excimer_log_frame) : function_info :=
  (closure_line f, class_name f, function_name f).
Definition exec_function (func : zend_function) : function_info :=
  (if fn_closure func then fn_line_start func else 0, fn_scope_name func, fn_name func).

(** [loc] tells which function every source location belongs to. *)
Definition log_coherent (loc : location -> function_info) log : Prop :=
  forall i f, 0 < i -> array_get (frames log) i = Some f ->
    frame_function f = loc (frame_location f).

Definition stack_coherent (loc : location -> function_info) (stack : list zend_execute_data) : Prop :=
  loc truncation_location = frame_function truncation_frame /\
  forall ed func, ed ∈ stack -> ed_func ed = Some func -> fn_user_code func = true ->
    exec_function func = loc (Some (fn_filename func), ed_lineno ed).

Definition stack_ok (stack : list zend_execute_data) : Prop :=
  Forall (fun ed => is_u32 (ed_lineno ed)) stack.

End log.

(** ** Keys *)

Lemma frame_key_inj f1 l1 p1 f2 l2 p2 :
  is_u32 l1 -> is_u32 l2 -> is_u32 p1 -> is_u32 p2 ->
  frame_key f1 l1 p1 = frame_key f2 l2 p2 -> f1 = f2 /\ l1 = l2 /\ p1 = p2.
Proof.
  intros Hl1 Hl2 Hp1 Hp2. unfold frame_key. rewrite <-!str_app_assoc.
  intros [Heq Hp]%str_split_last; [|apply printf_d_no_nul..].
  apply str_split_last in Heq as [-> Hl]; [|apply printf_d_no_nul..].
  auto using printf_d_inj.
Qed.

Lemma frame_key_nul f l p : str_mem NUL (frame_key f l p) = true.
Proof.
  unfold frame_key. rewrite !str_mem_app. simpl. by rewrite ?orb_true_r.
Qed.

Lemma frame_key_not_marker f l p : frame_key f l p <> excimer_log_truncated_name.
Proof. intros Heq. pose proof (frame_key_nul f l p) as Hn. by rewrite Heq in Hn. Qed.

(** ** Chains *)

Lemma frames_ok_get fs i f :
  frames_ok fs -> 0 < i -> array_get fs i = Some f -> 0 <= prev_index f < i.
Proof.
  intros Hok Hi [? Hl]%array_get_Some. pose proof (Hok _ _ Hl). lia.
Qed.

Lemma frames_ok_prefix fs1 fs2 : frames_ok (fs1 ++ fs2) -> frames_ok fs1.
Proof. intros Hok i f Hl. apply Hok. by apply lookup_app_l_Some. Qed.

Lemma chain_fuel_irrel fs n1 n2 i :
  frames_ok fs -> 0 <= i -> (Z.to_nat i <= n1)%nat -> (Z.to_nat i <= n2)%nat ->
  chain_fuel n1 fs i = chain_fuel n2 fs i.
Proof.
  intros Hok. revert n2 i. induction n1 as [|n1 IH]; intros [|n2] i Hi H1 H2; simpl;
    [done|by rewrite (proj2 (Z.eqb_eq i 0)) by lia..|].
  destruct (Z.eqb_spec i 0); [done|].
  destruct (array_get fs i) as [f|] eqn:Hf; [|done].
  pose proof (frames_ok_get fs i f Hok ltac:(lia) Hf). f_equal. apply IH; lia.
Qed.

Lemma chain_0 fs : chain fs 0 = [].
Proof. done. Qed.

Lemma chain_step fs i f :
  frames_ok fs -> 0 < i -> array_get fs i = Some f ->
  chain fs i = f :: chain fs (prev_index f).
Proof.
  intros Hok Hi Hf. pose proof (frames_ok_get fs i f Hok Hi Hf).
  unfold chain at 1. destruct (Z.to_nat i) as [|n] eqn:Hn; [lia|]. simpl.
  destruct (Z.eqb_spec i 0); [lia|]. rewrite Hf. f_equal.
  apply chain_fuel_irrel; [done|lia..].
Qed.

(** Induction along [prev_index]. *)
Lemma chain_ind (fs : list excimer_log_frame) (P : Z -> Prop) :
  frames_ok fs -> P 0 ->
  (forall i f, 0 < i -> array_get fs i = Some f -> 0 <= prev_index f < i ->
    P (prev_index f) -> P i) ->
  forall i, 0 <= i < Z.of_nat (length fs) -> P i.
Proof.
  intros Hok H0 Hstep i Hi. remember (Z.to_nat i) as n eqn:Hn. revert i Hi Hn.
  induction n as [n IH] using lt_wf_ind. intros i Hi ->.
  destruct (decide (i = 0)) as [->|]; [done|].
  destruct (array_get_is_Some fs i Hi) as [f Hf].
  pose proof (frames_ok_get fs i f Hok ltac:(lia) Hf).
  eapply Hstep; [lia|done|done|]. eapply IH; [|lia|done]. lia.
Qed.

Lemma chain_app fs1 fs2 i :
  frames_ok (fs1 ++ fs2) -> 0 <= i < Z.of_nat (length fs1) ->
  chain (fs1 ++ fs2) i = chain fs1 i.
Proof.
  intros Hok Hi. pose proof (frames_ok_prefix _ _ Hok) as Hok1. revert i Hi.
  apply chain_ind; [done|by rewrite !chain_0|]. intros i f Hi Hf Hp IH.
  rewrite (chain_step fs1 i f), (chain_step (fs1 ++ fs2) i f); auto with excimer.
  by rewrite IH.
Qed.

Lemma chain_length fs i :
  frames_ok fs -> 0 <= i < Z.of_nat (length fs) -> Z.of_nat (length (chain fs i)) <= i.
Proof.
  intros Hok. revert i. apply chain_ind; [done|done|].
  intros i f Hi Hf Hp IH. rewrite (chain_step fs i f) by done. csimpl. lia.
Qed.

(** ** Truncation *)

Lemma locations_from_eq limit depth stack :
  0 <= depth ->
  locations_from limit depth stack =
    if limit =? 0 then stack ≫= exec_locations
    else let n := S (Z.to_nat (limit - depth)) in
      (take n stack ≫= exec_locations)
      ++ (if (n <? length stack)%nat then [truncation_location] else []).
Proof.
  revert depth. induction stack as [|ed prev IH]; intros depth Hd; simpl.
  { by destruct (limit =? 0). }
  destruct prev as [|ed' prev'].
  { destruct (limit =? 0); simpl; [done|]. rewrite take_nil. simpl. by rewrite !app_nil_r. }
  destruct (Z.eqb_spec limit 0) as [->|Hl]; simpl negb; cbn [andb].
  { rewrite IH by lia. done. }
  destruct (Z.leb_spec limit depth).
  { replace (Z.to_nat (limit - depth)) with 0%nat by lia.
    rewrite take_0. simpl. by rewrite app_nil_r. }
  rewrite IH by lia.
  replace (Z.to_nat (limit - depth)) with (S (Z.to_nat (limit - (depth + 1)))) by lia.
  cbv zeta. rewrite app_assoc. done.
Qed.

Lemma locations_from_0 limit stack :
  locations_from limit 0 stack = sample_locations limit stack.
Proof.
  rewrite locations_from_eq by done. unfold sample_locations, depth_limit.
  destruct (limit =? 0).
  - by rewrite take_ge, Nat.ltb_irrefl, app_nil_r by lia.
  - by rewrite Z.sub_0_r.
Qed.

(** ** Recording samples: lemmas *)

Section log_facts.
  Context {HT : Type -> Type -> Type} `{ZendHashLaws HT}.
  Implicit Types (log : excimer_log HT).

Lemma find_add_eq (k : string) (v : Z) (h : HT string Z) :
  zend_hash_find k h = None -> zend_hash_find k (zend_hash_add k v h) = Some v.
Proof.
  rewrite !zend_hash_find_spec, zend_hash_add_spec, alist_get_add. by intros ->.
Qed.

Lemma find_add_ne (k k' : string) (v : Z) (h : HT string Z) :
  k <> k' -> zend_hash_find k (zend_hash_add k' v h) = zend_hash_find k h.
Proof. intros. by rewrite !zend_hash_find_spec, zend_hash_add_spec, alist_get_add_ne. Qed.

Lemma find_add_Some (k k' : string) (v i : Z) (h : HT string Z) :
  zend_hash_find k' h = None ->
  zend_hash_find k (zend_hash_add k' v h) = Some i ->
  (k = k' /\ i = v) \/ (k <> k' /\ zend_hash_find k h = Some i).
Proof.
  intros Hk'. destruct (decide (k = k')) as [->|].
  - rewrite find_add_eq by done. intros [= ->]. auto.
  - rewrite find_add_ne by done. auto.
Qed.

Lemma find_add_mono (k k' : string) (v i : Z) (h : HT string Z) :
  zend_hash_find k h = Some i -> zend_hash_find k (zend_hash_add k' v h) = Some i.
Proof.
  intros Hk. rewrite !zend_hash_find_spec, zend_hash_add_spec in *.
  destruct (decide (k = k')) as [->|].
  - by rewrite alist_get_add, Hk.
  - by rewrite alist_get_add_ne.
Qed.

Lemma init_wf log : log_wf (excimer_log_init log).
Proof.
  split; simpl; try done.
  - intros [|i] f Hl; simpl in Hl; [lia|done].
  - by repeat constructor.
  - intros k i. by rewrite zend_hash_find_spec, zh_elems_new.
  - intros i f Hi Hf. apply array_get_Some in Hf as [Hf _]. simpl in Hf. lia.
Qed.

(** The operations that only set options. *)
Lemma wf_options log log' :
  frames log' = frames log -> reverse_frames log' = reverse_frames log ->
  entries log' = entries log -> log_event_count log' = log_event_count log ->
  log_wf log -> log_wf log'.
Proof.
  intros Hf Hr He Hc [].
  split; rewrite ?Hf, ?Hr, ?He, ?Hc; unfold frames_size in *; rewrite ?Hf; done.
Qed.

Lemma log_ext_refl log : log_ext log log.
Proof. split; auto. exists []. by rewrite app_nil_r. Qed.

Lemma log_ext_trans log1 log2 log3 : log_ext log1 log2 -> log_ext log2 log3 -> log_ext log1 log3.
Proof.
  intros [[fs1 Hf1]] [[fs2 Hf2]]. split; try congruence; [|eauto].
  exists (fs1 ++ fs2). by rewrite Hf2, Hf1, app_assoc.
Qed.

Lemma log_ext_size log1 log2 : log_ext log1 log2 -> frames_size log1 <= frames_size log2.
Proof. intros [[fs Hf]]. unfold frames_size. rewrite Hf, length_app. lia. Qed.

Lemma log_ext_chain log1 log2 i :
  log_wf log2 -> log_ext log1 log2 -> 0 <= i < frames_size log1 ->
  chain (frames log2) i = chain (frames log1) i.
Proof.
  intros Hwf [[fs Hf]] Hi. pose proof (wf_frames _ Hwf) as Hok.
  rewrite Hf in *. by apply chain_app.
Qed.

Lemma wf_size_pos log : log_wf log -> 0 < frames_size log.
Proof. intros Hwf. apply wf_zero, lookup_lt_Some in Hwf. unfold frames_size. lia. Qed.

Lemma push_frame_ext key f log :
  zend_hash_find key (reverse_frames log) = None -> log_ext log (push_frame key f log).
Proof.
  intros Hk. split; simpl; try done.
  - by exists [f].
  - intros k i Hki. by apply find_add_mono.
Qed.

Lemma push_frame_get key f log :
  array_get (frames (push_frame key f log)) (frames_size log) = Some f.
Proof.
  simpl. unfold frames_size. rewrite array_get_lookup.
  by rewrite lookup_app_r, Nat.sub_diag by lia.
Qed.

Lemma push_frame_inv key f log i g :
  array_get (frames (push_frame key f log)) i = Some g ->
  (i = frames_size log /\ g = f) \/ array_get (frames log) i = Some g.
Proof.
  simpl. intros [Hi Hl]%array_get_Some. rewrite length_app in Hi. simpl in Hi.
  unfold frames_size, array_get. rewrite (proj2 (Z.leb_le 0 i)) by lia.
  apply lookup_app_Some in Hl as [Hl|[? Hl]]; [auto|left].
  apply list_lookup_singleton_Some in Hl as [? ->]. split; [lia|done].
Qed.

Lemma push_frame_wf key f log :
  log_wf log -> zend_hash_find key (reverse_frames log) = None -> key_of f key ->
  0 <= prev_index f < frames_size log -> is_u32 (lineno f) -> frames_size log < 2 ^ 32 ->
  log_wf (push_frame key f log).
Proof.
  intros Hwf Hk Hkey Hprev Hline Hsz. pose proof (wf_size_pos log Hwf).
  assert (Hszp : frames_size (push_frame key f log) = frames_size log + 1).
  { unfold frames_size. simpl. rewrite length_app. simpl. lia. }
  destruct Hwf as [Hz Hok Hl _ Hs Hc He Hn]. split; try done.
  - by apply lookup_app_l_Some.
  - intros i g [Hi|[Hi Hg]]%lookup_app_Some Hpos; [by apply Hok|].
    apply list_lookup_singleton_Some in Hg as [? <-]. unfold frames_size in *. lia.
  - apply Forall_app. auto.
  - lia.
  - intros k i [[-> ->]|[Hne Hi]]%find_add_Some; [| |done].
    + split; [lia|]. exists f. split; [apply push_frame_get|done].
    + destruct (Hs _ _ Hi) as (? & g & Hg & ?). split; [done|].
      exists g. split; [by apply array_get_app_l|done].
  - intros i g Hi [[-> ->]|Hg]%push_frame_inv; simpl.
    + exists key. split; [done|]. by apply find_add_eq.
    + destruct (Hc _ _ Hi Hg) as (k & ? & ?). exists k. split; [done|]. by apply find_add_mono.
  - simpl. eapply Forall_impl; [done|]. simpl. lia.
Qed.

(** [run] recorded the chain [locs], which starts at frame [i] of [log']. *)
Record recorded log log' (i : Z) (locs : list location) : Prop := Recorded {
  rec_ext : log_ext log log';
  rec_wf : log_wf log';
  rec_range : 0 <= i < frames_size log';
  rec_chain : frame_location <$> chain (frames log') i = locs
}.

Lemma recorded_here log i locs :
  log_wf log -> 0 <= i < frames_size log ->
  frame_location <$> chain (frames log) i = locs -> recorded log log i locs.
Proof. split; auto using log_ext_refl. Qed.

Lemma recorded_trans log1 log2 log3 i j locs1 locs2 :
  recorded log1 log2 i locs1 -> recorded log2 log3 j locs2 -> recorded log1 log3 j locs2.
Proof. intros [] []. split; eauto using log_ext_trans. Qed.

Lemma safe_uint32_ok i : is_u32 i -> excimer_safe_uint32 i = Ok i.
Proof.
  intros Hi. unfold excimer_safe_uint32. unfold_ints.
  rewrite (proj2 (Z.ltb_ge i 0)), Z.gtb_ltb, (proj2 (Z.ltb_ge _ _)); [done|lia..].
Qed.

Lemma safe_uint32_overflow i : 2 ^ 32 <= i -> excimer_safe_uint32 i = Fatal "Integer out of range".
Proof.
  intros Hi. unfold excimer_safe_uint32. unfold_ints.
  rewrite Z.gtb_ltb, (proj2 (Z.ltb_lt (2 ^ 32 - 1) i)), orb_true_r; [done|lia].
Qed.

(** A run that adds at most [n] frames: it records [locs], or it stops because
    the new frame does not have a 32-bit index. *)
Inductive run_spec log (n : nat) (locs : list location) : excimer_log HT * outcome Z -> Prop :=
  | run_ok log' i :
      recorded log log' i locs -> frames_size log' <= frames_size log + Z.of_nat n ->
      run_spec log n locs (log', Ok i)
  | run_overflow log' :
      frames_size log' = 2 ^ 32 + 1 -> frames_size log' <= frames_size log + Z.of_nat n ->
      run_spec log n locs (log', Fatal "Integer out of range").

Lemma find_or_push_spec key f log :
  log_wf log -> key_of f key ->
  (forall g, is_u32 (lineno g) -> is_u32 (prev_index g) -> key_of g key ->
    frame_location g = frame_location f /\ prev_index g = prev_index f) ->
  0 <= prev_index f < frames_size log -> is_u32 (lineno f) ->
  run_spec log 1 (frame_location f :: (frame_location <$> chain (frames log) (prev_index f)))
    (find_or_push key f log).
Proof.
  intros Hwf Hkey Huniq Hprev Hline. pose proof (wf_size _ Hwf) as Hsz.
  unfold find_or_push, get_state, modify, lift, mbind, M_bind.
  destruct (zend_hash_find key (reverse_frames log)) as [i|] eqn:Hfind.
  - destruct (wf_lookup_sound _ Hwf _ _ Hfind) as (Hi & g & Hg & Hgk).
    pose proof (array_get_Some _ _ _ Hg) as [Hr Hl]. fold (frames_size log) in Hr.
    pose proof (frames_ok_get _ _ _ (wf_frames _ Hwf) Hi Hg) as Hgp.
    pose proof (Forall_lookup_1 _ _ _ _ (wf_lineno _ Hwf) Hl) as Hgl.
    destruct (Huniq g) as [Hloc Hpr]; [done|unfold is_u32; lia|done|].
    rewrite safe_uint32_ok by (unfold is_u32; lia). constructor; [|lia].
    apply recorded_here; [done|lia|].
    rewrite (chain_step _ i g) by (done || apply (wf_frames _ Hwf)). csimpl. by rewrite Hloc, Hpr.
  - assert (Hs : frames_size (push_frame key f log) = frames_size log + 1).
    { unfold frames_size. simpl. rewrite length_app. simpl. lia. }
    destruct (decide (frames_size log = 2 ^ 32)) as [Heq|Hne].
    { rewrite safe_uint32_overflow by lia. constructor; lia. }
    rewrite safe_uint32_ok by (unfold is_u32, frames_size in *; lia). constructor; [|lia].
    assert (Hwf' : log_wf (push_frame key f log)) by (apply push_frame_wf; done || lia).
    split; [by apply push_frame_ext|done|unfold frames_size in *; lia|].
    rewrite (chain_step _ _ f) by (done || apply (wf_frames _ Hwf') || apply push_frame_get || lia).
    csimpl. f_equal. f_equal.
    apply (log_ext_chain log (push_frame key f log)); [done|by apply push_frame_ext|done].
Qed.

Lemma marker_spec log :
  log_wf log -> run_spec log 1 [truncation_location] (excimer_log_get_truncation_marker log).
Proof.
  intros Hwf. pose proof (wf_size_pos _ Hwf).
  apply (find_or_push_spec excimer_log_truncated_name truncation_frame log);
    [done|right; done| |simpl; lia|done].
  intros g _ _ [(fname & _ & Heq)|[_ ->]]; [|done].
  by destruct (frame_key_not_marker fname (lineno g) (prev_index g)).
Qed.

Lemma add_frame_spec ed prev locs log0 log n :
  recorded log0 log prev locs -> frames_size log <= frames_size log0 + Z.of_nat n ->
  is_u32 (ed_lineno ed) ->
  run_spec log0 (S n) (exec_locations ed ++ locs) (add_frame ed prev log).
Proof.
  intros Hrec Hn Hline. pose proof (rec_wf _ _ _ _ Hrec) as Hwf.
  unfold add_frame, exec_locations.
  destruct (ed_func ed) as [func|]; [|by constructor; [|lia]].
  destruct (fn_user_code func); [|by constructor; [|lia]].
  set (frame := make_frame func (ed_lineno ed) prev).
  change (lineno frame) with (ed_lineno ed). change (prev_index frame) with prev. cbv zeta.
  pose proof (rec_range _ _ _ _ Hrec) as Hrange. pose proof (wf_size _ Hwf).
  destruct (find_or_push_spec (frame_key (fn_filename func) (ed_lineno ed) prev) frame log)
    as [log' i Hrec'|log']; [done|left; by eexists| |done..| |constructor; lia].
  - intros g Hgl Hgp [(fname & Hfn & Heq)|[Heq _]]; [|by apply frame_key_not_marker in Heq].
    apply frame_key_inj in Heq as (? & ? & ?); [|done..|unfold is_u32; lia|done].
    unfold frame_location. simpl. subst. split; congruence.
  - constructor; [|lia]. eapply recorded_trans; [done|]. simpl in Hrec'.
    by rewrite (rec_chain _ _ _ _ Hrec) in Hrec'.
Qed.

(** The specification of [excimer_log_find_or_add_frame], on every path. *)
Lemma find_or_add_frame_spec stack depth log :
  log_wf log -> stack_ok stack ->
  run_spec log (length stack) (locations_from (max_depth log) depth stack)
    (excimer_log_find_or_add_frame stack depth log).
Proof.
  intros Hwf Hst. revert depth. pose proof (wf_size_pos _ Hwf) as Hpos.
  assert (Hnil : recorded log log 0 []) by by apply recorded_here; [|lia|].
  induction Hst as [|ed prev Hed Hst IH]; intros depth; [by constructor; [|lia]|].
  cbn [excimer_log_find_or_add_frame locations_from length].
  set (k := match prev with [] => mret 0 | _ => _ end : M (excimer_log HT) Z).
  set (locs := match prev with [] => [] | _ => _ end : list location).
  assert (Hk : run_spec log (length prev) locs (k log)).
  { subst k locs. destruct prev as [|ed' prev']; [by constructor; [|simpl; lia]|].
    unfold mbind, M_bind, get_state. case_match; [|apply IH].
    destruct (marker_spec log Hwf); constructor; by simpl in *; lia || done. }
  unfold mbind, M_bind. destruct Hk as [log1 p Hrec Hs|log1 Hs ?].
  - by apply (add_frame_spec ed p locs log log1).
  - constructor; lia.
Qed.

(** ** Deduplication *)

Lemma safe_uint32_inv i j : excimer_safe_uint32 i = Ok j -> j = i.
Proof. unfold excimer_safe_uint32. case_match; congruence. Qed.

(** A run on [log] that ended in [log1] with index [i] does nothing when it is
    repeated on an extension of [log1], and returns [i] again. *)
Definition repeatable (m : M (excimer_log HT) Z) log : Prop :=
  forall log1 i, m log = (log1, Ok i) ->
    log_ext log log1 /\ forall log2, log_ext log1 log2 -> m log2 = (log2, Ok i).

Lemma find_or_push_repeatable key f log : repeatable (find_or_push key f) log.
Proof.
  intros log1 i. unfold find_or_push, get_state, modify, lift, mbind, M_bind.
  destruct (zend_hash_find key (reverse_frames log)) as [j|] eqn:Hfind; intros [= <- Hi];
    pose proof (safe_uint32_inv _ _ Hi); subst.
  - split; [apply log_ext_refl|]. intros log2 Hext.
    rewrite (ext_lookup _ _ Hext _ _ Hfind). by rewrite Hi.
  - split; [by apply push_frame_ext|]. intros log2 Hext.
    rewrite (ext_lookup _ _ Hext key (frames_size log)) by by apply find_add_eq. by rewrite Hi.
Qed.

Lemma mret_repeatable i log : repeatable (mret i) log.
Proof. intros log1 j [= <- <-]. split; [apply log_ext_refl|done]. Qed.

Lemma bind_repeatable (m : M (excimer_log HT) Z) (k : Z -> M (excimer_log HT) Z) log :
  repeatable m log -> (forall i log', repeatable (k i) log') -> repeatable (m ≫= k) log.
Proof.
  intros Hm Hk log1 i. unfold mbind, M_bind. destruct (m log) as [loga [j| | |]] eqn:Ha; [|done..].
  intros Hrun. destruct (Hm _ _ Ha) as [Hea Hra]. destruct (Hk _ _ _ _ Hrun) as [Heb Hrb].
  split; [by eapply log_ext_trans|]. intros log2 Hext.
  rewrite (Hra log2) by by eapply log_ext_trans. by apply Hrb.
Qed.

Lemma add_frame_repeatable ed prev log : repeatable (add_frame ed prev) log.
Proof.
  unfold add_frame. destruct (ed_func ed) as [func|]; [|apply mret_repeatable].
  destruct (fn_user_code func); [apply find_or_push_repeatable|apply mret_repeatable].
Qed.

(** The part of [excimer_log_find_or_add_frame] that finds the caller. *)
Lemma caller_repeatable prev depth log :
  (forall log', repeatable (excimer_log_find_or_add_frame prev (depth + 1)) log') ->
  repeatable
    match prev with
    | [] => mret 0
    | _ =>
        log ← get_state;
        if negb (max_depth log =? 0) && (max_depth log <=? depth)
        then excimer_log_get_truncation_marker
        else excimer_log_find_or_add_frame prev (depth + 1)
    end log.
Proof.
  intros IH. destruct prev as [|ed prev]; [apply mret_repeatable|].
  intros log1 i. unfold mbind, M_bind, get_state.
  assert (Hdepth : forall log2, log_ext log log1 -> log_ext log1 log2 ->
    max_depth log2 = max_depth log).
  { intros log2 [] []. congruence. }
  case_match eqn:Ht; intros Hrun.
  - destruct (find_or_push_repeatable _ _ _ _ _ Hrun) as [He Hr].
    split; [done|]. intros log2 Hext. rewrite (Hdepth log2), Ht by done. by apply Hr.
  - destruct (IH _ _ _ Hrun) as [He Hr].
    split; [done|]. intros log2 Hext. rewrite (Hdepth log2), Ht by done. by apply Hr.
Qed.

Lemma find_or_add_frame_repeatable stack depth log :
  repeatable (excimer_log_find_or_add_frame stack depth) log.
Proof.
  revert depth log. induction stack as [|ed prev IH]; intros depth log; [apply mret_repeatable|].
  cbn [excimer_log_find_or_add_frame].
  apply bind_repeatable; [by apply caller_repeatable|intros; apply add_frame_repeatable].
Qed.

(** ** Whole samples *)

(** What [excimer_log_add] returns, on every path. *)
Inductive add_spec (stack : list zend_execute_data) (n now : Z) log :
    excimer_log HT * outcome unit -> Prop :=
  | add_ok logf i :
      recorded log logf i (sample_locations (max_depth log) stack) ->
      frames_size logf <= frames_size log + Z.of_nat (length stack) ->
      add_spec stack n now log
        (set_event_count (wrap_i64 (log_event_count log + n))
           (set_entries (entries log ++ [Entry i n now]) logf), Ok tt)
  | add_overflow logf :
      frames_size logf = 2 ^ 32 + 1 ->
      frames_size logf <= frames_size log + Z.of_nat (length stack) ->
      add_spec stack n now log (logf, Fatal "Integer out of range").

Lemma log_add_spec stack n now log :
  log_wf log -> stack_ok stack ->
  add_spec stack n now log (excimer_log_add stack n now log).
Proof.
  intros Hwf Hst. unfold excimer_log_add, mbind, M_bind, modify.
  destruct (find_or_add_frame_spec stack 0 log Hwf Hst) as [logf i Hrec|logf]; [|by constructor].
  rewrite locations_from_0 in Hrec. pose proof (rec_ext _ _ _ _ Hrec) as Hext.
  rewrite (ext_event_count _ _ Hext), (ext_entries _ _ Hext). by constructor.
Qed.

Lemma add_entry_wf log i n now :
  log_wf log -> 0 <= i < frames_size log ->
  log_wf (set_event_count (wrap_i64 (log_event_count log + n))
    (set_entries (entries log ++ [Entry i n now]) log)).
Proof.
  intros [Hz Hok Hl Hsz Hs Hc He Hn] Hi. split; try done; simpl.
  - apply Forall_app. split; [done|]. by constructor.
  - rewrite fmap_app. autorewrite with excimer. simpl.
    rewrite Hn. autorewrite with excimer. f_equal. lia.
Qed.

Lemma log_add_wf stack n now log log' :
  log_wf log -> stack_ok stack -> excimer_log_add stack n now log = (log', Ok tt) -> log_wf log'.
Proof.
  intros Hwf Hst Hrun. pose proof (log_add_spec stack n now log Hwf Hst) as Hspec.
  rewrite Hrun in Hspec. inversion Hspec as [logf i [Hext Hwf' Hi _]|]; subst.
  rewrite <-(ext_entries _ _ Hext), <-(ext_event_count _ _ Hext). by apply add_entry_wf.
Qed.

(** A log that has room for the frames of [stack] records it. *)
Lemma log_add_room stack n now log :
  log_wf log -> stack_ok stack -> frames_size log + Z.of_nat (length stack) <= 2 ^ 32 ->
  exists log' i, excimer_log_add stack n now log = (log', Ok tt) /\ log_wf log' /\
    entries log' = entries log ++ [Entry i n now] /\
    0 <= i < frames_size log' /\
    frame_location <$> chain (frames log') i = sample_locations (max_depth log) stack /\
    (exists fs, frames log' = frames log ++ fs) /\
    log_event_count log' = wrap_i64 (log_event_count log + n).
Proof.
  intros Hwf Hst Hroom.
  destruct (excimer_log_add stack n now log) as [log' r] eqn:Hrun.
  pose proof (log_add_spec stack n now log Hwf Hst) as Hspec. rewrite Hrun in Hspec.
  inversion Hspec as [logf i Hrec|logf]; subst; [|lia].
  assert (Hwf' := log_add_wf _ _ _ _ _ Hwf Hst Hrun).
  destruct Hrec as [[Hf] ? Hi ?]. eexists _, i. split_and!; try done; apply Hi.
Qed.

(** ** Which function a frame belongs to *)

Lemma find_or_push_coherent loc key f log log' i :
  frame_function f = loc (frame_location f) ->
  find_or_push key f log = (log', Ok i) -> log_coherent loc log -> log_coherent loc log'.
Proof.
  intros Hf. unfold find_or_push, get_state, modify, lift, mbind, M_bind.
  case_match; intros [= <- _] Hc; [done|].
  intros j g Hj [[-> ->]|Hg]%push_frame_inv; [done|by apply (Hc j)].
Qed.

Lemma find_or_add_frame_coherent loc stack depth log log' i :
  stack_coherent loc stack ->
  excimer_log_find_or_add_frame stack depth log = (log', Ok i) ->
  log_coherent loc log -> log_coherent loc log'.
Proof.
  intros [Htr Hst]. revert depth log log' i.
  induction stack as [|ed prev IH]; intros depth log log' i; [by intros [= <- _]|].
  cbn [excimer_log_find_or_add_frame]. unfold mbind at 1, M_bind at 1.
  set (k := match prev with [] => mret 0 | _ => _ end : M (excimer_log HT) Z).
  destruct (k log) as [log1 [p| | |]] eqn:Hk; [|done..]. intros Hadd Hc.
  assert (Hc1 : log_coherent loc log1).
  { subst k. destruct prev as [|ed' prev']; [by injection Hk as <- _|].
    unfold mbind, M_bind, get_state in Hk. case_match.
    - by eapply find_or_push_coherent in Hk.
    - eapply IH in Hk; [done| |done]. intros e f He. apply Hst. set_solver. }
  unfold add_frame in Hadd. destruct (ed_func ed) as [func|] eqn:Hfunc;
    [|by injection Hadd as <- _].
  destruct (fn_user_code func) eqn:Hu; [|by injection Hadd as <- _].
  eapply find_or_push_coherent in Hadd; [done| |done].
  apply (Hst ed func); [set_solver|done..].
Qed.

(** In a coherent log the location determines the whole frame up to its caller. *)
Lemma chain_functions loc log i :
  log_wf log -> log_coherent loc log -> 0 <= i < frames_size log ->
  frame_function <$> chain (frames log) i = loc ∘ frame_location <$> chain (frames log) i.
Proof.
  intros Hwf Hc. revert i. unfold frames_size.
  apply chain_ind; [apply wf_frames, Hwf|done|]. intros i f Hi Hf Hp IH.
  rewrite (chain_step _ i f) by (done || apply (wf_frames _ Hwf)).
  csimpl. rewrite IH. f_equal. by eapply Hc.
Qed.

End log_facts.

#[export] Hint Resolve init_wf log_ext_refl : excimer.
