(* ===== verification/LogTrace.v ===== *)
(** * Traces: from a recorded frame back to a PHP array

    Models [excimer_log_frame_to_array], [excimer_log_trace_to_array] and
    [excimer_log_count_frames] of [excimer_log.c], and proves the properties of
    the log as a whole: what was sampled is what a trace shows. The loops that
    follow [prev_index] run with a fuel of one more than the number of frames. *)

From S2P Require Import Prelude ZendHash Log.

(** The PHP values the log builds. [ZV_list] is an array filled by
    [zend_hash_next_index_insert]; [ZV_array] has string keys, in order. *)
Inductive zval : Type :=
  | ZV_null
  | ZV_long (z : Z)
  | ZV_string (s : string)
  | ZV_array (l : list (string * zval))
  | ZV_list (l : list zval).

Section trace.
  Context {HT : Type -> Type -> Type} `{ZendHash HT}.
  Implicit Types (log : excimer_log HT).

Definition ZVAL_ARR (ht : HT string zval) : zval := ZV_array (zh_elems ht).

(** [if (p) { zend_hash_add_new(ht, key, p) }]. *)
Definition add_string_opt (key : string) (p : option string) (ht : HT string zval) : HT string zval :=
  match p with
  | Some s => zend_hash_add key (ZV_string s) ht
  | None => ht
  end.

Definition excimer_log_frame_to_array (frame : excimer_log_frame) : HT string zval :=
  let ht_func := zend_new_array in
  let ht_func :=
    match filename frame with
    | Some s =>
        zend_hash_add "line" (ZV_long (lineno frame)) (zend_hash_add "file" (ZV_string s) ht_func)
    | None => ht_func
    end in
  let ht_func := add_string_opt "class" (class_name frame) ht_func in
  let ht_func := add_string_opt "function" (function_name frame) ht_func in
  if closure_line frame =? 0 then ht_func
  else zend_hash_add "closure_line" (ZV_long (closure_line frame)) ht_func.

Fixpoint trace_loop (fuel : nat) log (index : Z) (ht_trace : list zval) : outcome (list zval) :=
  match fuel with
  | O => Diverge
  | S fuel' =>
      if index =? 0 then Ok ht_trace
      else
        let! frame := deref (excimer_log_get_frame log index) in
        trace_loop fuel' log (prev_index frame)
          (ht_trace ++ [ZVAL_ARR (excimer_log_frame_to_array frame)])
  end.

Definition excimer_log_trace_to_array log (l_frame_index : Z) : outcome (list zval) :=
  let! index := excimer_safe_uint32 l_frame_index in
  trace_loop (S (length (frames log))) log index [].

(** [n] is a [uint32_t]. *)
Fixpoint count_loop (fuel : nat) log (index n : Z) : outcome Z :=
  match fuel with
  | O => Diverge
  | S fuel' =>
      if index =? 0 then Ok n
      else
        let! frame := deref (array_get (frames log) index) in
        count_loop fuel' log (prev_index frame) (wrap_u32 (n + 1))
  end.

Definition excimer_log_count_frames log (index : Z) : outcome Z :=
  count_loop (S (length (frames log))) log index 0.

(** The frame that [loc] says runs at a location. *)
Definition frame_at (loc : location -> function_info) (l : location) : excimer_log_frame :=
  let '(fname, line) := l in
  let '(cline, cls, fn) := loc l in
  Frame fname line cline cls fn 0.

(** The trace a user should see for a sample of [stack]. *)
Definition expected_trace (loc : location -> function_info) (limit : Z)
    (stack : list zend_execute_data) : list zval :=
  (fun l => ZVAL_ARR (excimer_log_frame_to_array (frame_at loc l)))
    <$> sample_locations limit stack.

End trace.

(** ** A concrete program

    [index.php] calls [Foo::bar], which calls [array_map] with a closure defined
    at line 8; the closure is interrupted at line 9. *)

Definition ex_main : zend_function := ZFunction true "/srv/index.php" None None false 1.
Definition ex_bar : zend_function := ZFunction true "/srv/Foo.php" (Some "Foo") (Some "bar") false 5.
Definition ex_array_map : zend_function := ZFunction false "" None (Some "array_map") false 0.
Definition ex_closure : zend_function :=
  ZFunction true "/srv/Foo.php" (Some "Foo") (Some "{closure}") true 8.

Definition ex_stack : list zend_execute_data :=
  [ExecData (Some ex_closure) 9; ExecData (Some ex_array_map) 0;
   ExecData (Some ex_bar) 8; ExecData (Some ex_main) 20].

Definition ex_loc (l : location) : function_info :=
  if decide (l = (Some "/srv/Foo.php", 9)) then exec_function ex_closure
  else if decide (l = (Some "/srv/Foo.php", 8)) then exec_function ex_bar
  else if decide (l = truncation_location) then frame_function truncation_frame
  else exec_function ex_main.

(** A freshly allocated log with a depth limit of [d]. *)
Definition ex_log (d : Z) : excimer_log alist :=
  set_max_depth d (excimer_log_init (Log alist [] [] [] 0 0 100000000 0)).

(** The log after one sample of [ex_stack]. *)
Definition ex_log1 (d : Z) : excimer_log alist := (excimer_log_add ex_stack 1 1000 (ex_log d)).1.

(** [function a() {...} function b() {...}] on one line of a file. *)
Definition ex_a : zend_function := ZFunction true "/srv/one.php" None (Some "a") false 1.
Definition ex_b : zend_function := ZFunction true "/srv/one.php" None (Some "b") false 1.

Definition ex_log_a : excimer_log alist :=
  (excimer_log_find_or_add_frame [ExecData (Some ex_a) 1] 0 (ex_log 0)).1.

(** ** Lemmas *)

Section trace_facts.
  Context {HT : Type -> Type -> Type} `{ZendHash HT}.
  Implicit Types (log : excimer_log HT).

Lemma get_frame_eq log i :
  log_wf log -> 0 < i < frames_size log -> excimer_log_get_frame log i = array_get (frames log) i.
Proof.
  intros Hwf Hi. pose proof (wf_size _ Hwf). unfold excimer_log_get_frame.
  rewrite wrap_u64_small by (unfold is_u64; lia).
  by rewrite (proj2 (Z.ltb_lt _ _)), (proj2 (Z.ltb_lt _ _)) by lia.
Qed.

(** A loop that visits the frames of a chain and never runs out of fuel: the
    common shape of all the [while (frame_index)] loops. [Inv] may relate the
    index to the state of the loop. *)
Lemma chain_loop_inv {A} log (loop : nat -> Z -> A -> outcome A)
    (step : excimer_log_frame -> A -> A) (Inv : Z -> A -> Prop) :
  log_wf log ->
  (forall n a, loop (S n) 0 a = Ok a) ->
  (forall n i a f, 0 < i < frames_size log -> array_get (frames log) i = Some f ->
    0 <= prev_index f < i -> Inv i a ->
    loop (S n) i a = loop n (prev_index f) (step f a) /\ Inv (prev_index f) (step f a)) ->
  forall i, 0 <= i < frames_size log ->
  forall n a, (Z.to_nat i < n)%nat -> Inv i a ->
  let a' := foldl (fun a f => step f a) a (chain (frames log) i) in
  loop n i a = Ok a' /\ Inv 0 a'.
Proof.
  intros Hwf H0 Hstep. pose proof (wf_frames _ Hwf) as Hok. unfold frames_size.
  apply (chain_ind (frames log) (fun i => forall n a, (Z.to_nat i < n)%nat -> Inv i a -> _)); [done|..].
  - intros [|n] a Hn Ha; [lia|]. by rewrite H0.
  - intros i f Hi Hf Hp IH [|n] a Hn Ha; [lia|].
    pose proof (array_get_Some _ _ _ Hf) as [Hr _].
    destruct (Hstep n i a f) as [-> Ha']; [unfold frames_size; lia|done..|].
    rewrite (chain_step _ i f) by done. apply IH; [lia|done].
Qed.

Lemma chain_loop {A} log (loop : nat -> Z -> A -> outcome A) (step : excimer_log_frame -> A -> A) :
  log_wf log ->
  (forall n a, loop (S n) 0 a = Ok a) ->
  (forall n i a f, 0 < i < frames_size log -> array_get (frames log) i = Some f ->
    loop (S n) i a = loop n (prev_index f) (step f a)) ->
  forall i, 0 <= i < frames_size log ->
  forall n a, (Z.to_nat i < n)%nat ->
  loop n i a = Ok (foldl (fun a f => step f a) a (chain (frames log) i)).
Proof.
  intros Hwf H0 Hstep i Hi n a Hn.
  apply (chain_loop_inv log loop step (fun _ _ => True)); auto.
Qed.

Lemma foldl_snoc_map {A B} (g : A -> B) (l : list A) (acc : list B) :
  foldl (fun acc x => acc ++ [g x]) acc l = acc ++ (g <$> l).
Proof.
  revert acc. induction l as [|x l IH]; intros acc; simpl; [by rewrite app_nil_r|].
  by rewrite IH, <-app_assoc.
Qed.

Lemma foldl_count {A} (l : list A) n :
  0 <= n -> n + Z.of_nat (length l) < 2 ^ 32 ->
  foldl (fun n _ => wrap_u32 (n + 1)) n l = n + Z.of_nat (length l).
Proof.
  revert n. induction l as [|x l IH]; intros n Hn Hb; cbn [foldl length] in *; [lia|].
  rewrite wrap_u32_small by (unfold is_u32; lia). rewrite IH by lia. lia.
Qed.

Lemma trace_to_array_spec log i :
  log_wf log -> 0 <= i < frames_size log ->
  excimer_log_trace_to_array log i =
    Ok ((fun f => ZVAL_ARR (HT:=HT) (excimer_log_frame_to_array f)) <$> chain (frames log) i).
Proof.
  intros Hwf Hi. pose proof (wf_size _ Hwf). unfold excimer_log_trace_to_array.
  rewrite safe_uint32_ok by (unfold is_u32; lia). cbn [obind].
  rewrite (chain_loop log (fun n => trace_loop n log)
    (fun f a => a ++ [ZVAL_ARR (HT:=HT) (excimer_log_frame_to_array f)]));
    [|done|done| |done|unfold frames_size in *; lia].
  - by rewrite foldl_snoc_map.
  - intros n j a f Hj Hf. simpl. rewrite (proj2 (Z.eqb_neq _ _)) by lia.
    by rewrite get_frame_eq, Hf.
Qed.

Lemma count_frames_spec log i :
  log_wf log -> 0 <= i < frames_size log ->
  excimer_log_count_frames log i = Ok (Z.of_nat (length (chain (frames log) i))).
Proof.
  intros Hwf Hi. pose proof (wf_size _ Hwf).
  pose proof (chain_length (frames log) i (wf_frames _ Hwf) Hi) as Hlen.
  unfold excimer_log_count_frames.
  rewrite (chain_loop log (fun n => count_loop n log) (fun _ n => wrap_u32 (n + 1)));
    [|done|done| |done|unfold frames_size in *; lia].
  - f_equal. by rewrite foldl_count by lia.
  - intros n j a f Hj Hf. simpl. rewrite (proj2 (Z.eqb_neq _ _)) by lia. by rewrite Hf.
Qed.

(** Entries that were there before keep their traces. *)
Lemma trace_stable log1 log2 i :
  log_wf log1 -> log_wf log2 -> (exists fs, frames log2 = frames log1 ++ fs) ->
  0 <= i < frames_size log1 ->
  excimer_log_trace_to_array log2 i = excimer_log_trace_to_array log1 i.
Proof.
  intros Hwf1 Hwf2 [fs Hf] Hi. pose proof (wf_frames _ Hwf2) as Hok.
  rewrite !trace_to_array_spec by (try done; unfold frames_size in *; rewrite ?Hf, ?length_app; lia).
  rewrite Hf in *. by rewrite chain_app.
Qed.

(** The array shows everything about a frame but its caller. *)
Lemma frame_to_array_at loc f :
  frame_function f = loc (frame_location f) ->
  excimer_log_frame_to_array (HT:=HT) (frame_at loc (frame_location f)) =
    excimer_log_frame_to_array f.
Proof.
  destruct f as [fname line cline cls fn prev]. unfold frame_function, frame_location. simpl.
  by intros <-.
Qed.

End trace_facts.

(** The depth limit, on the specification of a sample. *)
Lemma exec_locations_length (l : list zend_execute_data) :
  (length (l ≫= exec_locations) <= length l)%nat.
Proof.
  induction l as [|ed l IH]; [done|]. csimpl. rewrite length_app.
  unfold exec_locations at 1. repeat case_match; simpl; lia.
Qed.

Lemma sample_locations_length limit stack :
  0 <= limit -> limit <> 0 -> (length (sample_locations limit stack) <= Z.to_nat limit + 2)%nat.
Proof.
  intros Hlim Hne. unfold sample_locations, depth_limit.
  rewrite (proj2 (Z.eqb_neq _ _)) by done. rewrite length_app.
  pose proof (exec_locations_length (take (S (Z.to_nat limit)) stack)) as Ht.
  rewrite length_take in Ht. case_match; simpl; lia.
Qed.

Lemma sample_locations_all limit stack :
  0 <= limit -> limit = 0 \/ Z.of_nat (length stack) <= limit + 1 ->
  sample_locations limit stack = stack ≫= exec_locations.
Proof.
  intros Hlim Hcase. unfold sample_locations, depth_limit.
  destruct (Z.eqb_spec limit 0) as [->|Hne].
  - by rewrite take_ge, Nat.ltb_irrefl, app_nil_r by lia.
  - by rewrite take_ge, (proj2 (Nat.ltb_ge _ _)), app_nil_r by lia.
Qed.

Lemma ex_stack_ok : stack_ok ex_stack.
Proof. by repeat constructor. Qed.

Lemma ex_stack_coherent : stack_coherent ex_loc ex_stack.
Proof.
  split; [done|]. intros ed func Hin.
  repeat (apply elem_of_cons in Hin as [->|Hin]); [..|by apply elem_of_nil in Hin];
    intros [= <-]; done.
Qed.

Lemma ex_log_wf d : log_wf (ex_log d).
Proof. by apply (wf_options (excimer_log_init (Log alist [] [] [] 0 0 100000000 0))), init_wf. Qed.

Lemma ex_log_coherent d : log_coherent ex_loc (ex_log d).
Proof. intros i f Hi Hf. apply array_get_Some in Hf as [Hf _]. simpl in Hf. lia. Qed.

Lemma ex_log1_wf d : log_wf (ex_log1 d).
Proof.
  destruct (log_add_room ex_stack 1 1000 (ex_log d)) as (log' & i & Hrun & Hwf & _);
    [apply ex_log_wf|apply ex_stack_ok|vm_compute; discriminate|].
  unfold ex_log1. by rewrite Hrun.
Qed.

(** ** Properties of the log *)

Section properties.
  Context {HT : Type -> Type -> Type} `{ZendHashLaws HT}.
  Implicit Types (log : excimer_log HT).


(** C13. [excimer_log_add] on every path: it keeps the log well formed and changes
    neither options nor the traces of earlier entries, or it reports "Integer out
    of range", and then only when the log had grown to 2^32 frames. It never
    dereferences a null pointer. *)
Theorem log_add_total stack n now log :
  log_wf log -> stack_ok stack ->
  match excimer_log_add stack n now log with
  | (log', Ok tt) =>
      log_wf log' /\ entries_size log' = entries_size log + 1 /\
      log_event_count log' = wrap_i64 (log_event_count log + n) /\
      max_depth log' = max_depth log /\ epoch log' = epoch log /\ period log' = period log /\
      Forall (fun e => excimer_log_trace_to_array log' (frame_index e) =
                       excimer_log_trace_to_array log (frame_index e)) (entries log)
  | (log', Fatal msg) => msg = "Integer out of range" /\ frames_size log' = 2 ^ 32 + 1
  | _ => False
  end.
Proof.
  intros Hwf Hst. destruct (excimer_log_add stack n now log) as [log' r] eqn:Hrun.
  pose proof (log_add_spec stack n now log Hwf Hst) as Hspec. rewrite Hrun in Hspec.
  inversion Hspec as [logf i Hrec|logf]; subst; [|done].
  pose proof (log_add_wf _ _ _ _ _ Hwf Hst Hrun) as Hwf'.
  destruct Hrec as [[Hf _ _ Hd Hep Hp _] _ _ _].
  split_and!; [done| |done|exact Hd|exact Hep|exact Hp|].
  - unfold entries_size. simpl. rewrite length_app. simpl. lia.
  - eapply Forall_impl; [apply (wf_entries _ Hwf)|]. intros e He. by apply trace_stable.
Qed.

(** Deduplication: once a stack was sampled, sampling the same stack again,
    even after other samples, adds no frame and yields the same frame index. *)
Theorem resample_adds_no_frame stack log log1 log2 i :
  excimer_log_find_or_add_frame stack 0 log = (log1, Ok i) -> log_ext log1 log2 ->
  excimer_log_find_or_add_frame stack 0 log2 = (log2, Ok i).
Proof.
  intros Hrun Hext. by destruct (find_or_add_frame_repeatable stack 0 log log1 i Hrun) as [_ Hr]; auto.
Qed.

(** What deduplication costs: the key has the file, the line and the caller of
    a frame but not its function, so two functions that run on the same line of
    a file and are called from the same place share one frame. The second of
    them is logged under the name of the first. *)
Theorem same_line_same_frame func1 func2 line prev log log1 i :
  fn_user_code func1 = true -> fn_user_code func2 = true -> fn_filename func1 = fn_filename func2 ->
  excimer_log_find_or_add_frame (ExecData (Some func1) line :: prev) 0 log = (log1, Ok i) ->
  excimer_log_find_or_add_frame (ExecData (Some func2) line :: prev) 0 log1 = (log1, Ok i).
Proof.
  intros Hu1 Hu2 Hfile Hrun.
  destruct (find_or_add_frame_repeatable _ 0 log log1 i Hrun) as [_ Hrep].
  specialize (Hrep log1 (log_ext_refl log1)). revert Hrep.
  cbn [excimer_log_find_or_add_frame]. unfold mbind at 1 3, M_bind at 1 3.
  destruct (_ log1) as [log2 [p| | |]] eqn:Hp; [|done..].
  apply caller_repeatable in Hp as [Hext _]; [|intros; apply find_or_add_frame_repeatable].
  unfold add_frame. cbn [ed_func ed_lineno make_frame lineno prev_index]. rewrite Hu1, Hu2, Hfile.
  unfold find_or_push, get_state, modify, lift, mbind, M_bind.
  destruct (zend_hash_find _ (reverse_frames log2)) as [j|]; [done|].
  intros [= <- _]. destruct (ext_frames _ _ Hext) as [fs Hfs]. apply (f_equal length) in Hfs.
  cbn [push_frame frames] in Hfs. rewrite !length_app in Hfs. simpl in Hfs. lia.
Qed.

(** Two different frames of a well-formed log never agree on file, line and
    caller, truncation markers apart. *)
Theorem frames_unique log i j f g :
  log_wf log -> 0 < i -> 0 < j -> i <> j ->
  array_get (frames log) i = Some f -> array_get (frames log) j = Some g ->
  f <> truncation_frame -> g <> truncation_frame ->
  (filename f, lineno f, prev_index f) <> (filename g, lineno g, prev_index g).
Proof.
  intros Hwf Hi Hj Hij Hf Hg Hnf Hng [= Hfn Hl Hp].
  destruct (wf_lookup_complete _ Hwf _ _ Hi Hf) as (k1 & [(s1 & Hs1 & ->)|[_ ?]] & Hk1); [|done].
  destruct (wf_lookup_complete _ Hwf _ _ Hj Hg) as (k2 & [(s2 & Hs2 & ->)|[_ ?]] & Hk2); [|done].
  assert (s1 = s2) as -> by congruence. rewrite Hl, Hp in Hk1. congruence.
Qed.

(** C38. Every index of a well-formed log has a trace: following [prev_index]
    terminates, within as many steps as the index, and meets no null pointer. *)
Theorem trace_terminates log i :
  log_wf log -> 0 <= i < frames_size log ->
  exists l, excimer_log_trace_to_array log i = Ok l /\ Z.of_nat (length l) <= i /\
    excimer_log_count_frames log i = Ok (Z.of_nat (length l)).
Proof.
  intros Hwf Hi. eexists. split; [by apply trace_to_array_spec|].
  rewrite length_fmap. split; [by apply chain_length; [apply wf_frames|]|by apply count_frames_spec].
Qed.

(** [max_depth] bounds a trace: with a positive limit, the trace of a new
    sample holds at most [max_depth + 1] frames and the marker; with no limit, or
    for a stack within the limit, it holds the location of every user-code frame
    of the stack and no marker. *)
Theorem depth_limit_bounds stack n now log :
  log_wf log -> stack_ok stack -> frames_size log + Z.of_nat (length stack) <= 2 ^ 32 ->
  0 <= max_depth log ->
  exists log' i l, excimer_log_add stack n now log = (log', Ok tt) /\
    entries log' = entries log ++ [Entry i n now] /\ excimer_log_trace_to_array log' i = Ok l /\
    (max_depth log <> 0 -> Z.of_nat (length l) <= max_depth log + 2) /\
    (max_depth log = 0 \/ Z.of_nat (length stack) <= max_depth log + 1 ->
      frame_location <$> chain (frames log') i = stack ≫= exec_locations /\
      length l = length (stack ≫= exec_locations)).
Proof.
  intros Hwf Hst Hroom Hlim.
  destruct (log_add_room stack n now log Hwf Hst Hroom)
    as (log' & i & Hrun & Hwf' & He & Hi & Hloc & _ & _).
  eexists log', i, _. split_and!; [done|done|by apply trace_to_array_spec|..].
  - intros Hne. rewrite length_fmap, <-(length_fmap frame_location), Hloc.
    pose proof (sample_locations_length (max_depth log) stack Hlim Hne). lia.
  - intros Hcase. rewrite length_fmap, <-(length_fmap frame_location), Hloc.
    by rewrite sample_locations_all.
Qed.

End properties.

(** ** Witnesses *)


Lemma log_add_total_witness :
  log_wf (excimer_log_add ex_stack 1 2000 (ex_log1 0)).1 /\
  entries_size (excimer_log_add ex_stack 1 2000 (ex_log1 0)).1 = 2.
Proof.
  pose proof (log_add_total ex_stack 1 2000 (ex_log1 0) (ex_log1_wf 0) ex_stack_ok) as Htot.
  destruct (excimer_log_add ex_stack 1 2000 (ex_log1 0)) as [log' r] eqn:Hrun.
  assert (r = Ok tt) as -> by by vm_compute in Hrun; injection Hrun.
  destruct Htot as (Hwf & Hsize & _). split; [exact Hwf|exact Hsize].
Defined.

Lemma resample_adds_no_frame_witness :
  excimer_log_find_or_add_frame ex_stack 0 (ex_log1 0) = (ex_log1 0, Ok 3).
Proof.
  apply (resample_adds_no_frame ex_stack (ex_log1 0) (ex_log1 0) (ex_log1 0) 3).
  - vm_compute. reflexivity.
  - apply log_ext_refl.
Defined.

Lemma frames_unique_witness :
  (Some "/srv/Foo.php", 9, 2) <> (Some "/srv/Foo.php", 8, 1).
Proof.
  apply (frames_unique (ex_log1 0) 3 2 (make_frame ex_closure 9 2) (make_frame ex_bar 8 1));
    [apply ex_log1_wf|lia|lia|lia|vm_compute; reflexivity|vm_compute; reflexivity|discriminate..].
Defined.

Lemma trace_terminates_witness :
  exists l, excimer_log_trace_to_array (ex_log1 0) 3 = Ok l /\ Z.of_nat (length l) <= 3 /\
    excimer_log_count_frames (ex_log1 0) 3 = Ok (Z.of_nat (length l)).
Proof.
  apply (trace_terminates (ex_log1 0) 3); [apply ex_log1_wf|].
  vm_compute. split; [discriminate|reflexivity].
Defined.

Lemma depth_limit_bounds_witness :
  exists log' i l, excimer_log_add ex_stack 1 1000 (ex_log 1) = (log', Ok tt) /\
    excimer_log_trace_to_array log' i = Ok l /\ Z.of_nat (length l) <= 3.
Proof.
  destruct (depth_limit_bounds ex_stack 1 1000 (ex_log 1)) as (log' & i & l & Hadd & _ & Ht & Hb & _).
  - apply ex_log_wf.
  - apply ex_stack_ok.
  - vm_compute. discriminate.
  - vm_compute. discriminate.
  - exists log', i, l. split_and!; [done..|]. apply Hb. discriminate.
Defined.

Lemma same_line_same_frame_witness :
  excimer_log_find_or_add_frame [ExecData (Some ex_b) 1] 0 ex_log_a = (ex_log_a, Ok 1) /\
  excimer_log_trace_to_array ex_log_a 1 = Ok
    [ZV_array [("file", ZV_string "/srv/one.php"); ("line", ZV_long 1); ("function", ZV_string "a")]].
Proof.
  split; [|vm_compute; reflexivity].
  apply (same_line_same_frame ex_a ex_b 1 [] (ex_log 0)); vm_compute; reflexivity.
Defined.
