(* ===== verification/Tally.v ===== *)
(** * Tallies: tables of counters in a [HashTable]

    The formatters of [excimer_log.c] all count by [ht[key] += n] in a hash
    table. This file has that operation and its theory, shared by the collapsed
    format and the aggregation: a counter holds, modulo 2^64, the sum of what
    was added under its key. It also has the loop combinator of the formatters. *)

From S2P Require Import Prelude ZendHash.

(** ** Loops over a list, in order, that stop at the first failure *)

Fixpoint foldM {A B} (f : A -> B -> outcome A) (a : A) (l : list B) : outcome A :=
  match l with
  | [] => Ok a
  | b :: l' => let! a' := f a b in foldM f a' l'
  end.

(** ** Counting *)

Definition alist_incr {K} `{EqDecision K} (k : K) (v : Z) (l : list (K * Z)) : list (K * Z) :=
  match alist_get k l with
  | Some c => alist_set k (wrap_i64 (c + v)) l
  | None => l ++ [(k, wrap_i64 v)]
  end.

(** The sum of the values whose key satisfies [P]. *)
Definition weight {K} (P : K -> bool) (l : list (K * Z)) : Z :=
  sum_Z ((fun kv => if P kv.1 then kv.2 else 0) <$> l).

(** A well-formed tally: distinct keys, counters in range. *)
Definition tally_ok {K} (l : list (K * Z)) : Prop := NoDup l.*1 /\ Forall (fun kv => is_i64 kv.2) l.

Section tally.
  Context {HT : Type -> Type -> Type} `{ZendHash HT}.

(** [zp = find(ht, k); if (!zp) zp = add(ht, k, 0); Z_LVAL_P(zp) += v]. *)
Definition ht_incr {K} `{EqDecision K} (k : K) (v : Z) (h : HT K Z) : HT K Z :=
  match zend_hash_find k h with
  | Some c => zend_hash_write k (wrap_i64 (c + v)) h
  | None => zend_hash_write k (wrap_i64 (0 + v)) (zend_hash_add k 0 h)
  end.

End tally.

(** ** Lemmas *)

Lemma foldM_ok {A B} (f : A -> B -> outcome A) (g : A -> B -> A) (Inv : A -> Prop) l a :
  (forall a b, b ∈ l -> Inv a -> f a b = Ok (g a b) /\ Inv (g a b)) -> Inv a ->
  foldM f a l = Ok (foldl g a l) /\ Inv (foldl g a l).
Proof.
  revert a. induction l as [|b l IH]; intros a Hf Ha; simpl; [done|].
  destruct (Hf a b) as [-> Hb]; [set_solver|done|]. apply IH; [|done].
  intros a' b' Hin. apply Hf. set_solver.
Qed.

Lemma foldM_app {A B} (f : A -> B -> outcome A) a l1 l2 :
  foldM f a (l1 ++ l2) = let! a' := foldM f a l1 in foldM f a' l2.
Proof.
  revert a. induction l1 as [|b l1 IH]; intros a; simpl; [done|].
  destruct (f a b); simpl; auto.
Qed.

Section alist_incr.
  Context {K : Type} `{EqDecision K}.
  Implicit Types (k : K) (l : list (K * Z)) (P : K -> bool).

Lemma weight_cons P k v l : weight P ((k, v) :: l) = (if P k then v else 0) + weight P l.
Proof. done. Qed.

Lemma weight_app P l1 l2 : weight P (l1 ++ l2) = weight P l1 + weight P l2.
Proof. unfold weight. by rewrite fmap_app, sum_Z_app. Qed.

Lemma weight_set P k c v l :
  alist_get k l = Some c ->
  weight P (alist_set k v l) = weight P l + (if P k then v - c else 0).
Proof.
  induction l as [|[k' c'] l IH]; simpl; [done|].
  case_decide as Hk; subst; rewrite !weight_cons.
  - intros [= ->]. destruct (P k'); lia.
  - intros Hget. rewrite IH by done. lia.
Qed.

(** Adding [v] under [k] moves the weight of [P] by [v] if [P] holds of [k]. *)
Lemma weight_incr P k v l :
  weight P (alist_incr k v l) mod 2 ^ 64 = (weight P l + (if P k then v else 0)) mod 2 ^ 64.
Proof.
  unfold alist_incr. destruct (alist_get k l) as [c|] eqn:Hget.
  - rewrite (weight_set P k c) by done. destruct (P k); [|done].
    replace (weight P l + (wrap_i64 (c + v) - c))
      with ((weight P l - c) + wrap_i64 (c + v)) by lia.
    rewrite <-Zplus_mod_idemp_r, wrap_i64_mod, Zplus_mod_idemp_r. f_equal. lia.
  - rewrite weight_app, weight_cons. destruct (P k).
    + replace (weight P l + (wrap_i64 v + weight P [])) with (weight P l + wrap_i64 v)
        by (unfold weight; simpl; lia).
      by rewrite <-Zplus_mod_idemp_r, wrap_i64_mod, Zplus_mod_idemp_r.
    + unfold weight at 2. simpl. done.
Qed.

Lemma weight_incrs P kvs l :
  weight P (foldl (fun l kv => alist_incr kv.1 kv.2 l) l kvs) mod 2 ^ 64
  = (weight P l + weight P kvs) mod 2 ^ 64.
Proof.
  revert l. induction kvs as [|[k v] kvs IH]; intros l; simpl.
  - unfold weight at 3. simpl. by rewrite Z.add_0_r.
  - rewrite IH, <-Zplus_mod_idemp_l, weight_incr, Zplus_mod_idemp_l, weight_cons.
    f_equal. lia.
Qed.

Lemma incr_keys k v l :
  (alist_incr k v l).*1 = if decide (k ∈ l.*1) then l.*1 else l.*1 ++ [k].
Proof.
  unfold alist_incr. destruct (alist_get k l) as [c|] eqn:Hget.
  - rewrite alist_set_keys, decide_True; [done|].
    apply list_elem_of_fmap. exists (k, c). split; [done|]. by apply alist_get_elem.
  - apply alist_get_None in Hget. by rewrite decide_False, fmap_app.
Qed.

Lemma incr_nodup k v l : NoDup l.*1 -> NoDup (alist_incr k v l).*1.
Proof.
  intros Hl. rewrite incr_keys. case_decide; [done|].
  apply NoDup_app. split_and!; [done|set_solver|apply NoDup_singleton].
Qed.

Lemma set_range k v l :
  is_i64 v -> Forall (fun kv => is_i64 kv.2) l -> Forall (fun kv => is_i64 kv.2) (alist_set k v l).
Proof.
  intros Hv. induction 1 as [|[k' v'] l Hkv Hl IH]; simpl; [constructor|].
  case_decide; by constructor.
Qed.

Lemma incr_range k v l :
  Forall (fun kv => is_i64 kv.2) l -> Forall (fun kv => is_i64 kv.2) (alist_incr k v l).
Proof.
  intros Hl. unfold alist_incr. case_match.
  - apply set_range; [apply wrap_i64_range|done].
  - apply Forall_app. split; [done|]. constructor; [apply wrap_i64_range|done].
Qed.

Lemma incrs_ok kvs l :
  tally_ok l -> tally_ok (foldl (fun l kv => alist_incr kv.1 kv.2 l) l kvs).
Proof.
  revert l. induction kvs as [|[k v] kvs IH]; intros l [Hn Hr]; simpl; [done|].
  apply IH. split; [by apply incr_nodup|by apply incr_range].
Qed.

Lemma incrs_keys kvs l k :
  k ∈ (foldl (fun l kv => alist_incr kv.1 kv.2 l) l kvs).*1 <-> k ∈ l.*1 \/ k ∈ kvs.*1.
Proof.
  revert l. induction kvs as [|[k' v'] kvs IH]; intros l; csimpl; [set_solver|].
  rewrite IH, incr_keys. case_decide; set_solver.
Qed.

(** In a well-formed tally the counter of [k] is the weight of [k]. *)
Lemma weight_single k l :
  NoDup l.*1 ->
  weight (fun k' => bool_decide (k' = k)) l = default 0 (alist_get k l).
Proof.
  induction l as [|[k' c] l IH]; csimpl; [done|]. intros [Hk Hl]%NoDup_cons.
  rewrite weight_cons. case_decide as Hd; subst.
  - rewrite bool_decide_true by done. rewrite IH by done.
    rewrite (proj2 (alist_get_None _ _)) by done. simpl. lia.
  - rewrite bool_decide_false by congruence. rewrite IH by done. lia.
Qed.

(** The weight of a class of keys only depends on which keys are in it. *)
Lemma weight_ext P Q l : (forall k, k ∈ l.*1 -> P k = Q k) -> weight P l = weight Q l.
Proof.
  induction l as [|[k v] l IH]; csimpl; [done|]. intros HPQ. rewrite !weight_cons.
  rewrite HPQ, IH by set_solver. done.
Qed.

Lemma tally_counter k c l :
  tally_ok l -> alist_get k l = Some c ->
  c = wrap_i64 (weight (fun k' => bool_decide (k' = k)) l).
Proof.
  intros [Hn Hr] Hget. rewrite weight_single, Hget by done. simpl.
  rewrite Forall_forall in Hr. rewrite wrap_i64_small; [done|].
  apply (Hr (k, c)). by apply alist_get_elem.
Qed.

End alist_incr.

Section ht_incr.
  Context {HT : Type -> Type -> Type} `{ZendHashLaws HT}.

Lemma ht_incr_elems {K} `{EqDecision K} (k : K) v (h : HT K Z) :
  zh_elems (ht_incr k v h) = alist_incr k v (zh_elems h).
Proof.
  unfold ht_incr, alist_incr. rewrite zend_hash_find_spec.
  destruct (alist_get k (zh_elems h)) as [c|] eqn:Hget; rewrite zend_hash_write_spec; [done|].
  rewrite zend_hash_add_spec. unfold alist_add. rewrite Hget.
  revert Hget. induction (zh_elems h) as [|[k' c] l IH]; simpl.
  - intros _. by rewrite decide_True.
  - case_decide; [done|]. intros Hget. by rewrite IH.
Qed.

Lemma ht_incrs_elems {K} `{EqDecision K} (kvs : list (K * Z)) (h : HT K Z) :
  zh_elems (foldl (fun h kv => ht_incr kv.1 kv.2 h) h kvs)
  = foldl (fun l kv => alist_incr kv.1 kv.2 l) (zh_elems h) kvs.
Proof.
  revert h. induction kvs as [|[k v] kvs IH]; intros h; simpl; [done|].
  by rewrite IH, ht_incr_elems.
Qed.

End ht_incr.

#[export] Hint Resolve incr_nodup incr_range incrs_ok : excimer.
