(* ===== verification/LogFormat.v ===== *)
(** * The collapsed (flame graph) format

    Models [excimer_log_append_no_spaces], [excimer_log_append_frame_name] and
    [excimer_log_format_collapsed] of [excimer_log.c], together with the loop
    over the entries that all the formatters share. A [smart_str] is the string
    it holds. *)

From S2P Require Import Prelude ZendHash Log LogTrace Tally.
From Stdlib Require Import Ascii.

Fixpoint map_string (f : ascii -> ascii) (s : string) : string :=
  match s with
  | EmptyString => EmptyString
  | String c s' => String (f c) (map_string f s')
  end.

(** [if (c == ' ' || c == '\0') c = '_'] *)
Definition no_space_char (c : ascii) : ascii :=
  if bool_decide (c = " "%char) || bool_decide (c = NUL) then "_"%char else c.

Definition excimer_log_append_no_spaces (dest src : string) : string :=
  dest +:+ map_string no_space_char src.

Definition excimer_log_append_frame_name (ss : string) (frame : excimer_log_frame) : outcome string :=
  if negb (closure_line frame =? 0) then
    let! fname := deref (filename frame) in
    Ok (excimer_log_append_no_spaces (ss +:+ "{closure:") fname
        +:+ "(" +:+ printf_d (closure_line frame) +:+ ")}")
  else
    match function_name frame with
    | None =>
        let! fname := deref (filename frame) in
        Ok (excimer_log_append_no_spaces ss fname)
    | Some fn =>
        let ss :=
          match class_name frame with
          | Some cls => excimer_log_append_no_spaces ss cls +:+ "::"
          | None => ss
          end in
        Ok (excimer_log_append_no_spaces ss fn)
    end.

Definition ZEND_LONG_MAX : Z := 2 ^ 63 - 1.
Definition NL : string := String "010"%char EmptyString.

Section format.
  Context {HT : Type -> Type -> Type} `{ZendHash HT}.
  Implicit Types (log : excimer_log HT).

(** [for (i = 0; i < log->entries_size; i++) { entry = get_entry(log, i); ... }] *)
Definition for_entries {A} log (body : A -> excimer_log_entry -> outcome A) (a : A) : outcome A :=
  foldM (fun a i => let! entry := deref (excimer_log_get_entry log i) in body a entry)
    a (seqZ 0 (entries_size log)).

(** The loop that builds [frame_ptrs]: the pointers collected so far, and the
    capacity of the array, which stays from one trace to the next. *)
Fixpoint collect_loop (fuel : nat) log (index : Z) (st : list excimer_log_frame * Z) :
    outcome (list excimer_log_frame * Z) :=
  match fuel with
  | O => Diverge
  | S fuel' =>
      if index =? 0 then Ok st
      else
        let '(frame_ptrs, capacity) := st in
        let frame := excimer_log_get_frame log index in
        let! capacity :=
          (if capacity <=? Z.of_nat (length frame_ptrs) then
             if ZEND_LONG_MAX - 1 <=? capacity then Fatal "Too many Excimer frames"
             else Ok (capacity + 1)
           else Ok capacity) in
        let! frame := deref frame in
        collect_loop fuel' log (prev_index frame) (frame_ptrs ++ [frame], capacity)
  end.

(** "Run through the array in reverse": [line_start] and the line so far. *)
Definition line_step (st : bool * string) (frame : excimer_log_frame) : outcome (bool * string) :=
  let ss_line := if st.1 then st.2 else st.2 +:+ ";" in
  let! ss_line := excimer_log_append_frame_name ss_line frame in
  Ok (false, ss_line).

Definition build_line (frame_ptrs : list excimer_log_frame) : outcome string :=
  let! st := foldM line_step (true, "") (reverse frame_ptrs) in
  Ok st.2.

Definition render_lines (lines : list (string * Z)) : string :=
  foldl (fun ss_out line_count =>
    ss_out +:+ line_count.1 +:+ " " +:+ printf_ld line_count.2 +:+ NL) "" lines.

(** One turn of the loop that formats traces: [ht_lines] and the capacity of
    [frame_ptrs], for a frame with its count. *)
Definition collapse_step log (st : HT string Z * Z) (frame_count : Z * Z) : outcome (HT string Z * Z) :=
  let! collected := collect_loop (S (length (frames log))) log frame_count.1 ([], st.2) in
  let! str_line := build_line collected.1 in
  Ok (ht_incr str_line frame_count.2 st.1, collected.2).

Definition excimer_log_format_collapsed log : outcome string :=
  (* Collate frame counts *)
  let! ht_frame_counts :=
    for_entries log
      (fun h entry => Ok (ht_incr (frame_index entry) (entry_event_count entry) h))
      (zend_new_array : HT Z Z) in
  (* Format traces, and deduplicate frames that differ only in hidden line numbers *)
  let! lines := foldM (collapse_step log) (zend_new_array, 0) (zh_elems ht_frame_counts) in
  (* Concatenate lines *)
  Ok (render_lines (zh_elems lines.1)).

(** ** Specification *)

Definition frame_name (f : excimer_log_frame) : string :=
  let plain := map_string no_space_char in
  let fname := plain (default "" (filename f)) in
  if negb (closure_line f =? 0) then "{closure:" +:+ fname +:+ "(" +:+ printf_d (closure_line f) +:+ ")}"
  else
    match function_name f with
    | None => fname
    | Some fn =>
        match class_name f with
        | Some cls => plain cls +:+ "::" +:+ plain fn
        | None => plain fn
        end
    end.

(** The line of a trace: frame names from the outermost call inwards. *)
Definition stack_line log (index : Z) : string :=
  String.concat ";" (frame_name <$> reverse (chain (frames log) index)).

(** Every entry with its frame, and with its line, and its event count. *)
Definition entry_frames log : list (Z * Z) :=
  (fun e => (frame_index e, entry_event_count e)) <$> entries log.

Definition entry_lines log : list (string * Z) :=
  (fun e => (stack_line log (frame_index e), entry_event_count e)) <$> entries log.

(** No name of the log contains a line break. *)
Definition no_newline log : Prop :=
  Forall (fun f => forall s, Some s ∈ [filename f; class_name f; function_name f] ->
    str_mem "010"%char s = false) (frames log).

End format.

(** ** Strings: lemmas *)

Lemma map_no_space_mem s :
  str_mem " "%char (map_string no_space_char s) = false /\
  str_mem NUL (map_string no_space_char s) = false.
Proof.
  induction s as [|c s [IH1 IH2]]; simpl; [done|]. rewrite IH1, IH2, !orb_false_r.
  unfold no_space_char. split; apply bool_decide_eq_false_2;
    repeat case_bool_decide; simpl; by intros ?.
Qed.

Lemma map_string_mem c s :
  c <> "_"%char -> str_mem c s = false -> str_mem c (map_string no_space_char s) = false.
Proof.
  intros Hc. induction s as [|a s IH]; simpl; [done|].
  intros [Ha Hs]%orb_false_elim. rewrite IH, orb_false_r by done.
  unfold no_space_char. case_match; [|done]. apply bool_decide_eq_false_2. congruence.
Qed.

(** Names contain neither spaces nor NULs, so that a line can be told from its
    count. *)
Lemma frame_name_no_space f : str_mem " "%char (frame_name f) = false.
Proof.
  unfold frame_name, printf_d.
  destruct (negb _); [|destruct (function_name f); [destruct (class_name f)|]];
    rewrite ?str_mem_app, ?(proj1 (map_no_space_mem _)); [|done..].
  by rewrite pretty_Z_mem.
Qed.

Lemma concat_mem c sep l :
  str_mem c sep = false -> Forall (fun s => str_mem c s = false) l ->
  str_mem c (String.concat sep l) = false.
Proof.
  intros Hsep. induction 1 as [|s l Hs Hl IH]; simpl; [done|].
  destruct l; [done|]. rewrite !str_mem_app, Hs, Hsep. exact IH.
Qed.

Lemma concat_snoc sep l s :
  String.concat sep (l ++ [s])
  = if decide (l = []) then s else String.concat sep l +:+ sep +:+ s.
Proof.
  case_decide as Hl; [by subst|]. induction l as [|x l IH]; [done|].
  destruct l as [|y l]; [done|]. cbn [app String.concat] in *.
  rewrite IH by done. by rewrite !str_app_assoc.
Qed.

Lemma frame_name_no_newline f :
  (forall s, Some s ∈ [filename f; class_name f; function_name f] -> str_mem "010"%char s = false) ->
  str_mem "010"%char (frame_name f) = false.
Proof.
  intros Hs.
  assert (Hm : forall o s, o ∈ [filename f; class_name f; function_name f] -> o = Some s ->
    str_mem "010"%char (map_string no_space_char s) = false).
  { intros o s Ho ->. apply map_string_mem; [done|]. by apply Hs. }
  assert (Hf : str_mem "010"%char (map_string no_space_char (default "" (filename f))) = false).
  { destruct (filename f) eqn:E; [|done]. apply (Hm (filename f)); [set_solver|done]. }
  unfold frame_name, printf_d.
  destruct (negb _); [rewrite !str_mem_app, Hf, pretty_Z_mem; done|].
  destruct (function_name f) eqn:Ef; [|done].
  assert (Hfn := Hm (function_name f) s ltac:(rewrite Ef; set_solver) Ef).
  destruct (class_name f) eqn:Ec; [|done].
  rewrite !str_mem_app, Hfn, (Hm (class_name f) s0 ltac:(rewrite Ec; set_solver) Ec). done.
Qed.

(** ** The rendered table *)

Lemma render_lines_app out l :
  foldl (fun ss_out line_count =>
    ss_out +:+ line_count.1 +:+ " " +:+ printf_ld line_count.2 +:+ NL) out l
  = out +:+ render_lines l.
Proof.
  unfold render_lines. revert out. induction l as [|x l IH]; intros out; simpl.
  - by rewrite str_app_nil_r.
  - rewrite IH, (IH (x.1 +:+ _)). by rewrite !str_app_assoc.
Qed.

Lemma render_lines_cons line n l :
  render_lines ((line, n) :: l)
  = (line +:+ String " "%char (printf_ld n)) +:+ String "010"%char (render_lines l).
Proof.
  unfold render_lines at 1. simpl. rewrite render_lines_app, !str_app_assoc. simpl. by rewrite str_app_assoc.
Qed.

Lemma render_lines_inj l1 l2 :
  Forall (fun x => str_mem "010"%char x.1 = false /\ is_i64 x.2) l1 ->
  Forall (fun x => str_mem "010"%char x.1 = false /\ is_i64 x.2) l2 ->
  render_lines l1 = render_lines l2 -> l1 = l2.
Proof.
  intros Hl1. revert l2.
  assert (Hnl : forall s n, str_mem "010"%char s = false ->
    str_mem "010"%char (s +:+ String " "%char (printf_ld n)) = false).
  { intros s n Hs. rewrite str_mem_app, Hs. simpl. unfold printf_ld. by apply pretty_Z_mem. }
  assert (Hne : forall s n t, s +:+ String " "%char (printf_ld n) +:+ String "010"%char t <> "").
  { by intros [|c s] n t. }
  induction Hl1 as [|[s1 n1] l1 [Hs1 Hn1] Hl1 IH]; intros [|[s2 n2] l2] Hl2;
    rewrite ?render_lines_cons, ?str_app_assoc; intros Heq.
  - done.
  - by symmetry in Heq; apply Hne in Heq.
  - by apply Hne in Heq.
  - apply Forall_cons in Hl2 as [[Hs2 Hn2] Hl2]. rewrite <-!str_app_assoc in Heq.
    apply str_split_first in Heq as [Heq Ht]; [|by apply Hnl..].
    apply str_split_last in Heq as [Hs Hd]; [|by apply pretty_Z_mem..].
    unfold printf_ld in Hd. apply (inj pretty) in Hd. cbn [fst snd] in *. rewrite !wrap_i64_small in Hd by done.
    rewrite (IH l2 Hl2 Ht). by subst.
Qed.

(** ** The formatter: lemmas *)

Section format_facts.
  Context {HT : Type -> Type -> Type} `{ZendHashLaws HT}.
  Implicit Types (log : excimer_log HT).

Lemma foldM_deref {A B C} (f : A -> C -> outcome A) (g : B -> outcome C) l1 l2 a :
  Forall2 (fun b c => g b = Ok c) l1 l2 ->
  foldM (fun a b => let! c := g b in f a c) a l1 = foldM f a l2.
Proof.
  intros Hl. revert a. induction Hl as [|b c l1 l2 Hb Hl IH]; intros a; simpl; [done|].
  rewrite Hb. simpl. destruct (f a c); simpl; auto.
Qed.

Lemma get_entry_lookup log i e :
  array_get (entries log) i = Some e -> excimer_log_get_entry log i = Some e.
Proof.
  intros He. pose proof (array_get_Some _ _ _ He) as [Hi _].
  unfold excimer_log_get_entry, entries_size, wrap_u64.
  rewrite (proj2 (Z.leb_le 0 i)) by lia.
  rewrite (proj2 (Z.ltb_lt _ _)); [done|]. pose proof (Z.mod_le i (2 ^ 64)). lia.
Qed.

(** The loop over the indices of the entries visits the entries in order. *)
Lemma entry_indexes log :
  Forall2 (fun i e => deref (excimer_log_get_entry log i) = Ok e) (seqZ 0 (entries_size log)) (entries log).
Proof.
  apply Forall2_same_length_lookup. unfold entries_size. rewrite length_seqZ. split; [lia|].
  intros i j e [-> Hi]%lookup_seqZ He. rewrite Z.add_0_l.
  rewrite (get_entry_lookup log _ e); [done|]. by rewrite array_get_lookup.
Qed.

Lemma for_entries_eq {A} log (body : A -> excimer_log_entry -> outcome A) a :
  for_entries log body a = foldM body a (entries log).
Proof. unfold for_entries. apply foldM_deref, entry_indexes. Qed.

(** Every frame of a well-formed log but the first has a file name. *)
Lemma frame_filename log i f :
  log_wf log -> 0 < i -> array_get (frames log) i = Some f -> exists s, filename f = Some s.
Proof.
  intros Hwf Hi Hf.
  destruct (wf_lookup_complete _ Hwf i f Hi Hf) as (k & [(s & Hs & _)|[_ ->]] & _); eauto.
Qed.

Lemma chain_filenames log i :
  log_wf log -> 0 <= i < frames_size log ->
  Forall (fun f => exists s, filename f = Some s) (chain (frames log) i).
Proof.
  intros Hwf. revert i. unfold frames_size.
  apply chain_ind; [apply (wf_frames _ Hwf)|constructor|]. intros i f Hi Hf Hp IH.
  rewrite (chain_step _ i f) by (done || apply (wf_frames _ Hwf)).
  constructor; [by eapply frame_filename|done].
Qed.

Lemma append_frame_name_spec ss f :
  (exists s, filename f = Some s) ->
  excimer_log_append_frame_name ss f = Ok (ss +:+ frame_name f).
Proof.
  intros [s Hs]. unfold excimer_log_append_frame_name, frame_name, excimer_log_append_no_spaces.
  rewrite Hs. simpl. destruct (negb _); [by rewrite !str_app_assoc|].
  destruct (function_name f); [|done]. destruct (class_name f); by rewrite ?str_app_assoc.
Qed.

Lemma build_line_spec ptrs :
  Forall (fun f => exists s, filename f = Some s) ptrs ->
  build_line ptrs = Ok (String.concat ";" (frame_name <$> reverse ptrs)).
Proof.
  intros Hp. unfold build_line.
  assert (Hrev : Forall (fun f => exists s, filename f = Some s) (reverse ptrs)).
  { by apply Forall_reverse. }
  revert Hrev. generalize (reverse ptrs). clear Hp ptrs. intros l Hl.
  enough (Hfold : foldM line_step (true, "") l
    = Ok (bool_decide (l = []), String.concat ";" (frame_name <$> l))) by by rewrite Hfold.
  induction l as [|f l IH] using rev_ind; [by rewrite bool_decide_true|].
  apply Forall_app in Hl as [Hl Hf]. rewrite Forall_singleton in Hf.
  rewrite foldM_app, (IH Hl). simpl. unfold line_step.
  rewrite append_frame_name_spec by done. simpl.
  rewrite (bool_decide_false (l ++ [f] = [])) by (by destruct l).
  rewrite fmap_app. change (frame_name <$> [f]) with [frame_name f]. rewrite concat_snoc.
  destruct l as [|g l]; [done|].
  rewrite decide_False by done. rewrite bool_decide_false by done. by rewrite str_app_assoc.
Qed.

Lemma collect_loop_spec log i cap :
  log_wf log -> 0 <= i < frames_size log -> 0 <= cap <= 2 ^ 32 ->
  exists cap', collect_loop (S (length (frames log))) log i ([], cap)
    = Ok (chain (frames log) i, cap') /\ 0 <= cap' <= 2 ^ 32.
Proof.
  intros Hwf Hi Hcap. pose proof (wf_size _ Hwf) as Hsz.
  set (step := fun f (st : list excimer_log_frame * Z) =>
    (st.1 ++ [f], if st.2 <=? Z.of_nat (length st.1) then st.2 + 1 else st.2)).
  destruct (chain_loop_inv log (fun n => collect_loop n log) step
    (fun j st => Z.of_nat (length st.1) + j <= i /\ 0 <= st.2 <= 2 ^ 32)
    Hwf) with (i := i) (n := S (length (frames log))) (a := ([] : list excimer_log_frame, cap))
    as [Hrun [_ Hc]]; [by intros n [] |..].
  - intros n j [ptrs c] f Hj Hf Hp [Hlen Hc]. simpl in Hlen, Hc. cbn [collect_loop].
    rewrite (proj2 (Z.eqb_neq _ _)) by lia. rewrite get_frame_eq, Hf by done.
    unfold step. simpl. unfold ZEND_LONG_MAX. rewrite length_app. simpl.
    destruct (Z.leb_spec c (Z.of_nat (length ptrs))); simpl.
    + rewrite (proj2 (Z.leb_gt (2 ^ 63 - 1 - 1) c)) by lia. simpl. split; [done|lia].
    + split; [done|lia].
  - done.
  - unfold frames_size in *. lia.
  - simpl. lia.
  - eexists. split; [|exact Hc]. rewrite Hrun. f_equal.
    rewrite (surjective_pairing (foldl _ _ _)). f_equal. clear.
    enough (Hgen : forall l st, (foldl (fun a f => step f a) st l).1 = st.1 ++ l) by by rewrite Hgen.
    induction l as [|f l IH]; intros st; simpl; [by rewrite app_nil_r|].
    rewrite IH. unfold step. simpl. by rewrite <-app_assoc.
Qed.

Lemma collate_counts_spec log :
  exists h : HT Z Z,
    for_entries log (fun h e => Ok (ht_incr (frame_index e) (entry_event_count e) h)) zend_new_array
      = Ok h /\
    zh_elems h = foldl (fun l kv => alist_incr kv.1 kv.2 l) [] (entry_frames log).
Proof.
  rewrite for_entries_eq. unfold entry_frames. rewrite <-(zh_elems_new (HT:=HT) (K:=Z) (V:=Z)).
  generalize (zend_new_array : HT Z Z). induction (entries log) as [|e es IH]; intros h; simpl.
  - by exists h.
  - rewrite <-ht_incr_elems. apply IH.
Qed.

Lemma collate_lines_spec log l (h : HT string Z) cap :
  log_wf log -> Forall (fun ic => 0 <= ic.1 < frames_size log) l -> 0 <= cap <= 2 ^ 32 ->
  exists h' cap', foldM (collapse_step log) (h, cap) l = Ok (h', cap') /\
    zh_elems h' = foldl (fun l kv => alist_incr kv.1 kv.2 l) (zh_elems h)
      ((fun ic => (stack_line log ic.1, ic.2)) <$> l).
Proof.
  intros Hwf Hl. revert h cap. induction Hl as [|[i c] l Hi Hl IH]; intros h cap Hcap.
  { by exists h, cap. }
  cbn [foldM fmap list_fmap foldl]. unfold collapse_step at 1. cbn [fst snd] in *.
  destruct (collect_loop_spec log i cap Hwf Hi Hcap) as (cap' & -> & Hcap').
  cbn [obind fst snd]. rewrite build_line_spec by by apply chain_filenames.
  cbn [obind fst snd]. rewrite <-ht_incr_elems. by apply IH.
Qed.

Lemma weight_fmap {K L} (g : K -> L) P (l : list (K * Z)) :
  weight P ((fun kv => (g kv.1, kv.2)) <$> l) = weight (fun k => P (g k)) l.
Proof. unfold weight. by rewrite <-list_fmap_compose. Qed.

Lemma entry_lines_frames log :
  entry_lines log = (fun kv => (stack_line log kv.1, kv.2)) <$> entry_frames log.
Proof. unfold entry_lines, entry_frames. by rewrite <-list_fmap_compose. Qed.

Lemma fmap_keys {K L} (g : K -> L) (l : list (K * Z)) :
  ((fun kv => (g kv.1, kv.2)) <$> l).*1 = g <$> l.*1.
Proof. by rewrite <-!list_fmap_compose. Qed.

Lemma entry_frames_keys log : (entry_frames log).*1 = frame_index <$> entries log.
Proof. unfold entry_frames. by rewrite <-list_fmap_compose. Qed.

Lemma entry_line_no_newline log line :
  log_wf log -> no_newline log -> line ∈ (entry_lines log).*1 -> str_mem "010"%char line = false.
Proof.
  intros Hwf Hnl. unfold entry_lines. rewrite <-list_fmap_compose, list_elem_of_fmap.
  intros (e & -> & He). simpl. unfold stack_line. apply concat_mem; [done|].
  pose proof (wf_entries _ Hwf) as Hall. rewrite Forall_forall in Hall. specialize (Hall e He).
  apply Forall_fmap, Forall_reverse. revert Hall. generalize (frame_index e).
  unfold frames_size. apply chain_ind; [apply (wf_frames _ Hwf)|constructor|].
  intros i f Hi Hf Hp IH. rewrite (chain_step _ i f) by (done || apply (wf_frames _ Hwf)).
  constructor; [|done]. simpl. apply frame_name_no_newline.
  apply array_get_Some in Hf as [_ Hf]. eapply Forall_lookup_1 in Hnl; [|done]. done.
Qed.

(** The frames of the entries, each once. *)
Lemma frame_counts_keys log :
  let counts := foldl (fun l kv => alist_incr kv.1 kv.2 l) [] (entry_frames log) in
  log_wf log ->
  NoDup counts.*1 /\ (forall i, i ∈ counts.*1 <-> i ∈ frame_index <$> entries log) /\
  Forall (fun ic => 0 <= ic.1 < frames_size log) counts.
Proof.
  intros counts Hwf.
  assert (Hkeys : forall i, i ∈ counts.*1 <-> i ∈ frame_index <$> entries log).
  { intros i. subst counts. rewrite incrs_keys. unfold entry_frames.
    rewrite <-list_fmap_compose. cbn [fmap list_fmap]. rewrite elem_of_nil. naive_solver. }
  split; [apply incrs_ok; split; constructor|]. split; [done|]. apply Forall_forall. intros ic Hic.
  assert (Hin : ic.1 ∈ frame_index <$> entries log) by (apply Hkeys, list_elem_of_fmap; eauto).
  apply list_elem_of_fmap in Hin as (e & -> & He).
  pose proof (wf_entries _ Hwf) as Hall. rewrite Forall_forall in Hall. by apply Hall.
Qed.

(** The table of lines that [excimer_log_format_collapsed] prints. *)
Lemma format_collapsed_table log :
  log_wf log ->
  exists table, excimer_log_format_collapsed log = Ok (render_lines table) /\
    tally_ok table /\
    (forall line, line ∈ table.*1 <-> line ∈ (entry_lines log).*1) /\
    (forall P, weight P table mod 2 ^ 64 = weight P (entry_lines log) mod 2 ^ 64).
Proof.
  intros Hwf. unfold excimer_log_format_collapsed.
  destruct (collate_counts_spec log) as (h & -> & Hh). cbn [obind]. rewrite Hh.
  set (counts := foldl _ [] (entry_frames log)).
  destruct (frame_counts_keys log Hwf) as (_ & Hkeys & Hrange). fold counts in Hkeys, Hrange.
  destruct (collate_lines_spec log counts zend_new_array 0 Hwf Hrange) as (h' & cap' & -> & Hh').
  { lia. }
  cbn [obind fst]. eexists. split; [done|]. rewrite Hh', zh_elems_new. split_and!.
  - apply incrs_ok. split; constructor.
  - intros line. rewrite incrs_keys, entry_lines_frames, !fmap_keys, !list_elem_of_fmap.
    setoid_rewrite Hkeys. setoid_rewrite <-entry_frames_keys. set_solver.
  - intros P. rewrite weight_incrs, weight_fmap. subst counts.
    rewrite <-Zplus_mod_idemp_r, weight_incrs, Zplus_mod_idemp_r.
    by rewrite entry_lines_frames, weight_fmap.
Qed.

End format_facts.

(** ** Properties of the collapsed format *)

Section properties.
  Context {HT : Type -> Type -> Type} `{ZendHashLaws HT}.
  Implicit Types (log : excimer_log HT).

(** C14. The collapsed format counts correctly: on every well-formed log the
    formatter terminates without an error, and prints one line for each distinct
    stack among the entries, with the sum of the event counts of the entries that
    have this stack (as a 64-bit integer), and no other line. *)
Theorem collapsed_counts log :
  log_wf log ->
  exists table, excimer_log_format_collapsed log = Ok (render_lines table) /\
    NoDup table.*1 /\
    forall line c, alist_get line table = Some c <->
      line ∈ (entry_lines log).*1 /\
      c = wrap_i64 (weight (fun line' => bool_decide (line' = line)) (entry_lines log)).
Proof.
  intros Hwf. destruct (format_collapsed_table log Hwf) as (table & Hrun & Hok & Hkeys & Hw).
  exists table. split_and!; [done|apply Hok|]. intros line c.
  assert (Hc : forall c, alist_get line table = Some c ->
    c = wrap_i64 (weight (fun line' => bool_decide (line' = line)) (entry_lines log))).
  { intros c' Hget. rewrite (tally_counter line c' table Hok Hget). apply wrap_i64_congr, Hw. }
  rewrite <-Hkeys. split.
  - intros Hget. split; [|by apply Hc]. apply list_elem_of_fmap. exists (line, c).
    split; [done|]. by apply alist_get_elem.
  - intros [Hin ->]. destruct (alist_get line table) as [c'|] eqn:Hget; [by rewrite <-(Hc c')|].
    by apply alist_get_None in Hget.
Qed.

(** No event is lost or counted twice: the counts of the collapsed format add
    up to the event count of the log (as 64-bit integers). *)
Theorem collapsed_total log :
  log_wf log ->
  exists table, excimer_log_format_collapsed log = Ok (render_lines table) /\
    wrap_i64 (sum_Z table.*2) = log_event_count log.
Proof.
  intros Hwf. destruct (format_collapsed_table log Hwf) as (table & Hrun & _ & _ & Hw).
  exists table. split; [done|]. rewrite (wf_event_count _ Hwf).
  assert (Hall : forall {K} (l : list (K * Z)), sum_Z l.*2 = weight (fun _ => true) l) by done.
  apply wrap_i64_congr. rewrite Hall, Hw. unfold weight, entry_lines.
  by rewrite <-list_fmap_compose.
Qed.


End properties.

(** ** Witnesses *)

Lemma collapsed_counts_witness :
  exists table, excimer_log_format_collapsed (ex_log1 0) = Ok (render_lines table) /\
    NoDup table.*1 /\
    forall line c, alist_get line table = Some c <->
      line ∈ (entry_lines (ex_log1 0)).*1 /\
      c = wrap_i64 (weight (fun line' => bool_decide (line' = line)) (entry_lines (ex_log1 0))).
Proof. apply (collapsed_counts (ex_log1 0)), ex_log1_wf. Defined.

Lemma collapsed_total_witness :
  exists table, excimer_log_format_collapsed (ex_log1 0) = Ok (render_lines table) /\
    wrap_i64 (sum_Z table.*2) = 1.
Proof. apply (collapsed_total (ex_log1 0)), ex_log1_wf. Defined.

