(* ===== verification/LogAggregate.v ===== *)
(** * Aggregation by function

    Models [excimer_log_array_incr], [excimer_log_aggr_compare] and
    [excimer_log_aggr_by_func] of [excimer_log.c]. The result table maps a
    function name to an array that has the frame information and the counters
    "self" and "inclusive". *)

From S2P Require Import Prelude ZendHash Log LogTrace Tally LogFormat.
From Stdlib Require Import Sorting.Sorted.

Section aggregate.
  Context {HT : Type -> Type -> Type} `{ZendHash HT}.
  Implicit Types (log : excimer_log HT) (ht info : HT string zval).

(** [ht[key] += term]; [Z_LVAL_P] of anything but an integer is a type
    confusion. *)
Definition excimer_log_array_incr ht (key : string) (term : Z) : outcome (HT string zval) :=
  match zend_hash_find key ht with
  | None => Ok (zend_hash_add key (ZV_long term) ht)
  | Some (ZV_long v) => Ok (zend_hash_write key (ZV_long (wrap_i64 (v + term))) ht)
  | Some _ => Crash "Z_LVAL_P of a value that is not an integer"
  end.

(** [Z_LVAL_P(zend_hash_str_find(ht, "inclusive"))]. *)
Definition inclusive_of info : Z :=
  match zend_hash_find "inclusive" info with
  | Some (ZV_long z) => z
  | _ => 0
  end.

(** [ZEND_NORMALIZE_BOOL]. *)
Definition normalize_bool (n : Z) : Z := if 0 <? n then 1 else if n <? 0 then -1 else 0.

Definition excimer_log_aggr_compare (a b : string * HT string zval) : Z :=
  normalize_bool (wrap_i64 (inclusive_of b.2 - inclusive_of a.2)).

(** "Make a human-readable name". *)
Definition aggr_name (frame : excimer_log_frame) : outcome string :=
  if negb (closure_line frame =? 0) then
    let! fname := deref (filename frame) in
    Ok ("{closure:" +:+ fname +:+ "(" +:+ printf_d (closure_line frame) +:+ ")}")
  else
    match function_name frame with
    | None => deref (filename frame)
    | Some fn =>
        match class_name frame with
        | Some cls => Ok (cls +:+ "::" +:+ fn)
        | None => Ok fn
        end
    end.

(** The state of the loops: [ht_result], [ht_unique_names] and [is_top]. *)
Record aggr_state : Type := AggrState {
  ht_result : HT string (HT string zval);
  ht_unique_names : HT string Z;
  is_top : bool
}.

(** The array that is added for a name: the frame, and two counters. *)
Definition new_info (frame : excimer_log_frame) : HT string zval :=
  zend_hash_add "inclusive" (ZV_long 0)
    (zend_hash_add "self" (ZV_long 0) (excimer_log_frame_to_array frame)).

(** The body of the inner loop for a frame and the event count of the entry. *)
Definition aggr_frame (event_count : Z) (frame : excimer_log_frame) (st : aggr_state) :
    outcome aggr_state :=
  let! sp_name := aggr_name frame in
  let '(result, info) :=
    match zend_hash_find sp_name (ht_result st) with
    | Some info => (ht_result st, info)
    | None => (zend_hash_add sp_name (new_info frame) (ht_result st), new_info frame)
    end in
  let! info :=
    (if is_top st then excimer_log_array_incr info "self" event_count else Ok info) in
  let! '(info, unique) :=
    match zend_hash_find sp_name (ht_unique_names st) with
    | None =>
        let! info := excimer_log_array_incr info "inclusive" event_count in
        Ok (info, zend_hash_add sp_name 0 (ht_unique_names st))
    | Some _ => Ok (info, ht_unique_names st)
    end in
  Ok (AggrState (zend_hash_write sp_name info result) unique false).

Fixpoint aggr_loop (fuel : nat) log (event_count index : Z) (st : aggr_state) : outcome aggr_state :=
  match fuel with
  | O => Diverge
  | S fuel' =>
      if index =? 0 then Ok st
      else
        let! frame := deref (excimer_log_get_frame log index) in
        let! st := aggr_frame event_count frame st in
        aggr_loop fuel' log event_count (prev_index frame) st
  end.

(** One entry: [ht_unique_names] is empty before and after. *)
Definition aggr_entry log (result : HT string (HT string zval)) (entry : excimer_log_entry) :
    outcome (HT string (HT string zval)) :=
  let! st := aggr_loop (S (length (frames log))) log (entry_event_count entry) (frame_index entry)
    (AggrState result zend_new_array true) in
  Ok (ht_result st).

Definition excimer_log_aggr_by_func log : outcome (HT string (HT string zval)) :=
  let! result := for_entries log (aggr_entry log) zend_new_array in
  Ok (zend_hash_sort excimer_log_aggr_compare result).

(** ** Specification *)

(** [aggr_name] of a frame that has a file name. *)
Definition func_name (f : excimer_log_frame) : string :=
  if negb (closure_line f =? 0)
  then "{closure:" +:+ default "" (filename f) +:+ "(" +:+ printf_d (closure_line f) +:+ ")}"
  else
    match function_name f with
    | None => default "" (filename f)
    | Some fn => match class_name f with Some cls => cls +:+ "::" +:+ fn | None => fn end
    end.

(** The names on the stack of an entry, innermost first. *)
Definition entry_names log (e : excimer_log_entry) : list string :=
  func_name <$> chain (frames log) (frame_index e).

(** The entries by the function that was running, and by all the functions that
    were on the stack. *)
Definition self_events log (es : list excimer_log_entry) : list (string * Z) :=
  es ≫= fun e => (fun nm => (nm, entry_event_count e)) <$> take 1 (entry_names log e).

Definition inclusive_events log (es : list excimer_log_entry) : list (string * Z) :=
  es ≫= fun e =>
    (fun nm => (nm, entry_event_count e)) <$> remove_dups (entry_names log e).

Definition named (nm : string) : string -> bool := fun nm' => bool_decide (nm' = nm).

(** The two counters of an array of the result, and of a name in the result. *)
Definition info_counters info : option (Z * Z) :=
  match zend_hash_find "self" info, zend_hash_find "inclusive" info with
  | Some (ZV_long s), Some (ZV_long i) => Some (s, i)
  | _, _ => None
  end.

Definition counters (result : HT string (HT string zval)) (nm : string) : option (Z * Z) :=
  match zend_hash_find nm result with
  | Some info => info_counters info
  | None => None
  end.

(** Every array of the result has both counters, in range. *)
Definition result_ok (result : HT string (HT string zval)) : Prop :=
  NoDup (zh_elems result).*1 /\
  forall nm info, zend_hash_find nm result = Some info ->
    exists s i, info_counters info = Some (s, i) /\ is_i64 s /\ is_i64 i.

(** [ht_unique_names] as a set. *)
Definition seen (unique : HT string Z) (nm : string) : bool :=
  match zend_hash_find nm unique with Some _ => true | None => false end.

(** What is added to a counter under a condition. *)
Definition when (b : bool) (n : Z) : Z := if b then n else 0.

(** The counts of a log that can not overflow a 64-bit integer. *)
Definition counts_fit log : Prop :=
  Forall (fun e => 0 <= entry_event_count e) (entries log) /\
  sum_Z (entry_event_count <$> entries log) < 2 ^ 63.

(** A pair of counters after an event count of [n] was added to "self" if [top],
    and to "inclusive" if [fresh]. *)
Definition bump (n : Z) (top fresh : bool) (c : option (Z * Z)) : option (Z * Z) :=
  let '(s, i) := default (0, 0) c in
  Some (wrap_i64 (s + when top n), wrap_i64 (i + when fresh n)).

(** The counters of [x] after the entries [es]. *)
Definition totals log (es : list excimer_log_entry) (x : string) : option (Z * Z) :=
  if decide (x ∈ (inclusive_events log es).*1)
  then Some (wrap_i64 (weight (named x) (self_events log es)),
             wrap_i64 (weight (named x) (inclusive_events log es)))
  else None.

(** The first name of a stack is [x]. *)
Definition heads (x : string) (nms : list string) : bool := bool_decide (head nms = Some x).

End aggregate.
Arguments aggr_state HT : clear implicits.

(** [Foo::bar] calling itself, from the main script. *)
Definition ex_recursive : list zend_execute_data :=
  [ExecData (Some ex_bar) 6; ExecData (Some ex_bar) 7; ExecData (Some ex_main) 20].

Definition ex_log2 : excimer_log alist := (excimer_log_add ex_recursive 2 2000 (ex_log1 0)).1.

(** ** Lemmas *)

Section aggregate_facts.
  Context {HT : Type -> Type -> Type} `{ZendHashLaws HT}.
  Implicit Types (log : excimer_log HT) (info : HT string zval).
  Abbreviation aggr_cmp := (excimer_log_aggr_compare (HT:=HT)).

Lemma aggr_name_spec f : (exists s, filename f = Some s) -> aggr_name f = Ok (func_name f).
Proof.
  intros [s Hs]. unfold aggr_name, func_name. rewrite Hs. simpl.
  destruct (negb _); [done|]. destruct (function_name f); [|done]. by destruct (class_name f).
Qed.

(** The array of a frame has no counters of its own. *)
Lemma frame_to_array_fresh f key :
  key ∉ ["file"; "line"; "class"; "function"; "closure_line"] ->
  zend_hash_find key (excimer_log_frame_to_array (HT:=HT) f) = None.
Proof.
  intros Hkey.
  assert (Hne : forall k : string, k ∈ ["file"; "line"; "class"; "function"; "closure_line"] ->
    key <> k) by (intros k Hk ->; done).
  unfold excimer_log_frame_to_array, add_string_opt.
  destruct (closure_line f =? 0), (filename f), (class_name f), (function_name f);
    repeat (rewrite hash_find_add, decide_False by (apply Hne; set_solver));
    apply hash_find_new.
Qed.

Lemma new_info_counters f : info_counters (new_info (HT:=HT) f) = Some (0, 0).
Proof.
  unfold info_counters, new_info. rewrite !hash_find_add. simpl.
  rewrite !frame_to_array_fresh by set_solver. done.
Qed.

Lemma info_counters_inv info s i :
  info_counters info = Some (s, i) ->
  zend_hash_find "self" info = Some (ZV_long s) /\
  zend_hash_find "inclusive" info = Some (ZV_long i).
Proof. unfold info_counters. repeat case_match; intros; by simplify_eq. Qed.

Lemma incr_self info s i n :
  info_counters info = Some (s, i) ->
  exists info', excimer_log_array_incr info "self" n = Ok info' /\
    info_counters info' = Some (wrap_i64 (s + n), i).
Proof.
  intros [Hs Hi]%info_counters_inv. unfold excimer_log_array_incr. rewrite Hs.
  eexists. split; [done|]. unfold info_counters. rewrite !hash_find_write, Hs, Hi. done.
Qed.

Lemma incr_inclusive info s i n :
  info_counters info = Some (s, i) ->
  exists info', excimer_log_array_incr info "inclusive" n = Ok info' /\
    info_counters info' = Some (s, wrap_i64 (i + n)).
Proof.
  intros [Hs Hi]%info_counters_inv. unfold excimer_log_array_incr. rewrite Hi.
  eexists. split; [done|]. unfold info_counters. rewrite !hash_find_write, Hs, Hi. done.
Qed.

(** The array of a name, which is made if there is none yet. *)
Lemma lookup_info_spec nm f (result : HT string (HT string zval)) :
  result_ok result ->
  exists (result' : HT string (HT string zval)) (info : HT string zval) s i,
    match zend_hash_find nm result with
    | Some info => (result, info)
    | None => (zend_hash_add nm (new_info (HT:=HT) f) result, new_info f)
    end = (result', info) /\
    info_counters info = Some (s, i) /\ (s, i) = default (0, 0) (counters result nm) /\
    is_i64 s /\ is_i64 i /\ NoDup (zh_elems result').*1 /\ zend_hash_find nm result' = Some info /\
    forall x, x <> nm -> zend_hash_find x result' = zend_hash_find x result.
Proof.
  intros [Hnd Hok]. unfold counters.
  destruct (zend_hash_find nm result) as [info|] eqn:Hget.
  - destruct (Hok nm info Hget) as (s & i & Hc & Hs & Hi).
    exists result, info, s, i. by rewrite Hc.
  - eexists _, _, 0, 0. split_and!; [done|apply new_info_counters|done|done..|
      by apply hash_add_nodup|by rewrite hash_find_add, decide_True, Hget|].
    intros x Hx. by rewrite hash_find_add, decide_False.
Qed.

(** Counting a name as "inclusive" unless it was seen before. *)
Lemma count_inclusive_spec nm n info s i (unique : HT string Z) :
  info_counters info = Some (s, i) -> is_i64 i ->
  exists info' unique',
    match zend_hash_find nm unique with
    | None =>
        let! info := excimer_log_array_incr info "inclusive" n in
        Ok (info, zend_hash_add nm 0 unique)
    | Some _ => Ok (info, unique)
    end = Ok (info', unique') /\
    info_counters info' = Some (s, wrap_i64 (i + when (negb (seen unique nm)) n)) /\
    forall x, seen unique' x = seen unique x || bool_decide (x = nm).
Proof.
  intros Hinfo Hi. unfold seen at 1. destruct (zend_hash_find nm unique) eqn:Hu; simpl.
  - exists info, unique. split_and!; [done|by rewrite Z.add_0_r, (wrap_i64_small i)|].
    intros x. unfold seen. case_bool_decide; [subst; by rewrite Hu|by rewrite orb_false_r].
  - destruct (incr_inclusive info _ _ n Hinfo) as (info2 & -> & Hc). cbn [obind].
    eexists _, _. split_and!; [done..|]. intros x. unfold seen. rewrite hash_find_add.
    case_decide; [subst; by rewrite Hu, bool_decide_true|].
    by rewrite bool_decide_false, orb_false_r.
Qed.

Lemma aggr_frame_spec n f (st : aggr_state HT) :
  result_ok (ht_result st) -> (exists s, filename f = Some s) ->
  exists st', aggr_frame n f st = Ok st' /\ is_top st' = false /\ result_ok (ht_result st') /\
    (forall x, seen (ht_unique_names st') x = seen (ht_unique_names st) x || bool_decide (x = func_name f)) /\
    (forall x, counters (ht_result st') x =
      if decide (x = func_name f)
      then bump n (is_top st) (negb (seen (ht_unique_names st) x)) (counters (ht_result st) x)
      else counters (ht_result st) x).
Proof.
  intros Hok Hfn. unfold aggr_frame. rewrite aggr_name_spec by done. cbn [obind].
  set (nm := func_name f).
  destruct (lookup_info_spec nm f (ht_result st) Hok)
    as (result & info & s & i & -> & Hinfo & Hsi & Hs & Hi & Hrn & Hrf & Hro).
  assert (exists info1, (if is_top st then excimer_log_array_incr info "self" n else Ok info) = Ok info1
    /\ info_counters info1 = Some (wrap_i64 (s + when (is_top st) n), i)) as (info1 & -> & Hinfo1).
  { destruct (is_top st); [by apply incr_self|]. exists info. simpl.
    by rewrite Z.add_0_r, wrap_i64_small. }
  cbn [obind].
  destruct (count_inclusive_spec nm n info1 _ i (ht_unique_names st) Hinfo1 Hi)
    as (info2 & unique & -> & Hinfo2 & Hseen).
  cbn [obind]. eexists. split_and!; [done|done| |done|]; cbn [ht_result].
  - split; [by apply hash_write_nodup|]. intros x inf. rewrite hash_find_write.
    case_decide as Hx; [subst|rewrite Hro by done; apply Hok].
    rewrite Hrf. intros [= <-]. eexists _, _. split_and!; [done|apply wrap_i64_range..].
  - intros x. unfold counters at 1. rewrite hash_find_write. case_decide as Hx; [subst|].
    + rewrite Hrf. simpl. unfold bump. by rewrite <-Hsi.
    + by rewrite Hro.
Qed.

Lemma bump_again n top fresh c : bump n false false (bump n top fresh c) = bump n top fresh c.
Proof.
  unfold bump. destruct (default (0, 0) c) as [s i]. simpl.
  rewrite !Z.add_0_r. by rewrite !wrap_i64_idemp.
Qed.

(** The frames of one entry. *)
Lemma aggr_frames_spec n fs (st : aggr_state HT) :
  Forall (fun f => exists s, filename f = Some s) fs -> result_ok (ht_result st) ->
  exists st', foldM (fun st f => aggr_frame n f st) st fs = Ok st' /\ result_ok (ht_result st') /\
    forall x, counters (ht_result st') x =
      if decide (x ∈ func_name <$> fs)
      then bump n (is_top st && heads x (func_name <$> fs)) (negb (seen (ht_unique_names st) x))
             (counters (ht_result st) x)
      else counters (ht_result st) x.
Proof.
  intros Hfs. revert st. induction Hfs as [|f fs Hf Hfs IH]; intros st Hok.
  { exists st. split_and!; [done..|]. intros x. by rewrite decide_False by (apply not_elem_of_nil). }
  destruct (aggr_frame_spec n f st Hok Hf) as (st1 & Hrun & Htop & Hok1 & Hseen & Hc).
  destruct (IH st1 Hok1) as (st' & Hrun' & Hok' & Hc').
  exists st'. cbn [foldM]. rewrite Hrun. cbn [obind]. split_and!; [done..|].
  intros x. rewrite Hc', Hc, Htop, Hseen. rewrite fmap_cons. unfold heads. simpl.
  destruct (decide (x = func_name f)) as [->|Hne].
  - rewrite (bool_decide_true (func_name f = func_name f)), orb_true_r by done. simpl.
    rewrite (decide_True (P := _ ∈ _ :: _)), bool_decide_true, andb_true_r by (done || set_solver).
    case_decide; [apply bump_again|done].
  - rewrite (bool_decide_false (x = func_name f)), orb_false_r by done.
    rewrite (bool_decide_false (Some _ = Some x)), andb_false_r by congruence.
    case_decide as Hin; [by rewrite decide_True by set_solver|].
    by rewrite decide_False by set_solver.
Qed.

Lemma aggr_loop_eq log n i fuel (st : aggr_state HT) :
  log_wf log -> 0 <= i < frames_size log -> (Z.to_nat i < fuel)%nat ->
  aggr_loop fuel log n i st = foldM (fun st f => aggr_frame n f st) st (chain (frames log) i).
Proof.
  intros Hwf Hi. revert fuel st. revert i Hi. unfold frames_size.
  refine (chain_ind (frames log) (fun i => forall fuel st, (Z.to_nat i < fuel)%nat ->
    aggr_loop fuel log n i st = foldM (fun st f => aggr_frame n f st) st (chain (frames log) i))
    (wf_frames _ Hwf) _ _).
  - by intros [|fuel] st Hn; [lia|].
  - intros i f Hi Hf Hp IH [|fuel] st Hn; [lia|].
    pose proof (array_get_Some _ _ _ Hf) as [Hr _].
    rewrite (chain_step _ i f) by (done || apply (wf_frames _ Hwf)). cbn [aggr_loop foldM].
    rewrite (proj2 (Z.eqb_neq _ _)) by lia. rewrite get_frame_eq, Hf by (done || unfold frames_size; lia). cbn [deref obind].
    destruct (aggr_frame n f st); cbn [obind]; [|done..]. apply IH. lia.
Qed.

Lemma weight_named_absent x l : x ∉ l.*1 -> weight (named x) l = 0.
Proof.
  induction l as [|[k v] l IH]; csimpl; [done|]. intros Hx. rewrite weight_cons, IH by set_solver.
  unfold named. rewrite bool_decide_false; [done|set_solver].
Qed.

Lemma weight_self x n nms :
  weight (named x) ((fun nm => (nm, n)) <$> take 1 nms) = when (heads x nms) n.
Proof.
  unfold heads. destruct nms as [|nm nms]; [done|]. csimpl.
  rewrite weight_cons. unfold named, weight, when. simpl.
  repeat case_bool_decide; congruence || lia.
Qed.

Lemma weight_distinct x n nms :
  NoDup nms -> weight (named x) ((fun nm => (nm, n)) <$> nms) = when (bool_decide (x ∈ nms)) n.
Proof.
  induction 1 as [|nm nms Hnm Hnd IH]; csimpl; [done|].
  rewrite weight_cons, IH. unfold named, when.
  destruct (decide (nm = x)) as [->|Hne].
  - rewrite (bool_decide_true (x = x)), (bool_decide_false (x ∈ nms)), (bool_decide_true (_ ∈ _ :: _))
      by (done || set_solver). lia.
  - rewrite (bool_decide_false (nm = x)) by done. repeat case_bool_decide; set_solver || lia.
Qed.

(** An entry with the names [nms]: the counters of every function. *)
Lemma aggr_entry_spec log result e :
  log_wf log -> 0 <= frame_index e < frames_size log -> result_ok result ->
  exists result', aggr_entry log result e = Ok result' /\ result_ok result' /\
    forall x, counters result' x =
      if decide (x ∈ entry_names log e)
      then bump (entry_event_count e) (heads x (entry_names log e)) true (counters result x)
      else counters result x.
Proof.
  intros Hwf Hi Hok. unfold aggr_entry, entry_names.
  rewrite aggr_loop_eq by (done || unfold frames_size in *; lia).
  destruct (aggr_frames_spec (entry_event_count e) (chain (frames log) (frame_index e))
    (AggrState result zend_new_array true)) as (st' & -> & Hok' & Hc);
    [by apply chain_filenames|done|].
  exists (ht_result st'). split_and!; [done..|]. intros x. rewrite Hc. simpl.
  unfold seen. by rewrite hash_find_new.
Qed.

Lemma inclusive_keys log es x :
  x ∈ (inclusive_events log es).*1 <-> exists e, e ∈ es /\ x ∈ entry_names log e.
Proof.
  unfold inclusive_events. rewrite list_elem_of_fmap. setoid_rewrite list_elem_of_bind.
  setoid_rewrite list_elem_of_fmap. setoid_rewrite elem_of_remove_dups. split.
  - intros ([nm n] & -> & e & (nm' & [= -> ->] & Hnm) & He). exists e. split; [exact He|].
    by apply list_elem_of_fmap in Hnm.
  - intros (e & He & Hx). exists (x, entry_event_count e). split; [done|]. exists e.
    split; [|done]. exists x. split; [done|]. by apply list_elem_of_fmap.
Qed.

Lemma self_keys log es x : x ∈ (self_events log es).*1 -> x ∈ (inclusive_events log es).*1.
Proof.
  rewrite inclusive_keys. unfold self_events. rewrite list_elem_of_fmap.
  setoid_rewrite list_elem_of_bind. setoid_rewrite list_elem_of_fmap.
  intros ([nm n] & -> & e & (nm' & [= -> ->] & Hnm) & He). exists e. split; [done|].
  apply list_elem_of_fmap. change (nm' ∈ entry_names log e).
  destruct (entry_names log e) as [|y l]; simpl in Hnm; [by apply elem_of_nil in Hnm|].
  apply list_elem_of_singleton in Hnm as ->. apply elem_of_cons. by left.
Qed.

Lemma totals_snoc log es e x :
  totals log (es ++ [e]) x =
    if decide (x ∈ entry_names log e)
    then bump (entry_event_count e) (heads x (entry_names log e)) true (totals log es x)
    else totals log es x.
Proof.
  assert (Hself : weight (named x) (self_events log (es ++ [e])) =
    weight (named x) (self_events log es) + when (heads x (entry_names log e)) (entry_event_count e)).
  { unfold self_events. rewrite bind_app. csimpl. by rewrite app_nil_r, weight_app, weight_self. }
  assert (Hincl : weight (named x) (inclusive_events log (es ++ [e])) =
    weight (named x) (inclusive_events log es)
    + when (bool_decide (x ∈ entry_names log e)) (entry_event_count e)).
  { unfold inclusive_events. rewrite bind_app. csimpl. rewrite app_nil_r, weight_app.
    rewrite weight_distinct by apply NoDup_remove_dups. f_equal. f_equal.
    apply bool_decide_ext, elem_of_remove_dups. }
  assert (Hkeys : x ∈ (inclusive_events log (es ++ [e])).*1 <->
    x ∈ (inclusive_events log es).*1 \/ x ∈ entry_names log e).
  { rewrite !inclusive_keys. setoid_rewrite elem_of_app. setoid_rewrite list_elem_of_singleton.
    generalize (entry_names log). naive_solver. }
  unfold totals. rewrite Hself, Hincl. destruct (decide (x ∈ entry_names log e)) as [Hx|Hx].
  - rewrite decide_True by (apply Hkeys; auto). rewrite bool_decide_true by done. simpl when at 2.
    unfold bump. destruct (decide (x ∈ (inclusive_events log es).*1)) as [Hold|Hold]; simpl.
    + by rewrite !wrap_i64_add_l.
    + rewrite !(weight_named_absent x) by (done || by intros ?%self_keys). done.
  - assert (Hh : heads x (entry_names log e) = false).
    { unfold heads. apply bool_decide_eq_false_2. intros Hh. apply Hx.
      destruct (entry_names log e); simplify_eq/=. apply elem_of_cons. by left. }
    rewrite Hh, (bool_decide_false (x ∈ _)) by done. simpl. rewrite !Z.add_0_r.
    repeat case_decide; tauto.
Qed.

Lemma aggr_entries_spec log es :
  log_wf log -> Forall (fun e => 0 <= frame_index e < frames_size log) es ->
  exists result, foldM (aggr_entry log) zend_new_array es = Ok result /\ result_ok result /\
    forall x, counters result x = totals log es x.
Proof.
  intros Hwf. induction es as [|e es IH] using rev_ind; intros Hes.
  - exists zend_new_array. split_and!; [done| |].
    + split; [rewrite zh_elems_new; constructor|]. intros nm info. by rewrite hash_find_new.
    + intros x. unfold counters, totals. rewrite hash_find_new, decide_False; [done|].
      apply not_elem_of_nil.
  - apply Forall_app in Hes as [Hes He]. rewrite Forall_singleton in He.
    destruct (IH Hes) as (result & Hrun & Hok & Hc).
    destruct (aggr_entry_spec log result e Hwf He Hok) as (result' & Hrun' & Hok' & Hc').
    exists result'. rewrite foldM_app, Hrun. cbn [obind foldM]. rewrite Hrun'. split_and!; [done..|].
    intros x. by rewrite Hc', totals_snoc, Hc.
Qed.

Lemma aggr_by_func_spec log :
  log_wf log ->
  exists result, excimer_log_aggr_by_func log = Ok result /\ result_ok result /\
    (forall x, counters result x = totals log (entries log) x) /\
    (cmp_orders aggr_cmp (zh_elems result) ->
     StronglySorted (fun a b => aggr_cmp a b <= 0) (zh_elems result)).
Proof.
  intros Hwf. unfold excimer_log_aggr_by_func. rewrite for_entries_eq.
  destruct (aggr_entries_spec log (entries log) Hwf (wf_entries _ Hwf)) as (r & -> & [Hn Hok] & Hc).
  cbn [obind]. eexists. split_and!; [done|split; [by apply hash_sort_nodup|]|..].
  - intros nm info. rewrite hash_find_sort by done. apply Hok.
  - intros x. unfold counters. rewrite hash_find_sort by done. apply Hc.
  - intros [Htot Htr]. apply zend_hash_sort_sorted.
    setoid_rewrite (zend_hash_sort_perm aggr_cmp r) in Htot.
    setoid_rewrite (zend_hash_sort_perm aggr_cmp r) in Htr. by split.
Qed.

(** The counters of an element of the result. *)
Lemma result_elem (result : HT string (HT string zval)) x info :
  result_ok result -> (x, info) ∈ zh_elems result ->
  exists s i, info_counters info = Some (s, i) /\ counters result x = Some (s, i) /\
    inclusive_of info = i.
Proof.
  intros [Hn Hok] Hin. apply hash_find_elem in Hin; [|done].
  destruct (Hok _ _ Hin) as (s & i & Hc & _). exists s, i. split_and!; [done| |].
  - unfold counters. by rewrite Hin.
  - apply info_counters_inv in Hc as [_ Hi]. unfold inclusive_of. by rewrite Hi.
Qed.

Lemma when_bounds b n : 0 <= n -> 0 <= when b n <= n.
Proof. destruct b; simpl; lia. Qed.

(** Per function, "self" is at most "inclusive", which is at most the total. *)
Lemma weight_bounds log es x :
  Forall (fun e => 0 <= entry_event_count e) es ->
  0 <= weight (named x) (self_events log es) <= weight (named x) (inclusive_events log es) /\
  weight (named x) (inclusive_events log es) <= sum_Z (entry_event_count <$> es).
Proof.
  induction 1 as [|e es He Hes IH]; [done|].
  unfold self_events, inclusive_events in *. csimpl. rewrite !weight_app, weight_self.
  rewrite weight_distinct by apply NoDup_remove_dups.
  autorewrite with excimer. simpl.
  assert (Hle : when (heads x (entry_names log e)) (entry_event_count e) <=
    when (bool_decide (x ∈ remove_dups (entry_names log e))) (entry_event_count e)).
  { unfold heads. case_bool_decide as Hh; simpl; [|by apply when_bounds].
    rewrite bool_decide_true; [done|]. apply elem_of_remove_dups.
    destruct (entry_names log e); simplify_eq/=. apply elem_of_cons. by left. }
  pose proof (when_bounds (heads x (entry_names log e)) _ He).
  pose proof (when_bounds (bool_decide (x ∈ remove_dups (entry_names log e))) _ He). lia.
Qed.

Lemma totals_bounds log x s i :
  log_wf log -> counts_fit log -> totals log (entries log) x = Some (s, i) ->
  0 <= s <= i /\ i <= log_event_count log.
Proof.
  intros Hwf [Hpos Hsum]. unfold totals. case_decide; [|done]. intros [= <- <-].
  destruct (weight_bounds log (entries log) x Hpos) as [Hb1 Hb2].
  rewrite (wf_event_count _ Hwf), !wrap_i64_small; unfold is_i64; lia.
Qed.

Lemma aggr_compare_le (a b : string * HT string zval) :
  0 <= inclusive_of a.2 < 2 ^ 63 -> 0 <= inclusive_of b.2 < 2 ^ 63 ->
  aggr_cmp a b <= 0 <-> inclusive_of b.2 <= inclusive_of a.2.
Proof.
  intros Ha Hb. unfold excimer_log_aggr_compare, normalize_bool.
  rewrite wrap_i64_small by (unfold is_i64; lia).
  repeat case_match; bool_hyps; lia.
Qed.

Lemma StronglySorted_elem_ext {A} (R S : A -> A -> Prop) l :
  (forall a b, a ∈ l -> b ∈ l -> R a b <-> S a b) -> StronglySorted R l -> StronglySorted S l.
Proof.
  intros HRS Hl. induction Hl as [|a l Hl IH Ha]; constructor.
  - apply IH. intros b c Hb Hc. apply HRS; by apply elem_of_cons; right.
  - rewrite Forall_forall in *. intros b Hb. apply HRS; [..|by apply Ha]; apply elem_of_cons; auto.
Qed.

(** Summing up a class of keys one by one. *)
Lemma weight_partition (ks : list string) l :
  NoDup ks -> (forall k, k ∈ l.*1 -> k ∈ ks) ->
  sum_Z ((fun k => weight (named k) l) <$> ks) = sum_Z l.*2.
Proof.
  intros Hks. induction l as [|[k v] l IH]; intros Hin.
  { clear. induction ks as [|k ks IH]; [done|]. exact IH. }
  rewrite fmap_cons, sum_Z_cons, <-IH by (intros k' Hk'; apply Hin; csimpl; set_solver).
  assert (Hk : k ∈ ks) by (apply Hin; csimpl; set_solver). clear IH Hin.
  enough (Hgen : forall ks', NoDup ks' ->
    sum_Z ((fun k' => weight (named k') ((k, v) :: l)) <$> ks') =
    when (bool_decide (k ∈ ks')) v + sum_Z ((fun k' => weight (named k') l) <$> ks')).
  { rewrite Hgen by done. by rewrite bool_decide_true. }
  induction 1 as [|k' ks' Hk' Hks' IH]; [done|]. rewrite !fmap_cons, !sum_Z_cons, IH, weight_cons.
  unfold named at 1. destruct (decide (k = k')) as [->|Hne].
  - rewrite (bool_decide_true (k' = k')), (bool_decide_false (k' ∈ ks')), bool_decide_true
      by (done || set_solver). simpl. lia.
  - rewrite (bool_decide_false (k = k')) by done.
    rewrite (bool_decide_ext (k ∈ k' :: ks') (k ∈ ks')) by set_solver. lia.
Qed.

End aggregate_facts.

(** ** Properties of the aggregation *)

Section properties.
  Context {HT : Type -> Type -> Type} `{ZendHashLaws HT}.
  Implicit Types (log : excimer_log HT).
  Abbreviation aggr_cmp := (excimer_log_aggr_compare (HT:=HT)).

(** C18. Aggregation counts correctly: on every well-formed log it terminates
    without an error, and the result has exactly one array for each function that
    is on the stack of some entry; its "inclusive" counter is the sum of the
    event counts of the entries with the function anywhere on the stack, a
    recursive function counted once, and its "self" counter the sum over the
    entries where it is the innermost function (as 64-bit integers). *)
Theorem aggregate_counts log :
  log_wf log ->
  exists result, excimer_log_aggr_by_func log = Ok result /\
    NoDup (zh_elems result).*1 /\
    forall x, counters result x = totals log (entries log) x.
Proof.
  intros Hwf. destruct (aggr_by_func_spec log Hwf) as (result & Hrun & [Hn _] & Hc & _). eauto.
Qed.

(** If the event counts are not negative and their sum fits a 64-bit integer,
    the result of the aggregation is sorted by descending "inclusive", and every
    array has 0 <= self <= inclusive <= the event count of the log. *)
Theorem aggregate_sorted log :
  log_wf log -> counts_fit log ->
  exists result, excimer_log_aggr_by_func log = Ok result /\
    StronglySorted (fun a b => inclusive_of (HT:=HT) b.2 <= inclusive_of a.2) (zh_elems result) /\
    forall x info, (x, info) ∈ zh_elems result ->
      exists s i, info_counters info = Some (s, i) /\ 0 <= s <= i /\ i <= log_event_count log.
Proof.
  intros Hwf Hfit. destruct (aggr_by_func_spec log Hwf) as (result & Hrun & Hok & Hc & Hsort).
  assert (Helem : forall x info, (x, info) ∈ zh_elems result ->
    exists s i, info_counters info = Some (s, i) /\ 0 <= s <= i /\ i <= log_event_count log /\
      inclusive_of info = i).
  { intros x info Hin. destruct (result_elem result x info Hok Hin) as (s & i & ? & Hx & ?).
    rewrite Hc in Hx. destruct (totals_bounds log x s i Hwf Hfit Hx). exists s, i. auto. }
  assert (Hev : log_event_count log < 2 ^ 63).
  { rewrite (wf_event_count _ Hwf). pose proof (wrap_i64_range (sum_Z (entry_event_count <$> entries log))).
    unfold is_i64 in *. lia. }
  assert (Hle : forall a b, a ∈ zh_elems result -> b ∈ zh_elems result ->
    aggr_cmp a b <= 0 <-> inclusive_of b.2 <= inclusive_of a.2).
  { intros [x a] [y b] Ha Hb. destruct (Helem _ _ Ha) as (? & ? & ?), (Helem _ _ Hb) as (? & ? & ?).
    apply aggr_compare_le; simpl; lia. }
  exists result. split_and!; [done| |intros x info Hin; destruct (Helem x info Hin) as (s & i & ?);
    exists s, i; tauto].
  assert (Hs : StronglySorted (fun a b => aggr_cmp a b <= 0) (zh_elems result)).
  { apply Hsort. split.
    - intros a b Ha Hb. rewrite !Hle by done. lia.
    - intros a b c Ha Hb Hd. rewrite !Hle by done. lia. }
  by apply (StronglySorted_elem_ext _ _ _ Hle).
Qed.

(** The "self" counters of the aggregation add up to the event counts of the
    entries that have any user code on their stack: each of these events is
    attributed to exactly one function. *)
Theorem aggregate_self_total log :
  log_wf log -> counts_fit log ->
  exists result, excimer_log_aggr_by_func log = Ok result /\
    sum_Z ((fun a => default 0 (fst <$> info_counters (HT:=HT) a.2)) <$> zh_elems result)
    = sum_Z (self_events log (entries log)).*2.
Proof.
  intros Hwf Hfit. destruct (aggr_by_func_spec log Hwf) as (result & Hrun & Hok & Hc & _).
  exists result. split; [done|]. rewrite <-(weight_partition (zh_elems result).*1); [|apply Hok|].
  - rewrite <-list_fmap_compose. f_equal. apply list_fmap_ext. intros j [x info] Hin%list_elem_of_lookup_2.
    destruct (result_elem result x info Hok Hin) as (s & i & Hi & Hx & _). simpl. rewrite Hi. simpl.
    rewrite Hc in Hx. unfold totals in Hx. case_decide; [|done]. injection Hx as <- _.
    destruct (weight_bounds log (entries log) x (proj1 Hfit)), Hfit.
    apply wrap_i64_small. unfold is_i64. lia.
  - intros x Hx%self_keys. specialize (Hc x). unfold totals in Hc. rewrite decide_True in Hc by done.
    unfold counters in Hc. destruct (zend_hash_find x result) as [info|] eqn:Hf; [|done].
    apply hash_find_elem in Hf; [|apply Hok]. apply list_elem_of_fmap. by exists (x, info).
Qed.

End properties.

(** ** Witnesses *)

(** The log of the witnesses: two samples, of a recursive function and of
    [ex_stack]. *)
Lemma ex_log2_ok : log_wf ex_log2 /\ counts_fit ex_log2.
Proof.
  split; [|by vm_compute; repeat constructor].
  destruct (log_add_room ex_recursive 2 2000 (ex_log1 0)) as (log' & i & Hrun & Hwf & _);
    [apply ex_log1_wf|by repeat constructor|vm_compute; discriminate|].
  unfold ex_log2. by rewrite Hrun.
Qed.

Lemma aggregate_counts_witness :
  exists result, excimer_log_aggr_by_func ex_log2 = Ok result /\ NoDup (zh_elems result).*1 /\
    counters result "Foo::bar" = Some (2, 3).
Proof.
  destruct (aggregate_counts ex_log2 (proj1 ex_log2_ok)) as (result & Hrun & Hn & Hc).
  exists result. rewrite Hc. split_and!; [done..|]. vm_compute. reflexivity.
Defined.

Lemma aggregate_sorted_witness :
  exists result, excimer_log_aggr_by_func ex_log2 = Ok result /\
    StronglySorted (fun a b => inclusive_of (HT:=alist) b.2 <= inclusive_of a.2) (zh_elems result) /\
    forall x info, (x, info) ∈ zh_elems result ->
      exists s i, info_counters info = Some (s, i) /\ 0 <= s <= i /\ i <= 3.
Proof. apply (aggregate_sorted ex_log2); apply ex_log2_ok. Defined.

Lemma aggregate_self_total_witness :
  exists result, excimer_log_aggr_by_func ex_log2 = Ok result /\
    sum_Z ((fun a => default 0 (fst <$> info_counters (HT:=alist) a.2)) <$> zh_elems result) = 3.
Proof. apply (aggregate_self_total ex_log2); apply ex_log2_ok. Defined.
