(* ===== verification/LogSpeedscope.v ===== *)
(** * The speedscope format

    Models [excimer_log_frame_to_speedscope_array],
    [excimer_log_get_speedscope_frame_key] and [excimer_log_get_speedscope_data]
    of [excimer_log.c]. A table of distinct functions is built first; a sample is
    then a list of indexes into that table, outermost call first. *)

From S2P Require Import Prelude ZendHash Log LogTrace Tally LogFormat.

Section speedscope.
  Context {HT : Type -> Type -> Type} `{ZendHash HT}.
  Implicit Types (log : excimer_log HT).

Definition excimer_log_frame_to_speedscope_array (frame : excimer_log_frame) : outcome (HT string zval) :=
  let! name := excimer_log_append_frame_name "" frame in
  let ht_func := zend_hash_add "name" (ZV_string name) (zend_new_array : HT string zval) in
  Ok (add_string_opt "file" (filename frame) ht_func).

Definition excimer_log_get_speedscope_frame_key (frame : excimer_log_frame) : outcome string :=
  let! ss := excimer_log_append_frame_name "" frame in
  let! fname := deref (filename frame) in
  Ok (ss +:+ String NUL fname).

(** The state of the loop that builds the frames array. *)
Record scope_state : Type := ScopeState {
  ht_frames : list zval;
  ht_indexes_by_key : HT string Z;
  lp_frame_indexes : list Z
}.

(** One turn of "Build the frames array", for frame [i]. *)
Definition scope_frame log (st : scope_state) (i : Z) : outcome scope_state :=
  let! frame := deref (array_get (frames log) i) in
  let! str_key := excimer_log_get_speedscope_frame_key frame in
  let! '(fs, tbl, index) :=
    match zend_hash_find str_key (ht_indexes_by_key st) with
    | Some index => Ok (ht_frames st, ht_indexes_by_key st, index)
    | None =>
        let index := Z.of_nat (length (ht_frames st)) in
        let! ht_func := excimer_log_frame_to_speedscope_array frame in
        Ok (ht_frames st ++ [ZVAL_ARR ht_func],
            zend_hash_add str_key index (ht_indexes_by_key st), index)
    end in
  Ok (ScopeState fs tbl (<[Z.to_nat i := index]> (lp_frame_indexes st))).

Definition scope_frames log : outcome scope_state :=
  foldM (scope_frame log)
    (ScopeState [] zend_new_array (replicate (length (frames log)) 0))
    (seqZ 1 (frames_size log - 1)).

(** "Write the values in reverse order": [ht_stack] and the current frame. *)
Definition scope_write log (lp : list Z) (st : list Z * Z) (pos : nat) : outcome (list Z * Z) :=
  let! index := deref (array_get lp st.2) in
  let! frame := deref (array_get (frames log) st.2) in
  Ok (<[pos := index]> st.1, prev_index frame).

Definition scope_stack log (lp : list Z) (entry : excimer_log_entry) : outcome (list Z) :=
  let! num_frames := excimer_log_count_frames log (frame_index entry) in
  let n := Z.to_nat num_frames in
  let! st := foldM (scope_write log lp) (replicate n 0, frame_index entry) (reverse (seq 0 n)) in
  Ok st.1.

(** [ht_samples] and [ht_weights]. The product of a [zend_long] and a [uint64_t]
    is a [uint64_t]. *)
Definition scope_entry log (lp : list Z) (st : list zval * list zval) (entry : excimer_log_entry) :
    outcome (list zval * list zval) :=
  let! stack := scope_stack log lp entry in
  Ok (st.1 ++ [ZV_list (ZV_long <$> stack)],
      st.2 ++ [ZV_long (wrap_i64 (wrap_u64 (entry_event_count entry) * period log))]).

(** [first_timestamp] and [last_timestamp]: zero when there is no entry. *)
Definition first_timestamp log : Z := default 0 (timestamp <$> head (entries log)).
Definition last_timestamp log : Z := default 0 (timestamp <$> last (entries log)).

Definition speedscope_value (fs samples weights : list zval) (end_value : Z) : zval :=
  ZV_array
    [("$schema", ZV_string "https://www.speedscope.app/file-format-schema.json");
     ("exporter", ZV_string "Excimer");
     ("shared", ZV_array [("frames", ZV_list fs)]);
     ("profiles", ZV_list [ZV_array
       [("type", ZV_string "sampled"); ("name", ZV_string "");
        ("unit", ZV_string "nanoseconds"); ("startValue", ZV_long 0);
        ("endValue", ZV_long end_value);
        ("samples", ZV_list samples); ("weights", ZV_list weights)]])].

Definition excimer_log_get_speedscope_data log : outcome zval :=
  let! st := scope_frames log in
  let! '(samples, weights) :=
    foldM (scope_entry log (lp_frame_indexes st)) ([], []) (entries log) in
  Ok (speedscope_value (ht_frames st) samples weights
    (wrap_i64 (wrap_u64 (last_timestamp log - first_timestamp log)))).

(** ** Specification *)

(** How speedscope shows a frame. *)
Definition scope_array (f : excimer_log_frame) : zval :=
  ZVAL_ARR (add_string_opt "file" (filename f)
    (zend_hash_add "name" (ZV_string (frame_name f)) (zend_new_array : HT string zval))).

Definition scope_key (f : excimer_log_frame) : string :=
  frame_name f +:+ String NUL (default "" (filename f)).

(** Looking up the indexes of a sample in the frames array. *)
Definition decode_sample (fs : list zval) (sample : list Z) : list (option zval) :=
  array_get fs <$> sample.

(** The time a sample stands for. *)
Definition sample_weight log (e : excimer_log_entry) : zval :=
  ZV_long (wrap_i64 (entry_event_count e * period log)).

(** [reps] are the frames that were given a row of the frames array, one for
    every key; the frames below [k] have been mapped to their rows. *)
Record scope_inv log (k : Z) (reps : list excimer_log_frame) (st : scope_state) : Prop := ScopeInv {
  si_frames : ht_frames st = scope_array <$> reps;
  si_named : Forall (fun f => exists s, filename f = Some s) reps;
  si_table : forall key index, zend_hash_find key (ht_indexes_by_key st) = Some index <->
    exists rep, array_get reps index = Some rep /\ scope_key rep = key;
  si_length : length (lp_frame_indexes st) = length (frames log);
  si_lp : forall i f, 0 < i < k -> array_get (frames log) i = Some f ->
    exists index, array_get (lp_frame_indexes st) i = Some index /\
      array_get (ht_frames st) index = Some (scope_array f)
}.

End speedscope.
Arguments scope_state HT : clear implicits.

(** ** Lemmas *)

Lemma array_get_fmap {A B} (g : A -> B) (l : list A) i : array_get (g <$> l) i = g <$> array_get l i.
Proof. unfold array_get. case_match; [apply list_lookup_fmap|done]. Qed.

Lemma array_get_snoc {A} (l : list A) x : array_get (l ++ [x]) (Z.of_nat (length l)) = Some x.
Proof. rewrite array_get_lookup. by apply list_lookup_middle. Qed.

Lemma array_get_snoc_inv {A} (l : list A) x y i :
  array_get (l ++ [x]) i = Some y ->
  (i = Z.of_nat (length l) /\ y = x) \/ array_get l i = Some y.
Proof.
  intros [Hi Hl]%array_get_Some. rewrite length_app in Hi. simpl in Hi.
  destruct (decide (i = Z.of_nat (length l))) as [->|Hne].
  - left. rewrite Nat2Z.id, list_lookup_middle in Hl by done. by simplify_eq.
  - right. rewrite lookup_app_l in Hl by lia. unfold array_get.
    by rewrite (proj2 (Z.leb_le _ _)) by lia.
Qed.

Lemma array_get_insert {A} (l : list A) i x :
  0 <= i < Z.of_nat (length l) -> array_get (<[Z.to_nat i := x]> l) i = Some x.
Proof.
  intros Hi. unfold array_get. rewrite (proj2 (Z.leb_le _ _)) by lia.
  apply list_lookup_insert_eq. lia.
Qed.

Lemma array_get_insert_ne {A} (l : list A) i j x :
  i <> j -> 0 <= i -> array_get (<[Z.to_nat i := x]> l) j = array_get l j.
Proof.
  intros Hij Hi. unfold array_get. case_match; bool_hyps; [|done].
  apply list_lookup_insert_ne. lia.
Qed.

Lemma frame_name_no_nul f : str_mem NUL (frame_name f) = false.
Proof.
  unfold frame_name, printf_d.
  destruct (negb _); [|destruct (function_name f); [destruct (class_name f)|]];
    rewrite ?str_mem_app, ?(proj2 (map_no_space_mem _)); [|done..].
  by rewrite pretty_Z_mem.
Qed.

Section speedscope_facts.
  Context {HT : Type -> Type -> Type} `{ZendHashLaws HT}.
  Implicit Types (log : excimer_log HT) (st : scope_state HT).

(** The key is unambiguous because a name never contains a NUL. *)
Lemma scope_key_inj f g :
  scope_key f = scope_key g ->
  frame_name f = frame_name g /\ default "" (filename f) = default "" (filename g).
Proof. apply str_split_first; apply frame_name_no_nul. Qed.

Lemma scope_array_eq f s :
  filename f = Some s ->
  scope_array (HT:=HT) f = ZV_array [("name", ZV_string (frame_name f)); ("file", ZV_string s)].
Proof.
  intros Hs. unfold scope_array, ZVAL_ARR. rewrite Hs. simpl.
  by rewrite !zend_hash_add_spec, zh_elems_new.
Qed.

(** Frames are shown alike if and only if they have the same key. *)
Lemma scope_key_array f g :
  (exists s, filename f = Some s) -> (exists s, filename g = Some s) ->
  scope_key f = scope_key g <-> scope_array (HT:=HT) f = scope_array (HT:=HT) g.
Proof.
  intros [s Hs] [t Ht]. rewrite (scope_array_eq f s), (scope_array_eq g t) by done. split.
  - intros [Hn Hf]%scope_key_inj. rewrite Hs, Ht in Hf. simpl in Hf. by subst; rewrite Hn.
  - unfold scope_key. rewrite Hs, Ht. simpl. by intros [= -> ->].
Qed.

Lemma frame_key_spec f :
  (exists s, filename f = Some s) -> excimer_log_get_speedscope_frame_key f = Ok (scope_key f).
Proof.
  intros Hf. unfold excimer_log_get_speedscope_frame_key, scope_key.
  rewrite append_frame_name_spec by done. destruct Hf as [s ->]. done.
Qed.

Lemma frame_to_scope_spec f :
  (exists s, filename f = Some s) ->
  exists ht : HT string zval, excimer_log_frame_to_speedscope_array f = Ok ht /\ ZVAL_ARR ht = scope_array (HT:=HT) f.
Proof.
  intros Hf. unfold excimer_log_frame_to_speedscope_array.
  rewrite append_frame_name_spec by done. by eexists.
Qed.

(** A frame whose key is known is mapped to the row of that key. *)
Lemma scope_old_inv log i f reps st index :
  scope_inv log i reps st -> 0 < i -> array_get (frames log) i = Some f ->
  (exists s, filename f = Some s) ->
  zend_hash_find (scope_key f) (ht_indexes_by_key st) = Some index ->
  scope_inv log (i + 1) reps
    (ScopeState (ht_frames st) (ht_indexes_by_key st) (<[Z.to_nat i := index]> (lp_frame_indexes st))).
Proof.
  intros [Hfs Hnm Htab Hlen Hlp] Hi Hf Hs Hfind. pose proof (array_get_Some _ _ _ Hf) as [Hr _].
  split; cbn [ht_frames ht_indexes_by_key lp_frame_indexes]; [done..|by rewrite length_insert|].
  intros j g Hj Hg. destruct (decide (j = i)) as [->|Hne].
  - rewrite Hf in Hg. injection Hg as <-. exists index.
    rewrite array_get_insert by lia. split; [done|].
    apply Htab in Hfind as (rep & Hrep & Hk). rewrite Hfs, array_get_fmap, Hrep. simpl. f_equal.
    apply (scope_key_array rep f); [|done..]. apply array_get_Some in Hrep as [_ Hl].
    by apply (Forall_lookup_1 _ _ _ _ Hnm Hl).
  - rewrite array_get_insert_ne by lia. apply Hlp; [lia|done].
Qed.

(** A frame with a new key gets a row of its own. *)
Lemma scope_new_inv log i f reps st ht :
  scope_inv log i reps st -> (exists s, filename f = Some s) ->
  zend_hash_find (scope_key f) (ht_indexes_by_key st) = None ->
  ZVAL_ARR (HT:=HT) ht = scope_array (HT:=HT) f ->
  scope_inv log i (reps ++ [f])
    (ScopeState (ht_frames st ++ [ZVAL_ARR ht])
      (zend_hash_add (scope_key f) (Z.of_nat (length (ht_frames st))) (ht_indexes_by_key st))
      (lp_frame_indexes st)).
Proof.
  intros [Hfs Hnm Htab Hlen Hlp] Hs Hnone Hht.
  split; cbn [ht_frames ht_indexes_by_key lp_frame_indexes]; [| | |done|].
  - by rewrite fmap_app, Hfs, Hht.
  - apply Forall_app. by rewrite Forall_singleton.
  - rewrite Hfs, length_fmap. intros key index. rewrite hash_find_add. case_decide as Hk.
    + subst. rewrite Hnone. simpl. split.
      * intros [= <-]. exists f. by rewrite array_get_snoc.
      * intros (rep & [[-> _]|Hrep]%array_get_snoc_inv & Hk); [done|].
        assert (zend_hash_find (scope_key f) (ht_indexes_by_key st) = Some index) by (apply Htab; eauto).
        congruence.
    + rewrite Htab. split; intros (rep & Hrep & Heq); exists rep.
      * split; [by apply array_get_app_l|done].
      * apply array_get_snoc_inv in Hrep as [[_ ->]|Hrep]; [by symmetry in Heq|done].
  - intros j g Hj Hg. destruct (Hlp j g Hj Hg) as (index & Hl & Ha).
    exists index. split; [done|by apply array_get_app_l].
Qed.

Lemma scope_frame_spec log i reps st :
  log_wf log -> 0 < i < frames_size log -> scope_inv log i reps st ->
  exists reps' st', scope_frame log st i = Ok st' /\ scope_inv log (i + 1) reps' st'.
Proof.
  intros Hwf Hi Hinv. destruct (array_get_is_Some (frames log) i) as [f Hf]; [unfold frames_size in Hi; lia|].
  pose proof (frame_filename log i f Hwf ltac:(lia) Hf) as Hs.
  unfold scope_frame. rewrite Hf. cbn [obind deref]. rewrite frame_key_spec by done. cbn [obind].
  destruct (zend_hash_find (scope_key f) (ht_indexes_by_key st)) as [index|] eqn:Hfind.
  - exists reps. eexists. split; [done|]. apply (scope_old_inv log i f); [done|lia|done..].
  - destruct (frame_to_scope_spec f Hs) as (ht & -> & Hht). cbn [obind].
    exists (reps ++ [f]). eexists. split; [done|].
    apply (scope_old_inv log i f _ _ _ (scope_new_inv log i f reps st ht Hinv Hs Hfind Hht)); [lia|done..|].
    cbn [ht_indexes_by_key]. by rewrite hash_find_add, decide_True, Hfind.
Qed.

Lemma scope_frames_range log n k reps st :
  log_wf log -> 0 < k -> k + Z.of_nat n <= frames_size log -> scope_inv log k reps st ->
  exists reps' st', foldM (scope_frame log) st (seqZ k (Z.of_nat n)) = Ok st' /\
    scope_inv log (k + Z.of_nat n) reps' st'.
Proof.
  intros Hwf. revert k reps st. induction n as [|n IH]; intros k reps st Hk Hn Hinv.
  - exists reps, st. by rewrite Z.add_0_r.
  - rewrite seqZ_cons by lia. cbn [foldM].
    destruct (scope_frame_spec log k reps st Hwf) as (reps1 & st1 & -> & Hinv1); [lia|done|].
    cbn [obind]. destruct (IH (Z.succ k) reps1 st1) as (reps2 & st2 & Hrun & Hinv2); [lia..|done|].
    exists reps2, st2. replace (Z.pred (Z.of_nat (S n))) with (Z.of_nat n) by lia.
    split; [done|]. by replace (k + Z.of_nat (S n)) with (Z.succ k + Z.of_nat n) by lia.
Qed.

Lemma scope_init log :
  scope_inv log 1 [] (ScopeState [] (zend_new_array : HT string Z) (replicate (length (frames log)) 0)).
Proof.
  split; cbn [ht_frames ht_indexes_by_key lp_frame_indexes]; [done|constructor| |apply length_replicate|lia].
  intros key index. rewrite hash_find_new. split; [done|].
  by intros (rep & [? ?]%array_get_Some & _).
Qed.

Lemma scope_frames_spec log :
  log_wf log -> exists reps st, scope_frames log = Ok st /\ scope_inv log (frames_size log) reps st.
Proof.
  intros Hwf. pose proof (wf_size_pos _ Hwf). unfold scope_frames.
  destruct (scope_frames_range log (Z.to_nat (frames_size log - 1)) 1 [] _ Hwf
    ltac:(lia) ltac:(lia) (scope_init log)) as (reps & st & Hrun & Hinv).
  rewrite Z2Nat.id in * by lia. exists reps, st. split; [done|].
  by replace (1 + (frames_size log - 1)) with (frames_size log) in Hinv by lia.
Qed.

(** The rows of the frames array are distinct. *)
Lemma scope_rows_nodup log k reps st : scope_inv log k reps st -> NoDup (ht_frames st).
Proof.
  intros [Hfs Hnm Htab _ _]. rewrite Hfs. apply NoDup_fmap_2_strong.
  - intros f g Hf Hg Heq. rewrite Forall_forall in Hnm.
    apply (scope_key_array f g) in Heq; [|by apply Hnm..].
    apply list_elem_of_lookup in Hf as [i Hi], Hg as [j Hj].
    rewrite <-array_get_lookup in Hi, Hj.
    assert (Hfi : zend_hash_find (scope_key f) (ht_indexes_by_key st) = Some (Z.of_nat i))
      by (apply Htab; eauto).
    assert (Hgj : zend_hash_find (scope_key f) (ht_indexes_by_key st) = Some (Z.of_nat j))
      by (apply Htab; eauto).
    congruence.
  - apply NoDup_alt. intros i j f Hi Hj. rewrite <-array_get_lookup in Hi, Hj.
    assert (Hfi : zend_hash_find (scope_key f) (ht_indexes_by_key st) = Some (Z.of_nat i))
      by (apply Htab; eauto).
    assert (Hgj : zend_hash_find (scope_key f) (ht_indexes_by_key st) = Some (Z.of_nat j))
      by (apply Htab; eauto).
    rewrite Hfi in Hgj. injection Hgj. lia.
Qed.

(** Writing the rows of a chain backwards into [arr], from the last cell on. *)
Lemma scope_write_spec log reps st :
  log_wf log -> scope_inv log (frames_size log) reps st ->
  forall i, 0 <= i < frames_size log ->
  forall arr, (length (chain (frames log) i) <= length arr)%nat ->
  exists rows, foldM (scope_write log (lp_frame_indexes st)) (arr, i)
      (reverse (seq 0 (length (chain (frames log) i))))
    = Ok (reverse rows ++ drop (length (chain (frames log) i)) arr, 0) /\
    decode_sample (ht_frames st) rows = Some ∘ scope_array (HT:=HT) <$> chain (frames log) i.
Proof.
  intros Hwf Hinv. pose proof (wf_frames _ Hwf) as Hok. unfold frames_size.
  refine (chain_ind _ _ Hok _ _); [by exists []|].
  intros i f Hi Hf Hp IH arr Harr. rewrite (chain_step _ i f) in * by done. cbn [length] in *.
  pose proof (array_get_Some _ _ _ Hf) as [Hr _].
  destruct (si_lp _ _ _ _ Hinv i f) as (index & Hindex & Hrow); [unfold frames_size; lia|done|].
  rewrite seq_S, reverse_snoc. cbn [foldM Nat.add]. unfold scope_write at 1. cbn [fst snd].
  rewrite Hindex, Hf. cbn [obind deref].
  destruct (IH (<[length (chain (frames log) (prev_index f)) := index]> arr)) as (rows & Hrun & Hdec);
    [rewrite length_insert; lia|].
  exists (index :: rows). rewrite Hrun. split.
  - do 2 f_equal. rewrite reverse_cons, <-app_assoc. f_equal. simpl.
    erewrite drop_S by (apply list_lookup_insert_eq; lia).
    by rewrite drop_insert_lt by lia.
  - unfold decode_sample in *. rewrite !fmap_cons, Hdec. by rewrite Hrow.
Qed.

Lemma scope_stack_spec log reps st e :
  log_wf log -> scope_inv log (frames_size log) reps st -> 0 <= frame_index e < frames_size log ->
  exists rows, scope_stack log (lp_frame_indexes st) e = Ok rows /\
    decode_sample (ht_frames st) rows
    = Some ∘ scope_array (HT:=HT) <$> reverse (chain (frames log) (frame_index e)).
Proof.
  intros Hwf Hinv He. unfold scope_stack. rewrite count_frames_spec by done. cbn [obind].
  rewrite Nat2Z.id.
  destruct (scope_write_spec log reps st Hwf Hinv _ He
    (replicate (length (chain (frames log) (frame_index e))) 0)) as (rows & -> & Hdec);
    [by rewrite length_replicate|].
  exists (reverse rows). cbn [obind fst]. rewrite drop_ge, app_nil_r by by rewrite length_replicate.
  split; [done|]. unfold decode_sample in *. rewrite !fmap_reverse. by rewrite Hdec.
Qed.

Lemma scope_entries_spec log reps st es samples weights :
  log_wf log -> scope_inv log (frames_size log) reps st ->
  Forall (fun e => 0 <= frame_index e < frames_size log) es ->
  exists rows,
    foldM (scope_entry log (lp_frame_indexes st)) (samples, weights) es
    = Ok (samples ++ ((fun r => ZV_list (ZV_long <$> r)) <$> rows), weights ++ (sample_weight log <$> es)) /\
    Forall2 (fun e r => decode_sample (ht_frames st) r
      = Some ∘ scope_array (HT:=HT) <$> reverse (chain (frames log) (frame_index e))) es rows.
Proof.
  intros Hwf Hinv Hes. revert samples weights. induction Hes as [|e es He Hes IH]; intros samples weights.
  { exists []. simpl. by rewrite !app_nil_r. }
  destruct (scope_stack_spec log reps st e Hwf Hinv He) as (r & Hr & Hdec).
  cbn [foldM]. unfold scope_entry at 1. rewrite Hr. cbn [obind fst snd].
  destruct (IH (samples ++ [ZV_list (ZV_long <$> r)])
    (weights ++ [ZV_long (wrap_i64 (wrap_u64 (entry_event_count e) * period log))])) as (rows & -> & Hall).
  exists (r :: rows). split; [|by constructor]. rewrite <-!app_assoc. do 3 f_equal.
  rewrite fmap_cons. simpl. f_equal. unfold sample_weight. f_equal. apply wrap_i64_congr.
  by rewrite <-Zmult_mod_idemp_l, wrap_u64_mod, Zmult_mod_idemp_l.
Qed.

Lemma speedscope_data_spec log :
  log_wf log ->
  exists rows samples,
    excimer_log_get_speedscope_data log = Ok (speedscope_value rows
      ((fun r => ZV_list (ZV_long <$> r)) <$> samples) (sample_weight log <$> entries log)
      (wrap_i64 (last_timestamp log - first_timestamp log))) /\
    NoDup rows /\
    Forall2 (fun e r => decode_sample rows r
      = Some ∘ scope_array (HT:=HT) <$> reverse (chain (frames log) (frame_index e))) (entries log) samples.
Proof.
  intros Hwf. destruct (scope_frames_spec log Hwf) as (reps & st & Hst & Hinv).
  destruct (scope_entries_spec log reps st (entries log) [] [] Hwf Hinv (wf_entries _ Hwf))
    as (samples & Hrun & Hall).
  exists (ht_frames st), samples. split_and!; [|by eapply scope_rows_nodup|done].
  unfold excimer_log_get_speedscope_data. rewrite Hst. cbn [obind]. rewrite Hrun. cbn [obind app].
  do 2 f_equal. apply wrap_i64_congr, wrap_u64_mod.
Qed.

(** ** Properties *)

(** C19. The speedscope export of a well-formed log always succeeds. Its frames
    array has no duplicate rows, and the indexes of each sample decode through
    it to the names and files of the sampled stack, outermost call first; the
    weight of a sample is its event count times the period, and the profile
    ends at the time of the last sample relative to the first. *)
Theorem speedscope_faithful log :
  log_wf log ->
  exists rows samples,
    excimer_log_get_speedscope_data log = Ok (speedscope_value rows
      ((fun r => ZV_list (ZV_long <$> r)) <$> samples) (sample_weight log <$> entries log)
      (wrap_i64 (last_timestamp log - first_timestamp log))) /\
    NoDup rows /\
    Forall2 (fun e r => decode_sample rows r
      = Some ∘ scope_array (HT:=HT) <$> reverse (chain (frames log) (frame_index e))) (entries log) samples.
Proof.
  apply speedscope_data_spec.
Qed.

End speedscope_facts.

(** ** Witness *)

Lemma speedscope_faithful_witness :
  exists rows samples,
    excimer_log_get_speedscope_data (ex_log1 0) = Ok (speedscope_value rows
      ((fun r => ZV_list (ZV_long <$> r)) <$> samples) [ZV_long 100000000] 0) /\
    NoDup rows /\
    (decode_sample rows <$> samples) =
      [[Some (ZV_array [("name", ZV_string "/srv/index.php"); ("file", ZV_string "/srv/index.php")]);
        Some (ZV_array [("name", ZV_string "Foo::bar"); ("file", ZV_string "/srv/Foo.php")]);
        Some (ZV_array [("name", ZV_string "{closure:/srv/Foo.php(8)}"); ("file", ZV_string "/srv/Foo.php")])]].
Proof.
  destruct (speedscope_faithful (ex_log1 0) (ex_log1_wf 0)) as (rows & samples & Hrun & Hn & Hall).
  exists rows, samples. split_and!; [exact Hrun|exact Hn|].
  destruct samples as [|r [|r' samples]]; [by apply Forall2_length in Hall| |by apply Forall2_length in Hall].
  change (entries (ex_log1 0)) with [Entry 3 1 1000] in Hall. rewrite Forall2_cons in Hall. destruct Hall as [Hr _]. simpl. rewrite Hr. vm_compute. reflexivity.
Defined.
