(* ===== verification/LogRefs.v ===== *)
(** * Reference counts of the strings of a log

    The functions of [excimer_log.c] that take or drop references to
    [zend_string]s, with the counts of the strings as part of the state:
    [excimer_log_find_or_add_frame], [excimer_log_get_truncation_marker],
    [excimer_log_add] and [excimer_log_destroy]. A string is known by its
    address. Forgetting the counts gives the functions of [Log].

    Interned strings are not counted. [zend_string_delref] drops a reference
    without freeing the string; [zend_string_release] frees it when the last
    reference is gone. *)

From S2P Require Import Prelude ZendHash Log.

Abbreviation sref := positive.

(** A string in memory. *)
Inductive zend_string_mem : Type :=
  | Interned
  | Counted (refcount : Z).

(** The string pointers of an [excimer_log_frame]. *)
Record frame_refs : Type := FrameRefs {
  r_filename : option sref;
  r_class_name : option sref;
  r_function_name : option sref
}.

Definition no_refs : frame_refs := FrameRefs None None None.

(** A frame of the VM stack with the addresses of [op_array.filename],
    [common.scope->name] and [common.function_name]. *)
Record exec_refs : Type := ExecRefs {
  er_exec : zend_execute_data;
  er_filename : sref;
  er_scope_name : option sref;
  er_function_name : option sref
}.

(** The log, the string pointers of its [frames], the keys that
    [reverse_frames] holds, and the strings in memory. *)
Record rstate {HT : Type -> Type -> Type} : Type := RState {
  r_log : excimer_log HT;
  r_frames : list frame_refs;
  r_keys : list sref;
  strings : gmap sref zend_string_mem;
  next_string : sref
}.
Arguments rstate HT : clear implicits.

Definition INT_MAX : Z := 2 ^ 31 - 1.

Section log_refs.
  Context {HT : Type -> Type -> Type} `{ZendHash HT}.
  Abbreviation state := (rstate HT).
  Implicit Types (s : state) (r : sref) (fr : frame_refs).

Definition set_strings m s : state := RState HT (r_log s) (r_frames s) (r_keys s) m (next_string s).
Definition set_next_string n s : state := RState HT (r_log s) (r_frames s) (r_keys s) (strings s) n.
Definition set_r_log log s : state := RState HT log (r_frames s) (r_keys s) (strings s) (next_string s).
Definition push_key k s : state := RState HT (r_log s) (r_frames s) (k :: r_keys s) (strings s) (next_string s).
Definition push_refs fr s : state :=
  RState HT (r_log s) (r_frames s ++ [fr]) (r_keys s) (strings s) (next_string s).

(** ** Strings *)

Definition get_string r : M state zend_string_mem := s ← get_state; lift (deref (strings s !! r)).
Definition put_string r (m : zend_string_mem) : M state unit :=
  modify (fun s => set_strings (<[r := m]> (strings s)) s).

Definition zend_string_addref r : M state unit :=
  m ← get_string r;
  match m with Interned => mret tt | Counted n => put_string r (Counted (n + 1)) end.

Definition zend_string_delref r : M state unit :=
  m ← get_string r;
  match m with Interned => mret tt | Counted n => put_string r (Counted (n - 1)) end.

Definition zend_string_free r : M state unit :=
  m ← get_string r;
  match m with Interned => mret tt | Counted _ => modify (fun s => set_strings (delete r (strings s)) s) end.

Definition zend_string_release r : M state unit :=
  m ← get_string r;
  match m with
  | Interned => mret tt
  | Counted n => if n - 1 =? 0 then modify (fun s => set_strings (delete r (strings s)) s)
                 else put_string r (Counted (n - 1))
  end.

(** A new string: [zend_string_init], or the result of a [smart_str]. *)
Definition zend_string_init : M state sref :=
  s ← get_state;
  _ ← put_string (next_string s) (Counted 1);
  _ ← modify (set_next_string (Pos.succ (next_string s)));
  mret (next_string s).

(** [if (p) f(p);] *)
Definition if_set (f : sref -> M state unit) (p : option sref) : M state unit :=
  match p with Some r => f r | None => mret tt end.

(** ** The functions of the log *)

Definition r_get_truncation_marker : M state Z :=
  s ← get_state;
  match zend_hash_find excimer_log_truncated_name (reverse_frames (r_log s)) with
  | Some index => lift (excimer_safe_uint32 index)
  | None =>
      let new_index := frames_size (r_log s) in
      (* zend_hash_str_add makes a key of its own *)
      k ← zend_string_init;
      _ ← modify (push_key k);
      f ← zend_string_init;
      n ← zend_string_init;
      _ ← modify (fun s => push_refs (FrameRefs (Some f) None (Some n))
            (set_r_log (push_frame excimer_log_truncated_name truncation_frame (r_log s)) s));
      lift (excimer_safe_uint32 new_index)
  end.

Definition r_add_frame (er : exec_refs) (prev_idx : Z) : M state Z :=
  match ed_func (er_exec er) with
  | None => mret prev_idx
  | Some func =>
      if fn_user_code func then
        _ ← zend_string_addref (er_filename er);
        _ ← if_set zend_string_addref (er_scope_name er);
        _ ← if_set zend_string_addref (er_function_name er);
        let frame := make_frame func (ed_lineno (er_exec er)) prev_idx in
        let fr := FrameRefs (Some (er_filename er)) (er_scope_name er) (er_function_name er) in
        let str_key := frame_key (fn_filename func) (lineno frame) (prev_index frame) in
        k ← zend_string_init;
        s ← get_state;
        match zend_hash_find str_key (reverse_frames (r_log s)) with
        | Some index =>
            _ ← zend_string_free k;
            _ ← zend_string_delref (er_filename er);
            _ ← if_set zend_string_delref (er_scope_name er);
            _ ← if_set zend_string_delref (er_function_name er);
            lift (excimer_safe_uint32 index)
        | None =>
            let new_index := frames_size (r_log s) in
            (* zend_hash_add takes a reference to the key *)
            _ ← zend_string_addref k;
            _ ← modify (push_key k);
            _ ← modify (fun s => push_refs fr (set_r_log (push_frame str_key frame (r_log s)) s));
            _ ← zend_string_delref k;
            lift (excimer_safe_uint32 new_index)
        end
      else mret prev_idx
  end.

Fixpoint r_find_or_add_frame (execute_data : list exec_refs) (depth : Z) : M state Z :=
  match execute_data with
  | [] => mret 0
  | er :: prev_execute_data =>
      prev_idx ←
        match prev_execute_data with
        | [] => mret 0
        | _ =>
            s ← get_state;
            if negb (max_depth (r_log s) =? 0) && (max_depth (r_log s) <=? depth)
            then r_get_truncation_marker
            else r_find_or_add_frame prev_execute_data (depth + 1)
        end;
      r_add_frame er prev_idx
  end.

Definition r_log_add (execute_data : list exec_refs) (event_count now : Z) : M state unit :=
  index ← r_find_or_add_frame execute_data 0;
  modify (fun s => set_r_log
    (set_event_count (wrap_i64 (log_event_count (r_log s) + event_count))
      (set_entries (entries (r_log s) ++ [Entry index event_count now]) (r_log s))) s).

(** The loop over the frames in [excimer_log_destroy] counts with an [int]. *)
Fixpoint destroy_frames (i : Z) (frs : list frame_refs) : M state unit :=
  match frs with
  | [] => mret tt
  | fr :: frs' =>
      _ ← if_set zend_string_delref (r_filename fr);
      _ ← if_set zend_string_delref (r_class_name fr);
      _ ← if_set zend_string_delref (r_function_name fr);
      if i =? INT_MAX then lift (Crash "signed integer overflow") else destroy_frames (i + 1) frs'
  end.

(** [zend_hash_destroy] releases the keys. *)
Fixpoint destroy_keys (ks : list sref) : M state unit :=
  match ks with
  | [] => mret tt
  | k :: ks' => _ ← zend_string_release k; destroy_keys ks'
  end.

(** The arrays are the log's no more; the code frees their memory after the loops. *)
Definition detach s : state := RState HT (r_log s) [] [] (strings s) (next_string s).

Definition excimer_log_destroy : M state unit :=
  s ← get_state;
  _ ← modify detach;
  _ ← destroy_frames 0 (r_frames s);
  destroy_keys (r_keys s).

(** Samples, one after the other. *)
Fixpoint r_add_samples (samples : list (list exec_refs * Z * Z)) : M state unit :=
  match samples with
  | [] => mret tt
  | (stack, n, now) :: samples' => _ ← r_log_add stack n now; r_add_samples samples'
  end.

(** ** Specification *)

Definition refs_of fr : list sref :=
  option_list (r_filename fr) ++ option_list (r_class_name fr) ++ option_list (r_function_name fr).

(** The references the log holds. *)
Definition log_refs s : list sref := (r_frames s ≫= refs_of) ++ r_keys s.

(** The references of everybody else. *)
Definition external s r : Z :=
  match strings s !! r with
  | Some Interned => 0
  | Some (Counted n) => n - occurrences r (log_refs s)
  | None => - occurrences r (log_refs s)
  end.

(** The log's strings are in memory, and nobody's references are missing. *)
Record refs_inv s : Prop := RefsInv {
  ri_alive : forall r, r ∈ log_refs s -> is_Some (strings s !! r);
  ri_bound : forall r, is_Some (strings s !! r) -> (r < next_string s)%positive;
  ri_external : forall r, 0 <= external s r
}.

(** The strings of a VM stack. *)
Definition er_refs (er : exec_refs) : list sref :=
  er_filename er :: option_list (er_scope_name er) ++ option_list (er_function_name er).

(** A log after [excimer_log_init]. *)
Definition fresh_refs s : Prop := r_frames s = [no_refs] /\ r_keys s = [].

Definition stack_alive (stack : list exec_refs) s : Prop :=
  forall r, r ∈ stack ≫= er_refs -> is_Some (strings s !! r).

(** *** The invariant within a function that holds the references [E] *)

Definition balanced (m : option zend_string_mem) (x n : Z) : Prop :=
  match m with
  | Some Interned => x = 0
  | Some (Counted c) => c = x + n
  | None => x + n = 0
  end.

Record refs_with (E : list sref) s (x : sref -> Z) : Prop := RefsWith {
  rw_balanced : forall r, balanced (strings s !! r) (x r) (occurrences r (log_refs s ++ E));
  rw_alive : forall r, r ∈ log_refs s ++ E -> is_Some (strings s !! r);
  rw_bound : forall r, is_Some (strings s !! r) -> (r < next_string s)%positive;
  rw_external : forall r, 0 <= x r
}.

Definition grows s s' : Prop := forall r, is_Some (strings s !! r) -> is_Some (strings s' !! r).

(** The counting function [m] does what [m0] of [Log] does, and gives back what it takes. *)
Definition counts_for {A} (m : M state A) (m0 : M (excimer_log HT) A) s (x : sref -> Z) : Prop :=
  let '(s', r) := m s in m0 (r_log s) = (r_log s', r) /\ refs_with [] s' x /\ grows s s'.

End log_refs.

(** ** Lemmas *)

Section log_refs_facts.
  Context {HT : Type -> Type -> Type} `{ZendHash HT}.
  Abbreviation state := (rstate HT).
  Implicit Types (s : state) (r : sref) (fr : frame_refs) (E : list sref) (x : sref -> Z).

Lemma external_refs s : refs_inv s -> refs_with [] s (external s).
Proof.
  intros [Ha Hb Hx]. split; [|by rewrite app_nil_r|done|done].
  intros r. rewrite app_nil_r. unfold external. destruct (strings s !! r) as [[|c]|]; simpl; [done|lia|lia].
Qed.

Lemma refs_external s x r : refs_with [] s x -> external s r = x r.
Proof.
  intros [Hb _ _ _]. specialize (Hb r). rewrite app_nil_r in Hb. unfold external.
  destruct (strings s !! r) as [[|c]|]; simpl in Hb; lia.
Qed.

Lemma refs_with_inv s x : refs_with [] s x -> refs_inv s.
Proof.
  intros Hw. pose proof Hw as [_ Ha Hb Hx]. rewrite app_nil_r in Ha. split; [done|done|].
  intros r. by rewrite (refs_external s x).
Qed.

(** Only the multiset of references matters. *)
Lemma refs_with_perm s s' E E' x :
  strings s' = strings s -> next_string s' = next_string s -> log_refs s' ++ E' ≡ₚ log_refs s ++ E ->
  refs_with E s x -> refs_with E' s' x.
Proof.
  intros Hs Hn Hp [Hb Ha Hbd Hx]. split; rewrite ?Hs, ?Hn; [|intros r Hr; apply Ha; by rewrite <-Hp|done|done].
  intros r. rewrite (occurrences_perm _ _ _ Hp). apply Hb.
Qed.

Lemma get_string_ok s r m : strings s !! r = Some m -> get_string r s = (s, Ok m).
Proof. intros Hr. unfold get_string, mbind, M_bind, get_state, lift. by rewrite Hr. Qed.

(** Writing the count of one string. *)
Lemma put_count_refs s E E' r c x :
  refs_with E s x -> is_Some (strings s !! r) ->
  (forall r', r' <> r -> occurrences r' E' = occurrences r' E) -> (forall r', r' ∈ E' -> r' = r \/ r' ∈ E) ->
  c = x r + occurrences r (log_refs s ++ E') ->
  refs_with E' (set_strings (<[r := Counted c]> (strings s)) s) x.
Proof.
  intros [Hb Ha Hbd Hx] Hr Ho HE Hc. split; [| | |done].
  - intros r'. change (log_refs (set_strings _ s)) with (log_refs s). cbn [strings set_strings].
    destruct (decide (r' = r)) as [->|Hne]; [by rewrite lookup_insert_eq|].
    rewrite lookup_insert_ne by done. specialize (Hb r'). rewrite occurrences_app in Hb |- *. by rewrite Ho.
  - intros r'. change (log_refs (set_strings _ s)) with (log_refs s). cbn [strings set_strings].
    rewrite lookup_insert_is_Some'. intros [Hl|[->|He]%HE]%elem_of_app; [|by left|]; right; apply Ha, elem_of_app; auto.
  - intros r'. cbn [strings set_strings next_string]. rewrite lookup_insert_is_Some'. intros [<-|?]; auto.
Qed.

Lemma set_strings_grows s r m : grows s (set_strings (<[r := m]> (strings s)) s).
Proof. intros r' Hr'. simpl. rewrite lookup_insert_is_Some'. auto. Qed.

Lemma addref_ok s E r x :
  refs_with E s x -> is_Some (strings s !! r) ->
  exists s', zend_string_addref r s = (s', Ok tt) /\ refs_with (r :: E) s' x /\ grows s s' /\ r_log s' = r_log s.
Proof.
  intros Hw [m Hr]. unfold zend_string_addref. rewrite (bind_ok _ _ _ _ _ (get_string_ok s r m Hr)).
  pose proof (rw_balanced _ _ _ Hw r) as Hb. rewrite Hr in Hb. destruct m as [|c].
  - exists s. split_and!; [done| |by intros ? ?|done]. destruct Hw as [Hb' Ha Hbd Hx]. split; [| |done|done].
    + intros r'. specialize (Hb' r'). destruct (decide (r' = r)) as [->|Hne]; [by rewrite Hr|].
      rewrite occurrences_app, occurrences_cons, decide_False, Z.add_0_l, <-occurrences_app by done. done.
    + intros r' [Hl|[->|He]%elem_of_cons]%elem_of_app; [apply Ha, elem_of_app; by left|by rewrite Hr|].
      apply Ha, elem_of_app. by right.
  - eexists. split_and!; [done| |apply set_strings_grows|done]. apply (put_count_refs s E); [done|by rewrite Hr|..].
    + intros r' Hne. by rewrite occurrences_cons, decide_False.
    + intros r' [->|?]%elem_of_cons; auto.
    + simpl in Hb. rewrite occurrences_app, occurrences_cons, decide_True by done.
      rewrite occurrences_app in Hb. lia.
Qed.

Lemma delref_ok s E r x :
  refs_with (r :: E) s x ->
  exists s', zend_string_delref r s = (s', Ok tt) /\ refs_with E s' x /\ grows s s' /\ r_log s' = r_log s /\
    log_refs s' = log_refs s.
Proof.
  intros Hw. destruct (rw_alive _ _ _ Hw r) as [m Hr]; [set_solver|].
  unfold zend_string_delref. rewrite (bind_ok _ _ _ _ _ (get_string_ok s r m Hr)).
  pose proof (rw_balanced _ _ _ Hw r) as Hb. rewrite Hr in Hb. destruct m as [|c].
  - exists s. split_and!; [done| |by intros ? ?|done|done]. destruct Hw as [Hb' Ha Hbd Hx]. split; [| |done|done].
    + intros r'. specialize (Hb' r'). destruct (decide (r' = r)) as [->|Hne]; [by rewrite Hr|].
      rewrite occurrences_app, occurrences_cons, decide_False, Z.add_0_l, <-occurrences_app in Hb' by done. done.
    + intros r' Hr'. apply Ha. set_solver.
  - eexists. split_and!; [done| |apply set_strings_grows|done|done].
    apply (put_count_refs s (r :: E)); [done|by rewrite Hr|..].
    + intros r' Hne. by rewrite occurrences_cons, decide_False.
    + intros r' ?. set_solver.
    + simpl in Hb. rewrite occurrences_app, occurrences_cons, decide_True in Hb by done.
      rewrite occurrences_app. lia.
Qed.

(** Releasing the last reference frees the string, which nobody else has then. *)
Lemma release_ok s E r x :
  refs_with (r :: E) s x ->
  exists s', zend_string_release r s = (s', Ok tt) /\ refs_with E s' x /\ r_log s' = r_log s /\
    log_refs s' = log_refs s /\ (forall r', r' <> r -> strings s' !! r' = strings s !! r').
Proof.
  intros Hw. destruct (rw_alive _ _ _ Hw r) as [m Hr]; [set_solver|].
  pose proof (delref_ok s E r x Hw) as (s1 & Hd & Hw1 & _ & Hl1 & Hr1).
  unfold zend_string_delref in Hd. rewrite (bind_ok _ _ _ _ _ (get_string_ok s r m Hr)) in Hd.
  unfold zend_string_release. rewrite (bind_ok _ _ _ _ _ (get_string_ok s r m Hr)).
  destruct m as [|c]; [by injection Hd as <-; exists s|].
  destruct (Z.eqb_spec (c - 1) 0) as [Hc|Hc].
  2:{ injection Hd as <-. eexists. split_and!; [done..|]. intros r' Hne. simpl. by rewrite lookup_insert_ne. }
  injection Hd as <-. eexists. split_and!; [done| |done|done|by intros r' Hne; simpl; rewrite lookup_delete_ne].
  destruct Hw1 as [Hb Ha Hbd Hx]. pose proof (Hb r) as Hbr. cbn [strings set_strings] in Hbr.
  rewrite lookup_insert_eq in Hbr. simpl in Hbr.
  assert (Hno : r ∉ log_refs s ++ E).
  { apply occurrences_in. pose proof (occurrences_nonneg r (log_refs s ++ E)). specialize (Hx r).
    unfold log_refs in *. simpl in *. lia. }
  split; [| | |done].
  - intros r'. specialize (Hb r'). cbn [strings set_strings] in *. destruct (decide (r' = r)) as [->|Hne].
    + rewrite lookup_delete_eq. simpl. unfold log_refs in *. simpl in *. lia.
    + rewrite lookup_insert_ne in Hb by done. by rewrite lookup_delete_ne.
  - intros r' Hr'. specialize (Ha r' Hr'). cbn [strings set_strings] in *.
    rewrite lookup_delete_ne; [by rewrite lookup_insert_ne in Ha; [|intros ->]|]. by intros ->.
  - intros r' [m Hm]. cbn [strings set_strings] in Hm. apply lookup_delete_Some in Hm as [_ Hm]. apply (rw_bound _ _ _ Hw). eauto.
Qed.

(** A string that only the function has can be freed. *)
Lemma free_ok s E r x :
  refs_with (r :: E) s x -> strings s !! r = Some (Counted 1) -> x r = 0 ->
  exists s', zend_string_free r s = (s', Ok tt) /\ refs_with E s' x /\ r_log s' = r_log s /\
    (forall r', r' <> r -> strings s' !! r' = strings s !! r').
Proof.
  intros Hw Hr Hx. destruct (release_ok s E r x Hw) as (s' & Hrun & Hw' & Hl & _ & Hk).
  exists s'. split_and!; [|done..]. rewrite <-Hrun. unfold zend_string_free, zend_string_release.
  by rewrite !(bind_ok _ _ _ _ _ (get_string_ok s r _ Hr)).
Qed.

Lemma init_ok s E x :
  refs_with E s x ->
  exists s', zend_string_init s = (s', Ok (next_string s)) /\ refs_with (next_string s :: E) s' x /\
    grows s s' /\ r_log s' = r_log s /\ strings s' !! next_string s = Some (Counted 1) /\
    strings s !! next_string s = None /\ x (next_string s) = 0.
Proof.
  intros Hw. pose proof Hw as [Hb Ha Hbd Hx]. set (k := next_string s).
  assert (Hk : strings s !! k = None).
  { destruct (strings s !! k) eqn:He; [|done]. pose proof (Hbd k ltac:(eauto)). unfold k in *. lia. }
  assert (Hko : k ∉ log_refs s ++ E) by (intros [m Hm]%Ha; congruence).
  pose proof (Hb k) as Hbk. rewrite Hk in Hbk. simpl in Hbk. rewrite (occurrences_notin _ _ Hko) in Hbk.
  eexists. split_and!; [done| |intros r Hr; simpl; rewrite lookup_insert_is_Some'; auto|done|
    apply lookup_insert_eq|done|lia].
  split; [| | |done]; cbn [strings set_strings set_next_string next_string].
  - intros r. change (log_refs _) with (log_refs s). destruct (decide (r = k)) as [->|Hne].
    + rewrite lookup_insert_eq. simpl. rewrite occurrences_app, occurrences_cons, decide_True by done.
      pose proof (occurrences_notin _ _ Hko) as Hz.
      rewrite occurrences_app in Hz. lia.
    + rewrite lookup_insert_ne by done. specialize (Hb r).
      by rewrite occurrences_app, occurrences_cons, decide_False, Z.add_0_l, <-occurrences_app.
  - intros r. change (log_refs _) with (log_refs s). rewrite lookup_insert_is_Some'.
    intros [Hl|[->|He]%elem_of_cons]%elem_of_app; [right; apply Ha; set_solver|by left|right; apply Ha; set_solver].
  - intros r. rewrite lookup_insert_is_Some'. intros [<-|Hr]; [unfold k; lia|]. specialize (Hbd r Hr). lia.
Qed.

Lemma if_addref_ok s E p x :
  refs_with E s x -> (forall r, r ∈ option_list p -> is_Some (strings s !! r)) ->
  exists s', if_set zend_string_addref p s = (s', Ok tt) /\ refs_with (option_list p ++ E) s' x /\
    grows s s' /\ r_log s' = r_log s.
Proof.
  intros Hw Hp. destruct p as [r|]; simpl; [|by exists s; split_and!; try done; intros ? ?].
  apply addref_ok; [done|]. apply Hp. set_solver.
Qed.

Lemma if_delref_ok s E p x :
  refs_with (option_list p ++ E) s x ->
  exists s', if_set zend_string_delref p s = (s', Ok tt) /\ refs_with E s' x /\ grows s s' /\
    r_log s' = r_log s /\ log_refs s' = log_refs s.
Proof.
  intros Hw. destruct p as [r|]; simpl in *; [by apply delref_ok|]. exists s. split_and!; try done. by intros ? ?.
Qed.

Lemma grows_trans s1 s2 s3 : grows s1 s2 -> grows s2 s3 -> grows s1 s3.
Proof. intros H1 H2 r Hr. auto. Qed.

(** Taking the references of a frame, one after the other. *)
Lemma take_refs_ok s er x :
  refs_with [] s x -> (forall r, r ∈ er_refs er -> is_Some (strings s !! r)) ->
  exists s', (forall A (k : M state A),
      (_ ← zend_string_addref (er_filename er); _ ← if_set zend_string_addref (er_scope_name er);
       _ ← if_set zend_string_addref (er_function_name er); k) s = k s') /\
    refs_with (er_refs er) s' x /\ grows s s' /\ r_log s' = r_log s.
Proof.
  intros Hw Ha. unfold er_refs in *.
  destruct (addref_ok s [] (er_filename er) x Hw) as (s1 & Hr1 & Hw1 & Hg1 & Hl1); [apply Ha; set_solver|].
  destruct (if_addref_ok s1 _ (er_scope_name er) x Hw1) as (s2 & Hr2 & Hw2 & Hg2 & Hl2).
  { intros r Hr. apply Hg1, Ha. set_solver. }
  destruct (if_addref_ok s2 _ (er_function_name er) x Hw2) as (s3 & Hr3 & Hw3 & Hg3 & Hl3).
  { intros r Hr. apply Hg2, Hg1, Ha. set_solver. }
  exists s3. split_and!; [by intros A k; rewrite (bind_ok _ _ _ _ _ Hr1), (bind_ok _ _ _ _ _ Hr2), (bind_ok _ _ _ _ _ Hr3)| |eauto using grows_trans|congruence].
  revert Hw3. apply refs_with_perm; [done..|]. apply Permutation_app_head.
  destruct (er_scope_name er) as [c|], (er_function_name er) as [n|]; simpl;
    [apply (Permutation_rev [er_filename er; c; n])|by apply Permutation_swap..|done].
Qed.

Lemma drop_refs_ok s er x :
  refs_with (er_refs er) s x ->
  exists s', (forall A (k : M state A),
      (_ ← zend_string_delref (er_filename er); _ ← if_set zend_string_delref (er_scope_name er);
       _ ← if_set zend_string_delref (er_function_name er); k) s = k s') /\
    refs_with [] s' x /\ grows s s' /\ r_log s' = r_log s.
Proof.
  intros Hw. unfold er_refs in *.
  destruct (delref_ok s _ (er_filename er) x Hw) as (s1 & Hr1 & Hw1 & Hg1 & Hl1 & _).
  destruct (if_delref_ok s1 _ (er_scope_name er) x Hw1) as (s2 & Hr2 & Hw2 & Hg2 & Hl2 & _).
  rewrite <-(app_nil_r (option_list (er_function_name er))) in Hw2.
  destruct (if_delref_ok s2 _ (er_function_name er) x Hw2) as (s3 & Hr3 & Hw3 & Hg3 & Hl3 & _).
  exists s3. split_and!; [by intros A k; rewrite (bind_ok _ _ _ _ _ Hr1), (bind_ok _ _ _ _ _ Hr2), (bind_ok _ _ _ _ _ Hr3)|done|eauto using grows_trans|congruence].
Qed.

(** Handing references over to the log. *)

Lemma push_key_ok s E k x : refs_with (k :: E) s x -> refs_with E (push_key k s) x.
Proof.
  apply refs_with_perm; [done..|]. unfold log_refs. simpl. rewrite <-!app_assoc. apply Permutation_app_head.
  simpl. by rewrite Permutation_middle.
Qed.

Lemma push_refs_ok s E fr log x : refs_with (refs_of fr ++ E) s x -> refs_with E (push_refs fr (set_r_log log s)) x.
Proof.
  apply refs_with_perm; [done..|]. unfold log_refs. simpl. rewrite bind_app. simpl.
  rewrite app_nil_r, <-!app_assoc. apply Permutation_app_head.
  by rewrite !app_assoc, (Permutation_app_comm (refs_of fr)).
Qed.

Lemma counts_for_read {A} (o : outcome A) s x :
  refs_with [] s x -> counts_for (lift o) (lift o) s x.
Proof. intros Hw. unfold counts_for. simpl. split_and!; [done..|]. by intros ? ?. Qed.

Lemma counts_for_bind {A B} (m : M state A) m0 (k : A -> M state B) k0 s x :
  counts_for m m0 s x ->
  (forall a s', refs_with [] s' x -> grows s s' -> counts_for (k a) (k0 a) s' x) ->
  counts_for (m ≫= k) (m0 ≫= k0) s x.
Proof.
  unfold counts_for, mbind, M_bind. intros Hm Hk. destruct (m s) as [s1 [a|msg|why|]] eqn:Hrun;
    destruct Hm as (Hm0 & Hw & Hg); rewrite Hm0; [|done..].
  specialize (Hk a s1 Hw Hg). destruct (k a s1) as [s2 r]. destruct Hk as (? & ? & Hg2).
  split_and!; [done..|]. by eapply grows_trans.
Qed.

Lemma marker_counts s x :
  refs_with [] s x -> counts_for r_get_truncation_marker excimer_log_get_truncation_marker s x.
Proof.
  intros Hw. unfold counts_for, r_get_truncation_marker. rewrite (bind_ok get_state _ s s s) by done.
  unfold excimer_log_get_truncation_marker, find_or_push. rewrite (bind_ok get_state _ _ (r_log s) (r_log s)) by done.
  destruct (zend_hash_find _ _) as [i|] eqn:Hfind; [simpl; split_and!; [done..|by intros ? ?]|].
  destruct (init_ok s [] x Hw) as (s1 & Hr1 & Hw1 & Hg1 & Hl1 & _).
  rewrite (bind_ok _ _ _ _ _ Hr1), (bind_ok _ _ s1 (push_key (next_string s) s1) tt) by done.
  apply push_key_ok in Hw1. set (s2 := push_key _ s1) in *.
  destruct (init_ok s2 [] x Hw1) as (s3 & Hr3 & Hw3 & Hg3 & Hl3 & _). rewrite (bind_ok _ _ _ _ _ Hr3).
  destruct (init_ok s3 _ x Hw3) as (s4 & Hr4 & Hw4 & Hg4 & Hl4 & _). rewrite (bind_ok _ _ _ _ _ Hr4).
  set (fr := FrameRefs _ _ _). simpl. rewrite Hl4, Hl3. change (r_log s2) with (r_log s1). rewrite Hl1.
  split_and!; [done| |].
  - apply (push_refs_ok s4 []). revert Hw4. apply refs_with_perm; [done..|]. apply Permutation_app_head.
    apply Permutation_swap.
  - apply (grows_trans s s1); [done|]. apply (grows_trans _ s3); [exact Hg3|]. exact Hg4.
Qed.

Lemma add_frame_counts s er prev x :
  refs_with [] s x -> (forall r, r ∈ er_refs er -> is_Some (strings s !! r)) ->
  counts_for (r_add_frame er prev) (add_frame (er_exec er) prev) s x.
Proof.
  intros Hw Ha. unfold r_add_frame, add_frame.
  destruct (ed_func (er_exec er)) as [func|]; [|by apply (counts_for_read (Ok prev))].
  destruct (fn_user_code func); [|by apply (counts_for_read (Ok prev))].
  unfold counts_for. destruct (take_refs_ok s er x) as (s1 & -> & Hw1 & Hg1 & Hl1); [done..|]. cbv zeta.
  set (frame := make_frame _ _ _). set (key := frame_key _ _ _).
  destruct (init_ok s1 _ x Hw1) as (s2 & Hr2 & Hw2 & Hg2 & Hl2 & Hk2 & Hk1 & Hx).
  set (k := next_string s1) in *.
  rewrite (bind_ok _ _ _ _ _ Hr2), (bind_ok get_state _ s2 s2 s2) by done. unfold find_or_push.
  rewrite (bind_ok get_state _ _ (r_log s) (r_log s)) by done. rewrite Hl2, Hl1.
  destruct (zend_hash_find key _) as [i|].
  - destruct (free_ok s2 _ k x Hw2 Hk2 Hx) as (s3 & Hr3 & Hw3 & Hl3 & Hkeep). rewrite (bind_ok _ _ _ _ _ Hr3).
    destruct (drop_refs_ok s3 er x) as (s4 & -> & Hw4 & Hg4 & Hl4); [done|]. simpl.
    split_and!; [by rewrite Hl4, Hl3, Hl2, Hl1|done|]. intros r Hr. apply Hg4. rewrite Hkeep; [by apply Hg2, Hg1|].
    intros ->. apply Hg1 in Hr. rewrite Hk1 in Hr. by destruct Hr.
  - destruct (addref_ok s2 _ k x Hw2) as (s3 & Hr3 & Hw3 & Hg3 & Hl3); [eauto|]. rewrite (bind_ok _ _ _ _ _ Hr3).
    apply push_key_ok in Hw3. rewrite (bind_ok _ _ s3 (push_key k s3) tt) by done.
    set (fr := FrameRefs _ _ _). set (s4 := push_key k s3) in *.
    rewrite (bind_ok _ _ s4 (push_refs fr (set_r_log (push_frame key frame (r_log s4)) s4)) tt) by done.
    assert (Hw5 : refs_with [k] (push_refs fr (set_r_log (push_frame key frame (r_log s4)) s4)) x).
    { apply push_refs_ok. revert Hw3. apply refs_with_perm; [done..|]. apply Permutation_app_head.
      apply Permutation_app_comm. }
    destruct (delref_ok _ [] k x Hw5) as (s6 & Hr6 & Hw6 & Hg6 & Hl6 & _). rewrite (bind_ok _ _ _ _ _ Hr6).
    simpl in *. rewrite Hl6, Hl3, Hl2, Hl1. split_and!; [done|done|].
    intros r Hr. apply Hg6. by apply Hg3, Hg2, Hg1.
Qed.

Lemma find_or_add_counts stack depth s x :
  refs_with [] s x -> stack_alive stack s ->
  counts_for (r_find_or_add_frame stack depth)
    (excimer_log_find_or_add_frame (er_exec <$> stack) depth) s x.
Proof.
  revert depth s. induction stack as [|er prev IH]; intros depth s Hw Ha; [by apply (counts_for_read (Ok 0))|].
  cbn [r_find_or_add_frame fmap list_fmap excimer_log_find_or_add_frame]. apply counts_for_bind.
  - destruct prev as [|er' prev]; [by apply (counts_for_read (Ok 0))|].
    unfold counts_for. rewrite (bind_ok get_state _ s s s) by done. cbn [fmap list_fmap].
    rewrite (bind_ok get_state _ (r_log s) (r_log s) (r_log s)) by done.
    destruct (negb _ && _); [by apply marker_counts|]. apply (IH (depth + 1) s Hw).
    intros r Hr. apply Ha. simpl in *. set_solver.
  - intros prev_idx s' Hw' Hg. apply add_frame_counts; [done|]. intros r Hr. apply Hg, Ha. simpl. set_solver.
Qed.

Lemma log_add_counts stack n now s x :
  refs_with [] s x -> stack_alive stack s ->
  counts_for (r_log_add stack n now) (excimer_log_add (er_exec <$> stack) n now) s x.
Proof.
  intros Hw Ha. apply counts_for_bind; [by apply find_or_add_counts|].
  intros i s' Hw' Hg. unfold counts_for. simpl. split_and!; [done| |by intros ? ?].
  revert Hw'. by apply refs_with_perm.
Qed.

Lemma add_samples_ok samples s s1 x :
  refs_with [] s x -> Forall (fun sm => stack_alive sm.1.1 s) samples ->
  r_add_samples samples s = (s1, Ok tt) ->
  refs_with [] s1 x /\ grows s s1 /\
  foldl (fun log sm => (excimer_log_add (er_exec <$> sm.1.1) sm.1.2 sm.2 log).1) (r_log s) samples = r_log s1.
Proof.
  revert s. induction samples as [|[[stack n] now] samples IH]; intros s Hw Ha Hrun.
  { injection Hrun as <-. split_and!; [done|by intros ? ?|done]. }
  apply Forall_cons in Ha as [Hst Ha]. cbn [r_add_samples] in Hrun. unfold mbind, M_bind in Hrun.
  pose proof (log_add_counts stack n now s x Hw Hst) as Hc. unfold counts_for in Hc.
  destruct (r_log_add stack n now s) as [s' [[]|msg|why|]]; [|done..]. destruct Hc as (Hlog & Hw' & Hg).
  destruct (IH s' Hw') as (Hw1 & Hg1 & Hfold); [|done|].
  { eapply Forall_impl; [exact Ha|]. intros sm Hsm r Hr. by apply Hg, Hsm. }
  split_and!; [done|by eapply grows_trans|]. cbn [foldl fst snd]. by rewrite Hlog.
Qed.

Lemma destroy_frames_ok frs i E s x :
  refs_with ((frs ≫= refs_of) ++ E) s x -> i + Z.of_nat (length frs) <= INT_MAX ->
  exists s', destroy_frames i frs s = (s', Ok tt) /\ refs_with E s' x /\ grows s s' /\ log_refs s' = log_refs s.
Proof.
  revert i s. induction frs as [|fr frs IH]; intros i s Hw Hi; [by exists s; split_and!; [..|intros ? ?|]|].
  cbn [destroy_frames mbind list_bind length] in *. unfold refs_of at 1 in Hw. rewrite <-!app_assoc in Hw.
  destruct (if_delref_ok _ _ _ x Hw) as (s1 & Hr1 & Hw1 & Hg1 & _ & Hl1). rewrite (bind_ok _ _ _ _ _ Hr1).
  destruct (if_delref_ok _ _ _ x Hw1) as (s2 & Hr2 & Hw2 & Hg2 & _ & Hl2). rewrite (bind_ok _ _ _ _ _ Hr2).
  destruct (if_delref_ok _ _ _ x Hw2) as (s3 & Hr3 & Hw3 & Hg3 & _ & Hl3). rewrite (bind_ok _ _ _ _ _ Hr3).
  rewrite (proj2 (Z.eqb_neq i INT_MAX)) by lia.
  destruct (IH (i + 1) s3 Hw3) as (s' & Hr & Hw' & Hg' & Hl'); [lia|].
  exists s'. split_and!; [done|done|eauto using grows_trans|congruence].
Qed.

(** With more frames than an [int] can count, the loop counter overflows. *)
Lemma destroy_frames_overflow frs i E s x :
  refs_with ((frs ≫= refs_of) ++ E) s x -> i <= INT_MAX < i + Z.of_nat (length frs) ->
  exists s', destroy_frames i frs s = (s', Crash "signed integer overflow").
Proof.
  revert i s. induction frs as [|fr frs IH]; intros i s Hw Hi; [simpl in Hi; lia|].
  cbn [destroy_frames mbind list_bind length] in *. unfold refs_of at 1 in Hw. rewrite <-!app_assoc in Hw.
  destruct (if_delref_ok _ _ _ x Hw) as (s1 & Hr1 & Hw1 & _). rewrite (bind_ok _ _ _ _ _ Hr1).
  destruct (if_delref_ok _ _ _ x Hw1) as (s2 & Hr2 & Hw2 & _). rewrite (bind_ok _ _ _ _ _ Hr2).
  destruct (if_delref_ok _ _ _ x Hw2) as (s3 & Hr3 & Hw3 & _). rewrite (bind_ok _ _ _ _ _ Hr3).
  destruct (Z.eqb_spec i INT_MAX); [by eexists|]. apply IH; [done|lia].
Qed.

Lemma destroy_keys_ok ks E s x :
  refs_with (ks ++ E) s x ->
  exists s', destroy_keys ks s = (s', Ok tt) /\ refs_with E s' x /\ log_refs s' = log_refs s /\
    (forall r, r ∉ ks -> strings s' !! r = strings s !! r).
Proof.
  revert s. induction ks as [|k ks IH]; intros s Hw; [by exists s|].
  destruct (release_ok s _ k x Hw) as (s1 & Hr1 & Hw1 & _ & Hl1 & Hk1).
  cbn [destroy_keys]. rewrite (bind_ok _ _ _ _ _ Hr1).
  destruct (IH s1 Hw1) as (s' & Hr & Hw' & Hl & Hk). exists s'. split_and!; [done|done|congruence|].
  intros r Hr'. rewrite Hk by set_solver. apply Hk1. set_solver.
Qed.

Lemma destroy_ok s x :
  refs_with [] s x -> Z.of_nat (length (r_frames s)) <= INT_MAX ->
  exists s', excimer_log_destroy s = (s', Ok tt) /\ refs_with [] s' x /\ log_refs s' = [] /\
    (forall r, r ∉ r_keys s -> is_Some (strings s !! r) -> is_Some (strings s' !! r)).
Proof.
  intros Hw Hlen. unfold excimer_log_destroy. rewrite (bind_ok get_state _ s s s) by done.
  rewrite (bind_ok _ _ s (detach s) tt) by done.
  assert (Hw1 : refs_with ((r_frames s ≫= refs_of) ++ r_keys s) (detach s) x).
  { revert Hw. apply refs_with_perm; [done..|]. by rewrite app_nil_r. }
  destruct (destroy_frames_ok _ 0 _ _ x Hw1) as (s1 & Hr1 & Hw2 & Hg1 & Hl1); [lia|].
  rewrite (bind_ok _ _ _ _ _ Hr1). rewrite <-(app_nil_r (r_keys s)) in Hw2.
  destruct (destroy_keys_ok _ [] s1 x Hw2) as (s' & Hr & Hw' & Hl & Hk).
  exists s'. split_and!; [done|done|by rewrite Hl, Hl1|]. intros r Hr' Hs. rewrite Hk by done. by apply Hg1.
Qed.

(** Destroying a log makes no interned strings. *)
Definition makes_none_interned {A} (m : M state A) : Prop :=
  forall s r, strings (m s).1 !! r = Some Interned -> strings s !! r = Some Interned.

Lemma none_interned_bind {A B} (m : M state A) (k : A -> M state B) :
  makes_none_interned m -> (forall a, makes_none_interned (k a)) -> makes_none_interned (m ≫= k).
Proof.
  intros Hm Hk s r. specialize (Hm s r). unfold mbind, M_bind. destruct (m s) as [s1 [a|msg|why|]]; [|done..].
  intros Hr. by apply Hm, (Hk a).
Qed.

Lemma none_interned_read {A} (f : state -> outcome A) : makes_none_interned (fun s => (s, f s)).
Proof. by intros s r. Qed.

Lemma none_interned_put r m : m <> Interned -> makes_none_interned (put_string r m).
Proof. intros Hm s r'. simpl. rewrite lookup_insert_Some. by intros [[_ ->]|[_ ?]]. Qed.

Lemma none_interned_drop r : makes_none_interned (modify (fun s => set_strings (delete r (strings s)) s)).
Proof. intros s r'. simpl. rewrite lookup_delete_Some. by intros [_ ?]. Qed.

Lemma none_interned_get r : makes_none_interned (get_string r).
Proof. apply none_interned_bind; [apply none_interned_read|]. intros s. apply none_interned_read. Qed.

Lemma none_interned_delref r : makes_none_interned (zend_string_delref r).
Proof.
  apply none_interned_bind; [apply none_interned_get|]. intros [|c]; [apply none_interned_read|by apply none_interned_put].
Qed.

Lemma none_interned_release r : makes_none_interned (zend_string_release r).
Proof.
  apply none_interned_bind; [apply none_interned_get|]. intros [|c]; [apply none_interned_read|].
  destruct (_ =? _); [apply none_interned_drop|by apply none_interned_put].
Qed.

Lemma none_interned_destroy : makes_none_interned excimer_log_destroy.
Proof.
  assert (Hif : forall p, makes_none_interned (if_set zend_string_delref p)).
  { intros [r|]; [apply none_interned_delref|apply none_interned_read]. }
  apply none_interned_bind; [apply none_interned_read|]. intros s. apply none_interned_bind; [by intros ? ?|].
  intros _. apply none_interned_bind.
  - generalize 0. induction (r_frames s) as [|fr frs IH]; intros i; [apply none_interned_read|]. cbn [destroy_frames].
    do 3 (apply none_interned_bind; [apply Hif|intros _]). destruct (_ =? _); [apply none_interned_read|apply IH].
  - intros _. induction (r_keys s) as [|k ks IH]; [apply none_interned_read|]. cbn [destroy_keys].
    apply none_interned_bind; [apply none_interned_release|by intros _].
Qed.

(** ** Properties *)



(** The strings of the truncation marker leak: destroying a log drops the
    last reference to the marker's file and function name with
    [zend_string_delref], which leaves both strings in memory with a count of
    zero. *)
Theorem truncation_marker_leaks s s1 i :
  refs_inv s -> zend_hash_find excimer_log_truncated_name (reverse_frames (r_log s)) = None ->
  r_get_truncation_marker s = (s1, Ok i) -> Z.of_nat (length (r_frames s1)) < 2 ^ 31 ->
  exists s2 f n, excimer_log_destroy s1 = (s2, Ok tt) /\ f <> n /\
    strings s !! f = None /\ strings s2 !! f = Some (Counted 0) /\
    strings s !! n = None /\ strings s2 !! n = Some (Counted 0).
Proof.
  intros Hinv Hfind Hrun Hlen. pose proof (external_refs s Hinv) as Hw. set (x := external s) in *.
  pose proof (marker_counts s x Hw) as Hc. unfold counts_for in Hc. rewrite Hrun in Hc.
  destruct Hc as (_ & Hw1 & _).
  destruct (destroy_ok s1 _ Hw1) as (s2 & Hd & Hw2 & Hl2 & Hkeep); [unfold INT_MAX; lia|].
  set (k := next_string s). set (f := Pos.succ k). set (n := Pos.succ f).
  assert (Hnone : forall r, (k <= r)%positive -> strings s !! r = None).
  { intros r Hr. destruct (strings s !! r) eqn:He; [|done]. pose proof (ri_bound _ Hinv r ltac:(eauto)). lia. }
  assert (Hs1 : s1 = RState HT (push_frame excimer_log_truncated_name truncation_frame (r_log s))
    (r_frames s ++ [FrameRefs (Some f) None (Some n)]) (k :: r_keys s)
    (<[n := Counted 1]> (<[f := Counted 1]> (<[k := Counted 1]> (strings s)))) (Pos.succ n)).
  { unfold r_get_truncation_marker in Hrun. rewrite (bind_ok get_state _ s s s), Hfind in Hrun by done.
    by injection Hrun as <-. }
  assert (Hx : forall r, (k <= r)%positive -> x r = 0).
  { intros r Hr. unfold x, external. rewrite Hnone, occurrences_notin; [done| |done].
    intros Hin. destruct (ri_alive _ Hinv r Hin) as [m Hm]. rewrite Hnone in Hm; done. }
  assert (Hgone : forall r, (k < r)%positive -> strings s1 !! r = Some (Counted 1) ->
    strings s2 !! r = Some (Counted 0)).
  { intros r Hr Hs. assert (Hr2 : is_Some (strings s2 !! r)).
    { apply Hkeep; [|by eauto]. subst s1. simpl. intros [->|Hin]%elem_of_cons; [lia|].
      destruct (ri_alive _ Hinv r) as [m Hm]; [unfold log_refs; set_solver|]. rewrite Hnone in Hm; [done|lia]. }
    destruct Hr2 as [m Hm]. pose proof (rw_balanced _ _ _ Hw2 r) as Hb. rewrite Hl2, Hm, Hx in Hb by lia.
    pose proof (none_interned_destroy s1 r) as Hni. rewrite Hd in Hni. simpl in Hni.
    destruct m as [|c]; [rewrite Hni in Hs by done; discriminate|]. rewrite Hm. simpl in Hb. by rewrite Hb. }
  exists s2, f, n. split_and!; [done|lia|apply Hnone; lia|apply Hgone; [lia|]|apply Hnone; lia|apply Hgone; [lia|]];
    subst s1; simpl; [rewrite lookup_insert_ne by lia|]; apply lookup_insert_eq.
Qed.

End log_refs_facts.

(** ** Witnesses *)

Section witnesses.

(** The VM knows a file name (1), two function names (2, 3) and an interned class name (4). *)
Definition ex_strings : gmap sref zend_string_mem :=
  {[1%positive := Counted 3; 2%positive := Counted 1; 3%positive := Counted 7; 4%positive := Interned]}.

Definition ex_refs : rstate alist :=
  RState alist (excimer_log_init (Log alist [] [] zend_new_array 2 0 0 0)) [no_refs] [] ex_strings 5.

Definition ex_exec (name : string) (line : Z) : zend_execute_data :=
  ExecData (Some (ZFunction true "a.php" (Some "C") (Some name) false 0)) line.

(** Four calls deep, with a limit of two. *)
Definition ex_deep : list exec_refs :=
  [ExecRefs (ex_exec "f" 3) 1 (Some 4%positive) (Some 2%positive);
   ExecRefs (ex_exec "g" 5) 1 (Some 4%positive) (Some 3%positive);
   ExecRefs (ex_exec "g" 9) 1 None (Some 3%positive);
   ExecRefs (ex_exec "g" 9) 1 None (Some 3%positive)].

Definition ex_samples : list (list exec_refs * Z * Z) := [(ex_deep, 1, 10); (ex_deep, 1, 20); (tail ex_deep, 1, 30)].

Lemma ex_refs_inv : refs_inv ex_refs.
Proof.
  split.
  - intros r Hr. by apply elem_of_nil in Hr.
  - intros r [m Hm]. cbn [strings ex_refs] in Hm. unfold ex_strings in Hm. repeat (apply lookup_insert_Some in Hm as [[<- _]|[_ Hm]]; [done|]).
    by apply lookup_singleton_Some in Hm as [<- _].
  - intros r. unfold external. cbn [strings ex_refs log_refs].
    destruct (ex_strings !! r) as [[|c]|] eqn:Hr; [done| |done]. unfold ex_strings in Hr.
    repeat (apply lookup_insert_Some in Hr as [[<- [= <-]]|[_ Hr]]; [done|]).
    by apply lookup_singleton_Some in Hr as [_ ?].
Qed.

Lemma ex_deep_alive : stack_alive ex_deep ex_refs.
Proof.
  intros r Hr. cbn in Hr.
  repeat (apply elem_of_cons in Hr as [->|Hr]; [by eexists|]). by apply elem_of_nil in Hr.
Qed.

Lemma ex_samples_alive : Forall (fun sm => stack_alive sm.1.1 ex_refs) ex_samples.
Proof.
  repeat constructor; [apply ex_deep_alive..|]. intros r Hr. apply ex_deep_alive. simpl in *. set_solver.
Qed.



Lemma truncation_marker_leaks_witness :
  exists s1 s2 f, r_get_truncation_marker ex_refs = (s1, Ok 1) /\ excimer_log_destroy s1 = (s2, Ok tt) /\
    strings ex_refs !! f = None /\ strings s2 !! f = Some (Counted 0).
Proof.
  destruct (r_get_truncation_marker ex_refs) as [s1 r] eqn:Hrun.
  assert (Hok : r = Ok 1 /\ Z.of_nat (length (r_frames s1)) < 2 ^ 31).
  { vm_compute in Hrun. injection Hrun as <- <-. split; [reflexivity|vm_compute; reflexivity]. }
  destruct Hok as [Hr Hlen]. subst r.
  assert (Hno : zend_hash_find excimer_log_truncated_name (reverse_frames (r_log ex_refs)) = None)
    by (vm_compute; reflexivity).
  destruct (truncation_marker_leaks ex_refs s1 1 ex_refs_inv Hno Hrun Hlen)
    as (s2 & f & n & Hd & _ & Hf & Hf2 & _).
  exists s1, s2, f. split; [reflexivity|]. split; [exact Hd|]. split; [exact Hf|exact Hf2].
Defined.

End witnesses.
