(* ===== verification/FormatRefs.v ===== *)
(** * Reference counts of the strings that the formatters make

    [excimer_log_format_collapsed] and [excimer_log_aggr_by_func] of
    [excimer_log.c] make strings and use them as keys of hash tables. This file
    has both functions with the references that they take and drop, on the counted
    strings of [LogRefs]. A hash table holds a reference to each of its keys; the
    values of the result hold references to the strings of the log. Forgetting the
    counts gives the functions of [LogFormat] and [LogAggregate]. *)

From S2P Require Import Prelude ZendHash Log LogTrace Tally LogFormat LogAggregate LogRefs.

Section format_refs.
  Context {HT : Type -> Type -> Type} `{ZendHash HT}.
  Abbreviation state := (rstate HT).
  Implicit Types (s : state) (r : sref) (fr : frame_refs) (log : excimer_log HT).

(** ** The loops, with counts *)

Fixpoint r_foldM {A B} (f : A -> B -> M state A) (a : A) (l : list B) : M state A :=
  match l with
  | [] => mret a
  | b :: l' => a ← f a b; r_foldM f a l'
  end.

(** [excimer_log_smart_str_extract]: nothing was appended if the [smart_str] has
    no string yet; then the result is the empty string, which is interned. *)
Definition smart_str_extract (appended : bool) : M state (option sref) :=
  if appended then k ← zend_string_init; mret (Some k) else mret None.

(** The body of the loop that formats traces: [ht_lines], the capacity of
    [frame_ptrs], and the references of [ht_lines] to its keys. *)
Definition r_collapse_step log (st : HT string Z * Z * list sref) (frame_count : Z * Z) :
    M state (HT string Z * Z * list sref) :=
  collected ← lift (collect_loop (S (length (frames log))) log frame_count.1 ([], st.1.2));
  line ← lift (build_line collected.1);
  str_line ← smart_str_extract (match collected.1 with [] => false | _ => true end);
  keys ←
    match zend_hash_find line st.1.1 with
    | None => _ ← if_set zend_string_addref str_line; mret (option_list str_line ++ st.2)
    | Some _ => mret st.2
    end;
  mret (ht_incr line frame_count.2 st.1.1, collected.2, keys).

(** The string, and its address. *)
Definition r_format_collapsed : M state (string * option sref) :=
  s ← get_state;
  let log := r_log s in
  ht_frame_counts ← lift (for_entries log
      (fun h entry => Ok (ht_incr (frame_index entry) (entry_event_count entry) h)) (zend_new_array : HT Z Z));
  lines ← r_foldM (r_collapse_step log) (zend_new_array, 0, []) (zh_elems ht_frame_counts);
  let out := render_lines (zh_elems lines.1.1) in
  _ ← destroy_keys lines.2;
  str ← smart_str_extract (match zh_elems lines.1.1 with [] => false | _ => true end);
  mret (out, str).

(** The array, and the references that it holds. The other keys are interned. *)
Definition r_frame_to_array (frame : excimer_log_frame) fr : M state (HT string zval * list sref) :=
  _ ← if_set zend_string_addref (r_filename fr);
  _ ← if_set zend_string_addref (r_class_name fr);
  _ ← if_set zend_string_addref (r_function_name fr);
  key ←
    (if negb (closure_line frame =? 0) then
       k ← zend_string_init; _ ← zend_string_addref k; _ ← zend_string_delref k; mret [k]
     else mret []);
  mret (excimer_log_frame_to_array frame, key ++ refs_of fr).

(** [excimer_log_array_incr] with a key at [sp_key]: the array, and what it
    holds in addition. *)
Definition r_array_incr (ht : HT string zval) (key : string) (sp_key : sref) (term : Z) :
    M state (HT string zval * list sref) :=
  held ← match zend_hash_find key ht with
         | None => _ ← zend_string_addref sp_key; mret [sp_key]
         | Some _ => mret []
         end;
  ht ← lift (excimer_log_array_incr ht key term);
  mret (ht, held).

(** The state of the loops, the references that [ht_result] holds, and those of
    [ht_unique_names] to its keys. *)
Record raggr_state : Type := RAggr {
  ra_state : aggr_state HT;
  ra_held : list sref;
  ra_unique : list sref
}.

(** "If it is not in ht_result, add it". *)
Definition r_aggr_info (sp_self sp_inclusive sp_name : sref) (name : string) (frame : excimer_log_frame) fr
    (result : HT string (HT string zval)) (held : list sref) :
    M state (HT string (HT string zval) * HT string zval * list sref) :=
  match zend_hash_find name result with
  | Some info => mret (result, info, held)
  | None =>
      '(info, refs) ← r_frame_to_array frame fr;
      _ ← zend_string_addref sp_self;
      _ ← zend_string_addref sp_inclusive;
      let info := zend_hash_add "inclusive" (ZV_long 0) (zend_hash_add "self" (ZV_long 0) info) in
      _ ← zend_string_addref sp_name;
      mret (zend_hash_add name info result, info, sp_name :: sp_inclusive :: sp_self :: refs ++ held)
  end.

(** "If this is the first instance of a function in an entry". *)
Definition r_aggr_inclusive (sp_inclusive sp_name : sref) (name : string) (event_count : Z)
    (info : HT string zval) (held : list sref) (unique : HT string Z) (keys : list sref) :
    M state (HT string zval * list sref * HT string Z * list sref) :=
  match zend_hash_find name unique with
  | None =>
      '(info, more) ← r_array_incr info "inclusive" sp_inclusive event_count;
      _ ← zend_string_addref sp_name;
      mret (info, more ++ held, zend_hash_add name 0 unique, sp_name :: keys)
  | Some _ => mret (info, held, unique, keys)
  end.

Definition r_aggr_frame (sp_self sp_inclusive : sref) (event_count : Z) (frame : excimer_log_frame) fr
    (st : raggr_state) : M state raggr_state :=
  name ← lift (aggr_name frame);
  sp_name ← zend_string_init;
  '(result, info, held) ←
    r_aggr_info sp_self sp_inclusive sp_name name frame fr (ht_result (ra_state st)) (ra_held st);
  '(info, held) ←
    (if is_top (ra_state st) then
       '(info, more) ← r_array_incr info "self" sp_self event_count; mret (info, more ++ held)
     else mret (info, held));
  '(info, held, unique, keys) ←
    r_aggr_inclusive sp_inclusive sp_name name event_count info held
      (ht_unique_names (ra_state st)) (ra_unique st);
  _ ← zend_string_delref sp_name;
  mret (RAggr (AggrState (zend_hash_write name info result) unique false) held keys).

Fixpoint r_aggr_loop (fuel : nat) (sp_self sp_inclusive : sref) log (frs : list frame_refs)
    (event_count index : Z) (st : raggr_state) : M state raggr_state :=
  match fuel with
  | O => lift Diverge
  | S fuel' =>
      if index =? 0 then mret st
      else
        frame ← lift (deref (excimer_log_get_frame log index));
        fr ← lift (deref (array_get frs index));
        st ← r_aggr_frame sp_self sp_inclusive event_count frame fr st;
        r_aggr_loop fuel' sp_self sp_inclusive log frs event_count (prev_index frame) st
  end.

(** One entry; [zend_hash_clean] releases the keys of [ht_unique_names]. *)
Definition r_aggr_entry (sp_self sp_inclusive : sref) log (frs : list frame_refs)
    (acc : HT string (HT string zval) * list sref) (i : Z) : M state (HT string (HT string zval) * list sref) :=
  entry ← lift (deref (excimer_log_get_entry log i));
  st ← r_aggr_loop (S (length (frames log))) sp_self sp_inclusive log frs (entry_event_count entry)
    (frame_index entry) (RAggr (AggrState acc.1 zend_new_array true) acc.2 []);
  _ ← destroy_keys (ra_unique st);
  mret (ht_result (ra_state st), ra_held st).

(** The result, and the references that it holds. *)
Definition r_aggr_by_func : M state (HT string (HT string zval) * list sref) :=
  s ← get_state;
  let log := r_log s in
  sp_inclusive ← zend_string_init;
  sp_self ← zend_string_init;
  acc ← r_foldM (r_aggr_entry sp_self sp_inclusive log (r_frames s))
    (zend_new_array (HT:=HT) (K:=string) (V:=HT string zval), [])
    (seqZ 0 (entries_size log));
  _ ← zend_string_delref sp_self;
  _ ← zend_string_delref sp_inclusive;
  mret (zend_hash_sort (excimer_log_aggr_compare (HT:=HT)) acc.1, acc.2).

(** ** Specification *)

(** The strings that were made and that nothing has a pointer to but [held]. *)
Definition lost_strings s s' (held : list sref) : gset sref :=
  (dom (strings s') ∖ dom (strings s)) ∖ list_to_set held.

(** Every string that was in memory has the references of [held] in addition. *)
Definition counts_grow s s' (held : list sref) : Prop :=
  forall r m, strings s !! r = Some m ->
    strings s' !! r = Some (match m with Interned => Interned | Counted c => Counted (c + occurrences r held) end).

(** How often a name is on the stack of an entry again. *)
Definition entry_repeats log (e : excimer_log_entry) : nat :=
  length (entry_names log e) - length (remove_dups (entry_names log e)).

Definition repeated_names log : nat := list_sum (entry_repeats log <$> entries log).

(** The frames that the entries have, without repetitions and without zero. *)
Definition distinct_stacks log : list Z :=
  remove_dups (List.filter (fun i => negb (i =? 0)) (frame_index <$> entries log)).

(** Some entry has a frame. *)
Definition has_frames log : bool := existsb (fun e => negb (frame_index e =? 0)) (entries log).

(** A function that holds the references [E] and has lost the strings [L], since
    the strings in memory were [m0]. *)
Record holds (m0 : gmap sref zend_string_mem) (E L : list sref) s (x : sref -> Z) : Prop := Holds {
  ho_refs : refs_with E s x;
  ho_dom : dom (strings s) = dom m0 ∪ list_to_set E ∪ list_to_set L;
  ho_lost : NoDup L /\ (forall r, r ∈ L -> r ∉ dom m0 /\ r ∉ E);
  ho_new : forall r, r ∉ dom m0 -> x r = 0;
  ho_log : forall r, r ∈ log_refs s -> r ∈ dom m0;
  ho_interned : forall r, strings s !! r = Some Interned <-> m0 !! r = Some Interned
}.

(** The log is the same. *)
Definition frozen s s' : Prop := r_log s' = r_log s /\ r_frames s' = r_frames s /\ r_keys s' = r_keys s.

End format_refs.
Arguments raggr_state HT : clear implicits.

(** ** Lemmas *)

Section format_refs_facts.
  Context {HT : Type -> Type -> Type} `{ZendHashLaws HT}.
  Abbreviation state := (rstate HT).
  Implicit Types (s : state) (r : sref) (fr : frame_refs) (E L : list sref) (x : sref -> Z)
    (m : gmap sref zend_string_mem).

Lemma frozen_refl s : frozen s s.
Proof. done. Qed.

Lemma frozen_trans s1 s2 s3 : frozen s1 s2 -> frozen s2 s3 -> frozen s1 s3.
Proof. intros (?&?&?) (?&?&?). split_and!; congruence. Qed.

Lemma frozen_refs s s' : frozen s s' -> log_refs s' = log_refs s.
Proof. intros (_ & Hf & Hk). unfold log_refs. by rewrite Hf, Hk. Qed.

Lemma holds_start s : refs_inv s -> holds (strings s) [] [] s (external s).
Proof.
  intros Hi. pose proof (external_refs s Hi) as Hw. split; [done|set_solver| | | |done].
  - split; [constructor|]. intros r Hr. by apply elem_of_nil in Hr.
  - intros r Hr%not_elem_of_dom. pose proof (rw_balanced _ _ _ Hw r) as Hb. rewrite Hr in Hb. simpl in Hb.
    pose proof (rw_external _ _ _ Hw r). pose proof (occurrences_nonneg r (log_refs s ++ [])). lia.
  - intros r Hr. apply elem_of_dom, (ri_alive _ Hi), Hr.
Qed.

Lemma holds_perm m0 E E' L s x : E' ≡ₚ E -> holds m0 E L s x -> holds m0 E' L s x.
Proof.
  intros Hp [Hw Hd [Hn Hl] Hx Ho Hi]. split; [|by rewrite Hp| |done..].
  - by apply (refs_with_perm s s E E'); [| |by rewrite Hp|].
  - split; [done|]. intros r Hr. rewrite Hp. by apply Hl.
Qed.

(** Operations on one string. *)

Lemma elem_of_known m0 E L r :
  r ∈ (dom m0 ∪ list_to_set E ∪ list_to_set L : gset sref) <-> r ∈ dom m0 \/ r ∈ E \/ r ∈ L.
Proof. rewrite !elem_of_union, !elem_of_list_to_set. tauto. Qed.

Lemma holds_known m0 E L s x r : holds m0 E L s x -> is_Some (strings s !! r) <-> r ∈ dom m0 \/ r ∈ E \/ r ∈ L.
Proof. intros Hh. by rewrite <-elem_of_known, <-(ho_dom _ _ _ _ _ Hh), elem_of_dom. Qed.

(** Writing the count of a counted string. *)
Lemma holds_count m0 E E' L L' s r c c' x :
  holds m0 E L s x -> strings s !! r = Some (Counted c) ->
  refs_with E' (set_strings (<[r := Counted c']> (strings s)) s) x ->
  (forall r', r' ∈ dom m0 \/ r' ∈ E' \/ r' ∈ L' <-> r' ∈ dom m0 \/ r' ∈ E \/ r' ∈ L) ->
  NoDup L' -> (forall r, r ∈ L' -> r ∉ dom m0 /\ r ∉ E') ->
  holds m0 E' L' (set_strings (<[r := Counted c']> (strings s)) s) x.
Proof.
  intros [Hw Hd [Hn Hl] Hx Ho Hi] Hr Hw' HE HL HL'. split; [done| |done|done|done|]; cbn [strings set_strings].
  - rewrite dom_insert_lookup_L by eauto. rewrite Hd. apply set_eq. intros r'. by rewrite !elem_of_known.
  - intros r'. destruct (decide (r' = r)) as [->|Hne]; [|by rewrite lookup_insert_ne].
    rewrite lookup_insert_eq, <-Hi, Hr. naive_solver.
Qed.

(** Leaving an interned string alone. *)
Lemma holds_interned m0 E E' L s x :
  holds m0 E L s x -> refs_with E' s x ->
  (forall r, r ∈ dom m0 \/ r ∈ E' <-> r ∈ dom m0 \/ r ∈ E) -> holds m0 E' L s x.
Proof.
  intros [Hw Hd [Hn Hl] Hx Ho Hi] Hw' HE. split; [done| | |done..].
  { rewrite Hd. apply set_eq. intros r. rewrite !elem_of_known. specialize (HE r). tauto. }
  split; [done|]. intros r Hr. specialize (Hl r Hr). specialize (HE r). tauto.
Qed.

(** Lost strings are not among the references. *)
Definition lost_ok (m0 : gmap sref zend_string_mem) E L : Prop := forall r, r ∈ L -> r ∉ dom m0 /\ r ∉ E.

Lemma lost_ok_cons m0 E L r : lost_ok m0 E L -> r ∈ dom m0 \/ r ∈ E -> lost_ok m0 (r :: E) L.
Proof.
  intros Hl Hin r' Hr'. destruct (Hl r' Hr') as [Hd HE]. split; [done|]. intros [->|?]%elem_of_cons; [|done]. by destruct Hin.
Qed.

Lemma lost_ok_tail m0 E L r : lost_ok m0 (r :: E) L -> lost_ok m0 E L.
Proof. intros Hl r' Hr'. destruct (Hl r' Hr') as [Hd HE]. split; [done|]. by intros ?; apply HE, elem_of_cons; right. Qed.

Lemma lost_ok_lose m0 E L r : lost_ok m0 (r :: E) L -> r ∉ dom m0 -> r ∉ E -> lost_ok m0 E (r :: L).
Proof. intros Hl%lost_ok_tail Hd HE r' [->|Hr']%elem_of_cons; [done|by apply Hl]. Qed.

Lemma h_addref m0 E L s x r :
  holds m0 E L s x -> r ∈ dom m0 \/ r ∈ E ->
  exists s', zend_string_addref r s = (s', Ok tt) /\ holds m0 (r :: E) L s' x /\ frozen s s'.
Proof.
  intros Hh Hin. pose proof Hh as [Hw Hd [Hn Hl] _ _ _].
  assert (is_Some (strings s !! r)) as [m Hr] by (apply (holds_known _ _ _ _ _ _ Hh); rewrite ?elem_of_cons; tauto).
  destruct (addref_ok s E r x Hw) as (s' & Hrun & Hw' & _ & _); [by eauto|].
  exists s'. split; [done|]. unfold zend_string_addref in Hrun.
  rewrite (bind_ok _ _ _ _ _ (get_string_ok s r m Hr)) in Hrun.
  destruct m as [|c]; injection Hrun as <-; (split; [|done]).
  - eapply holds_interned; [done..|]. intros r'. rewrite elem_of_cons. naive_solver.
  - eapply holds_count; [done..|intros r'; rewrite ?elem_of_cons; naive_solver|done|by apply lost_ok_cons].
Qed.

(** Dropping a reference to a string that remains known. *)
Lemma h_delref m0 E L s x r :
  holds m0 (r :: E) L s x -> r ∈ dom m0 \/ r ∈ E ->
  exists s', zend_string_delref r s = (s', Ok tt) /\ holds m0 E L s' x /\ frozen s s'.
Proof.
  intros Hh Hin. pose proof Hh as [Hw Hd [Hn Hl] _ _ _].
  assert (is_Some (strings s !! r)) as [m Hr] by (apply (holds_known _ _ _ _ _ _ Hh); rewrite ?elem_of_cons; tauto).
  destruct (delref_ok s E r x Hw) as (s' & Hrun & Hw' & _ & _).
  exists s'. split; [done|]. unfold zend_string_delref in Hrun.
  rewrite (bind_ok _ _ _ _ _ (get_string_ok s r m Hr)) in Hrun.
  destruct m as [|c]; injection Hrun as <-; (split; [|done]).
  - eapply holds_interned; [done..|]. intros r'. rewrite elem_of_cons. naive_solver.
  - eapply holds_count; [done..|intros r'; rewrite ?elem_of_cons; naive_solver|done|by eapply lost_ok_tail].
Qed.

(** [zend_string_delref] of the last reference: the string is lost. *)
Lemma h_delref_last m0 E L s x r :
  holds m0 (r :: E) L s x -> r ∉ dom m0 -> r ∉ E ->
  exists s', zend_string_delref r s = (s', Ok tt) /\ holds m0 E (r :: L) s' x /\ frozen s s'.
Proof.
  intros Hh Hnew Hin. pose proof Hh as [Hw Hd [Hn Hl] _ _ Hi].
  assert (is_Some (strings s !! r)) as [m Hr] by (apply (holds_known _ _ _ _ _ _ Hh); rewrite ?elem_of_cons; tauto).
  destruct (delref_ok s E r x Hw) as (s' & Hrun & Hw' & _ & _).
  exists s'. split; [done|]. unfold zend_string_delref in Hrun.
  rewrite (bind_ok _ _ _ _ _ (get_string_ok s r m Hr)) in Hrun.
  destruct m as [|c]; injection Hrun as <-; (split; [|done]).
  - apply Hi, elem_of_dom_2 in Hr. done.
  - eapply holds_count; [done..|intros r'; rewrite ?elem_of_cons; naive_solver| |by apply lost_ok_lose].
    constructor; [|done]. intros HrL. destruct (Hl r HrL) as [_ HrE]. by apply HrE, elem_of_cons; left.
Qed.

(** [zend_string_release] frees it. *)
Lemma h_release m0 E L s x r :
  holds m0 (r :: E) L s x -> r ∉ dom m0 ->
  exists s', zend_string_release r s = (s', Ok tt) /\ holds m0 E L s' x /\ frozen s s'.
Proof.
  intros Hh Hnew. pose proof Hh as [Hw Hd [Hn Hl] Hx Ho Hi].
  assert (is_Some (strings s !! r)) as [m Hr] by (apply (holds_known _ _ _ _ _ _ Hh); rewrite ?elem_of_cons; tauto).
  destruct (release_ok s E r x Hw) as (s' & Hrun & Hw' & _).
  exists s'. split; [done|]. unfold zend_string_release in Hrun.
  rewrite (bind_ok _ _ _ _ _ (get_string_ok s r m Hr)) in Hrun.
  destruct m as [|c]; [by apply Hi, elem_of_dom_2 in Hr|].
  pose proof (rw_balanced _ _ _ Hw r) as Hb. rewrite Hr, (Hx r Hnew) in Hb. simpl in Hb.
  rewrite occurrences_app, occurrences_cons, decide_True, (occurrences_notin r (log_refs s)) in Hb by (done || intros ?%Ho; done).
  assert (HrL : r ∉ L) by (intros HL; destruct (Hl r HL) as [_ HrE]; by apply HrE, elem_of_cons; left).
  destruct (Z.eqb_spec (c - 1) 0) as [Hc|Hc]; injection Hrun as <-; (split; [|done]).
  - assert (HrE : r ∉ E) by (apply occurrences_in; lia).
    split; [done| | |done|done|]; cbn [strings set_strings].
    + rewrite dom_delete_L, Hd. set_solver.
    + split; [done|]. by eapply lost_ok_tail.
    + intros r'. destruct (decide (r' = r)) as [->|Hne]; [|by rewrite lookup_delete_ne].
      rewrite lookup_delete_eq, <-Hi, Hr. naive_solver.
  - assert (HrE : r ∈ E).
    { destruct (decide (r ∈ E)) as [?|HE]; [done|]. rewrite (occurrences_notin r E) in Hb by done. lia. }
    eapply holds_count; [done..|intros r'; rewrite ?elem_of_cons; naive_solver|done|by eapply lost_ok_tail].
Qed.

Lemma h_init m0 E L s x :
  holds m0 E L s x ->
  exists s' k, zend_string_init s = (s', Ok k) /\ holds m0 (k :: E) L s' x /\ frozen s s' /\
    k ∉ dom m0 /\ k ∉ E /\ k ∉ L.
Proof.
  intros Hh. pose proof Hh as [Hw Hd [Hn Hl] Hx Ho Hi].
  destruct (init_ok s E x Hw) as (s' & Hrun & Hw' & _ & _ & _ & Hnone & _).
  set (k := next_string s) in *. exists s', k. apply not_elem_of_dom in Hnone. rewrite Hd in Hnone.
  split; [done|]. injection Hrun as <-. split; [|split; [done|set_solver]].
  split; [done| | |done|done|]; cbn [strings set_strings set_next_string].
  - rewrite dom_insert_L. fold k. set_solver.
  - split; [done|]. intros r' Hr'. specialize (Hl r' Hr'). set_solver.
  - intros r'. fold k. destruct (decide (r' = k)) as [->|Hne]; [|by rewrite lookup_insert_ne].
    rewrite lookup_insert_eq. split; [done|]. intros Hm%elem_of_dom_2. set_solver.
Qed.

Lemma h_if_addref m0 E L s x p :
  holds m0 E L s x -> (forall r, r ∈ option_list p -> r ∈ dom m0 \/ r ∈ E) ->
  exists s', if_set zend_string_addref p s = (s', Ok tt) /\ holds m0 (option_list p ++ E) L s' x /\ frozen s s'.
Proof.
  intros Hh Hp. destruct p as [r|]; simpl in *; [|by exists s]. apply h_addref; [done|]. apply Hp. set_solver.
Qed.

Lemma h_destroy_keys m0 ks E L s x :
  holds m0 (ks ++ E) L s x -> (forall r, r ∈ ks -> r ∉ dom m0) ->
  exists s', destroy_keys ks s = (s', Ok tt) /\ holds m0 E L s' x /\ frozen s s'.
Proof.
  revert s. induction ks as [|k ks IH]; intros s Hh Hks; [by exists s|].
  destruct (h_release m0 (ks ++ E) L s x k Hh) as (s1 & Hr1 & Hh1 & Hf1); [apply Hks; set_solver|].
  destruct (IH s1 Hh1) as (s2 & Hr2 & Hh2 & Hf2); [set_solver|].
  exists s2. cbn [destroy_keys]. rewrite (bind_ok _ _ _ _ _ Hr1). eauto using frozen_trans.
Qed.

(** *** Aggregation *)

Lemma lift_ok {A} (o : outcome A) a s : o = Ok a -> lift o s = (s, Ok a).
Proof. by intros ->. Qed.

Lemma frame_to_array_refs m0 E L s x frame fr :
  holds m0 E L s x -> (forall r, r ∈ refs_of fr -> r ∈ dom m0) ->
  exists s' refs, r_frame_to_array (HT:=HT) frame fr s = (s', Ok (excimer_log_frame_to_array frame, refs)) /\
    holds m0 (refs ++ E) L s' x /\ frozen s s'.
Proof.
  intros Hh Hfr. unfold refs_of in Hfr.
  assert (Hold : forall p, option_list p ⊆ option_list (r_filename fr) ++ option_list (r_class_name fr)
      ++ option_list (r_function_name fr) -> forall E r, r ∈ option_list p -> r ∈ dom m0 \/ r ∈ E).
  { intros p Hp E0 r Hr. left. by apply Hfr, Hp. }
  destruct (h_if_addref _ _ _ _ _ (r_filename fr) Hh) as (s1 & Hr1 & Hh1 & Hf1); [apply Hold; set_solver|].
  destruct (h_if_addref _ _ _ _ _ (r_class_name fr) Hh1) as (s2 & Hr2 & Hh2 & Hf2); [apply Hold; set_solver|].
  destruct (h_if_addref _ _ _ _ _ (r_function_name fr) Hh2) as (s3 & Hr3 & Hh3 & Hf3); [apply Hold; set_solver|].
  pose proof (frozen_trans _ _ _ (frozen_trans _ _ _ Hf1 Hf2) Hf3) as Hf.
  unfold r_frame_to_array. rewrite (bind_ok _ _ _ _ _ Hr1), (bind_ok _ _ _ _ _ Hr2), (bind_ok _ _ _ _ _ Hr3).
  assert (Hh' : holds m0 (refs_of fr ++ E) L s3 x).
  { revert Hh3. apply holds_perm. unfold refs_of. solve_Permutation. }
  destruct (negb (closure_line frame =? 0)).
  - destruct (h_init _ _ _ _ _ Hh') as (s4 & k & Hr4 & Hh4 & Hf4 & Hk & _).
    destruct (h_addref _ _ _ _ _ k Hh4) as (s5 & Hr5 & Hh5 & Hf5); [set_solver|].
    destruct (h_delref _ _ _ _ _ k Hh5) as (s6 & Hr6 & Hh6 & Hf6); [set_solver|].
    exists s6, ([k] ++ refs_of fr). split; [|eauto 7 using frozen_trans].
    unfold mbind at 1, M_bind at 1. rewrite (bind_ok _ _ _ _ _ Hr4), (bind_ok _ _ _ _ _ Hr5), (bind_ok _ _ _ _ _ Hr6). done.
  - by exists s3, (refs_of fr).
Qed.

Lemma array_incr_refs (ht ht' : HT string zval) key k n v s :
  zend_hash_find key ht = Some v -> excimer_log_array_incr ht key n = Ok ht' ->
  r_array_incr ht key k n s = (s, Ok (ht', [])).
Proof. intros Hk Ht. unfold r_array_incr. rewrite Hk. unfold mbind, M_bind, mret, M_ret, lift. by rewrite Ht. Qed.

Lemma aggr_info_refs m0 E L s x self incl k nm f fr (result : HT string (HT string zval)) held :
  holds m0 (k :: self :: incl :: E ++ held) L s x -> (forall r, r ∈ refs_of fr -> r ∈ dom m0) ->
  exists s' result' info held',
    r_aggr_info self incl k nm f fr result held s = (s', Ok (result', info, held')) /\
    match zend_hash_find nm result with
    | Some info => (result, info) | None => (zend_hash_add nm (new_info (HT:=HT) f) result, new_info f)
    end = (result', info) /\
    match zend_hash_find nm result with
    | Some _ => held' = held | None => self ∈ held' /\ incl ∈ held'
    end /\
    holds m0 (k :: self :: incl :: E ++ held') L s' x /\ frozen s s'.
Proof.
  intros Hh Hfr. unfold r_aggr_info. destruct (zend_hash_find nm result) as [info|].
  { by exists s, result, info, held. }
  destruct (frame_to_array_refs _ _ _ _ _ f fr Hh Hfr) as (s1 & refs & Hr1 & Hh1 & Hf1).
  destruct (h_addref _ _ _ _ _ self Hh1) as (s2 & Hr2 & Hh2 & Hf2); [set_solver|].
  destruct (h_addref _ _ _ _ _ incl Hh2) as (s3 & Hr3 & Hh3 & Hf3); [set_solver|].
  destruct (h_addref _ _ _ _ _ k Hh3) as (s4 & Hr4 & Hh4 & Hf4); [set_solver|].
  rewrite (bind_ok _ _ _ _ _ Hr1), (bind_ok _ _ _ _ _ Hr2), (bind_ok _ _ _ _ _ Hr3), (bind_ok _ _ _ _ _ Hr4).
  eexists _, _, _, _. split; [done|]. split; [done|]. split; [set_solver|]. split; [|eauto 7 using frozen_trans].
  revert Hh4. apply holds_perm. solve_Permutation.
Qed.

Lemma aggr_inclusive_refs m0 L s x self incl k nm n c i (info : HT string zval) held (unique : HT string Z) keys :
  holds m0 (k :: self :: incl :: keys ++ held) L s x -> info_counters info = Some (c, i) ->
  exists s' info' unique' keys',
    r_aggr_inclusive incl k nm n info held unique keys s = (s', Ok (info', held, unique', keys')) /\
    match zend_hash_find nm unique with
    | None => let! info := excimer_log_array_incr info "inclusive" n in Ok (info, zend_hash_add nm 0 unique)
    | Some _ => Ok (info, unique)
    end = Ok (info', unique') /\
    unique' = (if seen unique nm then unique else zend_hash_add nm 0 unique) /\
    keys' = (if seen unique nm then keys else k :: keys) /\
    holds m0 (k :: self :: incl :: keys' ++ held) L s' x /\ frozen s s'.
Proof.
  intros Hh Hc. unfold r_aggr_inclusive, seen. destruct (zend_hash_find nm unique) as [v|].
  { by exists s, info, unique, keys. }
  destruct (incr_inclusive info c i n Hc) as (info' & Hincr & _).
  destruct (info_counters_inv _ _ _ Hc) as [_ Hi].
  rewrite (bind_ok _ _ _ _ _ (array_incr_refs info info' "inclusive" incl n _ s Hi Hincr)), Hincr.
  destruct (h_addref _ _ _ _ _ k Hh) as (s' & Hr & Hh' & Hf); [set_solver|].
  rewrite (bind_ok _ _ _ _ _ Hr). eexists _, _, _, _. do 4 (split; [done|]). split; [|done].
  revert Hh'. apply holds_perm. solve_Permutation.
Qed.

(** The state of the loops: the counters are well formed, names that were seen
    are in the result, [ht_unique_names] holds its keys, and the arrays of the
    result hold the names of their counters. *)
Record aggr_refs_ok m0 (self incl : sref) (st : raggr_state HT) : Prop := AggrRefsOk {
  ao_result : result_ok (ht_result (ra_state st));
  ao_seen : forall y, seen (ht_unique_names (ra_state st)) y = true -> counters (ht_result (ra_state st)) y <> None;
  ao_keys : length (ra_unique st) = length (zh_elems (ht_unique_names (ra_state st)));
  ao_nodup : NoDup (zh_elems (ht_unique_names (ra_state st))).*1;
  ao_fresh : forall r, r ∈ ra_unique st -> r ∉ dom m0;
  ao_shared : (exists y, counters (ht_result (ra_state st)) y <> None) -> self ∈ ra_held st /\ incl ∈ ra_held st
}.

Lemma counters_find (result : HT string (HT string zval)) nm :
  result_ok result -> counters result nm <> None <-> zend_hash_find nm result <> None.
Proof.
  intros [_ Hok]. unfold counters. destruct (zend_hash_find nm result) as [info|] eqn:Hf; [|done].
  destruct (Hok nm info Hf) as (c & i & -> & _). naive_solver.
Qed.

Lemma unique_length nm (unique unique' : HT string Z) (keys : list sref) k :
  length keys = length (zh_elems unique) -> NoDup (zh_elems unique).*1 ->
  unique' = (if seen unique nm then unique else zend_hash_add nm 0 unique) ->
  length (if seen unique nm then keys else k :: keys) = length (zh_elems unique') /\ NoDup (zh_elems unique').*1.
Proof.
  intros Hl Hn ->. unfold seen. destruct (zend_hash_find nm unique) eqn:Hf; [done|].
  split; [|by apply hash_add_nodup]. rewrite zend_hash_add_spec. unfold alist_add.
  rewrite zend_hash_find_spec in Hf. rewrite Hf, length_app. simpl. lia.
Qed.

(** What frames with the names [nms] do to the references. *)
Record aggr_run m0 (self incl : sref) x (nms : list string) L s (st : raggr_state HT) L' s' (st' : raggr_state HT)
    : Prop := AggrRun {
  ar_ok : aggr_refs_ok m0 self incl st';
  ar_frozen : frozen s s';
  ar_seen : forall y, seen (ht_unique_names (ra_state st')) y
    = seen (ht_unique_names (ra_state st)) y || bool_decide (y ∈ nms);
  ar_shared : if nms is [] then ra_held st' = ra_held st else self ∈ ra_held st' /\ incl ∈ ra_held st';
  ar_holds : holds m0 (self :: incl :: ra_unique st' ++ ra_held st') L' s' x;
  ar_length : (length L' + length (ra_unique st') = length L + length (ra_unique st) + length nms)%nat
}.

Lemma aggr_run_cons m0 self incl x nm nms L s (st : raggr_state HT) L1 s1 (st1 : raggr_state HT) L2 s2 (st2 : raggr_state HT) :
  aggr_run m0 self incl x [nm] L s st L1 s1 st1 -> aggr_run m0 self incl x nms L1 s1 st1 L2 s2 st2 ->
  aggr_run m0 self incl x (nm :: nms) L s st L2 s2 st2.
Proof.
  intros [_ Hf1 Hs1 Hh1 _ Hl1] [Hok Hf2 Hs2 Hh2 Hho Hl2]. split; [done|by eapply frozen_trans| | |done|simpl in *; lia].
  - intros y. rewrite Hs2, Hs1, <-orb_assoc. f_equal. repeat case_bool_decide; set_solver.
  - destruct nms; [by rewrite Hh2|done].
Qed.

(** The function's own reference to the name is dropped: the name is lost if it
    was neither added to the result nor to [ht_unique_names]. *)
Lemma drop_name_refs m0 E L s x k keys held nm (unique : HT string Z) :
  holds m0 (k :: E ++ (if seen unique nm then keys else k :: keys) ++ held) L s x ->
  k ∉ dom m0 -> (seen unique nm = true -> k ∉ E ++ keys ++ held) ->
  exists s' L', zend_string_delref k s = (s', Ok tt) /\ frozen s s' /\
    holds m0 (E ++ (if seen unique nm then keys else k :: keys) ++ held) L' s' x /\
    (length L' + length (if seen unique nm then keys else k :: keys) = length L + length keys + 1)%nat.
Proof.
  intros Hh Hk Hin. destruct (seen unique nm).
  - destruct (h_delref_last _ _ _ _ _ k Hh Hk) as (s' & Hr & Hh' & Hf); [by apply Hin|].
    exists s', (k :: L). split_and!; [done..|simpl; lia].
  - destruct (h_delref _ _ _ _ _ k Hh) as (s' & Hr & Hh' & Hf); [set_solver|].
    exists s', L. split_and!; [done..|simpl; lia].
Qed.

(** Counting the name as "self". *)
Lemma aggr_self_refs (top : bool) (info : HT string zval) c i n self (held : list sref) s :
  info_counters info = Some (c, i) ->
  exists info' c', (if top then excimer_log_array_incr info "self" n else Ok info) = Ok info' /\
    info_counters info' = Some (c', i) /\
    (if top then '(info, more) ← r_array_incr info "self" self n; mret (info, more ++ held)
     else mret (info, held)) s = (s, Ok (info', held)).
Proof.
  intros Hc. destruct top; [|by exists info, c].
  destruct (incr_self info c i n Hc) as (info' & Hincr & Hc'). exists info', (wrap_i64 (c + n)).
  destruct (info_counters_inv _ _ _ Hc) as [Hs _]. split; [done|]. split; [done|].
  by rewrite (bind_ok _ _ _ _ _ (array_incr_refs info info' "self" self n _ s Hs Hincr)).
Qed.

Lemma aggr_frame_refs m0 self incl L s x n f fr (st : raggr_state HT) :
  holds m0 (self :: incl :: ra_unique st ++ ra_held st) L s x -> aggr_refs_ok m0 self incl st ->
  (exists nm, filename f = Some nm) -> (forall r, r ∈ refs_of fr -> r ∈ dom m0) ->
  exists L' s' st', r_aggr_frame self incl n f fr st s = (s', Ok st') /\
    aggr_frame n f (ra_state st) = Ok (ra_state st') /\ aggr_run m0 self incl x [func_name f] L s st L' s' st'.
Proof.
  intros Hh Hok Hfn Hfr. destruct Hok as [Hres Hseen Hkeys Hnd Hfresh Hshared].
  destruct (aggr_frame_spec n f (ra_state st) Hres Hfn) as (st1 & Hrun & _ & Hres1 & Hseen1 & Hc1).
  set (nm := func_name f) in *.
  destruct (h_init _ _ _ _ _ Hh) as (s1 & k & Hr1 & Hh1 & Hf1 & Hk & HkE & _).
  destruct (aggr_info_refs _ _ _ _ _ _ _ _ nm f fr (ht_result (ra_state st)) _ Hh1 Hfr)
    as (s2 & result & info & held & Hr2 & Hinfo & Hheld & Hh2 & Hf2).
  destruct (lookup_info_spec nm f _ Hres) as (result' & info' & c & i & Hinfo' & Hc & _).
  rewrite Hinfo in Hinfo'. injection Hinfo' as <- <-.
  destruct (aggr_self_refs (is_top (ra_state st)) info c i n self held s2 Hc) as (info1 & c1 & Htop & Hc' & Hr3).
  destruct (aggr_inclusive_refs _ _ _ _ _ _ _ nm n _ _ info1 held (ht_unique_names (ra_state st)) _ Hh2 Hc')
    as (s3 & info2 & unique & keys & Hr4 & Hincl & Hu & -> & Hh3 & Hf3).
  destruct (drop_name_refs m0 [self; incl] L s3 x k (ra_unique st) held nm (ht_unique_names (ra_state st)) Hh3 Hk)
    as (s4 & L' & Hr5 & Hf4 & Hh4 & Hlen).
  { intros Hs. apply Hseen, (counters_find _ _ Hres) in Hs.
    destruct (zend_hash_find nm (ht_result (ra_state st))); [by subst held|done]. }
  assert (Hst : aggr_frame n f (ra_state st) = Ok (AggrState (zend_hash_write nm info2 result) unique false)).
  { unfold aggr_frame. rewrite aggr_name_spec by done. cbn [obind]. fold nm. rewrite Hinfo, Htop. cbn [obind].
    rewrite Hincl. done. }
  rewrite Hst in Hrun. injection Hrun as <-. cbn [ht_result ht_unique_names] in *.
  exists L', s4, (RAggr (AggrState (zend_hash_write nm info2 result) unique false) held
    (if seen (ht_unique_names (ra_state st)) nm then ra_unique st else k :: ra_unique st)). split.
  { unfold r_aggr_frame. rewrite (bind_ok _ _ _ _ _ (lift_ok _ _ s (aggr_name_spec f Hfn))).
    by rewrite (bind_ok _ _ _ _ _ Hr1), (bind_ok _ _ _ _ _ Hr2), (bind_ok _ _ _ _ _ Hr3), (bind_ok _ _ _ _ _ Hr4),
      (bind_ok _ _ _ _ _ Hr5). }
  split; [exact Hst|].
  destruct (unique_length nm _ unique (ra_unique st) k Hkeys Hnd Hu) as [Hkeys' Hnd'].
  assert (Hboth : self ∈ held /\ incl ∈ held).
  { destruct (zend_hash_find nm (ht_result (ra_state st))) eqn:Hfind; [|done]. subst held. apply Hshared.
    exists nm. apply (counters_find _ _ Hres). by rewrite Hfind. }
  split; cbn [ra_state ra_held ra_unique ht_result ht_unique_names]; [split; cbn; try done| | |done|done|simpl; lia].
  - intros y. rewrite Hseen1, Hc1. case_decide as Hy; [intros _; unfold bump; by destruct (default _ _)|].
    rewrite bool_decide_false, orb_false_r by done. apply Hseen.
  - intros r. destruct (seen _ nm); [apply Hfresh|]. intros [->|Hr]%elem_of_cons; [done|by apply Hfresh].
  - eauto using frozen_trans.
  - intros y. rewrite Hseen1. f_equal. apply bool_decide_ext. by rewrite list_elem_of_singleton.
Qed.

(** The frames' strings are known. *)
Definition frames_known m0 (frs : list frame_refs) : Prop := forall fr r, fr ∈ frs -> r ∈ refs_of fr -> r ∈ dom m0.

Lemma aggr_loop_refs m0 self incl x log frs n i fuel L s (st : raggr_state HT) :
  log_wf log -> length frs = length (frames log) -> frames_known m0 frs ->
  0 <= i < frames_size log -> (Z.to_nat i < fuel)%nat ->
  holds m0 (self :: incl :: ra_unique st ++ ra_held st) L s x -> aggr_refs_ok m0 self incl st ->
  exists L' s' st', r_aggr_loop fuel self incl log frs n i st s = (s', Ok st') /\
    aggr_loop fuel log n i (ra_state st) = Ok (ra_state st') /\
    aggr_run m0 self incl x (func_name <$> chain (frames log) i) L s st L' s' st'.
Proof.
  intros Hwf Hlen Hfrs Hi. revert fuel L s st. revert i Hi. unfold frames_size.
  refine (chain_ind (frames log) (fun i => forall fuel L s st, (Z.to_nat i < fuel)%nat ->
    holds m0 (self :: incl :: ra_unique st ++ ra_held st) L s x -> aggr_refs_ok m0 self incl st ->
    exists L' s' st', r_aggr_loop fuel self incl log frs n i st s = (s', Ok st') /\
      aggr_loop fuel log n i (ra_state st) = Ok (ra_state st') /\
      aggr_run m0 self incl x (func_name <$> chain (frames log) i) L s st L' s' st')
    (wf_frames _ Hwf) _ _).
  - intros [|fuel] L s st Hn Hh Hok; [lia|]. exists L, s, st. split; [done|]. split; [done|].
    change (func_name <$> chain (frames log) 0) with (@nil string).
    split; try done. intros y. by rewrite bool_decide_false, orb_false_r by apply not_elem_of_nil.
  - intros i f Hi Hf Hp IH [|fuel] L s st Hn Hh Hok; [lia|].
    pose proof (array_get_Some _ _ _ Hf) as [Hr _].
    rewrite (chain_step _ i f) by (done || apply (wf_frames _ Hwf)). cbn [r_aggr_loop aggr_loop].
    rewrite (proj2 (Z.eqb_neq _ _)) by lia. rewrite get_frame_eq, Hf by (done || unfold frames_size; lia).
    destruct (array_get_is_Some frs i) as [fr Hfr]; [lia|]. rewrite Hfr.
    destruct (aggr_frame_refs m0 self incl L s x n f fr st Hh Hok) as (L1 & s1 & st1 & Hr1 & Hp1 & Hrun1).
    { by eapply frame_filename. }
    { intros r. apply Hfrs. apply array_get_Some in Hfr as [_ Hfr]. by eapply list_elem_of_lookup_2. }
    cbn [deref obind]. rewrite Hp1. cbn [obind].
    destruct (IH fuel L1 s1 st1) as (L2 & s2 & st2 & Hr2 & Hp2 & Hrun2);
      [lia|apply (ar_holds _ _ _ _ _ _ _ _ _ _ _ Hrun1)|apply (ar_ok _ _ _ _ _ _ _ _ _ _ _ Hrun1)|].
    exists L2, s2, st2. split; [|split; [done|by eapply aggr_run_cons]].
    rewrite (bind_ok _ _ s s f) by done. rewrite (bind_ok _ _ s s fr) by done. by rewrite (bind_ok _ _ _ _ _ Hr1).
Qed.

Lemma seen_elem (unique : HT string Z) y : seen unique y = bool_decide (y ∈ (zh_elems unique).*1).
Proof.
  unfold seen. rewrite zend_hash_find_spec. destruct (alist_get y (zh_elems unique)) as [v|] eqn:Hg.
  - symmetry. apply bool_decide_true. apply alist_get_elem in Hg. apply list_elem_of_fmap. by exists (y, v).
  - symmetry. by apply bool_decide_false, alist_get_None.
Qed.

Lemma unique_names_length (unique : HT string Z) nms :
  NoDup (zh_elems unique).*1 -> (forall y, seen unique y = bool_decide (y ∈ nms)) ->
  length (zh_elems unique) = length (remove_dups nms).
Proof.
  intros Hnd Hs. rewrite <-(length_fmap fst). apply Permutation_length, NoDup_Permutation; [done|apply NoDup_remove_dups|].
  intros y. specialize (Hs y). rewrite seen_elem in Hs. rewrite elem_of_remove_dups.
  by apply bool_decide_eq_true_1 || (split; intros Hy; [apply (bool_decide_eq_true_1 (y ∈ nms)); rewrite <-Hs|
    apply (bool_decide_eq_true_1 (y ∈ (zh_elems unique).*1)); rewrite Hs]; by apply bool_decide_true).
Qed.

Lemma remove_dups_length (nms : list string) : (length (remove_dups nms) <= length nms)%nat.
Proof.
  apply submseteq_length, NoDup_submseteq; [apply NoDup_remove_dups|]. intros y. by rewrite elem_of_remove_dups.
Qed.

(** Between two entries: what the result holds. *)
Record result_refs_ok (self incl : sref) (acc : HT string (HT string zval) * list sref) : Prop := ResultRefsOk {
  ro_result : result_ok acc.1;
  ro_shared : (exists y, counters acc.1 y <> None) -> self ∈ acc.2 /\ incl ∈ acc.2
}.

Lemma aggr_entry_refs m0 self incl x log frs e i L s acc :
  log_wf log -> length frs = length (frames log) -> frames_known m0 frs ->
  deref (excimer_log_get_entry log i) = Ok e -> 0 <= frame_index e < frames_size log ->
  holds m0 (self :: incl :: acc.2) L s x -> result_refs_ok self incl acc ->
  exists L' s' acc', r_aggr_entry self incl log frs acc i s = (s', Ok acc') /\
    aggr_entry log acc.1 e = Ok acc'.1 /\ holds m0 (self :: incl :: acc'.2) L' s' x /\
    result_refs_ok self incl acc' /\ frozen s s' /\ (length L' = length L + entry_repeats log e)%nat /\
    (if entry_names log e is [] then acc'.2 = acc.2 else self ∈ acc'.2 /\ incl ∈ acc'.2).
Proof.
  intros Hwf Hlen Hfrs He Hi Hh [Hres Hsh]. unfold r_aggr_entry, aggr_entry.
  destruct (aggr_loop_refs m0 self incl x log frs (entry_event_count e) (frame_index e) (S (length (frames log))) L s
    (RAggr (AggrState acc.1 zend_new_array true) acc.2 [])) as (L1 & s1 & st1 & Hr1 & Hp1 & [Hok Hf1 Hseen Hsh1 Hh1 Hl1]);
    [done..|unfold frames_size in *; lia|done| |].
  { split; cbn; try done; rewrite ?zh_elems_new; try done; [|constructor|by intros r ?%elem_of_nil].
    intros y. unfold seen. by rewrite hash_find_new. }
  destruct Hok as [Hres1 _ Hk1 Hnd1 Hfr1 Hs1].
  destruct (h_destroy_keys m0 (ra_unique st1) (self :: incl :: ra_held st1) L1 s1 x) as (s2 & Hr2 & Hh2 & Hf2); [|done|].
  { revert Hh1. apply holds_perm. solve_Permutation. }
  exists L1, s2, (ht_result (ra_state st1), ra_held st1). split.
  { rewrite (bind_ok _ _ s s e) by (by apply lift_ok). by rewrite (bind_ok _ _ _ _ _ Hr1), (bind_ok _ _ _ _ _ Hr2). }
  cbn [ra_state] in Hp1. rewrite Hp1. split; [done|]. split; [done|]. split; [done|]. split; [by eapply frozen_trans|].
  split; [|done].
  assert (Hu : length (ra_unique st1) = length (remove_dups (entry_names log e))).
  { rewrite Hk1. apply unique_names_length; [done|]. intros y. rewrite Hseen. cbn. unfold seen. by rewrite hash_find_new. }
  pose proof (remove_dups_length (entry_names log e)). unfold entry_repeats, entry_names in *.
  simpl in Hl1. rewrite !length_fmap in *. lia.
Qed.

Lemma entry_names_nil (log : excimer_log HT) e :
  log_wf log -> 0 <= frame_index e < frames_size log -> entry_names log e = [] <-> frame_index e = 0.
Proof.
  intros Hwf Hi. unfold entry_names, frames_size in *. split.
  - intros Hn%fmap_nil_inv. destruct (decide (frame_index e = 0)) as [?|Hne]; [done|].
    destruct (array_get_is_Some (frames log) (frame_index e) Hi) as [f Hf].
    rewrite (chain_step _ (frame_index e) f) in Hn by (done || apply (wf_frames _ Hwf) || lia). done.
  - by intros ->.
Qed.

Lemma aggr_entries_refs m0 self incl x (log : excimer_log HT) frs ixs es L s acc :
  log_wf log -> length frs = length (frames log) -> frames_known m0 frs ->
  Forall2 (fun i e => deref (excimer_log_get_entry log i) = Ok e) ixs es ->
  Forall (fun e => 0 <= frame_index e < frames_size log) es ->
  holds m0 (self :: incl :: acc.2) L s x -> result_refs_ok self incl acc ->
  exists L' s' acc', r_foldM (r_aggr_entry self incl log frs) acc ixs s = (s', Ok acc') /\
    foldM (aggr_entry log) acc.1 es = Ok acc'.1 /\ holds m0 (self :: incl :: acc'.2) L' s' x /\ frozen s s' /\
    length L' = (length L + list_sum (entry_repeats log <$> es))%nat /\
    (if existsb (fun e => negb (frame_index e =? 0)) es then self ∈ acc'.2 /\ incl ∈ acc'.2 else acc'.2 = acc.2).
Proof.
  intros Hwf Hlen Hfrs Hl. revert L s acc. induction Hl as [|i e ixs es He Hl IH]; intros L s acc Hes Hh Hok.
  { exists L, s, acc. split_and!; done. }
  apply Forall_cons in Hes as [Hi Hes].
  destruct (aggr_entry_refs m0 self incl x log frs e i L s acc Hwf Hlen Hfrs He Hi Hh Hok)
    as (L1 & s1 & acc1 & Hr1 & Hp1 & Hh1 & Hok1 & Hf1 & Hl1 & Hn1).
  destruct (IH L1 s1 acc1 Hes Hh1 Hok1) as (L2 & s2 & acc2 & Hr2 & Hp2 & Hh2 & Hf2 & Hl2 & Hn2).
  exists L2, s2, acc2. cbn [r_foldM foldM]. rewrite (bind_ok _ _ _ _ _ Hr1), Hp1.
  do 3 (split; [done|]). split; [by eapply frozen_trans|]. split; [rewrite fmap_cons, Hl2, Hl1; apply eq_sym, Nat.add_assoc|]. cbn [existsb].
  destruct (existsb _ es); [by rewrite orb_true_r|]. rewrite orb_false_r, Hn2.
  destruct (Z.eqb_spec (frame_index e) 0) as [Hz|Hz]; cbn [negb].
  - by rewrite (proj2 (entry_names_nil log e Hwf Hi) Hz) in Hn1.
  - destruct (entry_names log e) eqn:Hnm; [|done]. by apply (entry_names_nil log e Hwf Hi) in Hnm.
Qed.

(** What a function has lost, and the counts of the strings that were there. *)
Lemma lost_strings_size s s' E L x :
  holds (strings s) E L s' x -> lost_strings s s' E = list_to_set L /\ size (lost_strings s s' E) = length L.
Proof.
  intros [_ Hd [Hn Hl] _ _ _].
  assert (Hlost : lost_strings s s' E = list_to_set L).
  { apply set_eq. intros r. unfold lost_strings. rewrite !elem_of_difference, Hd, elem_of_known, !elem_of_list_to_set.
    specialize (Hl r). tauto. }
  split; [done|]. by rewrite Hlost, size_list_to_set.
Qed.

Lemma holds_counts s s' E L :
  refs_inv s -> frozen s s' -> holds (strings s) E L s' (external s) -> counts_grow s s' E.
Proof.
  intros Hi Hf [Hw Hd _ _ _ Hin] r m Hr.
  pose proof (rw_balanced _ _ _ (external_refs s Hi) r) as Hb. pose proof (rw_balanced _ _ _ Hw r) as Hb'.
  rewrite app_nil_r, Hr in Hb. rewrite (frozen_refs _ _ Hf), occurrences_app in Hb'.
  assert (is_Some (strings s' !! r)) as [m' Hm'].
  { apply elem_of_dom. rewrite Hd. apply elem_of_known. left. by eapply elem_of_dom_2. }
  rewrite Hm' in Hb' |- *. specialize (Hin r). destruct m as [|c].
  { by rewrite (proj2 Hin Hr) in Hm'. }
  destruct m' as [|c']; [|simpl in *; do 2 f_equal; lia]. by rewrite (proj1 Hin Hm') in Hr.
Qed.

Lemma log_strings_known s : refs_inv s -> frames_known (strings s) (r_frames s).
Proof.
  intros Hi fr r Hfr Hr. apply elem_of_dom, (ri_alive _ Hi). unfold log_refs. apply elem_of_app. left.
  apply list_elem_of_bind. eauto.
Qed.

(** *** Recorded samples *)

(** Every frame has its pointers. *)
Definition frames_paired s : Prop := length (r_frames s) = length (frames (r_log s)).

Definition keeps_paired {A} (m : M state A) : Prop := forall s, frames_paired s -> frames_paired (m s).1.

Lemma keeps_paired_bind {A B} (m : M state A) (k : A -> M state B) :
  keeps_paired m -> (forall a, keeps_paired (k a)) -> keeps_paired (m ≫= k).
Proof.
  intros Hm Hk s Hs. specialize (Hm s Hs). unfold mbind, M_bind. destruct (m s) as [s1 [a|msg|why|]]; [|done..].
  by apply (Hk a).
Qed.

Lemma keeps_paired_same {A} (m : M state A) :
  (forall s, r_frames (m s).1 = r_frames s /\ frames (r_log (m s).1) = frames (r_log s)) -> keeps_paired m.
Proof. intros Hm s Hs. destruct (Hm s) as [Hf Hl]. unfold frames_paired. by rewrite Hf, Hl. Qed.

Lemma keeps_paired_get r : keeps_paired (get_string r).
Proof. apply keeps_paired_same. intros s. unfold get_string, mbind, M_bind, get_state, lift. by destruct (deref _). Qed.

Ltac paired_string := apply keeps_paired_bind; [apply keeps_paired_get|intros [|c]; by apply keeps_paired_same].

Lemma keeps_paired_addref r : keeps_paired (zend_string_addref r).
Proof. paired_string. Qed.
Lemma keeps_paired_delref r : keeps_paired (zend_string_delref r).
Proof. paired_string. Qed.
Lemma keeps_paired_free r : keeps_paired (zend_string_free r).
Proof. paired_string. Qed.
Lemma keeps_paired_init : keeps_paired zend_string_init.
Proof. by apply keeps_paired_same. Qed.
Lemma keeps_paired_if (g : sref -> M state unit) p : (forall r, keeps_paired (g r)) -> keeps_paired (if_set g p).
Proof. intros Hg. destruct p; [apply Hg|by apply keeps_paired_same]. Qed.

Lemma keeps_paired_push fr key f : keeps_paired (modify (fun s => push_refs fr (set_r_log (push_frame key f (r_log s)) s))).
Proof. intros s Hs. unfold frames_paired in *. cbn. rewrite !length_app. cbn. lia. Qed.

#[local] Create HintDb paired.
#[local] Hint Resolve keeps_paired_addref keeps_paired_delref keeps_paired_free keeps_paired_init keeps_paired_push : paired.
#[local] Hint Extern 1 (keeps_paired (if_set _ _)) => apply keeps_paired_if; intros ? : paired.
#[local] Hint Extern 1 (keeps_paired (_ ≫= _)) => apply keeps_paired_bind; [|intros ?] : paired.
#[local] Hint Extern 2 (keeps_paired _) => apply keeps_paired_same; intros ?; split; reflexivity : paired.
#[local] Hint Extern 3 (keeps_paired (match ?x with _ => _ end)) => destruct x : paired.

Lemma keeps_paired_find stack depth : keeps_paired (r_find_or_add_frame stack depth).
Proof.
  revert depth. induction stack as [|er stack IH]; intros depth; cbn [r_find_or_add_frame]; [auto with paired|].
  apply keeps_paired_bind.
  - destruct stack; [auto with paired|]. apply keeps_paired_bind; [auto with paired|]. intros s.
    destruct (_ && _); [|apply IH]. unfold r_get_truncation_marker. auto 20 with paired.
  - intros prev. unfold r_add_frame. auto 20 with paired.
Qed.

Lemma add_samples_wf samples s s1 :
  refs_inv s -> log_wf (r_log s) -> frames_paired s ->
  Forall (fun sm => stack_alive sm.1.1 s /\ stack_ok (er_exec <$> sm.1.1)) samples ->
  r_add_samples samples s = (s1, Ok tt) ->
  refs_inv s1 /\ log_wf (r_log s1) /\ frames_paired s1.
Proof.
  revert s. induction samples as [|[[stack n] now] samples IH]; intros s Hi Hwf Hp Ha Hrun.
  { by injection Hrun as <-. }
  apply Forall_cons in Ha as [[Hst Hok] Ha]. cbn [r_add_samples] in Hrun. unfold mbind at 1, M_bind at 1 in Hrun.
  pose proof (log_add_counts stack n now s _ (external_refs s Hi) Hst) as Hc. unfold counts_for in Hc.
  assert (Hpair : keeps_paired (r_log_add stack n now)).
  { apply keeps_paired_bind; [apply keeps_paired_find|intros i]. by apply keeps_paired_same. }
  specialize (Hpair s Hp).
  destruct (r_log_add stack n now s) as [s' [[]|msg|why|]]; [|done..]. destruct Hc as (Hlog & Hw' & Hg).
  apply (IH s'); [by eapply refs_with_inv|by eapply log_add_wf|done| |done].
  eapply Forall_impl; [exact Ha|]. intros sm [Hsm Hsok]. split; [|done]. intros r Hr. by apply Hg, Hsm.
Qed.

(** *** The collapsed format *)

(** [G] are the lines made so far, of which [ht_lines] holds [keys]. *)
Definition lines_held m0 (keys G : list sref) s x : Prop :=
  holds m0 (keys ++ G) [] s x /\ NoDup G /\ forall r, r ∈ keys ++ G -> r ∉ dom m0.

Definition nonzero (i : Z) : bool := negb (i =? 0).

Lemma extract_refs m0 E L s x (appended : bool) :
  holds m0 E L s x ->
  exists s' p, smart_str_extract appended s = (s', Ok p) /\ holds m0 (option_list p ++ E) L s' x /\ frozen s s' /\
    length (option_list p) = (if appended then 1 else 0)%nat /\
    NoDup (option_list p) /\ forall r, r ∈ option_list p -> r ∉ dom m0 /\ r ∉ E.
Proof.
  intros Hh. destruct appended; cbn [smart_str_extract].
  - destruct (h_init _ _ _ _ _ Hh) as (s' & k & Hr & Hh' & Hf & Hk & HkE & _). exists s', (Some k).
    rewrite (bind_ok _ _ _ _ _ Hr). split_and!; [done..|apply NoDup_singleton|]. by intros r ->%list_elem_of_singleton.
  - exists s, None. split_and!; [done..|constructor|]. by intros r ?%elem_of_nil.
Qed.

Lemma collapse_step_refs m0 keys G s x log (h : HT string Z) cap ic :
  log_wf log -> 0 <= ic.1 < frames_size log -> 0 <= cap <= 2 ^ 32 -> lines_held m0 keys G s x ->
  exists s' h' cap' keys' G', r_collapse_step log (h, cap, keys) ic s = (s', Ok (h', cap', keys')) /\
    collapse_step log (h, cap) ic = Ok (h', cap') /\ 0 <= cap' <= 2 ^ 32 /\ lines_held m0 keys' G' s' x /\
    frozen s s' /\ length G' = (length G + if nonzero ic.1 then 1 else 0)%nat.
Proof.
  intros Hwf Hi Hcap (Hh & Hn & Hnew). unfold collapse_step. cbn [fst snd].
  destruct (collect_loop_spec log ic.1 cap Hwf Hi Hcap) as (cap' & Hcol & Hcap').
  pose proof (build_line_spec _ (chain_filenames log ic.1 Hwf Hi)) as Hline. set (line := String.concat _ _) in Hline.
  set (appended := match chain (frames log) ic.1 with [] => false | _ => true end).
  assert (Happ : appended = nonzero ic.1).
  { subst appended. unfold nonzero. destruct (Z.eqb_spec ic.1 0) as [->|Hz]; [done|]. unfold frames_size in Hi.
    destruct (array_get_is_Some (frames log) ic.1 Hi) as [f Hf].
    by rewrite (chain_step _ ic.1 f) by (done || apply (wf_frames _ Hwf) || lia). }
  destruct (extract_refs _ _ _ _ _ appended Hh) as (s1 & p & Hr1 & Hh1 & Hf1 & Hp & Hpn & Hpk).
  assert (Hadd : exists s2 keys', match zend_hash_find line h with
      | None => _ ← if_set zend_string_addref p; mret (option_list p ++ keys) | Some _ => mret keys end s1 = (s2, Ok keys') /\
    holds m0 (keys' ++ option_list p ++ G) [] s2 x /\ frozen s1 s2 /\ keys' ⊆ option_list p ++ keys).
  { destruct (zend_hash_find line h).
    - exists s1, keys. split_and!; [done| |done|set_solver]. revert Hh1. apply holds_perm. solve_Permutation.
    - destruct (h_if_addref _ _ _ _ _ p Hh1) as (s2 & Hr2 & Hh2 & Hf2); [set_solver|].
      exists s2, (option_list p ++ keys). rewrite (bind_ok _ _ _ _ _ Hr2). split_and!; [done| |done|done].
      revert Hh2. apply holds_perm. solve_Permutation. }
  destruct Hadd as (s2 & keys' & Hr2 & Hh2 & Hf2 & Hk2).
  exists s2, (ht_incr line ic.2 h), cap', keys', (option_list p ++ G). rewrite Hcol. cbn [obind fst snd]. rewrite Hline.
  split; [|split; [done|]].
  { unfold r_collapse_step. cbn [fst snd]. rewrite (bind_ok _ _ s s _ (lift_ok _ _ s Hcol)). cbn [fst snd].
    rewrite (bind_ok _ _ s s _ (lift_ok _ _ s Hline)). fold appended. by rewrite (bind_ok _ _ _ _ _ Hr1), (bind_ok _ _ _ _ _ Hr2). }
  split; [done|]. split; [|split; [by eapply frozen_trans|by rewrite length_app, Hp, Happ, Nat.add_comm]].
  split; [done|]. split.
  - apply NoDup_app. split; [done|]. split; [|done]. intros r Hr HG. destruct (Hpk r Hr). set_solver.
  - intros r [[Hr|Hr]%Hk2%elem_of_app|[Hr|Hr]%elem_of_app]%elem_of_app; [by apply Hpk|apply Hnew|by apply Hpk|apply Hnew]; set_solver.
Qed.

Lemma collapse_refs m0 x log l keys G s (h : HT string Z) cap :
  log_wf log -> Forall (fun ic => 0 <= ic.1 < frames_size log) l -> 0 <= cap <= 2 ^ 32 -> lines_held m0 keys G s x ->
  exists s' h' cap' keys' G', r_foldM (r_collapse_step log) (h, cap, keys) l s = (s', Ok (h', cap', keys')) /\
    foldM (collapse_step log) (h, cap) l = Ok (h', cap') /\ lines_held m0 keys' G' s' x /\ frozen s s' /\
    length G' = (length G + length (List.filter nonzero l.*1))%nat.
Proof.
  intros Hwf Hl. revert keys G s h cap. induction Hl as [|ic l Hi Hl IH]; intros keys G s h cap Hcap Hg.
  { exists s, h, cap, keys, G. cbn. rewrite Nat.add_0_r. done. }
  destruct (collapse_step_refs m0 keys G s x log h cap ic Hwf Hi Hcap Hg)
    as (s1 & h1 & cap1 & keys1 & G1 & Hr1 & Hp1 & Hcap1 & Hg1 & Hf1 & Hl1).
  destruct (IH keys1 G1 s1 h1 cap1 Hcap1 Hg1) as (s2 & h2 & cap2 & keys2 & G2 & Hr2 & Hp2 & Hg2 & Hf2 & Hl2).
  exists s2, h2, cap2, keys2, G2. cbn [r_foldM foldM fmap list_fmap List.filter].
  rewrite (bind_ok _ _ _ _ _ Hr1), Hp1. cbn [obind]. do 3 (split; [done|]). split; [by eapply frozen_trans|].
  rewrite Hl2, Hl1. destruct (nonzero ic.1); cbn [length]; lia.
Qed.

Lemma distinct_stacks_length log (counts : list (Z * Z)) :
  NoDup counts.*1 -> (forall i, i ∈ counts.*1 <-> i ∈ frame_index <$> entries (HT:=HT) log) ->
  length (List.filter nonzero counts.*1) = length (distinct_stacks log).
Proof.
  intros Hn Hin. assert (Hf : forall i (l : list Z), i ∈ List.filter nonzero l <-> nonzero i = true /\ i ∈ l).
  { intros i l. rewrite !list_elem_of_In, List.filter_In. tauto. }
  apply Permutation_length, NoDup_Permutation.
  - apply NoDup_ListNoDup, List.NoDup_filter. by apply NoDup_ListNoDup.
  - apply NoDup_remove_dups.
  - intros i. unfold distinct_stacks. by rewrite elem_of_remove_dups, !Hf, Hin.
Qed.

End format_refs_facts.

(** ** Properties *)

Section format_refs_properties.
  Context {HT : Type -> Type -> Type} `{ZendHashLaws HT}.
  Implicit Types (s : rstate HT).

(** The collapsed format with the counts of its strings computes what it
    does without and leaves every string that was in memory as it was, but it
    loses the strings of all its lines: one for each distinct stack of the
    entries, to which nothing has a pointer any more. *)
Theorem collapsed_loses_lines s :
  log_wf (r_log s) -> refs_inv s ->
  exists s' out p, r_format_collapsed s = (s', Ok (out, p)) /\
    excimer_log_format_collapsed (r_log s) = Ok out /\ counts_grow s s' [] /\
    size (lost_strings s s' (option_list p)) = length (distinct_stacks (r_log s)).
Proof.
  intros Hwf Hinv. pose proof (holds_start s Hinv) as Hh0.
  destruct (collate_counts_spec (r_log s)) as (counts & Hcounts & Hc).
  destruct (frame_counts_keys (r_log s) Hwf) as (Hn & Hin & Hrange). rewrite <-Hc in Hn, Hin, Hrange.
  destruct (collapse_refs (strings s) (external s) (r_log s) (zh_elems counts) [] [] s zend_new_array 0 Hwf Hrange)
    as (s1 & h & cap & keys & G & Hr1 & Hp1 & (Hh1 & HnG & Hnew) & Hf1 & Hl1); [lia| |].
  { split; [done|]. split; [constructor|]. by intros r ?%elem_of_nil. }
  destruct (h_destroy_keys _ _ _ _ _ _ Hh1) as (s2 & Hr2 & Hh2 & Hf2); [intros r Hr; apply Hnew; set_solver|].
  destruct (extract_refs _ _ _ _ _ (match zh_elems h with [] => false | _ => true end) Hh2)
    as (s3 & p & Hr3 & Hh3 & Hf3 & _ & _ & Hpk).
  exists s3, (render_lines (zh_elems h)), p. split.
  { unfold r_format_collapsed. rewrite (bind_ok get_state _ s s s), (bind_ok _ _ s s _ (lift_ok _ _ s Hcounts)) by done.
    by rewrite (bind_ok _ _ _ _ _ Hr1), (bind_ok _ _ _ _ _ Hr2), (bind_ok _ _ _ _ _ Hr3). }
  split; [unfold excimer_log_format_collapsed; rewrite Hcounts; cbn [obind]; by rewrite Hp1|].
  assert (Hd : forall r, r ∈ option_list p ++ G -> r ∉ dom (strings s)).
  { intros r [Hr|Hr]%elem_of_app; [by apply Hpk|apply Hnew; set_solver]. }
  split.
  - intros r m Hr. assert (counts_grow s s3 (option_list p ++ G)) as Hg.
    { eapply holds_counts; [done| |done]. eauto using frozen_trans. }
    rewrite (Hg r m Hr), occurrences_notin, occurrences_notin; [done|by intros ?%elem_of_nil|].
    intros Hi%Hd. by eapply Hi, elem_of_dom_2.
  - rewrite <-(distinct_stacks_length (r_log s) (zh_elems counts) Hn Hin).
    replace (lost_strings s s3 (option_list p)) with (list_to_set G : gset sref).
    { rewrite size_list_to_set by done. exact Hl1. }
    apply set_eq. intros r. unfold lost_strings. rewrite (ho_dom _ _ _ _ _ Hh3).
    rewrite !elem_of_difference, elem_of_known, !elem_of_list_to_set, elem_of_app, elem_of_nil.
    specialize (Hd r). rewrite elem_of_app in Hd. destruct (decide (r ∈ option_list p)) as [Hr|Hr]; [|tauto].
    destruct (Hpk r Hr). tauto.
Qed.

(** C24. Aggregation with the counts of its strings computes what it does
    without, gives each string of the log exactly the references that the result
    holds, and loses strings: one for each time that a function is on the stack
    of an entry again, and the names of both counters if no entry has a frame.
    Nothing has a pointer to them any more. *)
Theorem aggregation_loses_names s :
  log_wf (r_log s) -> refs_inv s -> frames_paired s ->
  exists s' result held, r_aggr_by_func s = (s', Ok (result, held)) /\
    excimer_log_aggr_by_func (r_log s) = Ok result /\ counts_grow s s' held /\
    size (lost_strings s s' held) = (repeated_names (r_log s) + if has_frames (r_log s) then 0 else 2)%nat.
Proof.
  intros Hwf Hinv Hlen. set (x := external s). pose proof (holds_start s Hinv) as Hh0. fold x in Hh0.
  destruct (h_init _ _ _ _ _ Hh0) as (s1 & incl & Hr1 & Hh1 & Hf1 & Hi & _).
  destruct (h_init _ _ _ _ _ Hh1) as (s2 & self & Hr2 & Hh2 & Hf2 & Hs & Hsi & _).
  destruct (aggr_entries_refs (strings s) self incl x (r_log s) (r_frames s) (seqZ 0 (entries_size (r_log s)))
    (entries (r_log s)) [] s2 (zend_new_array (HT:=HT) (K:=string) (V:=HT string zval), []))
    as (L & s3 & [result held] & Hr3 & Hp & Hh3 & Hf3 & Hl & Hheld); [done|done|by apply log_strings_known|apply entry_indexes|
    apply (wf_entries _ Hwf)|done| |].
  { split; cbn.
    - split; [rewrite zh_elems_new; constructor|]. intros nm info. by rewrite hash_find_new.
    - intros [y Hy]. unfold counters in Hy. by rewrite hash_find_new in Hy. }
  cbn [fst snd] in *. fold (has_frames (r_log s)) in Hheld.
  assert (Hdrop : exists s4 s5 L', zend_string_delref self s3 = (s4, Ok tt) /\ zend_string_delref incl s4 = (s5, Ok tt) /\
    holds (strings s) held L' s5 x /\ frozen s3 s5 /\ (length L' = length L + if has_frames (r_log s) then 0 else 2)%nat).
  { destruct (has_frames (r_log s)).
    - destruct (h_delref _ _ _ _ _ self Hh3) as (s4 & Hr4 & Hh4 & Hf4); [set_solver|].
      destruct (h_delref _ _ _ _ _ incl Hh4) as (s5 & Hr5 & Hh5 & Hf5); [set_solver|].
      exists s4, s5, L. split_and!; [done..|by eapply frozen_trans|lia].
    - subst held. destruct (h_delref_last _ _ _ _ _ self Hh3) as (s4 & Hr4 & Hh4 & Hf4); [done|set_solver|].
      destruct (h_delref_last _ _ _ _ _ incl Hh4) as (s5 & Hr5 & Hh5 & Hf5); [done|set_solver|].
      exists s4, s5, (incl :: self :: L). split_and!; [done..|by eapply frozen_trans|simpl; lia]. }
  destruct Hdrop as (s4 & s5 & L' & Hr4 & Hr5 & Hh5 & Hf5 & Hl').
  exists s5. eexists _, held. split.
  { unfold r_aggr_by_func. rewrite (bind_ok get_state _ s s s), (bind_ok _ _ _ _ _ Hr1), (bind_ok _ _ _ _ _ Hr2) by done.
    by rewrite (bind_ok _ _ _ _ _ Hr3), (bind_ok _ _ _ _ _ Hr4), (bind_ok _ _ _ _ _ Hr5). }
  split; [unfold excimer_log_aggr_by_func; by rewrite for_entries_eq, Hp|].
  split; [eapply holds_counts; [done| |done]; eauto using frozen_trans|].
  rewrite (proj2 (lost_strings_size _ _ _ _ _ Hh5)), Hl'. unfold repeated_names. simpl in Hl. lia.
Qed.

End format_refs_properties.

(** ** Witnesses *)

Section witnesses.

(** The log of [ex_samples], in which [C::g] calls itself. *)
Lemma ex_recorded : exists s1, r_add_samples ex_samples ex_refs = (s1, Ok tt) /\
  refs_inv s1 /\ log_wf (r_log s1) /\ frames_paired s1.
Proof.
  destruct (r_add_samples ex_samples ex_refs) as [s1 r] eqn:Hrun.
  assert (Hr : r = Ok tt) by (vm_compute in Hrun; by injection Hrun). subst r. exists s1. split; [done|].
  apply (add_samples_wf ex_samples ex_refs); [apply ex_refs_inv|apply init_wf|done| |done].
  apply Forall_and. split; [apply ex_samples_alive|]. repeat constructor. all: vm_compute; congruence.
Qed.

Lemma aggregation_loses_names_witness :
  exists s1 s' result held, r_add_samples ex_samples ex_refs = (s1, Ok tt) /\
    r_aggr_by_func s1 = (s', Ok (result, held)) /\ size (lost_strings s1 s' held) = 4%nat.
Proof.
  destruct ex_recorded as (s1 & Hrun & Hinv & Hwf & Hp).
  destruct (aggregation_loses_names s1 Hwf Hinv Hp) as (s' & result & held & Hr & _ & _ & Hsize).
  exists s1, s', result, held. split; [exact Hrun|]. split; [exact Hr|]. rewrite Hsize.
  vm_compute in Hrun. injection Hrun as <-. vm_compute. reflexivity.
Defined.

Lemma collapsed_loses_lines_witness :
  exists s1 s' out p, r_add_samples ex_samples ex_refs = (s1, Ok tt) /\
    r_format_collapsed s1 = (s', Ok (out, p)) /\ size (lost_strings s1 s' (option_list p)) = 2%nat.
Proof.
  destruct ex_recorded as (s1 & Hrun & Hinv & Hwf & _).
  destruct (collapsed_loses_lines s1 Hwf Hinv) as (s' & out & p & Hr & _ & _ & Hsize).
  exists s1, s', out, p. split; [exact Hrun|]. split; [exact Hr|]. rewrite Hsize.
  vm_compute in Hrun. injection Hrun as <-. vm_compute. reflexivity.
Defined.

End witnesses.
