(* ===== verification/ScopeRefs.v ===== *)
(** * Reference counts of the strings in traces and in the data for speedscope

    [excimer_log_trace_to_array] and [excimer_log_get_speedscope_data] of
    [excimer_log.c] with the references to strings that they take and drop, in
    the memory of [LogRefs]. Unlike the functions of [FormatRefs] they lose
    nothing: every string that they leave in memory is one that the result holds. *)

From S2P Require Import Prelude ZendHash Log LogTrace Tally LogFormat LogSpeedscope LogRefs FormatRefs.

Section scope_refs.
  Context {HT : Type -> Type -> Type} `{ZendHash HT}.
  Abbreviation state := (rstate HT).
  Implicit Types (s : state) (fr : frame_refs) (log : excimer_log HT).

(** ** Traces *)

(** The array, and the references that its frames hold. *)
Fixpoint r_trace_loop (fuel : nat) log (frs : list frame_refs) (index : Z) (st : list zval * list sref) :
    M state (list zval * list sref) :=
  match fuel with
  | O => lift Diverge
  | S fuel' =>
      if index =? 0 then mret st
      else
        frame ← lift (deref (excimer_log_get_frame log index));
        fr ← lift (deref (array_get frs index));
        '(ht_func, refs) ← r_frame_to_array frame fr;
        r_trace_loop fuel' log frs (prev_index frame) (st.1 ++ [ZVAL_ARR ht_func], refs ++ st.2)
  end.

Definition r_trace_to_array (l_frame_index : Z) : M state (list zval * list sref) :=
  s ← get_state;
  index ← lift (excimer_safe_uint32 l_frame_index);
  r_trace_loop (S (length (frames (r_log s)))) (r_log s) (r_frames s) index ([], []).

(** ** Speedscope *)

(** Strings that become keys or values of an array. [add_assoc_string] makes two,
    [add_assoc_long] and [add_assoc_zval] one for the key. *)
Fixpoint r_new_strings (n : nat) : M state (list sref) :=
  match n with
  | O => mret []
  | S n' => k ← zend_string_init; ks ← r_new_strings n'; mret (k :: ks)
  end.

(** The name is a new string, and [zend_hash_str_add] makes one for "name". *)
Definition r_frame_to_speedscope_array (frame : excimer_log_frame) fr : M state (HT string zval * list sref) :=
  ht_func ← lift (excimer_log_frame_to_speedscope_array frame);
  strs ← r_new_strings 2;
  _ ← if_set zend_string_addref (r_filename fr);
  mret (ht_func, option_list (r_filename fr) ++ strs).

(** The state of the loop that builds the frames array, the references of
    [ht_indexes_by_key] to its keys and those that [ht_frames] holds. *)
Definition r_scope_frame log (frs : list frame_refs) (st : scope_state HT * list sref * list sref) (i : Z) :
    M state (scope_state HT * list sref * list sref) :=
  let '(st, keys, held) := st in
  frame ← lift (deref (array_get (frames log) i));
  fr ← lift (deref (array_get frs i));
  key ← lift (excimer_log_get_speedscope_frame_key frame);
  str_key ← zend_string_init;
  '(fs, tbl, index, keys, held) ←
    match zend_hash_find key (ht_indexes_by_key st) with
    | Some index => mret (ht_frames st, ht_indexes_by_key st, index, keys, held)
    | None =>
        let index := Z.of_nat (length (ht_frames st)) in
        '(ht_func, refs) ← r_frame_to_speedscope_array frame fr;
        _ ← zend_string_addref str_key;
        mret (ht_frames st ++ [ZVAL_ARR ht_func], zend_hash_add key index (ht_indexes_by_key st), index,
              str_key :: keys, refs ++ held)
    end;
  _ ← zend_string_release str_key;
  mret (ScopeState fs tbl (<[Z.to_nat i := index]> (lp_frame_indexes st)), keys, held).

(** The value, and the references that it holds. *)
Definition r_get_speedscope_data : M state (zval * list sref) :=
  s ← get_state;
  let log := r_log s in
  head ← r_new_strings 4;      (* "$schema", "exporter" and their values *)
  '(st, keys, rows) ← r_foldM (r_scope_frame log (r_frames s))
    (ScopeState [] zend_new_array (replicate (length (frames log)) 0), [], [])
    (seqZ 1 (frames_size log - 1));
  _ ← destroy_keys keys;
  shared ← r_new_strings 2;    (* "frames", "shared" *)
  '(samples, weights) ← lift (foldM (scope_entry log (lp_frame_indexes st)) ([], []) (entries log));
  profile ← r_new_strings 10;  (* "type", "name", "unit" and their values; four other keys *)
  profiles ← r_new_strings 1;
  mret (speedscope_value (ht_frames st) samples weights
          (wrap_i64 (wrap_u64 (last_timestamp log - first_timestamp log))),
        profiles ++ profile ++ shared ++ rows ++ head).

End scope_refs.

(** ** Lemmas *)

Section scope_refs_facts.
  Context {HT : Type -> Type -> Type} `{ZendHashLaws HT}.
  Abbreviation state := (rstate HT).
  Implicit Types (s : state) (r : sref) (fr : frame_refs) (E L : list sref) (x : sref -> Z)
    (m : gmap sref zend_string_mem) (log : excimer_log HT).

Lemma new_strings_refs n m0 E L s x :
  holds m0 E L s x ->
  exists s' ks, r_new_strings n s = (s', Ok ks) /\ holds m0 (ks ++ E) L s' x /\ frozen s s' /\
    forall r, r ∈ ks -> r ∉ dom m0.
Proof.
  revert E s. induction n as [|n IH]; intros E s Hh.
  { exists s, []. split_and!; [done..|]. by intros r ?%elem_of_nil. }
  destruct (h_init _ _ _ _ _ Hh) as (s1 & k & Hr1 & Hh1 & Hf1 & Hk & _).
  destruct (IH (k :: E) s1 Hh1) as (s2 & ks & Hr2 & Hh2 & Hf2 & Hks).
  exists s2, (k :: ks). cbn [r_new_strings]. rewrite (bind_ok _ _ _ _ _ Hr1), (bind_ok _ _ _ _ _ Hr2).
  split; [done|]. split; [revert Hh2; apply holds_perm; solve_Permutation|]. split; [by eapply frozen_trans|].
  intros r [->|Hr]%elem_of_cons; auto.
Qed.

(** The strings of a frame are in memory. *)
Lemma frame_known m0 (frs : list frame_refs) i fr :
  frames_known m0 frs -> array_get frs i = Some fr -> forall r, r ∈ refs_of fr -> r ∈ dom m0.
Proof. intros Hk [_ Hfr]%array_get_Some r. apply Hk. by eapply list_elem_of_lookup_2. Qed.

Lemma scope_array_refs m0 E L s x frame fr (ht : HT string zval) :
  excimer_log_frame_to_speedscope_array frame = Ok ht -> holds m0 E L s x ->
  (forall r, r ∈ refs_of fr -> r ∈ dom m0) ->
  exists s' refs, r_frame_to_speedscope_array frame fr s = (s', Ok (ht, refs)) /\
    holds m0 (refs ++ E) L s' x /\ frozen s s'.
Proof.
  intros Ht Hh Hfr. destruct (new_strings_refs 2 _ _ _ _ _ Hh) as (s1 & ks & Hr1 & Hh1 & Hf1 & _).
  destruct (h_if_addref _ _ _ _ _ (r_filename fr) Hh1) as (s2 & Hr2 & Hh2 & Hf2).
  { intros r Hr. left. apply Hfr. unfold refs_of. set_solver. }
  exists s2, (option_list (r_filename fr) ++ ks). unfold r_frame_to_speedscope_array.
  rewrite (bind_ok _ _ s s _ (lift_ok _ _ s Ht)), (bind_ok _ _ _ _ _ Hr1), (bind_ok _ _ _ _ _ Hr2).
  split; [done|]. split; [by rewrite <-app_assoc|by eapply frozen_trans].
Qed.

Lemma scope_frame_refs m0 E L s x log frs i st st' keys held :
  scope_frame log st i = Ok st' -> length frs = length (frames log) -> frames_known m0 frs ->
  holds m0 (keys ++ held ++ E) L s x -> (forall r, r ∈ keys -> r ∉ dom m0) ->
  exists s' keys' held', r_scope_frame log frs (st, keys, held) i s = (s', Ok (st', keys', held')) /\
    holds m0 (keys' ++ held' ++ E) L s' x /\ (forall r, r ∈ keys' -> r ∉ dom m0) /\ frozen s s'.
Proof.
  unfold scope_frame. intros Hst Hlen Hfrs Hh Hkeys.
  destruct (array_get (frames log) i) as [frame|] eqn:Hf; cbn [deref obind] in Hst; [|done].
  destruct (excimer_log_get_speedscope_frame_key frame) as [key|msg|why|] eqn:Hkey; cbn [obind] in Hst; [|done..].
  destruct (array_get_is_Some frs i) as [fr Hfr]; [rewrite Hlen; apply array_get_Some in Hf as [? _]; lia|].
  destruct (h_init _ _ _ _ _ Hh) as (s1 & k & Hr1 & Hh1 & Hf1 & Hk & _).
  unfold r_scope_frame. rewrite Hf, Hfr, (bind_ok (lift (deref (Some frame))) _ s s frame) by done.
  rewrite (bind_ok (lift (deref (Some fr))) _ s s fr), Hkey by done.
  rewrite (bind_ok (lift (Ok key)) _ s s key), (bind_ok _ _ _ _ _ Hr1) by done.
  destruct (zend_hash_find key (ht_indexes_by_key st)) as [index|]; cbn [obind] in Hst.
  - injection Hst as <-. destruct (h_release _ _ _ _ _ _ Hh1 Hk) as (s2 & Hr2 & Hh2 & Hf2).
    exists s2, keys, held. rewrite (bind_ok (mret _) _ s1 s1 _) by done. cbv beta iota. rewrite (bind_ok _ _ _ _ _ Hr2).
    split_and!; [done..|by eapply frozen_trans].
  - destruct (excimer_log_frame_to_speedscope_array frame) as [ht|msg|why|] eqn:Ht; cbn [obind] in Hst; [|done..].
    injection Hst as <-.
    destruct (scope_array_refs _ _ _ _ _ frame fr ht Ht Hh1 (frame_known _ _ _ _ Hfrs Hfr))
      as (s2 & refs & Hr2 & Hh2 & Hf2).
    destruct (h_addref _ _ _ _ _ k Hh2) as (s3 & Hr3 & Hh3 & Hf3); [set_solver|].
    destruct (h_release m0 ((k :: keys) ++ (refs ++ held) ++ E) L s3 x k) as (s4 & Hr4 & Hh4 & Hf4); [|done|].
    { revert Hh3. apply holds_perm. solve_Permutation. }
    exists s4, (k :: keys), (refs ++ held).
    unfold mbind at 1, M_bind at 1. rewrite (bind_ok _ _ _ _ _ Hr2). cbv beta iota. rewrite (bind_ok _ _ _ _ _ Hr3).
    cbv beta iota delta [mret M_ret]. rewrite (bind_ok _ _ _ _ _ Hr4).
    split; [done|]. split; [done|]. split; [|eauto using frozen_trans].
    by intros r [->|Hr]%elem_of_cons; auto.
Qed.

Lemma scope_frames_refs m0 E L x log frs l s st st' keys held :
  foldM (scope_frame log) st l = Ok st' -> length frs = length (frames log) -> frames_known m0 frs ->
  holds m0 (keys ++ held ++ E) L s x -> (forall r, r ∈ keys -> r ∉ dom m0) ->
  exists s' keys' held', r_foldM (r_scope_frame log frs) (st, keys, held) l s = (s', Ok (st', keys', held')) /\
    holds m0 (keys' ++ held' ++ E) L s' x /\ (forall r, r ∈ keys' -> r ∉ dom m0) /\ frozen s s'.
Proof.
  intros Hst Hlen Hfrs. revert s st keys held Hst.
  induction l as [|i l IH]; cbn [foldM r_foldM]; intros s st keys held Hst Hh Hkeys.
  { injection Hst as <-. by exists s, keys, held. }
  destruct (scope_frame log st i) as [st1|msg|why|] eqn:Hst1; cbn [obind] in Hst; [|done..].
  destruct (scope_frame_refs _ _ _ _ _ _ _ _ _ _ _ _ Hst1 Hlen Hfrs Hh Hkeys) as (s1 & keys1 & held1 & Hr1 & Hh1 & Hk1 & Hf1).
  destruct (IH s1 st1 keys1 held1 Hst Hh1 Hk1) as (s2 & keys2 & held2 & Hr2 & Hh2 & Hk2 & Hf2).
  exists s2, keys2, held2. rewrite (bind_ok _ _ _ _ _ Hr1). eauto using frozen_trans.
Qed.

Lemma trace_loop_refs m0 L x log frs fuel index s trace held out :
  trace_loop fuel log index trace = Ok out -> length frs = length (frames log) -> frames_known m0 frs ->
  holds m0 held L s x ->
  exists s' held', r_trace_loop fuel log frs index (trace, held) s = (s', Ok (out, held')) /\
    holds m0 held' L s' x /\ frozen s s'.
Proof.
  intros Hout Hlen Hfrs. revert index s trace held Hout.
  induction fuel as [|fuel IH]; cbn [trace_loop r_trace_loop]; intros index s trace held Hout Hh; [done|].
  destruct (index =? 0); [injection Hout as <-; by exists s, held|].
  destruct (excimer_log_get_frame log index) as [frame|] eqn:Hf; cbn [deref obind] in Hout; [|done].
  destruct (array_get_is_Some frs index) as [fr Hfr].
  { rewrite Hlen. unfold excimer_log_get_frame in Hf. destruct (_ && _); [|done].
    apply array_get_Some in Hf as [? ?%lookup_lt_Some]. lia. }
  rewrite (bind_ok _ _ s s frame) by done. rewrite Hfr, (bind_ok _ _ s s fr) by done.
  destruct (frame_to_array_refs _ _ _ _ _ frame fr Hh (frame_known _ _ _ _ Hfrs Hfr)) as (s1 & refs & Hr1 & Hh1 & Hf1).
  destruct (IH _ _ _ _ Hout Hh1) as (s2 & held2 & Hr2 & Hh2 & Hf2).
  exists s2, held2. rewrite (bind_ok _ _ _ _ _ Hr1). cbn [fst snd]. eauto using frozen_trans.
Qed.

(** A function that ends with nothing lost. *)
Lemma nothing_lost s s' held :
  refs_inv s -> frozen s s' -> holds (strings s) held [] s' (external s) ->
  counts_grow s s' held /\ lost_strings s s' held = ∅.
Proof. intros Hi Hf Hh. split; [by eapply holds_counts|by apply lost_strings_size in Hh as [-> _]]. Qed.

Lemma trace_refs s i :
  log_wf (r_log s) -> refs_inv s -> frames_paired s -> 0 <= i < frames_size (r_log s) ->
  exists s' out held, r_trace_to_array i s = (s', Ok (out, held)) /\
    excimer_log_trace_to_array (r_log s) i = Ok out /\ counts_grow s s' held /\ lost_strings s s' held = ∅.
Proof.
  intros Hwf Hinv Hp Hi. pose proof (trace_to_array_spec (r_log s) i Hwf Hi) as Hout.
  unfold excimer_log_trace_to_array in *. destruct (excimer_safe_uint32 i) as [index|msg|why|] eqn:Hu; cbn [obind] in *; [|done..].
  destruct (trace_loop_refs (strings s) [] (external s) (r_log s) (r_frames s) _ _ s _ [] _ Hout Hp
    (log_strings_known s Hinv) (holds_start s Hinv)) as (s' & held & Hr & Hh & Hf).
  eexists s', _, held. split; [|split; [exact Hout|by apply nothing_lost]].
  unfold r_trace_to_array. rewrite (bind_ok get_state _ s s s), (bind_ok _ _ s s index) by (done || by apply lift_ok). done.
Qed.

Lemma speedscope_refs s :
  log_wf (r_log s) -> refs_inv s -> frames_paired s ->
  exists s' z held, r_get_speedscope_data s = (s', Ok (z, held)) /\
    excimer_log_get_speedscope_data (r_log s) = Ok z /\ counts_grow s s' held /\ lost_strings s s' held = ∅.
Proof.
  intros Hwf Hinv Hp. destruct (speedscope_data_spec (r_log s) Hwf) as (rows & samples & Hout & _ & _).
  match type of Hout with _ = Ok ?v => set (z := v) in Hout; clearbody z end.
  unfold excimer_log_get_speedscope_data, scope_frames in Hout.
  set (st0 := ScopeState _ _ _) in Hout. destruct (foldM (scope_frame (r_log s)) st0 _) as [st|msg|why|] eqn:Hst; cbn [obind] in Hout; [|done..].
  destruct (foldM _ _ (entries (r_log s))) as [[sm ws]|msg|why|] eqn:Hent; cbn [obind] in Hout; [|done..]. injection Hout as Hz. subst z.
  destruct (new_strings_refs 4 _ _ _ _ _ (holds_start s Hinv)) as (s1 & head & Hr1 & Hh1 & Hf1 & _). rewrite app_nil_r in Hh1.
  destruct (scope_frames_refs (strings s) head [] (external s) (r_log s) (r_frames s) _ s1 st0 st [] [] Hst Hp
    (log_strings_known s Hinv)) as (s2 & keys & rs & Hr2 & Hh2 & Hk2 & Hf2); [done|by intros r ?%elem_of_nil|].
  destruct (h_destroy_keys _ _ _ _ _ _ Hh2 Hk2) as (s3 & Hr3 & Hh3 & Hf3).
  destruct (new_strings_refs 2 _ _ _ _ _ Hh3) as (s4 & shared & Hr4 & Hh4 & Hf4 & _).
  destruct (new_strings_refs 10 _ _ _ _ _ Hh4) as (s5 & profile & Hr5 & Hh5 & Hf5 & _).
  destruct (new_strings_refs 1 _ _ _ _ _ Hh5) as (s6 & profiles & Hr6 & Hh6 & Hf6 & _).
  eexists s6, _, (profiles ++ profile ++ shared ++ rs ++ head). split; [|split; [unfold excimer_log_get_speedscope_data, scope_frames; fold st0; rewrite Hst; cbn [obind]; by rewrite Hent|apply nothing_lost; [done|eauto 7 using frozen_trans|done]]].
  unfold r_get_speedscope_data. rewrite (bind_ok get_state _ s s s) by done. fold st0.
  rewrite (bind_ok _ _ _ _ _ Hr1), (bind_ok _ _ _ _ _ Hr2). cbv beta iota.
  rewrite (bind_ok _ _ _ _ _ Hr3), (bind_ok _ _ _ _ _ Hr4), (bind_ok _ _ s4 s4 (sm, ws)) by by apply lift_ok.
  cbv beta iota. by rewrite (bind_ok _ _ _ _ _ Hr5), (bind_ok _ _ _ _ _ Hr6).
Qed.

End scope_refs_facts.

(** ** Property *)

Section scope_refs_property.
  Context {HT : Type -> Type -> Type} `{ZendHashLaws HT}.
  Implicit Types (s : rstate HT).

(** C25. The data for speedscope and the trace of a frame, with the counts of
    their strings, are what they are without. Each string that was in memory has
    in addition exactly the references that the result holds, and no other string
    is left in memory than those that the result holds. *)
Theorem outputs_keep_strings s i :
  log_wf (r_log s) -> refs_inv s -> frames_paired s -> 0 <= i < frames_size (r_log s) ->
  (exists s' z held, r_get_speedscope_data s = (s', Ok (z, held)) /\
    excimer_log_get_speedscope_data (r_log s) = Ok z /\ counts_grow s s' held /\ lost_strings s s' held = ∅) /\
  (exists s' trace held, r_trace_to_array i s = (s', Ok (trace, held)) /\
    excimer_log_trace_to_array (r_log s) i = Ok trace /\ counts_grow s s' held /\ lost_strings s s' held = ∅).
Proof. intros Hwf Hinv Hp Hi. split; [by apply speedscope_refs|by apply trace_refs]. Qed.

End scope_refs_property.

(** ** Witness *)

(** The log of [ex_samples]: 17 references to the strings of the fixed parts of
    the data, and three for each of the three rows. *)
Lemma outputs_keep_strings_witness :
  exists s1 s' z held, r_add_samples ex_samples ex_refs = (s1, Ok tt) /\
    r_get_speedscope_data s1 = (s', Ok (z, held)) /\ lost_strings s1 s' held = ∅ /\
    length held = 26%nat.
Proof.
  destruct ex_recorded as (s1 & Hrun & Hinv & Hwf & Hp).
  assert (Hi : 0 <= 0 < frames_size (r_log s1)) by (vm_compute in Hrun; injection Hrun as <-; vm_compute; split; congruence).
  destruct (outputs_keep_strings s1 0 Hwf Hinv Hp Hi) as [(s' & z & held & Hr & _ & _ & Hl) _].
  exists s1, s', z, held. split; [exact Hrun|]. split; [exact Hr|]. split; [exact Hl|].
  vm_compute in Hrun. injection Hrun as <-. vm_compute in Hr. injection Hr as <- <- <-. reflexivity.
Defined.
