(* ===== verification/Timespec.v ===== *)
(** * Time values

    Models the timespec functions of [timerlib/timerlib.h] and
    [timerlib/timerlib_common.c]. [time_t] and [long] are 64 bits wide; signed
    overflow is undefined behaviour, hence a [Crash]. A [double] is a binary64
    number of the Standard Library's executable [SpecFloat]. *)

From S2P Require Import Prelude.
From Stdlib Require Import Floats.SpecFloat.

(** [struct timespec]. *)
Record timespec : Type := Timespec {
  tv_sec : Z;
  tv_nsec : Z
}.

#[export] Instance timespec_eq_dec : EqDecision timespec.
Proof. solve_decision. Defined.

Definition TIMERLIB_BILLION : Z := 1000000000.

(** The result of signed 64-bit arithmetic. *)
Definition checked_i64 (z : Z) : outcome Z :=
  if (- 2 ^ 63 <=? z) && (z <? 2 ^ 63) then Ok z else Crash "signed integer overflow".

Definition timerlib_timespec_is_zero (ts : timespec) : bool :=
  (tv_sec ts =? 0) && (tv_nsec ts =? 0).

Definition timerlib_timespec_to_ns (ts : timespec) : Z :=
  wrap_u64 (wrap_u64 (tv_nsec ts) + wrap_u64 (wrap_u64 (tv_sec ts) * TIMERLIB_BILLION)).

Definition timerlib_timespec_add (a b : timespec) : outcome timespec :=
  let! sec := checked_i64 (tv_sec a + tv_sec b) in
  let! nsec := checked_i64 (tv_nsec a + tv_nsec b) in
  if TIMERLIB_BILLION <? nsec then
    let! nsec := checked_i64 (nsec - TIMERLIB_BILLION) in
    let! sec := checked_i64 (sec + 1) in
    Ok (Timespec sec nsec)
  else Ok (Timespec sec nsec).

Definition timerlib_timespec_subtract (a b : timespec) : outcome timespec :=
  let! sec := checked_i64 (tv_sec a - tv_sec b) in
  if tv_nsec a <? tv_nsec b then
    let! sec := checked_i64 (sec - 1) in
    let! d := checked_i64 (TIMERLIB_BILLION - tv_nsec b) in
    let! nsec := checked_i64 (tv_nsec a + d) in
    Ok (Timespec sec nsec)
  else
    let! nsec := checked_i64 (tv_nsec a - tv_nsec b) in
    Ok (Timespec sec nsec).

(** ** Floating-point numbers *)

Abbreviation double := spec_float.
Definition dmul : double -> double -> double := SFmul 53 1024.
Definition double_zero : double := S754_zero false.

(** The literals [1e9] and [1e-9]. *)
Definition double_1e9 : double := S754_finite false 8388608000000000 (-23).
Definition double_1em9 : double := S754_finite false 4835703278458517 (-82).

(** The conversion of an integer to [double]. *)
Definition double_of_Z (z : Z) : double := binary_normalize 53 1024 z 0 false.

(** The integral and the fractional part, both with the sign of the argument.
    Only the value of the results matters, so mantissas are not normalised. *)
Definition signed_float (s : bool) (m e : Z) : double :=
  match m with
  | Zpos p => S754_finite s p e
  | _ => S754_zero s
  end.

Definition modf (x : double) : double * double :=
  match x with
  | S754_finite s m e =>
      if 0 <=? e then (S754_zero s, x)
      else (signed_float s (Zpos m mod 2 ^ (- e)) e, signed_float s (Zpos m / 2 ^ (- e)) 0)
  | S754_infinity s => (S754_zero s, x)
  | S754_zero s => (x, x)
  | S754_nan => (x, x)
  end.

(** The magnitude of a finite number, rounded towards zero. *)
Definition float_trunc (m e : Z) : Z := if 0 <=? e then m * 2 ^ e else m / 2 ^ (- e).

(** The cast of a [double] to a 64-bit integer type: undefined for what does
    not fit. *)
Definition i64_of_double (x : double) : outcome Z :=
  match x with
  | S754_zero _ => Ok 0
  | S754_finite s m e =>
      let t := (if s then -1 else 1) * float_trunc (Zpos m) e in
      if (- 2 ^ 63 <=? t) && (t <? 2 ^ 63) then Ok t
      else Crash "floating-point value out of range of the integer type"
  | _ => Crash "floating-point value out of range of the integer type"
  end.

Definition timerlib_timespec_to_double (ts : timespec) : double :=
  dmul (double_of_Z (timerlib_timespec_to_ns ts)) double_1em9.

Definition timerlib_timespec_from_double (source : double) : outcome timespec :=
  if SFltb source double_zero then Ok (Timespec 0 0)
  else
    let '(fractional, integral) := modf source in
    let! sec := i64_of_double integral in
    let! nsec := i64_of_double (dmul fractional double_1e9) in
    if TIMERLIB_BILLION <=? nsec then
      let! nsec := checked_i64 (nsec - TIMERLIB_BILLION) in
      let! sec := checked_i64 (sec + 1) in
      Ok (Timespec sec nsec)
    else Ok (Timespec sec nsec).

(** ** Specification *)

(** The exact number of nanoseconds. *)
Definition total_ns (ts : timespec) : Z := tv_sec ts * TIMERLIB_BILLION + tv_nsec ts.

(** What the kernel accepts: less than a billion nanoseconds. *)
Definition timespec_ok (ts : timespec) : Prop := 0 <= tv_nsec ts < TIMERLIB_BILLION.

(** A time in the first 146 billion years. *)
Definition timespec_small (ts : timespec) : Prop := - 2 ^ 62 < tv_sec ts < 2 ^ 62.

(** The nanoseconds in [m * 2^e] seconds, rounded down. *)
Definition float_ns (m e : Z) : Z := float_trunc (m * TIMERLIB_BILLION) e.

(** ** Lemmas *)

Lemma checked_i64_ok z : is_i64 z -> checked_i64 z = Ok z.
Proof.
  intros Hz. unfold checked_i64, is_i64 in *.
  by rewrite (proj2 (Z.leb_le _ _)), (proj2 (Z.ltb_lt _ _)) by lia.
Qed.

Ltac checked := rewrite checked_i64_ok by (unfold is_i64, TIMERLIB_BILLION in *; lia); cbn [obind].

Lemma to_ns_spec ts : timerlib_timespec_to_ns ts = wrap_u64 (total_ns ts).
Proof.
  unfold timerlib_timespec_to_ns, total_ns, wrap_u64.
  rewrite Zplus_mod_idemp_l, Zplus_mod_idemp_r.
  rewrite <-Zplus_mod_idemp_r, Zmult_mod_idemp_l, Zplus_mod_idemp_r. f_equal. lia.
Qed.

(** *** Rounding *)

Lemma digits2_bounds p : 2 ^ (Zpos (digits2_pos p) - 1) <= Zpos p < 2 ^ Zpos (digits2_pos p).
Proof.
  assert (Hs : forall q : positive, 2 ^ Zpos (Pos.succ q) = 2 * 2 ^ Zpos q)
    by (intros q; rewrite Pos2Z.inj_succ, Z.pow_succ_r; lia).
  induction p as [p IH|p IH|]; simpl digits2_pos; [| |done];
    rewrite Hs, Pos2Z.inj_succ; replace (Z.succ (Zpos (digits2_pos p)) - 1)
      with (Z.succ (Zpos (digits2_pos p) - 1)) by lia;
    rewrite Z.pow_succ_r by lia; lia.
Qed.

(** A number below [2^k] has at most [k] digits. *)
Lemma digits2_le m k : 0 <= m < 2 ^ k -> 0 <= k -> Zdigits2 m <= k.
Proof.
  intros Hm Hk. destruct m as [|p|p]; [simpl; lia| |lia]. simpl.
  pose proof (digits2_bounds p) as [Hlo _].
  assert (2 ^ (Zpos (digits2_pos p) - 1) < 2 ^ k) as Hlt by lia.
  apply Z.pow_lt_mono_r_iff in Hlt; lia.
Qed.

Lemma shr_1_m r : 0 <= shr_m r -> shr_m (shr_1 r) = shr_m r / 2.
Proof.
  destruct r as [m b s]. cbn [shr_m]. intros Hm.
  destruct m as [|[p|p|]|p]; cbn [shr_1 shr_m]; [done| | |done|lia].
  - rewrite Pos2Z.inj_xI. Z.to_euclidean_division_equations; lia.
  - rewrite Pos2Z.inj_xO. Z.to_euclidean_division_equations; lia.
Qed.

Lemma iter_shr_m p r : 0 <= shr_m r -> shr_m (iter_pos shr_1 p r) = shr_m r / 2 ^ Zpos p.
Proof.
  assert (Hdiv : forall m k, 0 <= m -> 0 <= m / 2 ^ Zpos k) by (intros; apply Z.div_pos; lia).
  revert r. induction p as [p IH|p IH|]; intros r Hr; cbn [iter_pos].
  - assert (H1 : 0 <= shr_m (shr_1 r)) by (rewrite shr_1_m by done; apply Z.div_pos; lia).
    rewrite IH, IH, shr_1_m by (rewrite ?IH; auto).
    rewrite !Z.div_div by lia. f_equal. rewrite (Pos2Z.inj_xI p).
    rewrite Z.pow_add_r, Z.pow_twice_r by lia. lia.
  - rewrite IH, IH by (rewrite ?IH; auto). rewrite Z.div_div by lia. f_equal.
    rewrite (Pos2Z.inj_xO p), Z.pow_twice_r. lia.
  - by rewrite shr_1_m.
Qed.

(** Aligning a mantissa drops digits until its exponent is at least [fexp]. *)
Lemma shr_fexp_spec m e l :
  0 <= m ->
  shr_m (shr_fexp 53 1024 m e l).1 = m / 2 ^ ((shr_fexp 53 1024 m e l).2 - e) /\
  (shr_fexp 53 1024 m e l).2 = Z.max e (fexp 53 1024 (Zdigits2 m + e)).
Proof.
  intros Hm. unfold shr_fexp.
  assert (Hml : shr_m (shr_record_of_loc m l) = m) by by destruct l as [|[]].
  destruct (fexp 53 1024 (Zdigits2 m + e) - e) as [|p|p] eqn:Hd; simpl; rewrite ?Hml.
  - rewrite Z.sub_diag, Z.div_1_r. lia.
  - rewrite iter_shr_m, Hml by (rewrite Hml; lia). split; [f_equal; f_equal; lia|lia].
  - rewrite Z.sub_diag, Z.div_1_r. lia.
Qed.

Lemma round_even_cases q l : round_nearest_even q l = q \/ round_nearest_even q l = q + 1.
Proof. destruct l as [|[]]; simpl; auto. by destruct (Z.even q); auto. Qed.

Lemma pow2_split a b : a <= b -> b <= 0 -> 2 ^ (- a) = 2 ^ (- b) * 2 ^ (b - a).
Proof. intros. rewrite <-Z.pow_add_r by lia. f_equal. lia. Qed.

Lemma div_pow2_split m a b :
  a <= b -> b <= 0 -> m / 2 ^ (b - a) / 2 ^ (- b) = m / 2 ^ (- a).
Proof.
  intros. rewrite Z.div_div by lia. by rewrite (pow2_split a b), Z.mul_comm by done.
Qed.

(** The exponent after aligning a number of at most a billion. *)
Lemma align_exponent m e :
  0 <= m <= TIMERLIB_BILLION * 2 ^ (- e) -> e <= -23 ->
  e <= Z.max e (fexp 53 1024 (Zdigits2 m + e)) <= -23.
Proof.
  intros Hm He. assert (Hd : Zdigits2 m <= 30 - e).
  { apply digits2_le; [|lia]. split; [lia|].
    replace (30 - e) with (30 + (- e)) by lia. rewrite Z.pow_add_r by lia.
    unfold TIMERLIB_BILLION in *. lia. }
  unfold fexp, emin. lia.
Qed.

Lemma round_aux_trunc m e :
  e <= -23 -> 0 <= m <= TIMERLIB_BILLION * 2 ^ (- e) ->
  i64_of_double
    match shr_m (shr_fexp 53 1024 m e loc_Exact).1 with
    | Z0 => S754_zero false
    | Zpos p =>
        if (shr_fexp 53 1024 m e loc_Exact).2 <=? 1024 - 53
        then S754_finite false p (shr_fexp 53 1024 m e loc_Exact).2 else S754_infinity false
    | _ => S754_nan
    end = Ok (m / 2 ^ (- e)) /\ 0 <= m / 2 ^ (- e) <= TIMERLIB_BILLION.
Proof.
  intros He Hm. destruct (shr_fexp_spec m e loc_Exact ltac:(lia)) as [Hq He1].
  pose proof (align_exponent m e Hm He) as Hexp. rewrite <-He1 in Hexp.
  destruct (shr_fexp 53 1024 m e loc_Exact) as [r e1]. cbn [fst snd] in *.
  assert (Ht : shr_m r / 2 ^ (- e1) = m / 2 ^ (- e)) by (rewrite Hq; apply div_pow2_split; lia).
  assert (Hb : 0 <= m / 2 ^ (- e) <= TIMERLIB_BILLION).
  { split; [apply Z.div_pos; lia|]. apply Z.div_le_upper_bound; lia. }
  split; [|done]. assert (0 <= shr_m r) by (rewrite Hq; apply Z.div_pos; lia).
  destruct (shr_m r) as [|p|p]; [|rewrite (proj2 (Z.leb_le _ _)) by lia|lia].
  - by rewrite <-Ht, Z.div_0_l by lia.
  - unfold i64_of_double, float_trunc. rewrite (proj2 (Z.leb_gt 0 e1)) by lia.
    rewrite Ht, Z.mul_1_l. unfold TIMERLIB_BILLION in *.
    by rewrite (proj2 (Z.leb_le _ _)), (proj2 (Z.ltb_lt _ _)) by lia.
Qed.

(** Rounding [m * 2^e] below a billion, to 53 digits and then to an integer,
    yields the integer part or its successor, and at most a billion. *)
Lemma round_trunc_spec m e :
  0 <= m -> e <= -23 -> m < TIMERLIB_BILLION * 2 ^ (- e) ->
  exists t, i64_of_double (binary_round_aux 53 1024 false m e loc_Exact) = Ok t /\
    (t = m / 2 ^ (- e) \/ t = m / 2 ^ (- e) + 1) /\ 0 <= t <= TIMERLIB_BILLION.
Proof.
  intros Hm He Hlt. unfold binary_round_aux.
  destruct (shr_fexp_spec m e loc_Exact ltac:(lia)) as [Hq He1].
  pose proof (align_exponent m e ltac:(lia) He) as Hexp. rewrite <-He1 in Hexp.
  destruct (shr_fexp 53 1024 m e loc_Exact) as [r1 e1]. cbn [fst snd] in *.
  set (q' := round_nearest_even _ _).
  assert (Hq' : q' = shr_m r1 \/ q' = shr_m r1 + 1) by apply round_even_cases. clearbody q'.
  assert (Hq0 : 0 <= shr_m r1) by (rewrite Hq; apply Z.div_pos; lia).
  assert (HqK : shr_m r1 < TIMERLIB_BILLION * 2 ^ (- e1)).
  { rewrite Hq. apply Z.div_lt_upper_bound; [lia|]. rewrite (pow2_split e e1) in Hlt by lia. lia. }
  destruct (round_aux_trunc q' e1) as [Hok Hb]; [lia..|].
  destruct (shr_fexp 53 1024 q' e1 loc_Exact) as [r2 e2]. cbn [fst snd] in Hok.
  exists (q' / 2 ^ (- e1)). split_and!; [done| |lia..].
  rewrite <-(div_pow2_split m e e1), <-Hq by lia.
  assert (0 < 2 ^ (- e1)) by lia. destruct Hq' as [->| ->]; [by left|].
  Z.to_euclidean_division_equations. nia.
Qed.

Lemma valid_mantissa s m e : valid_binary 53 1024 (S754_finite s m e) = true -> Zpos m < 2 ^ 53.
Proof.
  simpl. unfold bounded, canonical_mantissa, fexp, emin. intros Hv. bool_hyps.
  pose proof (digits2_bounds m) as [_ Hm].
  assert (2 ^ Zpos (digits2_pos m) <= 2 ^ 53) by (apply Z.pow_le_mono_r; lia). lia.
Qed.

(** The nanoseconds of the fractional part [f * 2^e]. *)
Lemma fraction_spec f e :
  e < 0 -> 0 <= f < 2 ^ (- e) ->
  exists t, i64_of_double (dmul (signed_float false f e) double_1e9) = Ok t /\
    (t = f * TIMERLIB_BILLION / 2 ^ (- e) \/ t = f * TIMERLIB_BILLION / 2 ^ (- e) + 1) /\
    0 <= t <= TIMERLIB_BILLION.
Proof.
  intros He Hf. destruct f as [|f|f]; [|cbn [signed_float dmul SFmul double_1e9 xorb]|lia].
  { exists 0. split_and!; [done| |done..]. left. by rewrite Z.mul_0_l, Z.div_0_l by lia. }
  assert (Hk : 2 ^ (- (e + -23)) = 2 ^ (- e) * 2 ^ 23) by (rewrite <-Z.pow_add_r by lia; f_equal; lia).
  assert (Hm : Zpos (f * 8388608000000000) = Zpos f * TIMERLIB_BILLION * 2 ^ 23) by (unfold TIMERLIB_BILLION; lia).
  destruct (round_trunc_spec (Zpos (f * 8388608000000000)) (e + -23)) as (t & Ht & Hcase & Hb);
    [lia|lia|unfold TIMERLIB_BILLION in *; lia|].
  exists t. split_and!; [done| |lia..].
  by rewrite Hk, Hm, Z.div_mul_cancel_r in Hcase by lia.
Qed.

(** The integral part fits: its cast is exact. *)
Lemma integral_cast i : 0 <= i < 2 ^ 63 -> i64_of_double (signed_float false i 0) = Ok i.
Proof.
  intros Hi. destruct i as [|i|i]; [done| |lia]. unfold i64_of_double, signed_float, float_trunc.
  rewrite Z.leb_refl, Z.pow_0_r, Z.mul_1_r, Z.mul_1_l.
  by rewrite (proj2 (Z.leb_le _ _)), (proj2 (Z.ltb_lt _ _)) by lia.
Qed.

Lemma integral_cast_shift m e :
  0 <= e -> float_trunc (Zpos m) e < 2 ^ 63 ->
  i64_of_double (S754_finite false m e) = Ok (Zpos m * 2 ^ e).
Proof.
  intros He. unfold i64_of_double, float_trunc. rewrite (proj2 (Z.leb_le 0 e)), Z.mul_1_l by lia.
  intros Hlt. by rewrite (proj2 (Z.leb_le _ _)), (proj2 (Z.ltb_lt _ _)) by lia.
Qed.

(** Conversion, when the carry cannot overflow the seconds. *)
Lemma from_double_exact m e :
  float_trunc (Zpos m) e < 2 ^ 63 -> (e < 0 -> float_trunc (Zpos m) e < 2 ^ 63 - 1) ->
  exists ts, timerlib_timespec_from_double (S754_finite false m e) = Ok ts /\
    timespec_ok ts /\ 0 <= tv_sec ts /\
    (total_ns ts = float_ns (Zpos m) e \/ total_ns ts = float_ns (Zpos m) e + 1).
Proof.
  intros Hlt Hcarry. unfold timerlib_timespec_from_double, modf, float_ns.
  replace (SFltb _ _) with false by done.
  destruct (Z.leb_spec 0 e) as [He|He].
  - rewrite integral_cast_shift by done. cbn [obind]. eexists. split; [done|].
    unfold timespec_ok, total_ns, float_trunc. cbn [tv_sec tv_nsec].
    rewrite (proj2 (Z.leb_le 0 e)) by lia. split_and!; [done|done|lia|]. left. lia.
  - specialize (Hcarry He). unfold float_trunc in *. rewrite (proj2 (Z.leb_gt 0 e)) in * by lia.
    set (k := 2 ^ (- e)) in *. assert (Hk : 0 < k) by (subst k; lia).
    pose proof (Z.mod_pos_bound (Zpos m) k Hk). pose proof (Z.div_pos (Zpos m) k ltac:(lia) Hk).
    rewrite integral_cast by lia. cbn [obind].
    destruct (fraction_spec (Zpos m mod k) e) as (t & -> & Hcase & Hb); [done..|]. cbn [obind].
    assert (Htot : Zpos m * TIMERLIB_BILLION / k
      = Zpos m / k * TIMERLIB_BILLION + (Zpos m mod k) * TIMERLIB_BILLION / k).
    { rewrite <-Z.div_add_l by lia. f_equal. rewrite (Z.div_mod (Zpos m) k) at 1 by lia. lia. }
    fold k in Hcase. rewrite Htot. unfold timespec_ok, total_ns.
    destruct (Z.leb_spec TIMERLIB_BILLION t); [repeat checked|]; eexists; (split; [done|]);
      cbn [tv_sec tv_nsec]; unfold TIMERLIB_BILLION in *; lia.
Qed.

(** ** Properties *)

(** C35. A finite, non-negative number of seconds that fits in a [time_t] is
    converted to a normalised timespec: the nanoseconds are below a billion, and
    the result is the exact duration rounded down to nanoseconds, or one
    nanosecond more when the product with [1e9] was rounded up. *)
Theorem from_double_accurate m e :
  valid_binary 53 1024 (S754_finite false m e) = true -> float_trunc (Zpos m) e < 2 ^ 63 ->
  exists ts, timerlib_timespec_from_double (S754_finite false m e) = Ok ts /\
    timespec_ok ts /\ 0 <= tv_sec ts /\
    (total_ns ts = float_ns (Zpos m) e \/ total_ns ts = float_ns (Zpos m) e + 1).
Proof.
  intros Hvalid Hlt. apply from_double_exact; [done|]. intros He. apply valid_mantissa in Hvalid.
  unfold float_trunc. rewrite (proj2 (Z.leb_gt 0 e)) by lia.
  assert (0 < 2 ^ (- e)) by lia.
  assert (Zpos m / 2 ^ (- e) <= Zpos m) by (apply Z.div_le_upper_bound; nia). lia.
Qed.

(** What is not a duration: negative numbers become zero, and for NaN,
    infinity and numbers of 2^63 seconds or more the conversion is undefined. *)
Theorem from_double_invalid x :
  match x with
  | S754_finite true _ _ | S754_infinity true =>
      timerlib_timespec_from_double x = Ok (Timespec 0 0)
  | S754_zero _ => timerlib_timespec_from_double x = Ok (Timespec 0 0)
  | S754_infinity false | S754_nan => exists why, timerlib_timespec_from_double x = Crash why
  | S754_finite false m e =>
      2 ^ 63 <= float_trunc (Zpos m) e ->
      exists why, timerlib_timespec_from_double x = Crash why
  end.
Proof.
  destruct x as [s|[]| |[] m e]; try done; [by eexists..|]. intros Hbig.
  unfold timerlib_timespec_from_double, modf. replace (SFltb _ _) with false by done.
  destruct (Z.leb_spec 0 e) as [He|He].
  - unfold i64_of_double at 1. rewrite Z.mul_1_l, (proj2 (Z.ltb_ge _ _)), andb_false_r by lia.
    by eexists.
  - unfold float_trunc in Hbig. rewrite (proj2 (Z.leb_gt 0 e)) in Hbig by lia.
    destruct (Zpos m / 2 ^ (- e)) as [|i|i]; [lia| |lia]. cbn [signed_float].
    unfold i64_of_double at 1, float_trunc. rewrite Z.leb_refl, Z.pow_0_r, Z.mul_1_l, Z.mul_1_r.
    rewrite (proj2 (Z.ltb_ge _ _)), andb_false_r by lia. by eexists.
Qed.

(** Times that an addition may produce: up to a billion nanoseconds. *)
Lemma subtract_total a b :
  0 <= tv_nsec a <= TIMERLIB_BILLION -> timespec_ok b ->
  - 2 ^ 62 < tv_sec a <= 2 ^ 62 -> timespec_small b ->
  exists r, timerlib_timespec_subtract a b = Ok r /\ total_ns r = total_ns a - total_ns b /\
    (timespec_ok a -> timespec_ok r).
Proof.
  unfold timespec_ok, timespec_small, total_ns. intros Ha Hb Hsa Hsb.
  unfold timerlib_timespec_subtract. checked.
  destruct (Z.ltb_spec (tv_nsec a) (tv_nsec b)); repeat checked; eexists; (split; [done|]);
    cbn [tv_sec tv_nsec]; unfold TIMERLIB_BILLION in *; lia.
Qed.

Lemma add_total a b :
  timespec_ok a -> timespec_ok b -> timespec_small a -> timespec_small b ->
  exists r, timerlib_timespec_add a b = Ok r /\ total_ns r = total_ns a + total_ns b /\
    0 <= tv_nsec r <= TIMERLIB_BILLION /\
    (timespec_ok r <-> tv_nsec a + tv_nsec b <> TIMERLIB_BILLION) /\
    tv_sec a + tv_sec b <= tv_sec r <= tv_sec a + tv_sec b + 1.
Proof.
  unfold timespec_ok, timespec_small, total_ns. intros Ha Hb Hsa Hsb.
  unfold timerlib_timespec_add. repeat checked.
  destruct (Z.ltb_spec TIMERLIB_BILLION (tv_nsec a + tv_nsec b)); repeat checked;
    eexists; (split; [done|]); cbn [tv_sec tv_nsec]; unfold TIMERLIB_BILLION in *; lia.
Qed.

(** Subtraction of normalised times is exact and normalised. *)
Theorem timespec_subtract_exact a b :
  timespec_ok a -> timespec_ok b -> timespec_small a -> timespec_small b ->
  exists r, timerlib_timespec_subtract a b = Ok r /\ timespec_ok r /\
    total_ns r = total_ns a - total_ns b.
Proof.
  intros Ha Hb Hsa Hsb. unfold timespec_ok, timespec_small in Ha, Hsa.
  destruct (subtract_total a b) as (r & Hr & Ht & Hok); [lia|done|lia|done|]. exists r. auto.
Qed.

(** Addition of normalised times is exact; but its result is normalised only
    when the nanoseconds do not add up to exactly a billion, since the carry
    tests for more than a billion. *)
Theorem timespec_add_exact a b :
  timespec_ok a -> timespec_ok b -> timespec_small a -> timespec_small b ->
  exists r, timerlib_timespec_add a b = Ok r /\ total_ns r = total_ns a + total_ns b /\
    0 <= tv_nsec r <= TIMERLIB_BILLION /\
    (timespec_ok r <-> tv_nsec a + tv_nsec b <> TIMERLIB_BILLION).
Proof.
  intros Ha Hb Hsa Hsb. destruct (add_total a b Ha Hb Hsa Hsb) as (r & ? & ? & ? & ? & _). by exists r.
Qed.

(** ** Witnesses *)

(** A quarter of a second. *)
Lemma from_double_accurate_witness :
  exists ts, timerlib_timespec_from_double (S754_finite false 4503599627370496 (-54)) = Ok ts /\
    timespec_ok ts /\ 0 <= tv_sec ts /\
    (total_ns ts = 250000000 \/ total_ns ts = 250000001).
Proof. apply (from_double_accurate 4503599627370496 (-54)); vm_compute; reflexivity. Defined.

(** 2^63 seconds. *)
Lemma from_double_invalid_witness :
  exists why, timerlib_timespec_from_double (S754_finite false 4503599627370496 11) = Crash why.
Proof.
  apply (from_double_invalid (S754_finite false 4503599627370496 11)). vm_compute. discriminate.
Defined.

Lemma timespec_subtract_exact_witness :
  exists r, timerlib_timespec_subtract (Timespec 5 100) (Timespec 3 200) = Ok r /\ timespec_ok r /\
    total_ns r = 1999999900.
Proof. apply (timespec_subtract_exact (Timespec 5 100) (Timespec 3 200)); vm_compute; split; congruence. Defined.

(** Half a second and half a second. *)
Lemma timespec_add_exact_witness :
  exists r, timerlib_timespec_add (Timespec 0 500000000) (Timespec 0 500000000) = Ok r /\
    total_ns r = TIMERLIB_BILLION /\ ~ timespec_ok r.
Proof.
  destruct (timespec_add_exact (Timespec 0 500000000) (Timespec 0 500000000)) as (r & Hr & Ht & _ & Hiff);
    [vm_compute; split; congruence..|].
  exists r. split_and!; [done..|]. rewrite Hiff. intros Hne. by apply Hne.
Defined.
