(* ===== verification/Doubles.v ===== *)
(** * Bounds on floating-point results

    The sizes of the durations that [excimer.c] computes with [double]: a product
    or quotient of small numbers is small, so that its conversion to integers is
    defined. *)

From S2P Require Import Prelude Timespec.
From Stdlib Require Import Floats.SpecFloat.

(** A number that is neither negative nor above [2^k]. *)
Definition small_double (k : Z) (x : double) : Prop :=
  match x with
  | S754_zero _ => True
  | S754_finite false m e => e <= k /\ Zpos m <= 2 ^ (k - e)
  | _ => False
  end.

Lemma div_pow_le m a k : 0 <= m <= 2 ^ k -> 0 <= a <= k -> m / 2 ^ a <= 2 ^ (k - a).
Proof.
  intros Hm Ha. apply Z.div_le_upper_bound; [lia|].
  rewrite <-Z.pow_add_r by lia. replace (a + (k - a)) with k by lia. lia.
Qed.

Lemma div_pow_lt m a k : 0 <= m < 2 ^ k -> 0 <= a <= k -> m / 2 ^ a < 2 ^ (k - a).
Proof.
  intros Hm Ha. apply Z.div_lt_upper_bound; [lia|].
  rewrite <-Z.pow_add_r by lia. replace (a + (k - a)) with k by lia. lia.
Qed.

(** Aligning keeps the exponent below the size of the number. *)
Lemma align_below m e k :
  0 <= m < 2 ^ (k - e) -> e <= k -> -1000 <= k ->
  e <= Z.max e (fexp 53 1024 (Zdigits2 m + e)) <= Z.max e (k - 53).
Proof.
  intros Hm He Hk. assert (Zdigits2 m <= k - e) by (apply digits2_le; lia).
  unfold fexp, emin. lia.
Qed.

(** Rounding stays below a power of two. *)
Lemma round_small m e l k :
  0 <= m < 2 ^ (k - e) -> e <= k -> -1000 <= k <= 900 ->
  small_double k (binary_round_aux 53 1024 false m e l).
Proof.
  intros Hm He Hk. unfold binary_round_aux.
  destruct (shr_fexp_spec m e l ltac:(lia)) as [Hq He1].
  pose proof (align_below m e k Hm He ltac:(lia)) as Hexp. rewrite <-He1 in Hexp.
  destruct (shr_fexp 53 1024 m e l) as [r1 e1]. cbn [fst snd] in *.
  assert (Hq0 : 0 <= shr_m r1 < 2 ^ (k - e1)).
  { rewrite Hq. split; [apply Z.div_pos; lia|].
    pose proof (div_pow_lt m (e1 - e) (k - e)) as Hlt. replace (k - e - (e1 - e)) with (k - e1) in Hlt by lia.
    apply Hlt; lia. }
  set (q' := round_nearest_even _ _).
  assert (Hq' : 0 <= q' <= 2 ^ (k - e1)) by (destruct (round_even_cases (shr_m r1) (loc_of_shr_record r1)); lia).
  clearbody q'. destruct (shr_fexp_spec q' e1 loc_Exact ltac:(lia)) as [Hq2 He2].
  assert (Hexp2 : e1 <= Z.max e1 (fexp 53 1024 (Zdigits2 q' + e1)) <= Z.max e1 (k + 1 - 53)).
  { apply align_below; [|lia..]. replace (k + 1 - e1) with (Z.succ (k - e1)) by lia.
    rewrite Z.pow_succ_r by lia. lia. }
  rewrite <-He2 in Hexp2. destruct (shr_fexp 53 1024 q' e1 loc_Exact) as [r2 e2]. cbn [fst snd] in *.
  assert (Hr2 : 0 <= shr_m r2 <= 2 ^ (k - e2)).
  { rewrite Hq2. split; [apply Z.div_pos; lia|].
    pose proof (div_pow_le q' (e2 - e1) (k - e1)) as Hle. replace (k - e1 - (e2 - e1)) with (k - e2) in Hle by lia.
    apply Hle; lia. }
  destruct (shr_m r2) as [|p|p]; [done| |lia].
  rewrite (proj2 (Z.leb_le _ _)) by lia. cbn. lia.
Qed.

Lemma mul_small a b x y :
  small_double a x -> small_double b y -> -900 <= a + b <= 800 -> small_double (a + b + 1) (dmul x y).
Proof.
  intros Hx Hy Hab. unfold dmul, SFmul.
  destruct x as [s| | |[] mx ex]; destruct y as [s'| | |[] my ey]; try done.
  destruct Hx as [Hex Hmx], Hy as [Hey Hmy]. apply round_small; [|lia..].
  split; [lia|]. rewrite Pos2Z.inj_mul.
  replace (a + b + 1 - (ex + ey)) with (Z.succ (a - ex + (b - ey))) by lia.
  rewrite Z.pow_succ_r, Z.pow_add_r by lia. assert (0 < 2 ^ (a - ex) * 2 ^ (b - ey)) by lia. nia.
Qed.

(** A divisor of at least [2^(52 + e)]. *)
Lemma div_small a x m e :
  small_double a x -> 2 ^ 52 <= Zpos m -> -900 <= a - (52 + e) <= 800 ->
  small_double (a - (52 + e) + 1) (SFdiv 53 1024 x (S754_finite false m e)).
Proof.
  intros Hx Hm Ha. unfold SFdiv. destruct x as [s| | |[] mx ex]; try done.
  destruct Hx as [Hex Hmx]. cbn [xorb]. unfold SFdiv_core_binary.
  assert (Hdx : Zpos (digits2_pos mx) <= a - ex + 1).
  { apply (digits2_le (Zpos mx)); [|lia]. replace (a - ex + 1) with (Z.succ (a - ex)) by lia.
    rewrite Z.pow_succ_r by lia. lia. }
  assert (Hdm : 53 <= Zpos (digits2_pos m)).
  { pose proof (digits2_bounds m) as [_ Hub]. assert (52 < Zpos (digits2_pos m)) by (apply (Z.pow_lt_mono_r_iff 2); lia). lia. }
  set (e' := Z.min _ _).
  assert (He' : e' <= ex - e /\ e' <= a - (52 + e)) by (unfold e', fexp, emin, Zdigits2; lia).
  clearbody e'. destruct He' as [He' Hle].
  set (q := match ex - e - e' with Zpos _ => _ | Z0 => _ | Zneg _ => _ end).
  assert (Hq : q = Zpos mx * 2 ^ (ex - e - e')).
  { unfold q. destruct (ex - e - e') as [|n|n] eqn:Hs; [lia| |lia]. by rewrite Z.shiftl_mul_pow2 by lia. }
  clearbody q. destruct (Z.div_eucl q (Zpos m)) as [d r] eqn:Hd.
  assert (d = q / Zpos m) as -> by (unfold Z.div; by rewrite Hd).
  apply round_small; [|lia..]. split; [apply Z.div_pos; lia|]. apply Z.div_lt_upper_bound; [lia|].
  replace (a - (52 + e) + 1 - e') with (Z.succ (a - (52 + e) - e')) by lia. rewrite Z.pow_succ_r by lia.
  assert (Hb : q <= 2 ^ 52 * 2 ^ (a - (52 + e) - e')).
  { rewrite Hq, <-Z.pow_add_r by lia. replace (52 + (a - (52 + e) - e')) with (a - ex + (ex - e - e')) by lia.
    rewrite Z.pow_add_r by lia. apply Z.mul_le_mono_nonneg_r; lia. }
  assert (0 < 2 ^ (a - (52 + e) - e')) by lia. nia.
Qed.

(** A 32-bit integer as a [double]. *)
Lemma int_small r : 0 <= r < 2 ^ 32 -> small_double 32 (double_of_Z r).
Proof.
  intros Hr. destruct r as [|r|r]; [done| |lia]. unfold double_of_Z, binary_normalize, binary_round.
  assert (Hd : Zpos (digits2_pos r) <= 32) by (apply (digits2_le (Zpos r)); lia).
  unfold shl_align. replace (fexp 53 1024 (Zpos (digits2_pos r) + 0) - 0)
    with (Zpos (digits2_pos r) - 53) by (unfold fexp, emin; lia).
  destruct (Zpos (digits2_pos r) - 53) as [|n|n] eqn:Hn; [lia|lia|].
  replace (fexp 53 1024 (Zpos (digits2_pos r) + 0)) with (Zneg n) by (unfold fexp, emin; lia).
  assert (Hit : Zpos (Pos.iter xO r n) = Zpos r * 2 ^ Zpos n).
  { clear. induction n as [|n IH] using Pos.peano_ind; [simpl; lia|].
    rewrite Pos.iter_succ, Pos2Z.inj_xO, IH, Pos2Z.inj_succ, Z.pow_succ_r by lia. lia. }
  apply round_small; [|lia..]. rewrite Hit. split; [lia|].
  replace (32 - Zneg n) with (32 + Zpos n) by lia. rewrite Z.pow_add_r by lia.
  apply Z.mul_lt_mono_pos_r; lia.
Qed.

Lemma float_trunc_small m e k : 0 <= k -> e <= k -> Zpos m <= 2 ^ (k - e) -> 0 <= float_trunc (Zpos m) e <= 2 ^ k.
Proof.
  intros Hk He Hm. unfold float_trunc. destruct (Z.leb_spec 0 e).
  - split; [lia|]. replace k with (k - e + e) at 1 by lia. rewrite Z.pow_add_r by lia.
    apply Z.mul_le_mono_nonneg_r; lia.
  - split; [apply Z.div_pos; lia|]. apply Z.div_le_upper_bound; [lia|]. rewrite <-Z.pow_add_r by lia.
    replace (- e + k) with (k - e) by lia. done.
Qed.

(** Conversion of a duration of up to [2^62] seconds. *)
Lemma from_double_small x :
  small_double 62 x -> exists ts, timerlib_timespec_from_double x = Ok ts.
Proof.
  destruct x as [s| | |[] m e]; try done; [by exists (Timespec 0 0)|]. intros [He Hm].
  pose proof (float_trunc_small m e 62 ltac:(lia) He Hm) as Ht.
  destruct (from_double_exact m e) as (ts & Hts & _); [lia|lia|]. by exists ts.
Qed.

Lemma small_mono j k x : j <= k -> small_double j x -> small_double k x.
Proof.
  intros Hjk. destruct x as [s| | |[] m e]; try done. intros [He Hm]. split; [lia|].
  apply Z.le_trans with (2 ^ (j - e)); [done|]. apply Z.pow_le_mono_r; lia.
Qed.
