(* ===== verification/PendingList.v ===== *)
(** * The list of pending timers

    Models [excimer_timer_list_enqueue], [excimer_timer_list_dequeue] and
    [excimer_timer_list_remove] of [excimer_timer.c]: a circular doubly-linked
    list threaded through the [pending_next] and [pending_prev] fields of the
    timers, with a head pointer in thread-local storage. The memory is a finite
    map from pointers to timers and every assignment is a separate write, in the
    order of the code. The list is shown to implement a FIFO queue without
    duplicates from which any element can be removed. *)

From S2P Require Import Prelude.

Abbreviation ptr := positive.

(** The functions that are passed as [callback]. *)
Inductive timer_callback : Type :=
  | excimer_profiler_event_cb
  | excimer_timer_event_cb.

#[export] Instance timer_callback_eq_dec : EqDecision timer_callback.
Proof. solve_decision. Defined.

(** [struct _excimer_timer]; [TL] is [timerlib_timer_t]. The two pointers into
    thread-local storage, [vm_interrupt_ptr] and [tls], are the identities of
    the threads they point to. *)
Record excimer_timer {TL : Type} : Type := Timer {
  is_valid : bool;
  is_running : bool;
  vm_interrupt_ptr : option nat;
  tl_timer : TL;
  callback : option timer_callback;
  user_data : option ptr;
  pending_next : option ptr;
  pending_prev : option ptr;
  event_count : Z;
  timer_tls : option nat
}.
Arguments excimer_timer TL : clear implicits.

Section pending.
  Context {TL : Type}.
  Abbreviation timers := (gmap ptr (excimer_timer TL)).
  Implicit Types (ts : timers) (t : excimer_timer TL) (p : ptr) (head : option ptr).

Definition set_pending_next (v : option ptr) t : excimer_timer TL :=
  Timer TL (is_valid t) (is_running t) (vm_interrupt_ptr t) (tl_timer t) (callback t) (user_data t)
    v (pending_prev t) (event_count t) (timer_tls t).

Definition set_pending_prev (v : option ptr) t : excimer_timer TL :=
  Timer TL (is_valid t) (is_running t) (vm_interrupt_ptr t) (tl_timer t) (callback t) (user_data t)
    (pending_next t) v (event_count t) (timer_tls t).

(** [p->f = v] for a pointer that may be null or dangling. *)
Definition write (p : option ptr) (f : excimer_timer TL -> excimer_timer TL) ts : outcome timers :=
  let! p := deref p in
  let! t := deref (ts !! p) in
  Ok (<[p := f t]> ts).

(** [p->f]. *)
Definition read {A} (p : option ptr) (f : excimer_timer TL -> A) ts : outcome A :=
  let! p := deref p in
  let! t := deref (ts !! p) in
  Ok (f t).

(** ** Operations: head pointer and memory in, head pointer and memory out *)

Definition excimer_timer_list_enqueue (timer : ptr) head ts : outcome (option ptr * timers) :=
  let! next := read (Some timer) pending_next ts in
  match next with
  | Some _ => Ok (head, ts)
  | None =>
      match head with
      | Some _ =>
          let! ts := write (Some timer) (set_pending_next head) ts in
          let! last := read head pending_prev ts in
          let! ts := write (Some timer) (set_pending_prev last) ts in
          let! last := read head pending_prev ts in
          let! ts := write last (set_pending_next (Some timer)) ts in
          let! ts := write head (set_pending_prev (Some timer)) ts in
          Ok (head, ts)
      | None =>
          let! ts := write (Some timer) (set_pending_next (Some timer)) ts in
          let! ts := write (Some timer) (set_pending_prev (Some timer)) ts in
          Ok (Some timer, ts)
      end
  end.

(** [timer->pending_next = NULL; timer->pending_prev = NULL;] *)
Definition clear_links (timer : ptr) ts : outcome timers :=
  let! ts := write (Some timer) (set_pending_next None) ts in
  write (Some timer) (set_pending_prev None) ts.

(** Returns the timer, or [None] when the list is empty. *)
Definition excimer_timer_list_dequeue head ts : outcome (option ptr * (option ptr * timers)) :=
  match head with
  | Some timer =>
      let! next := read (Some timer) pending_next ts in
      let! '(head, ts) :=
        (if bool_decide (next = Some timer) then Ok (None, ts)
         else
           let! prev := read (Some timer) pending_prev ts in
           let! ts := write next (set_pending_prev prev) ts in
           let! next := read (Some timer) pending_next ts in
           let! prev := read (Some timer) pending_prev ts in
           let! ts := write prev (set_pending_next next) ts in
           Ok (next, ts)) in
      let! ts := clear_links timer ts in
      Ok (Some timer, (head, ts))
  | None => Ok (None, (head, ts))
  end.

Definition excimer_timer_list_remove (timer : ptr) head ts : outcome (option ptr * timers) :=
  let! next := read (Some timer) pending_next ts in
  match next with
  | None => Ok (head, ts)
  | Some _ =>
      let! '(head, ts) :=
        (if bool_decide (next = Some timer) then Ok (None, ts)
         else
           let! prev := read (Some timer) pending_prev ts in
           let! ts := write next (set_pending_prev prev) ts in
           let! prev := read (Some timer) pending_prev ts in
           let! next := read (Some timer) pending_next ts in
           let! ts := write prev (set_pending_next next) ts in
           if bool_decide (head = Some timer)
           then let! next := read (Some timer) pending_next ts in Ok (next, ts)
           else Ok (head, ts)) in
      let! ts := clear_links timer ts in
      Ok (head, ts)
  end.

(** ** Specification *)

(** The edges of the path that starts at [x], passes through [l] and ends at
    [y], and those of a cycle. *)
Definition path (x : ptr) (l : list ptr) (y : ptr) : list (ptr * ptr) := zip (x :: l) (l ++ [y]).

Definition cycle (l : list ptr) : list (ptr * ptr) :=
  match l with
  | [] => []
  | x :: l' => path x l' x
  end.

Definition next_of ts p : option ptr := ts !! p ≫= pending_next.
Definition prev_of ts p : option ptr := ts !! p ≫= pending_prev.

(** The links of the timers in [l] form a cycle. *)
Definition linked ts (l : list ptr) : Prop :=
  NoDup l /\
  forall a b, (a, b) ∈ cycle l -> next_of ts a = Some b /\ prev_of ts b = Some a.

(** [head] is the queue [l]. *)
Definition pending_list ts head (l : list ptr) : Prop := head = hd_error l /\ linked ts l.

(** A timer that is in no list. *)
Definition unlinked ts p : Prop := exists t, ts !! p = Some t /\ pending_next t = None /\ pending_prev t = None.

(** A timer without its links. *)
Definition erase_links t : excimer_timer TL := set_pending_next None (set_pending_prev None t).

(** Two memories that differ at most in the links of the timers of [l]. *)
Definition same_but_links (l : list ptr) ts ts' : Prop :=
  erase_links <$> ts' = erase_links <$> ts /\ forall p, p ∉ l -> ts' !! p = ts !! p.

(** The abstract queue. *)
Definition queue_add (p : ptr) (l : list ptr) : list ptr := if decide (p ∈ l) then l else l ++ [p].
Definition queue_remove (p : ptr) (l : list ptr) : list ptr := filter (fun q => q <> p) l.

(** A call of one of the three functions, on the linked list and on the abstract
    queue. Only [Dequeue] returns something. *)
Inductive queue_op : Type :=
  | Enqueue (p : ptr)
  | Dequeue
  | Remove (p : ptr).

Definition op_run (op : queue_op) (st : option ptr * timers) :
    outcome (option ptr * (option ptr * timers)) :=
  match op with
  | Enqueue p => let! st := excimer_timer_list_enqueue p st.1 st.2 in Ok (None, st)
  | Dequeue => excimer_timer_list_dequeue st.1 st.2
  | Remove p => let! st := excimer_timer_list_remove p st.1 st.2 in Ok (None, st)
  end.

Definition op_spec (op : queue_op) (l : list ptr) : option ptr * list ptr :=
  match op with
  | Enqueue p => (None, queue_add p l)
  | Dequeue => (hd_error l, tail l)
  | Remove p => (None, queue_remove p l)
  end.

Fixpoint ops_run (ops : list queue_op) (st : option ptr * timers) :
    outcome (list (option ptr) * (option ptr * timers)) :=
  match ops with
  | [] => Ok ([], st)
  | op :: ops' =>
      let! '(o, st) := op_run op st in
      let! '(os, st) := ops_run ops' st in
      Ok (o :: os, st)
  end.

Fixpoint ops_spec (ops : list queue_op) (l : list ptr) : list (option ptr) * list ptr :=
  match ops with
  | [] => ([], l)
  | op :: ops' =>
      let '(o, l) := op_spec op l in
      let '(os, l) := ops_spec ops' l in
      (o :: os, l)
  end.

Definition op_ok ts (op : queue_op) : Prop :=
  match op with
  | Enqueue p | Remove p => is_Some (ts !! p)
  | Dequeue => True
  end.

(** Every timer is in the list, or its links are null. *)
Definition tracked ts (l : list ptr) : Prop :=
  forall p, is_Some (ts !! p) -> p ∈ l \/ unlinked ts p.

End pending.

(** ** Lemmas on cycles *)

Section cycles.
  Implicit Types (l m : list ptr).

Lemma path_last x l m z y : x :: l = m ++ [z] -> path x l y = zip m l ++ [(z, y)].
Proof.
  intros Heq. unfold path. rewrite Heq. rewrite zip_with_app; [done|].
  apply (f_equal length) in Heq. rewrite length_app in Heq. simpl in Heq. lia.
Qed.

Lemma cons_snoc (x : ptr) l : exists m z, x :: l = m ++ [z].
Proof. destruct (exists_last (l:=x :: l)) as (m & z & ->); [done|eauto]. Qed.

(** Adding an element at the end of a cycle replaces its last edge. *)
Lemma cycle_snoc x l p m z :
  x :: l = m ++ [z] ->
  cycle (x :: l) = zip m l ++ [(z, x)] /\ cycle ((x :: l) ++ [p]) = zip m l ++ [(z, p); (p, x)].
Proof.
  intros Heq. split; [by apply path_last|]. change (path x (l ++ [p]) x = zip m l ++ [(z, p); (p, x)]).
  rewrite (path_last x (l ++ [p]) (m ++ [z]) p x).
  - rewrite zip_with_app; [by rewrite <-app_assoc|].
    apply (f_equal length) in Heq. rewrite length_app in Heq. simpl in Heq. lia.
  - by rewrite <-Heq.
Qed.

(** Removing the first element of a cycle joins its neighbours. *)
Lemma cycle_cons p y l m z :
  y :: l = m ++ [z] ->
  cycle (p :: y :: l) = (p, y) :: zip m l ++ [(z, p)] /\ cycle (y :: l) = zip m l ++ [(z, y)].
Proof.
  intros Heq. split; [|by apply path_last]. simpl. unfold path. simpl. f_equal.
  by apply (path_last y l m z p).
Qed.

Lemma cycle_rotate x l : cycle (x :: l) ≡ₚ cycle (l ++ [x]).
Proof.
  destruct l as [|y l]; [done|]. destruct (cons_snoc y l) as (m & z & Heq).
  rewrite (proj1 (cycle_cons x y l m z Heq)), (proj2 (cycle_snoc y l x m z Heq)).
  rewrite Permutation_cons_append, <-app_assoc. done.
Qed.

Lemma cycle_rotate_app l1 l2 : cycle (l1 ++ l2) ≡ₚ cycle (l2 ++ l1).
Proof.
  revert l2. induction l1 as [|x l1 IH]; intros l2; [by rewrite app_nil_r|].
  simpl app at 1. rewrite cycle_rotate, <-app_assoc. rewrite IH. by rewrite <-app_assoc.
Qed.

Lemma zip_elem_l m l (a b : ptr) : (a, b) ∈ zip m l -> a ∈ m /\ b ∈ l.
Proof. intros Hin. split; [by eapply elem_of_zip_l|by eapply elem_of_zip_r]. Qed.

(** Every element of a cycle has a successor and a predecessor in it. *)
Lemma cycle_out l a : a ∈ l -> exists b, b ∈ l /\ (a, b) ∈ cycle l.
Proof.
  intros (l1 & l2 & ->)%list_elem_of_split. destruct (l2 ++ l1) as [|b l] eqn:Heq.
  - apply app_eq_nil in Heq as [-> ->]. exists a. split; set_solver.
  - exists b. assert (Hb : b ∈ l2 ++ l1) by (rewrite Heq; set_solver). split; [set_solver|].
    rewrite cycle_rotate_app. simpl app. rewrite Heq. destruct (cons_snoc b l) as (m & z & Hz).
    rewrite (proj1 (cycle_cons a b l m z Hz)). set_solver.
Qed.

Lemma cycle_in l a b : (a, b) ∈ cycle l -> a ∈ l /\ b ∈ l.
Proof.
  destruct l as [|x l]; [set_solver|]. unfold cycle, path. intros [? Hb]%zip_elem_l. set_solver.
Qed.

End cycles.

(** ** Lemmas on memory *)

Section memory.
  Context {TL : Type}.
  Abbreviation timers := (gmap ptr (excimer_timer TL)).
  Implicit Types (ts : timers) (p q : ptr) (v : option ptr).

Abbreviation upd_next p v := (alter (set_pending_next v) p).
Abbreviation upd_prev p v := (alter (set_pending_prev v) p).

Lemma write_alter f p ts : is_Some (ts !! p) -> write (Some p) f ts = Ok (alter f p ts).
Proof.
  intros [t Ht]. unfold write. simpl. rewrite Ht. simpl. f_equal. apply map_eq. intros q.
  destruct (decide (q = p)) as [->|Hne]; simplify_map_eq; [done|]. done.
Qed.

Lemma read_next p ts : is_Some (ts !! p) -> read (Some p) pending_next ts = Ok (next_of ts p).
Proof. intros [t Ht]. unfold read, next_of. simpl. by rewrite Ht. Qed.

Lemma read_prev p ts : is_Some (ts !! p) -> read (Some p) pending_prev ts = Ok (prev_of ts p).
Proof. intros [t Ht]. unfold read, prev_of. simpl. by rewrite Ht. Qed.

Lemma alter_dom f p q ts : is_Some (alter f p ts !! q) <-> is_Some (ts !! q).
Proof. apply lookup_alter_is_Some. Qed.

Lemma next_upd_next p q v ts :
  is_Some (ts !! p) ->
  next_of (upd_next p v ts) q = if decide (q = p) then v else next_of ts q.
Proof.
  intros [t Ht]. unfold next_of. case_decide as Hq; [subst; by rewrite lookup_alter_eq, Ht|].
  by rewrite lookup_alter_ne.
Qed.

Lemma prev_upd_prev p q v ts :
  is_Some (ts !! p) ->
  prev_of (upd_prev p v ts) q = if decide (q = p) then v else prev_of ts q.
Proof.
  intros [t Ht]. unfold prev_of. case_decide as Hq; [subst; by rewrite lookup_alter_eq, Ht|].
  by rewrite lookup_alter_ne.
Qed.

Lemma next_upd_prev p q v ts : next_of (upd_prev p v ts) q = next_of ts q.
Proof.
  unfold next_of. destruct (decide (q = p)) as [->|Hq]; [|by rewrite lookup_alter_ne].
  rewrite lookup_alter_eq. by destruct (ts !! p).
Qed.

Lemma prev_upd_next p q v ts : prev_of (upd_next p v ts) q = prev_of ts q.
Proof.
  unfold prev_of. destruct (decide (q = p)) as [->|Hq]; [|by rewrite lookup_alter_ne].
  rewrite lookup_alter_eq. by destruct (ts !! p).
Qed.

Lemma next_dom ts p q : next_of ts p = Some q -> is_Some (ts !! p).
Proof. unfold next_of. destruct (ts !! p); [eauto|done]. Qed.

Lemma prev_dom ts p q : prev_of ts p = Some q -> is_Some (ts !! p).
Proof. unfold prev_of. destruct (ts !! p); [eauto|done]. Qed.

Lemma unlinked_alt ts p :
  unlinked ts p <-> is_Some (ts !! p) /\ next_of ts p = None /\ prev_of ts p = None.
Proof.
  unfold unlinked, next_of, prev_of. split.
  - intros (t & -> & Hn & Hp). eauto.
  - intros [[t ->] [Hn Hp]]. eauto.
Qed.

Lemma same_refl l ts : same_but_links l ts ts.
Proof. done. Qed.

Lemma same_trans l ts1 ts2 ts3 :
  same_but_links l ts1 ts2 -> same_but_links l ts2 ts3 -> same_but_links l ts1 ts3.
Proof.
  intros [He1 Hl1] [He2 Hl2]. split; [congruence|]. intros p Hp. by rewrite Hl2, Hl1.
Qed.

Lemma same_upd_next l p v ts ts' :
  same_but_links l ts ts' -> p ∈ l -> same_but_links l ts (upd_next p v ts').
Proof.
  intros Hs Hp. eapply same_trans; [done|]. split.
  - apply map_eq. intros q. rewrite !lookup_fmap. destruct (decide (q = p)) as [->|Hq].
    + rewrite lookup_alter_eq. by destruct (ts' !! p).
    + by rewrite lookup_alter_ne.
  - intros q Hq. rewrite lookup_alter_ne; [done|]. by intros ->.
Qed.

Lemma same_upd_prev l p v ts ts' :
  same_but_links l ts ts' -> p ∈ l -> same_but_links l ts (upd_prev p v ts').
Proof.
  intros Hs Hp. eapply same_trans; [done|]. split.
  - apply map_eq. intros q. rewrite !lookup_fmap. destruct (decide (q = p)) as [->|Hq].
    + rewrite lookup_alter_eq. by destruct (ts' !! p).
    + by rewrite lookup_alter_ne.
  - intros q Hq. rewrite lookup_alter_ne; [done|]. by intros ->.
Qed.

(** ** The operations *)

#[local] Hint Resolve next_dom prev_dom same_refl : core.

(** Simplify reads and writes of timers that exist. *)
Ltac mem :=
  repeat first
    [ rewrite write_alter by (rewrite ?alter_dom; eauto); cbn [obind]
    | rewrite read_next by (rewrite ?alter_dom; eauto); cbn [obind]
    | rewrite read_prev by (rewrite ?alter_dom; eauto); cbn [obind]
    | rewrite next_upd_next by (rewrite ?alter_dom; eauto)
    | rewrite prev_upd_prev by (rewrite ?alter_dom; eauto)
    | rewrite next_upd_prev
    | rewrite prev_upd_next ].

Lemma linked_dom ts l p : linked ts l -> p ∈ l -> is_Some (ts !! p).
Proof. intros [_ Hl] (b & _ & Hb)%cycle_out. destruct (Hl _ _ Hb); eauto. Qed.

Lemma linked_next ts l p : linked ts l -> p ∈ l -> exists q, q ∈ l /\ next_of ts p = Some q.
Proof. intros [_ Hl] (b & Hbl & Hb)%cycle_out. exists b. split; [done|]. by apply Hl. Qed.

(** The links of a cycle do not depend on where it starts. *)
Lemma linked_rotate ts l1 l2 : linked ts (l1 ++ l2) -> linked ts (l2 ++ l1).
Proof.
  intros [Hn Hl]. split; [by rewrite (Permutation_app_comm l2 l1)|].
  intros a b Hab. apply Hl. by rewrite cycle_rotate_app.
Qed.

Lemma linked_frame ts ts' l :
  (forall p, p ∈ l -> ts' !! p = ts !! p) -> linked ts l -> linked ts' l.
Proof.
  intros Hsame [Hn Hl]. split; [done|]. intros a b Hab. pose proof (cycle_in _ _ _ Hab) as [Ha Hb].
  unfold next_of, prev_of. rewrite !Hsame by done. by apply Hl.
Qed.

Lemma enqueue_empty_spec ts p :
  unlinked ts p ->
  exists ts', excimer_timer_list_enqueue p None ts = Ok (Some p, ts') /\
    linked ts' [p] /\ same_but_links [p] ts ts'.
Proof.
  intros (Hdom & Hnext & _)%unlinked_alt. unfold excimer_timer_list_enqueue. mem. rewrite Hnext. mem.
  eexists. split_and!; [done| |].
  - split; [apply NoDup_singleton|]. intros a b Hab. assert (a = p /\ b = p) as [-> ->] by set_solver.
    mem. by rewrite !decide_True.
  - apply same_upd_prev; [apply same_upd_next|]; [done|set_solver..].
Qed.

Lemma enqueue_last_spec ts p x l :
  linked ts (x :: l) -> unlinked ts p -> p ∉ x :: l ->
  exists ts', excimer_timer_list_enqueue p (Some x) ts = Ok (Some x, ts') /\
    linked ts' ((x :: l) ++ [p]) /\ same_but_links (p :: x :: l) ts ts'.
Proof.
  intros [Hnd Hl] (Hdom & Hnext & _)%unlinked_alt Hp.
  destruct (cons_snoc x l) as (m & z & Hz). destruct (cycle_snoc x l p m z Hz) as [Hold Hnew].
  assert (Hxz : next_of ts z = Some x /\ prev_of ts x = Some z) by (apply Hl; rewrite Hold; set_solver).
  destruct Hxz as [Hzx Hxz].
  assert (Hzin : z ∈ x :: l) by (rewrite Hz; set_solver).
  assert (Hxp : x <> p) by set_solver. assert (Hzp : z <> p) by (intros ->; done).
  unfold excimer_timer_list_enqueue. mem. rewrite Hnext. mem. rewrite Hxz. mem.
  rewrite decide_False by done. mem.
  eexists. split_and!; [done| |].
  - split.
    { apply NoDup_app. split_and!; [done| |apply NoDup_singleton]. intros q Hq ->%list_elem_of_singleton. done. }
    intros a b. rewrite Hnew. intros [Hab|Hab]%elem_of_app.
    + assert (Hold' : (a, b) ∈ cycle (x :: l)) by (rewrite Hold; set_solver).
      pose proof (cycle_in _ _ _ Hold') as [Ha Hb]. apply zip_elem_l in Hab as [Ham Hbl].
      assert (a <> z). { intros ->. rewrite Hz in Hnd. apply NoDup_app in Hnd as (_ & Hd & _).
        apply (Hd z Ham). set_solver. }
      assert (b <> x). { intros ->. by apply NoDup_cons in Hnd as [? _]. }
      mem. rewrite !decide_False by (done || by intros ->). by apply Hl.
    + assert ((a = z /\ b = p) \/ (a = p /\ b = x)) as [[-> ->]|[-> ->]] by set_solver; mem.
      * by rewrite decide_True, decide_False, decide_True by done.
      * by rewrite decide_False, !decide_True by done.
  - repeat first [apply same_upd_prev|apply same_upd_next]; set_solver.
Qed.

(** Taking [p] out of the cycle [p; y; ...; z]. *)
Definition unlink p y z ts : timers :=
  upd_prev p None (upd_next p None (upd_next z (Some y) (upd_prev y (Some z) ts))).

Lemma unlink_spec ts p y l :
  linked ts (p :: y :: l) ->
  exists z, z <> p /\ is_Some (ts !! z) /\ next_of ts p = Some y /\ prev_of ts p = Some z /\
    linked (unlink p y z ts) (y :: l) /\ unlinked (unlink p y z ts) p /\
    same_but_links (p :: y :: l) ts (unlink p y z ts).
Proof.
  intros [Hnd Hl]. destruct (cons_snoc y l) as (m & z & Hz).
  destruct (cycle_cons p y l m z Hz) as [Hold Hnew].
  assert (Hpy : next_of ts p = Some y /\ prev_of ts y = Some p) by (apply Hl; rewrite Hold; set_solver).
  assert (Hzp : next_of ts z = Some p /\ prev_of ts p = Some z) by (apply Hl; rewrite Hold; set_solver).
  destruct Hpy as [Hpy Hyp], Hzp as [Hzp Hpz].
  apply NoDup_cons in Hnd as [Hp Hnd].
  assert (Hzin : z ∈ y :: l) by (rewrite Hz; set_solver).
  assert (Hyne : y <> p) by set_solver. assert (Hzne : z <> p) by (intros ->; done).
  exists z. split_and!; [done|eauto|done|done| | |].
  - split; [done|]. intros a b. rewrite Hnew. unfold unlink. intros [Hab|Hab]%elem_of_app.
    + assert (Hold' : (a, b) ∈ cycle (p :: y :: l)) by (rewrite Hold; set_solver).
      assert (Hnew' : (a, b) ∈ cycle (y :: l)) by (rewrite Hnew; set_solver).
      pose proof (cycle_in _ _ _ Hnew') as [Ha Hb]. apply zip_elem_l in Hab as [Ham Hbl].
      assert (a <> z). { intros ->. rewrite Hz in Hnd. apply NoDup_app in Hnd as (_ & Hd & _).
        apply (Hd z Ham). set_solver. }
      assert (b <> y). { intros ->. by apply NoDup_cons in Hnd as [? _]. }
      mem. rewrite !decide_False by (done || by intros ->). by apply Hl.
    + assert (a = z /\ b = y) as [-> ->] by set_solver. mem.
      by rewrite decide_False, decide_True, decide_False, decide_True by done.
  - apply unlinked_alt. unfold unlink. mem. rewrite !alter_dom, !decide_True by done. eauto.
  - unfold unlink. repeat first [apply same_upd_prev|apply same_upd_next]; set_solver.
Qed.

(** ... and out of the cycle [p]. *)
Lemma clear_links_spec ts p :
  is_Some (ts !! p) ->
  exists ts', clear_links p ts = Ok ts' /\ unlinked ts' p /\ same_but_links [p] ts ts'.
Proof.
  intros Hp. unfold clear_links. mem. eexists. split_and!; [done| |].
  - apply unlinked_alt. mem. rewrite !alter_dom, !decide_True by done. eauto.
  - repeat first [apply same_upd_prev|apply same_upd_next]; set_solver.
Qed.

Lemma same_weaken l l' ts ts' : same_but_links l ts ts' -> l ⊆ l' -> same_but_links l' ts ts'.
Proof. intros [He Hs] Hsub. split; [done|]. intros q Hq. apply Hs. set_solver. Qed.

(** Queue operations on the representation, with what they leave alone. *)
Lemma list_enqueue_spec ts head l p :
  pending_list ts head l -> (p ∈ l \/ unlinked ts p) ->
  exists head' ts', excimer_timer_list_enqueue p head ts = Ok (head', ts') /\
    pending_list ts' head' (queue_add p l) /\ same_but_links (p :: l) ts ts'.
Proof.
  intros [-> Hl] Hp. unfold queue_add. case_decide as Hin.
  - destruct (linked_next ts l p Hl Hin) as (q & _ & Hq).
    exists (hd_error l), ts. split_and!; [|split; done|done].
    unfold excimer_timer_list_enqueue. mem. by rewrite Hq.
  - destruct Hp as [Hp|Hp]; [done|]. destruct l as [|x l].
    + destruct (enqueue_empty_spec ts p Hp) as (ts' & Hrun & Hl' & Hs).
      exists (Some p), ts'. by split_and!.
    + destruct (enqueue_last_spec ts p x l Hl Hp Hin) as (ts' & Hrun & Hl' & Hs).
      exists (Some x), ts'. by split_and!.
Qed.

Lemma list_dequeue_spec ts head l :
  pending_list ts head l ->
  exists head' ts', excimer_timer_list_dequeue head ts = Ok (hd_error l, (head', ts')) /\
    pending_list ts' head' (tail l) /\ same_but_links l ts ts' /\
    forall p, hd_error l = Some p -> unlinked ts' p.
Proof.
  intros [-> Hl]. destruct l as [|p [|y l]]; cbn [hd_error tail excimer_timer_list_dequeue].
  - exists None, ts. by split_and!.
  - destruct (proj2 Hl p p) as [Hn Hp]; [set_solver|].
    mem. rewrite Hn, bool_decide_true by done. cbn [obind].
    destruct (clear_links_spec ts p) as (ts' & -> & Hu & Hs); [eauto|]. cbn [obind].
    exists None, ts'. split_and!; [done| |done|by intros ? [= ->]].
    split; [done|]. split; [apply NoDup_nil_2|]. set_solver.
  - pose proof (proj1 Hl) as [Hpy _]%NoDup_cons.
    destruct (unlink_spec ts p y l Hl) as (z & Hz & Hdz & Hn & Hp & Hl' & Hu & Hs).
    assert (Hne : p <> y) by set_solver.
    pose proof (linked_dom ts _ y Hl ltac:(set_solver)).
    mem. rewrite Hn, bool_decide_false by congruence. mem. rewrite Hp. mem.
    rewrite decide_False, ?Hn, ?Hp by done. mem. unfold clear_links. mem.
    eexists _, _. split_and!; [done|split; done|done|by intros ? [= ->]].
Qed.

Lemma queue_remove_notin p l : p ∉ l -> queue_remove p l = l.
Proof.
  unfold queue_remove. induction l as [|q l IH]; intros Hp; [done|].
  rewrite filter_cons_True by set_solver. f_equal. apply IH. set_solver.
Qed.

Lemma queue_remove_split p l1 l2 :
  p ∉ l1 -> p ∉ l2 -> queue_remove p (l1 ++ p :: l2) = l1 ++ l2.
Proof.
  intros H1 H2. unfold queue_remove. rewrite filter_app, filter_cons_False by auto.
  fold (queue_remove p l1) (queue_remove p l2). by rewrite !queue_remove_notin.
Qed.

Lemma list_remove_spec ts head l p :
  pending_list ts head l -> (p ∈ l \/ unlinked ts p) ->
  exists head' ts', excimer_timer_list_remove p head ts = Ok (head', ts') /\
    pending_list ts' head' (queue_remove p l) /\ unlinked ts' p /\ same_but_links (p :: l) ts ts'.
Proof.
  intros [-> Hl] Hp. destruct (decide (p ∈ l)) as [Hin|Hin].
  - apply list_elem_of_split in Hin as (l1 & l2 & ->).
    pose proof (proj1 Hl) as (Hd1 & Hd & [Hp2 Hd2]%NoDup_cons)%NoDup_app.
    assert (Hp1 : p ∉ l1) by (intros Hp1; apply (Hd p Hp1); set_solver).
    rewrite queue_remove_split by done. apply linked_rotate in Hl. simpl app in Hl.
    unfold excimer_timer_list_remove. destruct (l2 ++ l1) as [|y l] eqn:Heq.
    + apply app_eq_nil in Heq as [-> ->]. destruct (proj2 Hl p p) as [Hn Hpr]; [set_solver|].
      mem. rewrite Hn, bool_decide_true by done. cbn [obind].
      destruct (clear_links_spec ts p) as (ts' & -> & Hu & Hs); [eauto|]. cbn [obind].
      exists None, ts'. split_and!; [done| |done|by apply (same_weaken [p]); [|set_solver]].
      split; [done|]. split; [apply NoDup_nil_2|]. set_solver.
    + destruct (unlink_spec ts p y l Hl) as (z & Hz & Hdz & Hn & Hpr & Hl' & Hu & Hs).
      assert (Hy : y ∈ l2 ++ l1) by (rewrite Heq; set_solver).
      assert (Hne : p <> y) by (intros ->; set_solver).
      pose proof (linked_dom ts _ y Hl ltac:(set_solver)).
      mem. rewrite Hn, bool_decide_false by congruence. mem. rewrite Hpr. mem.
      rewrite decide_False, ?Hpr, ?Hn by done. mem. unfold clear_links.
      assert (Hhead : (if bool_decide (hd_error (l1 ++ p :: l2) = Some p) then Some y
        else hd_error (l1 ++ p :: l2)) = hd_error (l1 ++ l2)).
      { destruct l1 as [|x l1]; simpl.
        - rewrite bool_decide_true by done. rewrite app_nil_r in Heq. by rewrite Heq.
        - rewrite bool_decide_false by set_solver. done. }
      exists (hd_error (l1 ++ l2)), (unlink p y z ts). split_and!; [|split; [done|]|done|].
      * rewrite <-Hhead. case_bool_decide; mem; [rewrite decide_False, Hn by congruence|]; cbn [obind]; mem; done.
      * rewrite <-Heq in Hl'. by apply linked_rotate.
      * eapply same_weaken; [done|]. rewrite <-Heq. set_solver.
  - destruct Hp as [Hp|Hp]; [done|]. apply unlinked_alt in Hp as (Hdom & Hn & Hpr).
    exists (hd_error l), ts. rewrite queue_remove_notin by done.
    split_and!; [|split; done|by apply unlinked_alt|done].
    unfold excimer_timer_list_remove. mem. by rewrite Hn.
Qed.

Lemma same_dom l ts ts' p : same_but_links l ts ts' -> is_Some (ts' !! p) <-> is_Some (ts !! p).
Proof.
  intros [He _]. apply (f_equal (fun m => m !! p)) in He. rewrite !lookup_fmap in He.
  destruct (ts !! p), (ts' !! p); split; intros [? ?]; eauto; done.
Qed.

(** What an operation does to the timers outside the list it works on. *)
Lemma tracked_step ts ts' l l' m :
  tracked ts l -> same_but_links m ts ts' ->
  (forall p, p ∈ m -> p ∈ l' \/ unlinked ts' p) -> (forall p, p ∈ l -> p ∈ m) -> tracked ts' l'.
Proof.
  intros Ht Hs Hm Hl p Hp. destruct (decide (p ∈ m)) as [Hin|Hin]; [by apply Hm|].
  right. destruct Hs as [He Hs]. unfold unlinked. rewrite Hs by done.
  rewrite (same_dom m ts ts') in Hp by done. destruct (Ht p Hp) as [?|?]; [|done].
  by destruct Hin; apply Hl.
Qed.

(** One call on the linked list does what the abstract queue does. *)
Lemma op_refines op ts head l :
  pending_list ts head l -> tracked ts l -> op_ok ts op ->
  exists head' ts', op_run op (head, ts) = Ok ((op_spec op l).1, (head', ts')) /\
    pending_list ts' head' (op_spec op l).2 /\ tracked ts' (op_spec op l).2 /\
    erase_links <$> ts' = erase_links <$> ts.
Proof.
  intros Hl Ht Hop. destruct op as [p| |p]; cbn [op_run op_spec op_ok fst snd] in *.
  - destruct (list_enqueue_spec ts head l p Hl (Ht p Hop)) as (head' & ts' & -> & Hl' & Hs).
    exists head', ts'. split_and!; [done|done| |by destruct Hs].
    apply (tracked_step ts ts' l _ (p :: l)); [done|done| |set_solver].
    intros q Hq. left. unfold queue_add. case_decide; set_solver.
  - destruct (list_dequeue_spec ts head l Hl) as (head' & ts' & -> & Hl' & Hs & Hu).
    exists head', ts'. split_and!; [done|done| |by destruct Hs].
    apply (tracked_step ts ts' l _ l); [done|done| |done].
    destruct l as [|x l]; [set_solver|]. intros q [->|Hq]%elem_of_cons; [right; by apply Hu|by left].
  - destruct (list_remove_spec ts head l p Hl (Ht p Hop)) as (head' & ts' & -> & Hl' & Hu & Hs).
    exists head', ts'. split_and!; [done|done| |by destruct Hs].
    apply (tracked_step ts ts' l _ (p :: l)); [done|done| |set_solver].
    intros q Hq. destruct (decide (q = p)) as [->|Hne]; [by right|].
    left. unfold queue_remove. apply list_elem_of_filter. set_solver.
Qed.

(** C12. The circular list implements a queue: any sequence of calls that starts
    from a well-formed list dereferences no null or dangling pointer, returns
    the timers in the order of a FIFO queue in which a timer occurs at most once
    and from which any timer can be removed, and changes nothing of the timers
    but their links, which are null exactly outside of the list. *)
Theorem list_refines_queue ops ts head l :
  pending_list ts head l -> tracked ts l -> Forall (op_ok ts) ops ->
  exists head' ts', ops_run ops (head, ts) = Ok ((ops_spec ops l).1, (head', ts')) /\
    pending_list ts' head' (ops_spec ops l).2 /\ tracked ts' (ops_spec ops l).2 /\
    erase_links <$> ts' = erase_links <$> ts.
Proof.
  intros Hl Ht Hops. revert ts head l Hl Ht Hops.
  induction ops as [|op ops IH]; intros ts head l Hl Ht Hops.
  { exists head, ts. by split_and!. }
  apply Forall_cons in Hops as [Hop Hops]. cbn [ops_run ops_spec].
  destruct (op_refines op ts head l Hl Ht Hop) as (head1 & ts1 & -> & Hl1 & Ht1 & He1).
  destruct (op_spec op l) as [o l1]. cbn [obind fst snd] in *.
  destruct (IH ts1 head1 l1 Hl1 Ht1) as (head2 & ts2 & -> & Hl2 & Ht2 & He2).
  { eapply Forall_impl; [done|]. intros op' Hop'. destruct op'; simpl in *; try done.
    all: apply (f_equal (fun m => m !! p)) in He1; rewrite !lookup_fmap in He1.
    all: destruct (ts1 !! p), (ts !! p); eauto; done. }
  destruct (ops_spec ops l1) as [os l2]. cbn [obind fst snd] in *.
  exists head2, ts2. split_and!; [done..|congruence].
Qed.

End memory.

(** ** Witness *)

Definition ex_unlinked : excimer_timer unit :=
  Timer unit true true (Some 0%nat) tt None None None None 0 (Some 0%nat).

Definition ex_timers : gmap ptr (excimer_timer unit) :=
  <[1%positive := ex_unlinked]> (<[2%positive := ex_unlinked]> {[3%positive := ex_unlinked]}).

Lemma list_refines_queue_witness :
  exists head ts, ops_run [Enqueue 1; Enqueue 2; Enqueue 1; Enqueue 3; Remove 2; Dequeue; Dequeue; Dequeue]
      (None, ex_timers)
    = Ok ([None; None; None; None; None; Some 1%positive; Some 3%positive; None], (head, ts)) /\
    pending_list ts head [] /\ tracked ts [] /\ erase_links <$> ts = erase_links <$> ex_timers.
Proof.
  apply (list_refines_queue
    [Enqueue 1; Enqueue 2; Enqueue 1; Enqueue 3; Remove 2; Dequeue; Dequeue; Dequeue] ex_timers None []).
  - split; [done|]. split; [apply NoDup_nil_2|]. intros a b Hab. by apply elem_of_nil in Hab.
  - intros p [t Ht]. right. exists t. split; [done|]. unfold ex_timers in Ht.
    repeat (apply lookup_insert_Some in Ht as [[_ <-]|[_ Ht]]; [done|]).
    by apply lookup_singleton_Some in Ht as [_ <-].
  - repeat constructor; simpl; vm_compute; eauto.
Defined.
