(* ===== verification/Timer.v ===== *)
(** * Timers

    Models [excimer_timer.c] and [excimer_timer.h] on top of the pending list,
    and [excimer_mutex.c]. The state has the memory of the timers, the
    thread-local storage of each thread, the [vm_interrupt] flag of each thread,
    the warnings raised so far, the state of the timer library and the rest of
    the world, which callbacks may change.

    Every function takes the thread [self] it runs in. In a build without
    thread safety ([zts = false]) [ZEND_TLS] variables and [EG] are ordinary
    globals; in a thread-safe build every thread has its own. *)

From S2P Require Import Prelude Timespec PendingList.

(** ** What a timer needs of the timer library

    [OS] is the state of the operating system. A [bool] result is [true] for
    [TIMERLIB_SUCCESS]. The arithmetic of [timerlib_timer_get_time] may
    overflow, which is undefined. [tl_zero] is a [timerlib_timer_t] of zero bytes. *)
Class Timerlib (TL OS : Type) : Type := {
  tl_zero : TL;
  timerlib_timer_init : Z -> ptr -> OS -> OS * (TL * bool);
  timerlib_timer_start : TL -> timespec -> timespec -> OS -> OS * (TL * bool);
  timerlib_timer_stop : TL -> OS -> OS * (TL * bool);
  timerlib_timer_destroy : TL -> OS -> OS * TL;
  timerlib_timer_get_time : TL -> OS -> OS * outcome (timespec * bool);
  timerlib_clock_get_time : Z -> OS -> OS * (timespec * bool)
}.

#[global] Hint Mode Timerlib - - : typeclass_instances.

(** Event types. *)
Definition EXCIMER_REAL : Z := 0.
Definition EXCIMER_CPU : Z := 1.

Inductive mutex : Type := Unlocked | Locked | Destroyed.

(** [struct _excimer_timer_tls_t]. *)
Record excimer_timer_tls_t : Type := Tls {
  tls_mutex : mutex;
  pending_head : option ptr;
  timers_active : Z
}.

Definition zero_tls : excimer_timer_tls_t := Tls Unlocked None 0.

(** A value of [zend_interrupt_function]: ours, or that of another extension. *)
Inductive interrupt_hook : Type :=
  | excimer_interrupt_hook
  | other_hook (id : nat).

(** The state. *)
Record tstate {TL OS X : Type} : Type := TState {
  timers : gmap ptr (excimer_timer TL);
  tls : gmap nat excimer_timer_tls_t;
  vm_interrupt : gmap nat bool;
  zend_interrupt_function : option interrupt_hook;
  old_zend_interrupt_function : option interrupt_hook;
  warnings : list string;
  os : OS;
  world : X
}.
Arguments tstate TL OS X : clear implicits.

Section timer.
  Context {TL OS X : Type} `{Timerlib TL OS} (zts : bool).
  Abbreviation state := (tstate TL OS X).
  Implicit Types (s : state) (self : nat) (p : ptr).

(** ** State access *)

Definition set_timers (ts : gmap ptr (excimer_timer TL)) s : state :=
  TState TL OS X ts (tls s) (vm_interrupt s) (zend_interrupt_function s)
    (old_zend_interrupt_function s) (warnings s) (os s) (world s).

Definition set_tls (m : gmap nat excimer_timer_tls_t) s : state :=
  TState TL OS X (timers s) m (vm_interrupt s) (zend_interrupt_function s)
    (old_zend_interrupt_function s) (warnings s) (os s) (world s).

Definition set_vm_interrupt (m : gmap nat bool) s : state :=
  TState TL OS X (timers s) (tls s) m (zend_interrupt_function s)
    (old_zend_interrupt_function s) (warnings s) (os s) (world s).

Definition set_hooks (cur old : option interrupt_hook) s : state :=
  TState TL OS X (timers s) (tls s) (vm_interrupt s) cur old (warnings s) (os s) (world s).

Definition set_os (o : OS) s : state :=
  TState TL OS X (timers s) (tls s) (vm_interrupt s) (zend_interrupt_function s)
    (old_zend_interrupt_function s) (warnings s) o (world s).

Definition set_world (x : X) s : state :=
  TState TL OS X (timers s) (tls s) (vm_interrupt s) (zend_interrupt_function s)
    (old_zend_interrupt_function s) (warnings s) (os s) x.

(** [php_error_docref(NULL, E_WARNING, msg)]. *)
Definition php_warning (msg : string) : M state unit :=
  modify (fun s => TState TL OS X (timers s) (tls s) (vm_interrupt s) (zend_interrupt_function s)
    (old_zend_interrupt_function s) (warnings s ++ [msg]) (os s) (world s)).

(** The storage a thread sees under the name of a [ZEND_TLS] variable. *)
Definition tls_key self : nat := if zts then self else 0%nat.
Definition get_tls (k : nat) s : excimer_timer_tls_t := default zero_tls (tls s !! k).
Definition put_tls (k : nat) (v : excimer_timer_tls_t) s : state := set_tls (<[k := v]> (tls s)) s.

Definition set_head (head : option ptr) (v : excimer_timer_tls_t) : excimer_timer_tls_t :=
  Tls (tls_mutex v) head (timers_active v).
Definition set_active (n : Z) (v : excimer_timer_tls_t) : excimer_timer_tls_t :=
  Tls (tls_mutex v) (pending_head v) n.
Definition set_mutex (m : mutex) (v : excimer_timer_tls_t) : excimer_timer_tls_t :=
  Tls m (pending_head v) (timers_active v).

Definition modify_tls self (f : excimer_timer_tls_t -> excimer_timer_tls_t) : M state unit :=
  modify (fun s => put_tls (tls_key self) (f (get_tls (tls_key self) s)) s).

(** Reading and writing a timer. *)
Definition load p : M state (excimer_timer TL) :=
  s ← get_state; lift (deref (timers s !! p)).

Definition store p (f : excimer_timer TL -> excimer_timer TL) : M state unit :=
  s ← get_state;
  ts ← lift (write (Some p) f (timers s));
  modify (set_timers ts).

Definition set_valid (b : bool) (t : excimer_timer TL) : excimer_timer TL :=
  Timer TL b (is_running t) (vm_interrupt_ptr t) (tl_timer t) (callback t) (user_data t)
    (pending_next t) (pending_prev t) (event_count t) (timer_tls t).
Definition set_running (b : bool) (t : excimer_timer TL) : excimer_timer TL :=
  Timer TL (is_valid t) b (vm_interrupt_ptr t) (tl_timer t) (callback t) (user_data t)
    (pending_next t) (pending_prev t) (event_count t) (timer_tls t).
Definition set_tl (tl : TL) (t : excimer_timer TL) : excimer_timer TL :=
  Timer TL (is_valid t) (is_running t) (vm_interrupt_ptr t) tl (callback t) (user_data t)
    (pending_next t) (pending_prev t) (event_count t) (timer_tls t).
Definition set_count (n : Z) (t : excimer_timer TL) : excimer_timer TL :=
  Timer TL (is_valid t) (is_running t) (vm_interrupt_ptr t) (tl_timer t) (callback t) (user_data t)
    (pending_next t) (pending_prev t) n (timer_tls t).
Definition set_timer_tls (k : option nat) (t : excimer_timer TL) : excimer_timer TL :=
  Timer TL (is_valid t) (is_running t) (vm_interrupt_ptr t) (tl_timer t) (callback t) (user_data t)
    (pending_next t) (pending_prev t) (event_count t) k.

(** A call of the timer library on the [tl_timer] of a timer. *)
Definition with_tl {A} p (f : TL -> OS -> OS * (TL * A)) : M state A :=
  t ← load p;
  s ← get_state;
  let '(o, (tl, a)) := f (tl_timer t) (os s) in
  _ ← modify (set_os o);
  _ ← store p (set_tl tl);
  mret a.

(** ** [excimer_mutex.c]

    The functions run alone here, so a mutex that is already locked is never
    unlocked: waiting for it does not end. *)

(** [result] is what [pthread_mutex_init] returns. Nothing calls this function:
    [excimer_timer_thread_init] uses a static initialiser. *)
Definition excimer_mutex_init self (result : Z) : M state unit :=
  if negb (result =? 0) then lift (Fatal "pthread_mutex_init()") else modify_tls self (set_mutex Unlocked).

Definition excimer_mutex_lock self : M state unit :=
  s ← get_state;
  match tls_mutex (get_tls (tls_key self) s) with
  | Unlocked => modify_tls self (set_mutex Locked)
  | Locked => lift Diverge
  | Destroyed => lift (Crash "pthread_mutex_lock of a destroyed mutex")
  end.

Definition excimer_mutex_unlock self : M state unit := modify_tls self (set_mutex Unlocked).

Definition excimer_mutex_destroy self : M state unit :=
  s ← get_state;
  match tls_mutex (get_tls (tls_key self) s) with
  | Unlocked => modify_tls self (set_mutex Destroyed)
  | Locked => lift (Fatal "pthread_mutex_destroy(): Device or resource busy")
  | Destroyed => lift (Crash "pthread_mutex_destroy of a destroyed mutex")
  end.

(** ** The pending list of the running thread *)

Definition pending_enqueue self p : M state unit :=
  s ← get_state;
  '(head, ts) ← lift (excimer_timer_list_enqueue p (pending_head (get_tls (tls_key self) s)) (timers s));
  _ ← modify (set_timers ts);
  modify_tls self (set_head head).

Definition pending_remove self p : M state unit :=
  s ← get_state;
  '(head, ts) ← lift (excimer_timer_list_remove p (pending_head (get_tls (tls_key self) s)) (timers s));
  _ ← modify (set_timers ts);
  modify_tls self (set_head head).

Definition pending_pop self : M state (option ptr) :=
  s ← get_state;
  '(r, (head, ts)) ← lift (excimer_timer_list_dequeue (pending_head (get_tls (tls_key self) s)) (timers s));
  _ ← modify (set_timers ts);
  _ ← modify_tls self (set_head head);
  mret r.

Definition excimer_timer_pending_dequeue self : M state (option (ptr * Z)) :=
  _ ← excimer_mutex_lock self;
  r ← pending_pop self;
  ret ←
    match r with
    | Some p =>
        t ← load p;
        _ ← store p (set_count 0);
        mret (Some (p, event_count t))
    | None => mret None
    end;
  _ ← excimer_mutex_unlock self;
  mret ret.

(** ** Module and thread set-up *)

Definition excimer_timer_module_init : M state unit :=
  modify (fun s => set_hooks (Some excimer_interrupt_hook) (zend_interrupt_function s) s).

Definition excimer_timer_module_shutdown : M state unit := mret tt.

Definition excimer_timer_thread_init self : M state unit := modify_tls self (fun _ => zero_tls).

Definition excimer_timer_thread_shutdown self : M state unit :=
  s ← get_state;
  if negb (timers_active (get_tls (tls_key self) s) =? 0)
  then php_warning "Timer still active at thread termination"
  else excimer_mutex_destroy self.

(** ** Timer operations *)

(** The timer after [memset] and the assignments before [timerlib_timer_init]. *)
Definition fresh_timer self (cb : timer_callback) (data : option ptr) : excimer_timer TL :=
  Timer TL false false (Some (tls_key self)) tl_zero (Some cb) data None None 0 (Some (tls_key self)).

Definition excimer_timer_init self p (event_type : Z) (cb : timer_callback) (data : option ptr) :
    M state bool :=
  _ ← store p (fun _ => fresh_timer self cb data);
  ok ← with_tl p (fun _ o => timerlib_timer_init event_type p o);
  if negb ok then
    _ ← with_tl p (fun tl o => let '(o, tl) := timerlib_timer_destroy tl o in (o, (tl, tt)));
    mret false
  else
    _ ← modify_tls self (fun v => set_active (wrap_u64 (timers_active v + 1)) v);
    _ ← store p (set_valid true);
    _ ← store p (set_running false);
    mret true.

Definition excimer_timer_start p (period initial : timespec) : M state unit :=
  t ← load p;
  if negb (is_valid t) then php_warning "Unable to start uninitialised timer"
  else
    let initial := if timerlib_timespec_is_zero initial then period else initial in
    if timerlib_timespec_is_zero initial then
      php_warning "Unable to start timer with a value of zero duration and period"
    else
      ok ← with_tl p (fun tl o => timerlib_timer_start tl period initial o);
      if (ok : bool) then store p (set_running true) else mret tt.

Definition excimer_timer_stop p : M state unit :=
  t ← load p;
  if negb (is_valid t) then php_warning "Unable to start uninitialised timer"
  else if is_running t then
    ok ← with_tl p (fun tl o => timerlib_timer_stop tl o);
    if (ok : bool) then store p (set_running false) else mret tt
  else mret tt.

Definition excimer_timer_destroy self p : M state unit :=
  t ← load p;
  if negb (is_valid t) then mret tt
  else if negb (bool_decide (timer_tls t = Some (tls_key self))) then
    php_warning "Cannot delete a timer belonging to a different thread"
  else
    _ ← (if is_running t then
           _ ← store p (set_running false);
           _ ← with_tl p (fun tl o => timerlib_timer_stop tl o);
           mret tt
         else mret tt);
    _ ← with_tl p (fun tl o => let '(o, tl) := timerlib_timer_destroy tl o in (o, (tl, tt)));
    _ ← modify_tls self (fun v => set_active (wrap_u64 (timers_active v - 1)) v);
    _ ← excimer_mutex_lock self;
    _ ← pending_remove self p;
    _ ← excimer_mutex_unlock self;
    _ ← store p (set_valid false);
    store p (set_timer_tls None).

(** The critical section of the handler, and the handler. [overrun_count] is an
    [int] that is added to a [zend_long]. *)
Definition handle_locked self p (overrun_count : Z) : M state unit :=
  _ ← excimer_mutex_lock self;
  _ ← store p (fun t => set_count (wrap_i64 (event_count t + wrap_i32 (overrun_count + 1))) t);
  _ ← pending_enqueue self p;
  excimer_mutex_unlock self.

(** [excimer_timer_atomic_bool_store(timer->vm_interrupt_ptr, 1)]. *)
Definition raise_interrupt p : M state unit :=
  t ← load p;
  k ← lift (deref (vm_interrupt_ptr t));
  modify (fun s => set_vm_interrupt (<[k := true]> (vm_interrupt s)) s).

Definition excimer_timer_handle self p (overrun_count : Z) : M state unit :=
  _ ← handle_locked self p overrun_count;
  raise_interrupt p.

(** [run_callback] is what the callbacks do, [run_hook] what the interrupt
    functions of other extensions do. *)
Section interrupt.
  Variables (run_callback : timer_callback -> option ptr -> Z -> M state unit)
            (run_hook : interrupt_hook -> M state unit).

Fixpoint interrupt_loop (fuel : nat) self : M state unit :=
  match fuel with
  | O => lift Diverge
  | S fuel' =>
      r ← excimer_timer_pending_dequeue self;
      match r with
      | Some (p, count) =>
          t ← load p;
          cb ← lift (deref (callback t));
          _ ← run_callback cb (user_data t) count;
          interrupt_loop fuel' self
      | None => mret tt
      end
  end.

Definition excimer_timer_interrupt (fuel : nat) self : M state unit :=
  _ ← interrupt_loop fuel self;
  s ← get_state;
  match old_zend_interrupt_function s with
  | Some h => run_hook h
  | None => mret tt
  end.

End interrupt.

Definition excimer_timer_get_time p : M state timespec :=
  t ← load p;
  if negb (is_valid t) || negb (is_running t) then mret (Timespec 0 0)
  else
    s ← get_state;
    let '(o, r) := timerlib_timer_get_time (tl_timer t) (os s) in
    _ ← modify (set_os o);
    r ← lift r;
    mret r.1.

End timer.

(** ** Specification, for builds without thread safety *)

Section timer_spec.
  Context {TL OS X : Type}.
  Abbreviation state := (tstate TL OS X).
  Implicit Types (s : state) (p : ptr) (l : list ptr) (t : excimer_timer TL).

Definition num_valid (ts : gmap ptr (excimer_timer TL)) : Z :=
  Z.of_nat (size (filter (fun pt => is_valid pt.2 = true) ts)).

(** A timer when [l] is the pending list. *)
Record timer_ok l p t : Prop := TimerOk {
  tok_pending : p ∈ l -> is_valid t = true;
  tok_running : is_running t = true -> is_valid t = true;
  tok_owner : is_valid t = true ->
    timer_tls t = Some 0%nat /\ vm_interrupt_ptr t = Some 0%nat /\ is_Some (callback t);
  tok_idle : is_valid t = true -> p ∉ l -> event_count t = 0
}.

Record timer_inv s l : Prop := TimerInv {
  ti_list : pending_list (timers s) (pending_head (get_tls 0 s)) l;
  ti_tracked : tracked (timers s) l;
  ti_mutex : tls_mutex (get_tls 0 s) = Unlocked;
  ti_timers : forall p t, timers s !! p = Some t -> timer_ok l p t;
  ti_active : timers_active (get_tls 0 s) = wrap_u64 (num_valid (timers s))
}.

(** A timer after it elapsed [n + 1] times. *)
Definition add_events (n : Z) t : excimer_timer TL :=
  set_count (wrap_i64 (event_count t + wrap_i32 (n + 1))) t.

(** What the callback of a timer does to the world, when all that callbacks do
    is described by [g]. *)
Definition deliver (g : timer_callback -> option ptr -> Z -> X -> X)
    (ts : gmap ptr (excimer_timer TL)) (w : X) p : X :=
  match ts !! p with
  | Some t =>
      match callback t with
      | Some cb => g cb (user_data t) (event_count t) w
      | None => w
      end
  | None => w
  end.

(** The number of events a timer still has to report. *)
Definition count_of s p : Z := default 0 (event_count <$> timers s !! p).

End timer_spec.

(** ** A concrete system

    A timer library that always succeeds, and a world that records the calls of
    callbacks. *)

#[local] Instance ex_timerlib : Timerlib bool unit := {
  tl_zero := false;
  timerlib_timer_init _ _ o := (o, (false, true));
  timerlib_timer_start _ _ _ o := (o, (true, true));
  timerlib_timer_stop _ o := (o, (false, true));
  timerlib_timer_destroy _ o := (o, false);
  timerlib_timer_get_time _ o := (o, Ok (Timespec 0 0, true));
  timerlib_clock_get_time _ o := (o, (Timespec 5 0, true))
}.

Definition ex_record (cb : timer_callback) (data : option ptr) (n : Z)
    (w : list (timer_callback * option ptr * Z)) : list (timer_callback * option ptr * Z) :=
  w ++ [(cb, data, n)].

Abbreviation ex_state := (tstate bool unit (list (timer_callback * option ptr * Z))).

Definition ex_callback (cb : timer_callback) (data : option ptr) (n : Z) : M ex_state unit :=
  modify (fun s => set_world (ex_record cb data n (world s)) s).

(** Memory for two timers, before they are initialised. *)
Definition ex_memory : excimer_timer bool := Timer bool false false None false None None None None 0 None.

Definition ex_start : ex_state :=
  TState _ _ _ (<[1%positive := ex_memory]> {[2%positive := ex_memory]}) ∅ ∅ None None [] tt [].

Definition ex_initialised : ex_state :=
  (excimer_timer_init false 0 2 EXCIMER_REAL excimer_timer_event_cb (Some 20%positive)
    (excimer_timer_init false 0 1 EXCIMER_REAL excimer_profiler_event_cb (Some 10%positive) ex_start).1).1.

(** Timer 2 elapsed, then timer 1 three times, then timer 2 again. *)
Definition ex_fired : ex_state :=
  (handle_locked false 7 2 0 (handle_locked false 8 1 2 (handle_locked false 7 2 0 ex_initialised).1).1).1.

(** A thread-safe build: timer 1 belongs to thread 1. *)
Definition ex_zts : ex_state :=
  (excimer_timer_init true 1 1 EXCIMER_REAL excimer_profiler_event_cb (Some 10%positive) ex_start).1.

(** ** Lemmas *)

Section timer_facts.
  Context {TL OS X : Type} `{Timerlib TL OS}.
  Abbreviation state := (tstate TL OS X).
  Implicit Types (s : state) (p : ptr) (l : list ptr) (t : excimer_timer TL).

Lemma num_valid_links (ts ts' : gmap ptr (excimer_timer TL)) :
  erase_links <$> ts' = erase_links <$> ts -> num_valid ts' = num_valid ts.
Proof.
  assert (He : forall m : gmap ptr (excimer_timer TL), num_valid (erase_links <$> m) = num_valid m).
  { intros m. unfold num_valid. rewrite map_filter_fmap, map_size_fmap. done. }
  intros Heq. by rewrite <-He, Heq, He.
Qed.

Definition valid_Z t : Z := if is_valid t then 1 else 0.

Lemma num_valid_insert_new (ts : gmap ptr (excimer_timer TL)) p t :
  ts !! p = None -> num_valid (<[p := t]> ts) = num_valid ts + valid_Z t.
Proof.
  intros Hp. unfold num_valid, valid_Z. destruct (is_valid t) eqn:Hv.
  - rewrite map_filter_insert_True by done. rewrite map_size_insert_None; [lia|].
    apply map_lookup_filter_None. by left.
  - rewrite map_filter_insert_False by (simpl; congruence). rewrite delete_id by done. lia.
Qed.

Lemma num_valid_insert (ts : gmap ptr (excimer_timer TL)) p t t' :
  ts !! p = Some t -> num_valid (<[p := t']> ts) = num_valid ts + valid_Z t' - valid_Z t.
Proof.
  intros Hp. rewrite <-insert_delete_eq. rewrite num_valid_insert_new by apply lookup_delete_eq.
  rewrite <-(insert_delete_id ts p t) at 2 by done.
  rewrite num_valid_insert_new by apply lookup_delete_eq. lia.
Qed.

Lemma timer_ok_links l p t t' : erase_links t' = erase_links t -> timer_ok l p t -> timer_ok l p t'.
Proof.
  destruct t, t'. intros Heq. injection Heq as -> -> -> -> -> -> -> ->. intros []. by split.
Qed.

Lemma links_lookup (ts ts' : gmap ptr (excimer_timer TL)) p t' :
  erase_links <$> ts' = erase_links <$> ts -> ts' !! p = Some t' ->
  exists t, ts !! p = Some t /\ erase_links t' = erase_links t.
Proof.
  intros He Hp. apply (f_equal (fun m => m !! p)) in He. rewrite !lookup_fmap, Hp in He.
  destruct (ts !! p) as [t|]; [|done]. apply (inj Some) in He. eauto.
Qed.

Lemma links_lookup_l (ts ts' : gmap ptr (excimer_timer TL)) p t :
  erase_links <$> ts' = erase_links <$> ts -> ts !! p = Some t ->
  exists t', ts' !! p = Some t' /\ erase_links t' = erase_links t.
Proof.
  intros He Hp. symmetry in He. destruct (links_lookup _ _ p t He Hp) as (t' & ? & ?). eauto.
Qed.

Lemma links_count t t' : erase_links t = erase_links t' -> event_count t = event_count t'.
Proof. intros Heq. by apply (f_equal event_count) in Heq. Qed.

Lemma erase_count n t t' :
  erase_links t = erase_links t' -> erase_links (set_count n t) = erase_links (set_count n t').
Proof. intros Heq. exact (f_equal (set_count n) Heq). Qed.

(** *** Running the primitive operations *)

Lemma load_ok s p t : timers s !! p = Some t -> load p s = (s, Ok t).
Proof. intros Hp. unfold load, mbind, M_bind, get_state, lift. by rewrite Hp. Qed.

Lemma store_ok s p t f :
  timers s !! p = Some t -> store p f s = (set_timers (<[p := f t]> (timers s)) s, Ok tt).
Proof.
  intros Hp. unfold store, mbind, M_bind, get_state, lift, write. simpl. by rewrite Hp.
Qed.

Lemma get_put_tls s k v : get_tls k (put_tls k v s) = v.
Proof. unfold get_tls, put_tls. simpl. by rewrite lookup_insert_eq. Qed.

Lemma lock_ok s self :
  tls_mutex (get_tls 0 s) = Unlocked ->
  excimer_mutex_lock false self s = (put_tls 0 (set_mutex Locked (get_tls 0 s)) s, Ok tt).
Proof.
  intros Hm. unfold excimer_mutex_lock, mbind, M_bind, get_state. simpl. by rewrite Hm.
Qed.

(** An update that leaves the links of a timer alone. *)
Lemma links_update (ts : gmap ptr (excimer_timer TL)) head l p t t' :
  pending_list ts head l -> tracked ts l -> ts !! p = Some t ->
  pending_next t' = pending_next t -> pending_prev t' = pending_prev t ->
  pending_list (<[p := t']> ts) head l /\ tracked (<[p := t']> ts) l.
Proof.
  intros [Hh [Hnd Hl]] Ht Hp Hn Hpr.
  assert (Hnext : forall q, next_of (<[p := t']> ts) q = next_of ts q).
  { intros q. unfold next_of. destruct (decide (q = p)) as [->|]; simplify_map_eq; done. }
  assert (Hprev : forall q, prev_of (<[p := t']> ts) q = prev_of ts q).
  { intros q. unfold prev_of. destruct (decide (q = p)) as [->|]; simplify_map_eq; done. }
  split.
  - split; [done|]. split; [done|]. intros a b Hab. rewrite Hnext, Hprev. by apply Hl.
  - intros q Hq. rewrite lookup_insert_is_Some' in Hq.
    assert (Hq' : is_Some (ts !! q)) by (destruct Hq as [<-|]; eauto).
    destruct (Ht q Hq') as [?|Hu]; [by left|right].
    rewrite unlinked_alt in Hu |- *. rewrite Hnext, Hprev, lookup_insert_is_Some'. tauto.
Qed.

(** The updates of a timer that keep the invariant. *)
Lemma update_inv s l p t t' :
  timer_inv s l -> timers s !! p = Some t ->
  pending_next t' = pending_next t -> pending_prev t' = pending_prev t ->
  timer_ok l p t' -> is_valid t' = is_valid t ->
  timer_inv (set_timers (<[p := t']> (timers s)) s) l.
Proof.
  intros [Hl Ht Hm Hok Ha] Hp Hn Hpr Hok' Hv.
  destruct (links_update _ _ _ p t t' Hl Ht Hp Hn Hpr) as [Hl' Ht'].
  split; cbn [timers set_timers]; [done|done|done| |].
  - intros q u [[<- <-]|[_ Hu]]%lookup_insert_Some; [done|by apply Hok].
  - change (get_tls 0 (set_timers _ s)) with (get_tls 0 s). rewrite Ha. f_equal.
    rewrite (num_valid_insert _ p t t') by done. unfold valid_Z. rewrite Hv. lia.
Qed.

(** States are kept in the form [mid s ts v]: [s] with timers [ts] and
    thread-local storage [v]. *)
Definition mid s (ts : gmap ptr (excimer_timer TL)) (v : excimer_timer_tls_t) : state :=
  put_tls 0 v (set_timers ts s).

Lemma mid_inv s ts v l :
  pending_list ts (pending_head v) l -> tracked ts l -> tls_mutex v = Unlocked ->
  (forall q t, ts !! q = Some t -> timer_ok l q t) ->
  timers_active v = wrap_u64 (num_valid ts) -> timer_inv (mid s ts v) l.
Proof. intros. unfold mid. by split; rewrite ?get_put_tls. Qed.

Lemma mid_put s ts v w : put_tls 0 w (mid s ts v) = mid s ts w.
Proof. unfold mid, put_tls, set_tls. simpl. by rewrite insert_insert_eq. Qed.

Lemma mid_get s ts v : get_tls 0 (mid s ts v) = v.
Proof. apply get_put_tls. Qed.

Lemma mid_set s ts ts' v : set_timers ts' (mid s ts v) = mid s ts' v.
Proof. done. Qed.

Lemma load_mid s ts v p t : ts !! p = Some t -> load p (mid s ts v) = (mid s ts v, Ok t).
Proof. exact (load_ok (mid s ts v) p t). Qed.

Lemma store_mid s ts v p t f :
  ts !! p = Some t -> store p f (mid s ts v) = (mid s (<[p := f t]> ts) v, Ok tt).
Proof. intros Hp. by rewrite (store_ok _ p t). Qed.

Lemma modify_tls_mid s ts v self f :
  modify_tls false self f (mid s ts v) = (mid s ts (f v), Ok tt).
Proof. unfold modify_tls, modify. cbn [tls_key]. by rewrite mid_get, mid_put. Qed.

Lemma lock_mid s self :
  tls_mutex (get_tls 0 s) = Unlocked ->
  excimer_mutex_lock false self s = (mid s (timers s) (set_mutex Locked (get_tls 0 s)), Ok tt).
Proof. intros Hm. rewrite lock_ok by done. by destruct s. Qed.

Lemma relock_mid s ts v self :
  tls_mutex v = Unlocked ->
  excimer_mutex_lock false self (mid s ts v) = (mid s ts (set_mutex Locked v), Ok tt).
Proof. intros Hm. rewrite lock_ok by by rewrite mid_get. by rewrite mid_get, mid_put. Qed.

Lemma unlock_mid s ts v self :
  excimer_mutex_unlock false self (mid s ts v) = (mid s ts (set_mutex Unlocked v), Ok tt).
Proof. apply modify_tls_mid. Qed.

Lemma pop_mid s ts v self r head ts' :
  excimer_timer_list_dequeue (pending_head v) ts = Ok (r, (head, ts')) ->
  pending_pop false self (mid s ts v) = (mid s ts' (set_head head v), Ok r).
Proof.
  intros Hrun. unfold pending_pop. rewrite (bind_ok _ _ _ (mid s ts v) (mid s ts v)) by done.
  cbn [tls_key]. rewrite mid_get, (bind_ok _ _ _ (mid s ts v) (r, (head, ts'))) by (by rewrite <-Hrun).
  rewrite (bind_ok _ _ _ (mid s ts' v) tt) by done.
  by rewrite (bind_ok _ _ _ (mid s ts' (set_head head v)) tt) by apply modify_tls_mid.
Qed.

Lemma enqueue_mid s ts v self p head ts' :
  excimer_timer_list_enqueue p (pending_head v) ts = Ok (head, ts') ->
  pending_enqueue false self p (mid s ts v) = (mid s ts' (set_head head v), Ok tt).
Proof.
  intros Hrun. unfold pending_enqueue. rewrite (bind_ok _ _ _ (mid s ts v) (mid s ts v)) by done.
  cbn [tls_key]. rewrite mid_get, (bind_ok _ _ _ (mid s ts v) (head, ts')) by (by rewrite <-Hrun).
  rewrite (bind_ok _ _ _ (mid s ts' v) tt) by done. apply modify_tls_mid.
Qed.

Lemma remove_mid s ts v self p head ts' :
  excimer_timer_list_remove p (pending_head v) ts = Ok (head, ts') ->
  pending_remove false self p (mid s ts v) = (mid s ts' (set_head head v), Ok tt).
Proof.
  intros Hrun. unfold pending_remove. rewrite (bind_ok _ _ _ (mid s ts v) (mid s ts v)) by done.
  cbn [tls_key]. rewrite mid_get, (bind_ok _ _ _ (mid s ts v) (head, ts')) by (by rewrite <-Hrun).
  rewrite (bind_ok _ _ _ (mid s ts' v) tt) by done. apply modify_tls_mid.
Qed.

(** What an operation on the pending list leaves of the rest of a timer. *)
Lemma relinked_timer l l' p (f : excimer_timer TL -> excimer_timer TL) (ts ts' : gmap ptr (excimer_timer TL)) :
  erase_links <$> ts' = erase_links <$> alter f p ts ->
  (forall q t, ts !! q = Some t -> timer_ok l q t) ->
  (forall q t, ts !! q = Some t -> timer_ok l q t -> timer_ok l' q (if decide (q = p) then f t else t)) ->
  forall q t, ts' !! q = Some t -> timer_ok l' q t.
Proof.
  intros He Hok Hf q t Hq. destruct (links_lookup _ _ q t He Hq) as (u & Hu & Heu).
  apply (timer_ok_links l' q u t Heu). apply lookup_alter_Some in Hu as [(<- & v & Hv & ->)|[Hne Hu]].
  - specialize (Hf p v Hv (Hok _ _ Hv)). by rewrite decide_True in Hf.
  - specialize (Hf q u Hu (Hok _ _ Hu)). by rewrite decide_False in Hf.
Qed.

Lemma alter_insert (ts : gmap ptr (excimer_timer TL)) p t f :
  ts !! p = Some t -> alter f p ts = <[p := f t]> ts.
Proof.
  intros Hp. apply map_eq. intros q. destruct (decide (q = p)) as [->|]; simplify_map_eq; done.
Qed.

(** *** The critical sections *)

(** Dequeueing takes the first timer with all its events. *)
Lemma dequeue_spec s l self :
  timer_inv s l ->
  exists ts v,
    excimer_timer_pending_dequeue false self s
    = (mid s ts v, Ok ((fun p => (p, count_of s p)) <$> hd_error l)) /\
    timer_inv (mid s ts v) (tail l) /\
    erase_links <$> ts = erase_links <$>
      match l with [] => timers s | p :: _ => alter (set_count 0) p (timers s) end.
Proof.
  intros Hinv. pose proof Hinv as [Hl Ht Hm Hok Ha]. pose proof (proj1 (proj2 Hl)) as Hnd.
  destruct (op_refines Dequeue _ _ _ Hl Ht I) as (head & ts & Hrun & Hl' & Ht' & He).
  cbn [op_run op_spec fst snd] in *.
  unfold excimer_timer_pending_dequeue. rewrite (bind_ok _ _ _ _ _ (lock_mid s self Hm)).
  rewrite (bind_ok _ _ _ _ _ (pop_mid s _ (set_mutex Locked (get_tls 0 s)) self _ _ _ Hrun)).
  set (v := set_head head _). destruct l as [|p l]; cbn [hd_error fmap option_fmap option_map tail] in *.
  - exists ts, (set_mutex Unlocked v). rewrite (bind_ok _ _ _ (mid s ts v) None) by done.
    rewrite (bind_ok _ _ _ _ _ (unlock_mid s ts v self)). split_and!; [done| |done].
    apply mid_inv; [done..| |by rewrite (num_valid_links (timers s))].
    intros q t Hq. destruct (links_lookup _ _ q t He Hq) as (u & Hu & Heu).
    apply (timer_ok_links [] q u t Heu). by apply Hok.
  - destruct (linked_dom _ _ p (proj2 Hl) ltac:(set_solver)) as [t Hp].
    destruct (links_lookup_l _ _ p t He Hp) as (t' & Hp' & Heu).
    destruct (links_update ts head l p t' (set_count 0 t') Hl' Ht' Hp') as [Hl2 Ht2]; [done..|].
    exists (<[p := set_count 0 t']> ts), (set_mutex Unlocked v).
    rewrite (bind_ok _ _ _ (mid s (<[p := set_count 0 t']> ts) v) (Some (p, count_of s p))).
    2:{ rewrite (bind_ok _ _ _ _ _ (load_mid s ts v p t' Hp')).
        rewrite (bind_ok _ _ _ _ _ (store_mid s ts v p t' _ Hp')).
        unfold count_of. rewrite Hp. simpl. by rewrite (links_count t' t). }
    rewrite (bind_ok _ _ _ _ _ (unlock_mid s _ v self)).
    assert (Hee : erase_links <$> <[p := set_count 0 t']> ts
      = erase_links <$> alter (set_count 0) p (timers s)).
    { rewrite (alter_insert _ p t), !fmap_insert, He by done. f_equal. by apply erase_count. }
    split_and!; [done| |done]. apply mid_inv; [done..| |].
    + eapply (relinked_timer (p :: l)); [done|done|]. intros q u Hu [Hpe Hr Ho Hi].
      apply NoDup_cons in Hnd as [Hpl _].
      case_decide as Hq; [subst|]; split; simpl; try done.
      * intros Hql. apply Hpe. set_solver.
      * intros Hv Hql. apply Hi; [done|]. set_solver.
    + rewrite (num_valid_links (alter (set_count 0) p (timers s))) by done.
      rewrite (alter_insert _ p t), (num_valid_insert _ p t) by done. simpl. rewrite Ha. f_equal.
      unfold valid_Z. simpl. lia.
Qed.

Lemma queue_add_elem q p l : q ∈ queue_add p l <-> q ∈ l \/ q = p.
Proof. unfold queue_add. case_decide; set_solver. Qed.

(** The handler adds the timer at the end of the list, unless it is in there. *)
Lemma handle_locked_spec s l self p t n :
  timer_inv s l -> timers s !! p = Some t -> is_valid t = true ->
  exists ts v,
    handle_locked false self p n s = (mid s ts v, Ok tt) /\
    timer_inv (mid s ts v) (queue_add p l) /\
    erase_links <$> ts = erase_links <$> alter (add_events n) p (timers s).
Proof.
  intros Hinv Hp Hv. pose proof Hinv as [Hl Ht Hm Hok Ha].
  destruct (links_update _ _ l p t (add_events n t) Hl Ht Hp) as [Hl1 Ht1]; [done..|].
  destruct (op_refines (Enqueue p) _ _ _ Hl1 Ht1) as (head & ts & Hrun & Hl' & Ht' & He);
    [simpl; rewrite lookup_insert_eq; eauto|].
  cbn [op_run op_spec fst snd] in *.
  destruct (excimer_timer_list_enqueue p _ _) as [[h ts']| | |] eqn:Henq; simplify_eq/=.
  unfold handle_locked. rewrite (bind_ok _ _ _ _ _ (lock_mid s self Hm)).
  rewrite (bind_ok _ _ _ _ _ (store_mid s _ (set_mutex Locked (get_tls 0 s)) p t _ Hp)).
  rewrite (bind_ok _ _ _ _ _ (enqueue_mid s _ (set_mutex Locked (get_tls 0 s)) self p _ _ Henq)).
  rewrite unlock_mid. eexists ts, _. split_and!; [done| |by rewrite (alter_insert _ p t)].
  apply mid_inv; [done..| |].
  - apply (relinked_timer l (queue_add p l) p (add_events n) (timers s));
      [by rewrite (alter_insert _ p t)|done|].
    intros q u Hu [Hpe Hr Ho Hi].
    case_decide as Hq; [subst; replace u with t in * by congruence|];
      split; simpl; rewrite ?queue_add_elem; try done; tauto.
  - rewrite (num_valid_links _ _ He), (num_valid_insert _ p t) by done. simpl. rewrite Ha. f_equal.
    unfold valid_Z. simpl. lia.
Qed.

(** *** Calls of the timer library *)

Lemma set_os_inv s l o : timer_inv s l -> timer_inv (set_os o s) l.
Proof. by intros []. Qed.

Lemma warning_inv s l msg : timer_inv s l -> timer_inv (php_warning msg s).1 l.
Proof. by intros []. Qed.

Lemma with_tl_ok {A} s p t (f : TL -> OS -> OS * (TL * A)) o tl a :
  timers s !! p = Some t -> f (tl_timer t) (os s) = (o, (tl, a)) ->
  with_tl p f s = (set_timers (<[p := set_tl tl t]> (timers s)) (set_os o s), Ok a).
Proof.
  intros Hp Hf. unfold with_tl. rewrite (bind_ok _ _ _ _ _ (load_ok s p t Hp)).
  rewrite (bind_ok get_state _ s s s) by done. rewrite Hf.
  rewrite (bind_ok _ _ s (set_os o s) tt) by done.
  by rewrite (bind_ok _ _ _ _ _ (store_ok (set_os o s) p t (set_tl tl) Hp)).
Qed.

(** The library may do what it wants to its own part of the timer. *)
Lemma with_tl_inv {A} s l p t (f : TL -> OS -> OS * (TL * A)) :
  timer_inv s l -> timers s !! p = Some t ->
  exists o tl a, with_tl p f s = (set_timers (<[p := set_tl tl t]> (timers s)) (set_os o s), Ok a) /\
    timer_inv (set_timers (<[p := set_tl tl t]> (timers s)) (set_os o s)) l.
Proof.
  intros Hinv Hp. destruct (f (tl_timer t) (os s)) as [o [tl a]] eqn:Hf.
  exists o, tl, a. split; [by apply with_tl_ok|].
  apply (update_inv (set_os o s) l p t); [by apply set_os_inv|done..| |done].
  destruct (ti_timers _ _ Hinv _ _ Hp). by split.
Qed.

Lemma modify_tls_ok s self f :
  modify_tls false self f s = (mid s (timers s) (f (get_tls 0 s)), Ok tt).
Proof. by destruct s. Qed.

Lemma bind_with_tl {A B} s p t (f : TL -> OS -> OS * (TL * A)) (k : A -> M state B) o tl a :
  f (tl_timer t) (os s) = (o, (tl, a)) -> timers s !! p = Some t ->
  (with_tl p f ≫= k) s = k a (set_timers (<[p := set_tl tl t]> (timers s)) (set_os o s)).
Proof. intros Hf Hp. by rewrite (bind_ok _ _ _ _ _ (with_tl_ok s p t f o tl a Hp Hf)). Qed.

(** What a timer operation may change: one timer, the active count, the
    library's state and the warnings. *)
Definition only_timer p s s' : Prop :=
  (forall q, q <> p -> timers s' !! q = timers s !! q) /\
  vm_interrupt s' = vm_interrupt s /\ world s' = world s /\
  zend_interrupt_function s' = zend_interrupt_function s /\
  old_zend_interrupt_function s' = old_zend_interrupt_function s.

Lemma only_timer_refl p s : only_timer p s s.
Proof. done. Qed.

Lemma only_timer_trans p s1 s2 s3 : only_timer p s1 s2 -> only_timer p s2 s3 -> only_timer p s1 s3.
Proof.
  intros (Ha & ? & ? & ? & ?) (Hb & ? & ? & ? & ?). split_and!; [|congruence..].
  intros q Hq. by rewrite Hb, Ha.
Qed.

Lemma only_timer_update p t s o : only_timer p s (set_timers (<[p := t]> (timers s)) (set_os o s)).
Proof. split_and!; [|done..]. intros q Hq. simpl. by rewrite lookup_insert_ne. Qed.

Lemma init_spec s l self p t et cb data :
  timer_inv s l -> timers s !! p = Some t -> is_valid t = false ->
  exists s' b t', excimer_timer_init false self p et cb data s = (s', Ok b) /\
    timer_inv s' l /\ timers s' !! p = Some t' /\ is_valid t' = b /\ is_running t' = false /\
    event_count t' = 0 /\ callback t' = Some cb /\ user_data t' = data /\ only_timer p s s'.
Proof.
  intros Hinv Hp Hv. set (t0 := fresh_timer false self cb data : excimer_timer TL).
  assert (Hnl : p ∉ l) by (intros Hin; rewrite (tok_pending _ _ _ (ti_timers _ _ Hinv _ _ Hp)) in Hv; done).
  destruct (ti_tracked _ _ Hinv p ltac:(eauto)) as [?|(u & Hu & Hun & Hup)]; [done|].
  rewrite Hp in Hu. injection Hu as <-.
  assert (Hinv0 : timer_inv (set_timers (<[p := t0]> (timers s)) s) l).
  { apply (update_inv s l p t t0); done. }
  unfold excimer_timer_init. rewrite (bind_ok _ _ _ _ _ (store_ok s p t _ Hp)). fold t0.
  set (s0 := set_timers _ s) in *.
  assert (Hp0 : timers s0 !! p = Some t0) by (simpl; by rewrite lookup_insert_eq).
  destruct (timerlib_timer_init et p (os s0)) as [o1 [tl1 ok]] eqn:Hi.
  rewrite (bind_with_tl s0 p t0 _ _ o1 tl1 ok) by done.
  set (s1 := set_timers _ (set_os o1 s0)).
  assert (Hp1 : timers s1 !! p = Some (set_tl tl1 t0)) by (simpl; by rewrite lookup_insert_eq).
  assert (Hinv1 : timer_inv s1 l).
  { apply (update_inv (set_os o1 s0) l p t0); [by apply set_os_inv|done..| |done]. by split. }
  assert (Honly1 : only_timer p s s1).
  { eapply only_timer_trans; [|apply only_timer_update]. apply (only_timer_update p t0 s (os s)). }
  destruct ok; cbn [negb].
  - rewrite (bind_ok _ _ _ _ _ (modify_tls_ok s1 self _)).
    rewrite (bind_ok _ _ _ _ _ (store_mid s1 _ _ p _ _ Hp1)).
    rewrite (bind_ok _ _ _ _ _ (store_mid s1 _ _ p _ _ (lookup_insert_eq _ _ _))).
    rewrite insert_insert_eq. eexists _, true, _. split_and!; [done| |by apply lookup_insert_eq|done..|].
    + destruct Hinv1 as [Hl Ht Hm Hok Ha].
      destruct (links_update _ _ l p _ (set_running false (set_valid true (set_tl tl1 t0))) Hl Ht Hp1)
        as [Hl' Ht']; [done..|].
      apply mid_inv; [done..| |].
      * intros q u [[<- <-]|[_ Hu]]%lookup_insert_Some; [|by apply Hok].
        by split.
      * rewrite (num_valid_insert _ p _ _ Hp1). simpl. rewrite Ha. unfold valid_Z. simpl.
        unfold wrap_u64. rewrite Zplus_mod_idemp_l. f_equal. lia.
    + eapply only_timer_trans; [done|]. split_and!; [|done..].
      intros q Hq. simpl. by rewrite lookup_insert_ne.
  - destruct (timerlib_timer_destroy tl1 (os s1)) as [o2 tl2] eqn:Hd.
    rewrite (bind_with_tl s1 p (set_tl tl1 t0) _ _ o2 tl2 tt) by (done || (simpl in *; by rewrite Hd)).
    eexists _, false, _. split_and!; [done| |by apply lookup_insert_eq|done..|].
    + apply (update_inv (set_os o2 s1) l p (set_tl tl1 t0)); [by apply set_os_inv|done..| |done]. by split.
    + eapply only_timer_trans; [done|]. apply only_timer_update.
Qed.

(** Changing nothing but the library's part and [is_running] of a valid timer. *)
Lemma running_inv s l p t o tl b :
  timer_inv s l -> timers s !! p = Some t -> is_valid t = true ->
  timer_inv (set_timers (<[p := set_running b (set_tl tl t)]> (timers s)) (set_os o s)) l.
Proof.
  intros Hinv Hp Hv. apply (update_inv (set_os o s) l p t); [by apply set_os_inv|done..| |done].
  destruct (ti_timers _ _ Hinv _ _ Hp). by split.
Qed.

Lemma only_timer_warning p s msg : only_timer p s (php_warning msg s).1.
Proof. done. Qed.

(** [is_running] of a timer after a call of the library that returned [ok]. *)
Definition run_result (b ok : bool) (tl : TL) t : excimer_timer TL :=
  if ok then set_running b (set_tl tl t) else set_tl tl t.

Lemma run_result_ok s l p t o tl (b ok : bool) :
  timer_inv s l -> timers s !! p = Some t -> is_valid t = true ->
  (if ok then store p (set_running b) else mret tt)
    (set_timers (<[p := set_tl tl t]> (timers s)) (set_os o s))
  = (set_timers (<[p := run_result b ok tl t]> (timers s)) (set_os o s), Ok tt) /\
  timer_inv (set_timers (<[p := run_result b ok tl t]> (timers s)) (set_os o s)) l.
Proof.
  intros Hinv Hp Hv. destruct ok; simpl.
  - split; [|by apply running_inv]. rewrite (store_ok _ p (set_tl tl t)) by apply lookup_insert_eq.
    f_equal. simpl. unfold set_timers. simpl. by rewrite insert_insert_eq.
  - split; [done|]. apply (update_inv (set_os o s) l p t); [by apply set_os_inv|done..| |done].
    destruct (ti_timers _ _ Hinv _ _ Hp). by split.
Qed.

(** Starting a timer, on every path. *)
Lemma start_spec s l p t period initial :
  timer_inv s l -> timers s !! p = Some t ->
  exists s', excimer_timer_start p period initial s = (s', Ok tt) /\ timer_inv s' l /\ only_timer p s s' /\
    let initial' := if timerlib_timespec_is_zero initial then period else initial in
    if is_valid t && negb (timerlib_timespec_is_zero initial') then
      let '(o, (tl, ok)) := timerlib_timer_start (tl_timer t) period initial' (os s) in
      s' = set_timers (<[p := run_result true ok tl t]> (timers s)) (set_os o s)
    else exists msg, s' = (php_warning msg s).1.
Proof.
  intros Hinv Hp. unfold excimer_timer_start. rewrite (bind_ok _ _ _ _ _ (load_ok s p t Hp)).
  destruct (is_valid t) eqn:Hv; cbn [negb andb].
  2:{ eexists. split_and!; [done|by apply warning_inv|apply only_timer_warning|by eexists]. }
  set (initial' := if timerlib_timespec_is_zero initial then period else initial). cbv zeta.
  destruct (timerlib_timespec_is_zero initial'); cbn [negb].
  { eexists. split_and!; [done|by apply warning_inv|apply only_timer_warning|by eexists]. }
  destruct (timerlib_timer_start _ _ _ (os s)) as [o [tl ok]] eqn:Hs.
  rewrite (bind_with_tl s p t _ _ o tl ok) by done.
  destruct (run_result_ok s l p t o tl true ok Hinv Hp Hv) as [-> Hinv'].
  eexists. split_and!; [done|done|apply only_timer_update|done].
Qed.

Lemma stop_spec s l p t :
  timer_inv s l -> timers s !! p = Some t ->
  exists s', excimer_timer_stop p s = (s', Ok tt) /\ timer_inv s' l /\ only_timer p s s' /\
    if is_valid t then
      if is_running t then
        let '(o, (tl, ok)) := timerlib_timer_stop (tl_timer t) (os s) in
        s' = set_timers (<[p := run_result false ok tl t]> (timers s)) (set_os o s)
      else s' = s
    else exists msg, s' = (php_warning msg s).1.
Proof.
  intros Hinv Hp. unfold excimer_timer_stop. rewrite (bind_ok _ _ _ _ _ (load_ok s p t Hp)).
  destruct (is_valid t) eqn:Hv; cbn [negb].
  2:{ eexists. split_and!; [done|by apply warning_inv|apply only_timer_warning|by eexists]. }
  destruct (is_running t); [|by exists s].
  destruct (timerlib_timer_stop _ (os s)) as [o [tl ok]] eqn:Hs.
  rewrite (bind_with_tl s p t _ _ o tl ok) by done.
  destruct (run_result_ok s l p t o tl false ok Hinv Hp Hv) as [-> Hinv'].
  eexists. split_and!; [done|done|apply only_timer_update|done].
Qed.

(** The part of [excimer_timer_destroy] that talks to the library. *)
Lemma destroy_library_spec s l p t :
  timer_inv s l -> timers s !! p = Some t -> is_valid t = true ->
  exists s0 s1 t1,
    (if is_running t then
       _ ← store p (set_running false);
       _ ← with_tl p (fun tl o => timerlib_timer_stop tl o);
       mret tt
     else mret tt : M state unit) s = (s0, Ok tt) /\
    with_tl p (fun tl o => let '(o, tl) := timerlib_timer_destroy tl o in (o, (tl, tt))) s0 = (s1, Ok tt) /\
    timer_inv s1 l /\ timers s1 !! p = Some t1 /\ is_valid t1 = true /\ is_running t1 = false /\
    only_timer p s s1.
Proof.
  intros Hinv Hp Hv.
  assert (exists s0 t0, (if is_running t then
        _ ← store p (set_running false);
        _ ← with_tl p (fun tl o => timerlib_timer_stop tl o);
        mret tt
      else mret tt : M state unit) s = (s0, Ok tt) /\ timer_inv s0 l /\ timers s0 !! p = Some t0 /\
    is_valid t0 = true /\ is_running t0 = false /\ only_timer p s s0)
    as (s0 & t0 & Hrun & Hinv0 & Hp0 & Hv0 & Hr0 & Ho0).
  { destruct (is_running t) eqn:Hr; [|by exists s, t].
    rewrite (bind_ok _ _ _ _ _ (store_ok s p t _ Hp)). set (s' := set_timers _ s).
    assert (Hinv' : timer_inv s' l).
    { apply (update_inv s l p t); [done..| |done]. destruct (ti_timers _ _ Hinv _ _ Hp). by split. }
    assert (Hp' : timers s' !! p = Some (set_running false t)) by apply lookup_insert_eq.
    destruct (with_tl_inv s' l p _ (fun tl o => timerlib_timer_stop tl o) Hinv' Hp')
      as (o & tl & a & Hrun & Hinv0).
    rewrite (bind_ok _ _ _ _ _ Hrun). eexists _, _. split_and!; [done|done|apply lookup_insert_eq|done..|].
    eapply only_timer_trans; [|apply only_timer_update]. apply (only_timer_update p _ s (os s)). }
  destruct (with_tl_inv s0 l p t0 (fun tl o =>
    let '(o, tl) := timerlib_timer_destroy tl o in (o, (tl, tt))) Hinv0 Hp0) as (o & tl & [] & Hrun1 & Hinv1).
  eexists _, _, _. split_and!; [done|done|done|apply lookup_insert_eq|done..|].
  eapply only_timer_trans; [done|apply only_timer_update].
Qed.

(** Destroying a valid timer removes it from the pending list. *)
Lemma destroy_spec s l self p t :
  timer_inv s l -> timers s !! p = Some t -> is_valid t = true ->
  exists s' t', excimer_timer_destroy false self p s = (s', Ok tt) /\
    timer_inv s' (queue_remove p l) /\ timers s' !! p = Some t' /\ is_valid t' = false /\
    (forall q, q <> p -> erase_links <$> timers s' !! q = erase_links <$> timers s !! q) /\
    vm_interrupt s' = vm_interrupt s /\ world s' = world s.
Proof.
  intros Hinv Hp Hv. unfold excimer_timer_destroy. rewrite (bind_ok _ _ _ _ _ (load_ok s p t Hp)).
  destruct (tok_owner _ _ _ (ti_timers _ _ Hinv _ _ Hp) Hv) as (Htls & _ & _).
  rewrite Hv, Htls. cbn [negb tls_key]. rewrite bool_decide_true by done. cbn [negb].
  destruct (destroy_library_spec s l p t Hinv Hp Hv)
    as (s0 & s1 & t1 & Hrun0 & Hrun1 & Hinv1 & Hp1 & Hv1 & Hr1 & Ho1).
  rewrite (bind_ok _ _ _ _ _ Hrun0), (bind_ok _ _ _ _ _ Hrun1).
  pose proof Hinv1 as [Hl Ht Hm Hok Ha].
  rewrite (bind_ok _ _ _ _ _ (modify_tls_ok s1 self _)). set (v1 := set_active _ _).
  rewrite (bind_ok _ _ _ _ _ (relock_mid s1 _ v1 self Hm)).
  destruct (op_refines (Remove p) _ _ _ Hl Ht) as (head & ts & Hrun & Hl' & Ht' & He); [simpl; eauto|].
  cbn [op_run op_spec fst snd] in *.
  destruct (excimer_timer_list_remove p _ _) as [[h ts']| | |] eqn:Hrem; simplify_eq/=.
  rewrite (bind_ok _ _ _ _ _ (remove_mid s1 _ (set_mutex Locked v1) self p _ _ Hrem)).
  rewrite (bind_ok _ _ _ _ _ (unlock_mid s1 _ _ self)).
  destruct (links_lookup_l _ _ p t1 He Hp1) as (t2 & Hp2 & Heu).
  rewrite (bind_ok _ _ _ _ _ (store_mid s1 ts _ p _ _ Hp2)).
  rewrite (store_mid s1 _ _ p _ _ (lookup_insert_eq _ _ _)), insert_insert_eq.
  set (t3 := set_timer_tls None (set_valid false t2)).
  destruct (links_update _ _ _ p t2 t3 Hl' Ht' Hp2) as [Hl3 Ht3]; [done..|].
  eexists _, t3. split_and!; [done| |apply lookup_insert_eq|done| | |].
  - apply mid_inv; [done..| |].
    + intros q u [[<- <-]|[Hne Hu]]%lookup_insert_Some.
      * split; simpl; try done.
        -- unfold queue_remove. by intros [? _]%list_elem_of_filter.
        -- apply (f_equal is_running) in Heu. simpl in Heu. congruence.
      * destruct (links_lookup _ _ q u He Hu) as (w & Hw & Hew).
        apply (timer_ok_links _ q w u Hew). destruct (Hok q w Hw) as [Hpe Hr Ho Hi].
        split; [|done..|]; unfold queue_remove; rewrite list_elem_of_filter; [tauto|].
        intros Hvq Hnq. apply Hi; [done|]. intros Hin. apply Hnq. by split.
    + rewrite (num_valid_insert _ p t2 t3 Hp2), (num_valid_links _ _ He). simpl. rewrite Ha.
      assert (Hv2 : is_valid t2 = true) by (by rewrite <-Hv1; apply (f_equal is_valid) in Heu).
      unfold valid_Z. simpl. rewrite Hv2. unfold wrap_u64. rewrite Zminus_mod_idemp_l. f_equal. lia.
  - intros q Hq. simpl. rewrite lookup_insert_ne by done.
    destruct Ho1 as [Ho1 _]. rewrite <-Ho1 by done.
    apply (f_equal (fun m => m !! q)) in He. by rewrite !lookup_fmap in He.
  - by destruct Ho1 as (_ & ? & _).
  - by destruct Ho1 as (_ & _ & ? & _).
Qed.

(** *** Interrupts *)

Lemma deliver_links g (ts ts' : gmap ptr (excimer_timer TL)) w p :
  erase_links <$> ts' !! p = erase_links <$> ts !! p -> deliver (X:=X) g ts' w p = deliver g ts w p.
Proof.
  unfold deliver. intros He. destruct (ts' !! p) as [t'|], (ts !! p) as [t|]; try done.
  apply (inj Some) in He. destruct t, t'. by injection He as -> -> -> -> -> -> -> ->.
Qed.

Lemma interrupt_loop_spec (g : timer_callback -> option ptr -> Z -> X -> X)
    (run_callback : timer_callback -> option ptr -> Z -> M state unit) self l :
  (forall cb data n s, run_callback cb data n s = (set_world (g cb data n (world s)) s, Ok tt)) ->
  forall s fuel, timer_inv s l -> (length l < fuel)%nat ->
  exists s', interrupt_loop false run_callback fuel self s = (s', Ok tt) /\ timer_inv s' [] /\
    world s' = foldl (deliver g (timers s)) (world s) l /\
    old_zend_interrupt_function s' = old_zend_interrupt_function s.
Proof.
  intros Hcb. induction l as [|p l IH]; intros s [|fuel] Hinv Hfuel; simpl in Hfuel; [lia| |lia|].
  - destruct (dequeue_spec s [] self Hinv) as (ts & v & Hrun & Hinv' & _).
    exists (mid s ts v). cbn [interrupt_loop]. by rewrite (bind_ok _ _ _ _ _ Hrun).
  - destruct (dequeue_spec s (p :: l) self Hinv) as (ts & v & Hrun & Hinv' & He).
    cbn [interrupt_loop]. rewrite (bind_ok _ _ _ _ _ Hrun). cbn [hd_error fmap option_fmap option_map].
    pose proof (ti_list _ _ Hinv) as [_ Hlk]. pose proof (proj1 Hlk) as [Hpl _]%NoDup_cons.
    destruct (linked_dom _ _ p Hlk ltac:(set_solver)) as [t Hp].
    assert (Hpa : alter (set_count 0) p (timers s) !! p = Some (set_count 0 t))
      by (by rewrite lookup_alter_eq, Hp).
    destruct (links_lookup_l _ _ p _ He Hpa) as (t' & Hp' & Heu).
    rewrite (bind_ok _ _ _ _ _ (load_mid s ts v p t' Hp')).
    pose proof (ti_timers _ _ Hinv _ _ Hp) as Hok.
    destruct (tok_owner _ _ _ Hok (tok_pending _ _ _ Hok ltac:(set_solver))) as (_ & _ & cb & Hcbt).
    assert (Hcb' : callback t' = Some cb) by (apply (f_equal callback) in Heu; simpl in Heu; congruence).
    assert (Hud : user_data t' = user_data t) by (by apply (f_equal user_data) in Heu).
    rewrite Hcb', (bind_ok (lift (deref (Some cb))) _ _ (mid s ts v) cb) by done.
    rewrite (bind_ok _ _ _ _ _ (Hcb _ _ _ _)).
    destruct (IH (set_world (g cb (user_data t') (count_of s p) (world (mid s ts v))) (mid s ts v)) fuel)
      as (s' & Hrun' & Hinv2 & Hw & Hold); [by destruct Hinv'|lia|].
    exists s'. split_and!; [done|done| |done]. rewrite Hw. cbn [world set_world timers mid put_tls set_tls set_timers foldl].
    assert (Hd : deliver g (timers s) (world s) p = g cb (user_data t') (count_of s p) (world s)).
    { unfold deliver, count_of. by rewrite Hp, Hcbt, Hud. }
    rewrite Hd. clear -Hpl He. revert Hpl. generalize (g cb (user_data t') (count_of s p) (world s)).
    induction l as [|q l IHl]; intros w Hpl; [done|]. simpl. rewrite (deliver_links g (timers s) ts).
    + apply IHl. set_solver.
    + apply (f_equal (fun m => m !! q)) in He. rewrite !lookup_fmap in He.
      rewrite He, lookup_alter_ne by set_solver. done.
Qed.

(** *** Thread-safe builds *)

(** [m] leaves the thread-local storage of thread [c] alone. *)
Definition keeps_tls {A} (c : nat) (m : M state A) : Prop :=
  forall s, get_tls c (m s).1 = get_tls c s.

Lemma keeps_bind {A B} c (m : M state A) (k : A -> M state B) :
  keeps_tls c m -> (forall a, keeps_tls c (k a)) -> keeps_tls c (m ≫= k).
Proof.
  intros Hm Hk s. unfold mbind, M_bind. specialize (Hm s).
  destruct (m s) as [s' [a| | |]]; simpl in *; [|done..]. by rewrite Hk.
Qed.

Lemma keeps_lift {A} c (o : outcome A) : keeps_tls c (lift o).
Proof. done. Qed.

Lemma keeps_get c : keeps_tls c get_state.
Proof. done. Qed.

Lemma keeps_set_timers c ts : keeps_tls c (modify (set_timers ts)).
Proof. done. Qed.

Lemma keeps_modify_tls c self f : self <> c -> keeps_tls c (modify_tls true self f).
Proof.
  intros Hne s. unfold modify_tls, modify, get_tls, put_tls. simpl. by rewrite lookup_insert_ne.
Qed.

Lemma keeps_lock c self : self <> c -> keeps_tls c (excimer_mutex_lock true self).
Proof.
  intros Hne. apply keeps_bind; [apply keeps_get|]. intros s.
  case_match; [by apply keeps_modify_tls|apply keeps_lift..].
Qed.

Lemma keeps_store c p f : keeps_tls c (store p f).
Proof.
  apply keeps_bind; [apply keeps_get|]. intros s.
  apply keeps_bind; [apply keeps_lift|]. intros ts. apply keeps_set_timers.
Qed.

Lemma keeps_enqueue c self p : self <> c -> keeps_tls c (pending_enqueue true self p).
Proof.
  intros Hne. apply keeps_bind; [apply keeps_get|]. intros s.
  apply keeps_bind; [apply keeps_lift|]. intros [head ts].
  apply keeps_bind; [apply keeps_set_timers|]. intros _. by apply keeps_modify_tls.
Qed.

Lemma keeps_handle_locked c self p n : self <> c -> keeps_tls c (handle_locked true self p n).
Proof.
  intros Hne. apply keeps_bind; [by apply keeps_lock|]. intros _.
  apply keeps_bind; [apply keeps_store|]. intros _.
  apply keeps_bind; [by apply keeps_enqueue|]. intros _. by apply keeps_modify_tls.
Qed.

(** ** Properties *)


(** Starting a timer: the library is asked to start it only when it is valid,
    and never with a delay of zero, which would disarm it; a delay of zero is
    replaced by the period. In all other cases there is a warning and nothing
    else changes; [is_running] is set if and only if the library succeeded. *)
Theorem start_arms_timer s l p t period initial :
  timer_inv s l -> timers s !! p = Some t ->
  exists s', excimer_timer_start p period initial s = (s', Ok tt) /\ timer_inv s' l /\
    let initial' := if timerlib_timespec_is_zero initial then period else initial in
    if is_valid t && negb (timerlib_timespec_is_zero initial') then
      exists o tl ok, timerlib_timer_start (tl_timer t) period initial' (os s) = (o, (tl, ok)) /\
        s' = set_timers (<[p := run_result true ok tl t]> (timers s)) (set_os o s)
    else exists msg, s' = (php_warning msg s).1.
Proof.
  intros Hinv Hp. destruct (start_spec s l p t period initial Hinv Hp) as (s' & Hrun & Hinv' & _ & Heff).
  exists s'. split_and!; [done..|]. cbv zeta in *. destruct (is_valid t && _); [|done].
  destruct (timerlib_timer_start _ _ _ _) as [o [tl ok]]. eauto.
Qed.


End timer_facts.

(** ** Witnesses *)

Section witnesses.
  #[local] Existing Instance ex_timerlib.

Lemma ex_start_inv : timer_inv ex_start [].
Proof.
  assert (Hmem : forall p t, timers ex_start !! p = Some t -> t = ex_memory).
  { intros p t Hp. cbn [timers ex_start] in Hp.
    apply lookup_insert_Some in Hp as [[_ <-]|[_ Hp]]; [done|].
    by apply lookup_singleton_Some in Hp as [_ <-]. }
  split; [| |done| |done].
  - split; [done|]. split; [apply NoDup_nil_2|]. intros a b Hab. by apply elem_of_nil in Hab.
  - intros p [t Hp]. right. exists t. split; [done|]. by rewrite (Hmem p t Hp).
  - intros p t Hp. rewrite (Hmem p t Hp). split; try done. by intros ?%elem_of_nil.
Qed.

Lemma ex_initialised_inv : timer_inv ex_initialised [].
Proof.
  destruct (init_spec ex_start [] 0 1 ex_memory EXCIMER_REAL excimer_profiler_event_cb (Some 10%positive)
    ex_start_inv) as (s1 & b1 & t1 & Hrun1 & Hinv1 & _ & _ & _ & _ & _ & _ & Ho & _); [done..|].
  destruct (init_spec s1 [] 0 2 ex_memory EXCIMER_REAL excimer_timer_event_cb (Some 20%positive)
    Hinv1) as (s2 & b2 & t2 & Hrun2 & Hinv2 & _); [by rewrite Ho|done|].
  unfold ex_initialised. rewrite Hrun1. simpl fst. by rewrite Hrun2.
Qed.

Lemma ex_fired_inv : timer_inv ex_fired [2%positive; 1%positive].
Proof.
  assert (Hstep : forall (s : ex_state) l self p n, timer_inv s l ->
    (exists t, timers s !! p = Some t /\ is_valid t = true) ->
    timer_inv (handle_locked false self p n s).1 (queue_add p l)).
  { intros s l self p n Hinv (t & Hp & Hv).
    destruct (handle_locked_spec s l self p t n Hinv Hp Hv) as (ts & v & -> & Hinv' & _). done. }
  unfold ex_fired. apply (Hstep _ [2%positive; 1%positive]); [|vm_compute; eauto].
  apply (Hstep _ [2%positive]); [|vm_compute; eauto].
  apply (Hstep _ []); [apply ex_initialised_inv|vm_compute; eauto].
Qed.


Lemma start_arms_timer_witness :
  exists s', excimer_timer_start 1 (Timespec 1 0) (Timespec 0 0) ex_initialised = (s', Ok tt) /\
    timer_inv s' [] /\ is_running <$> timers s' !! 1%positive = Some true.
Proof.
  destruct (timers ex_initialised !! 1%positive) as [t|] eqn:Hp; [|vm_compute in Hp; discriminate].
  destruct (start_arms_timer ex_initialised [] 1 t (Timespec 1 0) (Timespec 0 0) ex_initialised_inv Hp)
    as (s' & Hrun & Hinv & _).
  exists s'. split_and!; [exact Hrun|exact Hinv|].
  vm_compute in Hrun. injection Hrun as <-. vm_compute. reflexivity.
Defined.


End witnesses.
