(* ===== verification/TimerlibCommon.v ===== *)
(** * What the implementations of the timer library share

    System calls: the state of the operating system is that of the calls
    themselves, a parameter [E], with a record of the calls made and of the
    errors reported by [timerlib_report_errno] of [timerlib_config.h]. Then the
    functions of [timerlib_common.c] on timers, and clients of the library. *)

From S2P Require Import Prelude Timespec PendingList Timer.

(** ** System calls *)

Record itimerspec : Type := Itimerspec {
  it_interval : timespec;
  it_value : timespec
}.

(** [clockid_t]: the monotonic clock, or the CPU clock of a thread. *)
Inductive clockid_t : Type :=
  | CLOCK_MONOTONIC
  | cpu_clock (id : Z).

(** The calls that create, use and release something. *)
Inductive sysevent : Type :=
  | ev_pthread_create (thread : Z)
  | ev_pthread_kill (thread : Z)
  | ev_pthread_join (thread : Z)
  | ev_timer_create (c : clockid_t) (thread_id id : Z)
  | ev_timer_settime (id : Z) (its : itimerspec)
  | ev_timer_delete (id : Z)
  | ev_kqueue (fd : Z)
  | ev_kevent (fd flags ns : Z)
  | ev_close (fd : Z).

Record sys_os {E : Type} : Type := SysOs {
  env : E;
  trace : list sysevent;
  reports : list (string * Z)
}.
Arguments sys_os E : clear implicits.
Arguments SysOs {E} env trace reports.

(** Code that makes system calls. *)
Definition Sys (E A : Type) : Type := sys_os E -> sys_os E * A.
#[export] Instance Sys_ret {E} : MRet (Sys E) := fun A a o => (o, a).
#[export] Instance Sys_bind {E} : MBind (Sys E) := fun A B k m o => let '(o, a) := m o in k a o.

Section syscalls.
  Context {E : Type}.

(** A system call, the record of one, and the report of its error. *)
Definition call {A} (f : E -> E * A) : Sys E A := fun o =>
  let '(e, a) := f (env o) in (SysOs e (trace o) (reports o), a).
Definition record (ev : sysevent) : Sys E unit := fun o =>
  (SysOs (env o) (trace o ++ [ev]) (reports o), tt).
Definition timerlib_report_errno (func : string) (error_number : Z) : Sys E unit := fun o =>
  (SysOs (env o) (trace o) (reports o ++ [(func, error_number)]), tt).

End syscalls.

(** Runs the next system call of the goal. *)
Ltac sys_step :=
  unfold mbind, mret, Sys_bind, Sys_ret, call, record, timerlib_report_errno; cbn [env trace reports];
  repeat match goal with
         | |- context [let '(_, _) := ?x in _] =>
             lazymatch x with context [let '(_, _) := _ in _] => fail | _ => destruct x end
         end; cbn [env trace reports].

(** ** Functions common to all implementations, of [timerlib_common.c] *)

Section common.
  Context {TL OS : Type} `{Timerlib TL OS}.

Definition timerlib_timer_start_oneshot (tl : TL) (duration : timespec) : OS -> OS * (TL * bool) :=
  timerlib_timer_start tl (Timespec 0 0) duration.

Definition timerlib_timer_start_periodic (tl : TL) (period : timespec) : OS -> OS * (TL * bool) :=
  timerlib_timer_start tl period period.

End common.

(** What a client may do between initialisation and destruction. *)
Inductive timer_op : Type :=
  | op_start (period initial : timespec)
  | op_start_oneshot (duration : timespec)
  | op_start_periodic (period : timespec)
  | op_stop
  | op_get_time.

Section client.
  Context {TL OS : Type} `{Timerlib TL OS}.

Definition run_op (op : timer_op) (tl : TL) (o : OS) : OS * TL :=
  match op with
  | op_start period initial => let '(o, r) := timerlib_timer_start tl period initial o in (o, r.1)
  | op_start_oneshot d => let '(o, r) := timerlib_timer_start_oneshot tl d o in (o, r.1)
  | op_start_periodic d => let '(o, r) := timerlib_timer_start_periodic tl d o in (o, r.1)
  | op_stop => let '(o, r) := timerlib_timer_stop tl o in (o, r.1)
  | op_get_time => let '(o, _) := timerlib_timer_get_time tl o in (o, tl)
  end.

Fixpoint run_ops (ops : list timer_op) (tl : TL) (o : OS) : OS * TL :=
  match ops with
  | [] => (o, tl)
  | op :: ops' => let '(o, tl) := run_op op tl o in run_ops ops' tl o
  end.

End client.
