(* ===== verification/TimerlibPosix.v ===== *)
(** * The timer library on POSIX timers

    Models [timerlib/timerlib_posix.c] and [timerlib_posix.h] as an instance of
    the class [Timerlib]. The system calls are parameters, the class [PosixEnv];
    the state of the operating system is their state together with a record of
    the calls made and of the errors reported. The handler thread is a step
    relation at the end. *)

From S2P Require Import Prelude Timespec PendingList Timer TimerlibCommon.

(** ** Data *)

(** [timerlib_timer_t]. The notify function is always [excimer_timer_handle],
    called with [notify_data]; [ready_cond] and [ready_mutex] are in the
    handshake of [wait_ready]. *)
Record posix_timer : Type := PosixTimer {
  pt_timer : Z;
  timer_valid : bool;
  pt_thread : Z;
  thread_valid : bool;
  tid : Z;
  clock : Z;
  notify_data : option ptr;
  ready : bool;
  killed : bool
}.

(** ** System calls

    A number is an error number, zero for success. A call with a result returns
    an error number or the result. *)
Class PosixEnv (E : Type) : Type := {
  env_pthread_create : E -> E * (Z + Z);
  (** The thread ID of a thread. *)
  env_gettid : Z -> Z;
  (** The results of the calls of [pthread_cond_wait] that return before the
      handler thread has set [ready]. *)
  env_waits : E -> E * list Z;
  env_timer_create : clockid_t -> Z -> E -> E * (Z + Z);
  env_timer_settime : Z -> itimerspec -> E -> E * Z;
  env_timer_gettime : Z -> E -> E * (Z + itimerspec);
  env_timer_delete : Z -> E -> E * Z;
  env_pthread_kill : Z -> E -> E * Z;
  env_pthread_join : Z -> E -> E * Z;
  env_getcpuclockid : E -> E * (Z + Z);
  env_clock_gettime : clockid_t -> E -> E * (Z + timespec)
}.

Section posix.
  Context {E : Type} `{PosixEnv E}.
  Implicit Types (t : posix_timer) (o : sys_os E).

Definition set_pthread (th : Z) (b : bool) t : posix_timer :=
  PosixTimer (pt_timer t) (timer_valid t) th b (tid t) (clock t) (notify_data t) (ready t) (killed t).
Definition set_ptimer (id : Z) (b : bool) t : posix_timer :=
  PosixTimer id b (pt_thread t) (thread_valid t) (tid t) (clock t) (notify_data t) (ready t) (killed t).
Definition set_tid (i : Z) t : posix_timer :=
  PosixTimer (pt_timer t) (timer_valid t) (pt_thread t) (thread_valid t) i (clock t) (notify_data t)
    (ready t) (killed t).
Definition set_ready t : posix_timer :=
  PosixTimer (pt_timer t) (timer_valid t) (pt_thread t) (thread_valid t) (tid t) (clock t)
    (notify_data t) true (killed t).
Definition set_killed t : posix_timer :=
  PosixTimer (pt_timer t) (timer_valid t) (pt_thread t) (thread_valid t) (tid t) (clock t)
    (notify_data t) (ready t) true.

(** ** Functions of [timerlib_posix.c] *)

Definition timerlib_notify_ready t : posix_timer := set_ready t.

(** What the handler thread does before it waits for signals. *)
Definition thread_start t : posix_timer := timerlib_notify_ready (set_tid (env_gettid (pt_thread t)) t).

Definition timerlib_graceful_exit t : Sys E (posix_timer * bool) :=
  let t := set_killed t in
  error ← call (env_pthread_kill (pt_thread t));
  _ ← record (ev_pthread_kill (pt_thread t));
  if negb (error =? 0) then
    _ ← timerlib_report_errno "pthread_kill" error; mret (t, false)
  else mret (t, true).

Definition timerlib_join t : Sys E bool :=
  error ← call (env_pthread_join (pt_thread t));
  _ ← record (ev_pthread_join (pt_thread t));
  if negb (error =? 0) then
    _ ← timerlib_report_errno "pthread_join" error; mret false
  else mret true.

Definition timerlib_map_clock (c : Z) : Sys E clockid_t :=
  if c =? EXCIMER_REAL then mret CLOCK_MONOTONIC
  else
    r ← call env_getcpuclockid;
    match r with
    | inl error => _ ← timerlib_report_errno "pthread_getcpuclockid" error; mret CLOCK_MONOTONIC
    | inr id => mret (cpu_clock id)
    end.

(** [while (!timer->ready)]: [ws] are the results of waiting until the handler
    thread has run [thread_start]. [None] is the return of a failure. *)
Fixpoint wait_ready (ws : list Z) t : Sys E (option posix_timer) :=
  match ws with
  | [] => mret (Some (thread_start t))
  | error :: ws' =>
      if negb (error =? 0) then
        _ ← timerlib_report_errno "pthread_cond_wait" error; mret None
      else wait_ready ws' t
  end.

(** The part of [timerlib_timer_init] after the thread was created. *)
Definition init_timer t : Sys E (posix_timer * bool) :=
  ws ← call env_waits;
  w ← wait_ready ws t;
  match w with
  | None => mret (t, false)
  | Some t =>
      c ← timerlib_map_clock (clock t);
      r ← call (env_timer_create c (tid t));
      match r with
      | inl errno => _ ← timerlib_report_errno "timer_create" errno; mret (t, false)
      | inr id => _ ← record (ev_timer_create c (tid t) id); mret (set_ptimer id true t, true)
      end
  end.

Definition posix_timer_zero : posix_timer := PosixTimer 0 false 0 false 0 0 None false false.

Definition posix_timer_init (c : Z) (data : ptr) : Sys E (posix_timer * bool) :=
  let t := PosixTimer 0 false 0 false 0 c (Some data) false false in
  r ← call env_pthread_create;
  match r with
  | inl error => _ ← timerlib_report_errno "pthread_create" error; mret (t, false)
  | inr th => _ ← record (ev_pthread_create th); init_timer (set_pthread th true t)
  end.

Definition settime t (its : itimerspec) : Sys E (posix_timer * bool) :=
  errno ← call (env_timer_settime (pt_timer t) its);
  _ ← record (ev_timer_settime (pt_timer t) its);
  if negb (errno =? 0) then
    _ ← timerlib_report_errno "timer_settime" errno; mret (t, false)
  else mret (t, true).

Definition posix_timer_start t (period initial : timespec) : Sys E (posix_timer * bool) :=
  if negb (timer_valid t) then mret (t, false)
  else
    let value := if timerlib_timespec_is_zero initial then Timespec (tv_sec initial) 1 else initial in
    settime t (Itimerspec period value).

Definition posix_timer_stop t : Sys E (posix_timer * bool) :=
  if negb (timer_valid t) then mret (t, false)
  else settime t (Itimerspec (Timespec 0 0) (Timespec 0 0)).

Definition posix_timer_destroy t : Sys E posix_timer :=
  t ←
    (if thread_valid t then
       let t := set_pthread (pt_thread t) false t in
       r ← timerlib_graceful_exit t;
       _ ← (if (r.2 : bool) then timerlib_join r.1 else mret false);
       mret r.1
     else mret t);
  if timer_valid t then
    let t := set_ptimer (pt_timer t) false t in
    errno ← call (env_timer_delete (pt_timer t));
    _ ← record (ev_timer_delete (pt_timer t));
    if negb (errno =? 0) then _ ← timerlib_report_errno "timer_delete" errno; mret t else mret t
  else mret t.

Definition posix_timer_get_time t : Sys E (timespec * bool) :=
  let zero := Timespec 0 0 in
  if timer_valid t then
    r ← call (env_timer_gettime (pt_timer t));
    match r with
    | inl errno => _ ← timerlib_report_errno "timer_gettime" errno; mret (zero, false)
    | inr its => mret (it_value its, true)
    end
  else mret (zero, false).

Definition posix_clock_get_time (c : Z) : Sys E (timespec * bool) :=
  c ← timerlib_map_clock c;
  r ← call (env_clock_gettime c);
  match r with
  | inl errno => _ ← timerlib_report_errno "timer_gettime" errno; mret (Timespec 0 0, false)
  | inr ts => mret (ts, true)
  end.

End posix.

#[export] Instance posix_timerlib {E} `{PosixEnv E} : Timerlib posix_timer (sys_os E) := {
  tl_zero := posix_timer_zero;
  timerlib_timer_init c data o := posix_timer_init c data o;
  timerlib_timer_start t period initial o := posix_timer_start t period initial o;
  timerlib_timer_stop t o := posix_timer_stop t o;
  timerlib_timer_destroy t o := posix_timer_destroy t o;
  timerlib_timer_get_time t o := let '(o, r) := posix_timer_get_time t o in (o, Ok r);
  timerlib_clock_get_time c o := posix_clock_get_time c o
}.

(** ** Specification: what a timer holds *)

Definition created_timers (tr : list sysevent) : list Z :=
  tr ≫= fun ev => match ev with ev_timer_create _ _ id => [id] | _ => [] end.
Definition deleted_timers (tr : list sysevent) : list Z :=
  tr ≫= fun ev => match ev with ev_timer_delete id => [id] | _ => [] end.
Definition created_threads (tr : list sysevent) : list Z :=
  tr ≫= fun ev => match ev with ev_pthread_create th => [th] | _ => [] end.
Definition killed_threads (tr : list sysevent) : list Z :=
  tr ≫= fun ev => match ev with ev_pthread_kill th => [th] | _ => [] end.

(** The resources the calls since [tr0] created and did not release. *)
Record holds (tr0 tr : list sysevent) (timers threads : list Z) : Prop := Holds {
  holds_timers : exists ids, created_timers tr = created_timers tr0 ++ ids ++ timers /\
    deleted_timers tr = deleted_timers tr0 ++ ids;
  holds_threads : exists ths, created_threads tr = created_threads tr0 ++ ths ++ threads /\
    killed_threads tr = killed_threads tr0 ++ ths
}.

Definition held_timers (t : posix_timer) : list Z := if timer_valid t then [pt_timer t] else [].
Definition held_threads (t : posix_timer) : list Z := if thread_valid t then [pt_thread t] else [].

(** ** Lemmas *)

Section posix_facts.
  Context {E : Type} `{PosixEnv E}.
  Implicit Types (t : posix_timer) (o : sys_os E).

Lemma holds_refl tr : holds tr tr [] [].
Proof. split; exists []; by rewrite ?app_nil_r. Qed.

(** The resources of a trace with one more call. *)
Lemma created_timers_app tr ev : created_timers (tr ++ [ev]) = created_timers tr ++ created_timers [ev].
Proof. apply bind_app. Qed.
Lemma deleted_timers_app tr ev : deleted_timers (tr ++ [ev]) = deleted_timers tr ++ deleted_timers [ev].
Proof. apply bind_app. Qed.
Lemma created_threads_app tr ev : created_threads (tr ++ [ev]) = created_threads tr ++ created_threads [ev].
Proof. apply bind_app. Qed.
Lemma killed_threads_app tr ev : killed_threads (tr ++ [ev]) = killed_threads tr ++ killed_threads [ev].
Proof. apply bind_app. Qed.

(** One more call; [i] and [j] are the timers and threads released by then. *)
Ltac holds_ev i j :=
  split; [exists i|exists j];
  rewrite ?created_timers_app, ?deleted_timers_app, ?created_threads_app, ?killed_threads_app;
  cbn [created_timers deleted_timers created_threads killed_threads mbind list_bind app];
  rewrite ?app_nil_r in *; rewrite ?app_assoc in *; split; congruence.

Lemma holds_settime tr0 tr ts ths id its :
  holds tr0 tr ts ths -> holds tr0 (tr ++ [ev_timer_settime id its]) ts ths.
Proof. intros [(i & Hc & Hd) (j & Hc' & Hd')]. holds_ev i j. Qed.

Lemma holds_join tr0 tr ts ths th :
  holds tr0 tr ts ths -> holds tr0 (tr ++ [ev_pthread_join th]) ts ths.
Proof. intros [(i & Hc & Hd) (j & Hc' & Hd')]. holds_ev i j. Qed.

Lemma holds_timer_create tr0 tr ths c i id :
  holds tr0 tr [] ths -> holds tr0 (tr ++ [ev_timer_create c i id]) [id] ths.
Proof. intros [(k & Hc & Hd) (j & Hc' & Hd')]. holds_ev k j. Qed.

Lemma holds_timer_delete tr0 tr ths id :
  holds tr0 tr [id] ths -> holds tr0 (tr ++ [ev_timer_delete id]) [] ths.
Proof. intros [(k & Hc & Hd) (j & Hc' & Hd')]. holds_ev (k ++ [id]) j. Qed.

Lemma holds_thread_create tr0 tr ts th :
  holds tr0 tr ts [] -> holds tr0 (tr ++ [ev_pthread_create th]) ts [th].
Proof. intros [(k & Hc & Hd) (j & Hc' & Hd')]. holds_ev k j. Qed.

Lemma holds_thread_kill tr0 tr ts th :
  holds tr0 tr ts [th] -> holds tr0 (tr ++ [ev_pthread_kill th]) ts [].
Proof. intros [(k & Hc & Hd) (j & Hc' & Hd')]. holds_ev k (j ++ [th]). Qed.

(** ** The functions and their resources *)

Definition owns (tr0 : list sysevent) t o : Prop := holds tr0 (trace o) (held_timers t) (held_threads t).

Lemma settime_spec t its o :
  exists o' ok, settime t its o = (o', (t, ok)) /\
    trace o' = trace o ++ [ev_timer_settime (pt_timer t) its].
Proof. unfold settime. sys_step. case_match; by eexists _, _; split. Qed.

Lemma graceful_exit_spec t o :
  exists o' ok, timerlib_graceful_exit t o = (o', (set_killed t, ok)) /\
    trace o' = trace o ++ [ev_pthread_kill (pt_thread t)].
Proof. unfold timerlib_graceful_exit. sys_step. case_match; by eexists _, _; split. Qed.

Lemma join_spec t o :
  exists o' ok, timerlib_join t o = (o', ok) /\ trace o' = trace o ++ [ev_pthread_join (pt_thread t)].
Proof. unfold timerlib_join. sys_step. case_match; by eexists _, _; split. Qed.

Lemma map_clock_trace c o : trace (timerlib_map_clock c o).1 = trace o.
Proof. unfold timerlib_map_clock. case_match; [done|]. sys_step. by case_match. Qed.

Lemma wait_ready_spec ws t o :
  trace (wait_ready ws t o).1 = trace o /\
  ((wait_ready ws t o).2 = None \/ (wait_ready ws t o).2 = Some (thread_start t)).
Proof.
  revert o. induction ws as [|e ws IH]; intros o; [by split; [|right]|].
  cbn [wait_ready]. case_match; [|apply IH]. sys_step. by split; [|left].
Qed.

Lemma init_timer_spec tr0 t o :
  owns tr0 t o -> timer_valid t = false -> thread_valid t = true ->
  exists o' t' ok, init_timer t o = (o', (t', ok)) /\ owns tr0 t' o' /\
    thread_valid t' = true /\ timer_valid t' = ok /\ (ok = true -> tid t' = env_gettid (pt_thread t')).
Proof.
  intros Hown Htv Hth. unfold init_timer, call. unfold mbind at 1, Sys_bind at 1.
  destruct (env_waits (env o)) as [e ws]. set (o1 := SysOs e (trace o) (reports o)).
  unfold mbind at 1, Sys_bind at 1.
  pose proof (wait_ready_spec ws t o1) as [Htr Hres].
  destruct (wait_ready ws t o1) as [o2 w]. cbn [fst snd] in *. change (trace o1) with (trace o) in Htr.
  destruct Hres as [->| ->]; [by eexists o2, t, _; unfold owns; rewrite Htr|].
  unfold mbind at 1, Sys_bind at 1. pose proof (map_clock_trace (clock (thread_start t)) o2) as Htr3.
  destruct (timerlib_map_clock (clock (thread_start t)) o2) as [o3 c]. cbn [fst] in Htr3.
  rewrite Htr in Htr3. unfold mbind at 1, Sys_bind at 1.
  destruct (env_timer_create c _ _) as [e4 r]. unfold owns, held_timers, held_threads in *.
  rewrite Htv, Hth in Hown.
  destruct r as [errno|id]; sys_step; eexists _, _, _; (split; [done|]); cbn; rewrite Htr3, ?Htv, ?Hth.
  - by split_and!.
  - by split_and!; [apply holds_timer_create|..].
Qed.

Lemma posix_init_spec c data o :
  exists o' t ok, posix_timer_init c data o = (o', (t, ok)) /\ owns (trace o) t o' /\
    timer_valid t = ok /\ (ok = true -> thread_valid t = true /\ tid t = env_gettid (pt_thread t)).
Proof.
  unfold posix_timer_init, call. unfold mbind at 1, Sys_bind at 1.
  destruct (env_pthread_create (env o)) as [e [error|th]].
  - sys_step. eexists _, _, _. split; [done|]. split; [apply holds_refl|done].
  - unfold mbind at 1, Sys_bind at 1. cbn [record].
    match goal with |- context [init_timer ?t ?o1] =>
      destruct (init_timer_spec (trace o) t o1) as (o' & t' & ok & Hrun & Hown & Hth & Htv & Htid);
        [|done..|] end.
    + apply holds_thread_create, holds_refl.
    + exists o', t', ok. by split_and!; [| |done|]; auto.
Qed.

Lemma destroy_releases tr0 t o :
  owns tr0 t o ->
  exists o' t', posix_timer_destroy t o = (o', t') /\ holds tr0 (trace o') [] [] /\
    timer_valid t' = false /\ thread_valid t' = false.
Proof.
  intros Hown. unfold posix_timer_destroy. unfold mbind at 1, Sys_bind at 1.
  set (m := if thread_valid t then _ else _).
  assert (exists o1 t1, m o = (o1, t1) /\ holds tr0 (trace o1) (held_timers t) [] /\
    timer_valid t1 = timer_valid t /\ pt_timer t1 = pt_timer t /\ thread_valid t1 = false)
    as (o1 & t1 & -> & Hh & Htv & Hid & Hth).
  { subst m. unfold owns, held_threads in Hown. destruct (thread_valid t) eqn:Hth; [|by exists o, t].
    set (t1 := set_pthread _ _ t). unfold mbind at 1, Sys_bind at 1.
    destruct (graceful_exit_spec t1 o) as (o1 & ok & -> & Htr). cbn [fst snd].
    apply holds_thread_kill in Hown. unfold mbind, Sys_bind. destruct ok.
    - destruct (join_spec (set_killed t1) o1) as (o2 & ok & -> & Htr2). eexists o2, _. split; [done|].
      rewrite Htr2, Htr. by split; [apply holds_join|].
    - eexists o1, _. split; [done|]. by rewrite Htr. }
  unfold held_timers in Hh. rewrite <-Htv, <-Hid in Hh.
  destruct (timer_valid t1) eqn:Htv1; [|by exists o1, t1].
  sys_step. destruct (negb _); sys_step; eexists _, _; (split; [done|]); cbn; by apply holds_timer_delete in Hh.
Qed.

End posix_facts.

(** ** The handler thread

    The loop of [timerlib_timer_thread_main] runs against the kernel and the
    main thread. A POSIX timer has at most one signal queued: expirations while
    the signal waits are counted as its overruns. *)

Inductive si_code_t : Type := SI_TIMER | SI_TKILL.

Record siginfo_t : Type := Siginfo {
  si_code : si_code_t;
  si_overrun : Z
}.

Record thread_sys : Type := ThreadSys {
  th_timer : posix_timer;
  (** Signals sent to the thread and not yet received. *)
  th_queue : list siginfo_t;
  th_running : bool;
  (** The overrun counts [notify_function] was called with. *)
  th_notified : list Z;
  th_joined : bool
}.

(** A turn of the loop after [sigwaitinfo]: the thread exits, calls
    [notify_function], or waits again. *)
Inductive turn : Type := turn_exit | turn_notify (overrun_count : Z) | turn_wait.

Definition thread_turn (t : posix_timer) (si : siginfo_t) : turn :=
  if killed t then turn_exit
  else match si_code si with SI_TIMER => turn_notify (si_overrun si) | SI_TKILL => turn_wait end.

Definition after_turn (y : thread_sys) (q : list siginfo_t) (r : turn) : thread_sys :=
  match r with
  | turn_exit => ThreadSys (th_timer y) q false (th_notified y) (th_joined y)
  | turn_notify n => ThreadSys (th_timer y) q (th_running y) (th_notified y ++ [n]) (th_joined y)
  | turn_wait => ThreadSys (th_timer y) q (th_running y) (th_notified y) (th_joined y)
  end.

(** The kernel queues an expiration. *)
Fixpoint queue_expiry (q : list siginfo_t) : list siginfo_t :=
  match q with
  | [] => [Siginfo SI_TIMER 0]
  | si :: q' =>
      match si_code si with
      | SI_TIMER => Siginfo SI_TIMER (si_overrun si + 1) :: q'
      | SI_TKILL => si :: queue_expiry q'
      end
  end.

Inductive thread_label : Type := TExpire | TReceive | TInterrupted | TKill | TJoin.

(** [TKill] is a successful [timerlib_graceful_exit], [TJoin] the return of
    [timerlib_join], [TInterrupted] a [sigwaitinfo] that fails with [EINTR]. *)
Inductive thread_step : thread_sys -> thread_label -> thread_sys -> Prop :=
  | step_expire y :
      thread_step y TExpire
        (ThreadSys (th_timer y) (queue_expiry (th_queue y)) (th_running y) (th_notified y) (th_joined y))
  | step_receive y si q :
      th_running y = true -> th_queue y = si :: q ->
      thread_step y TReceive (after_turn y q (thread_turn (th_timer y) si))
  | step_interrupted y : th_running y = true -> thread_step y TInterrupted y
  | step_kill y :
      killed (th_timer y) = false ->
      thread_step y TKill
        (ThreadSys (set_killed (th_timer y)) (th_queue y ++ [Siginfo SI_TKILL 0]) (th_running y)
          (th_notified y) (th_joined y))
  | step_join y :
      killed (th_timer y) = true -> th_running y = false ->
      thread_step y TJoin (ThreadSys (th_timer y) (th_queue y) (th_running y) (th_notified y) true).

Inductive thread_steps : thread_sys -> list thread_label -> thread_sys -> Prop :=
  | thread_steps_nil y : thread_steps y [] y
  | thread_steps_snoc y tr y1 a y2 :
      thread_steps y tr y1 -> thread_step y1 a y2 -> thread_steps y (tr ++ [a]) y2.

(** A thread that has just told the main thread that it is ready. *)
Definition thread_initial (y : thread_sys) : Prop :=
  killed (th_timer y) = false /\ th_queue y = [] /\ th_running y = true /\ th_notified y = [] /\
  th_joined y = false.

Definition expirations (tr : list thread_label) : Z :=
  sum_Z ((fun a => match a with TExpire => 1 | _ => 0 end) <$> tr).
Definition queued (q : list siginfo_t) : Z :=
  sum_Z ((fun si => match si_code si with SI_TIMER => si_overrun si + 1 | SI_TKILL => 0 end) <$> q).
(** The events [notify_function] is told of: an expiration and its overruns. *)
Definition reported (ns : list Z) : Z := sum_Z ((fun n => n + 1) <$> ns).

Record thread_inv (tr : list thread_label) (y : thread_sys) : Prop := ThreadInv {
  inv_reported : reported (th_notified y) + queued (th_queue y) <= expirations tr;
  inv_exact : th_running y = true ->
    reported (th_notified y) + queued (th_queue y) = expirations tr;
  inv_exit : th_running y = false -> killed (th_timer y) = true;
  inv_join : th_joined y = true -> th_running y = false;
  inv_wake : th_running y = true -> killed (th_timer y) = true -> th_queue y <> [];
  inv_overruns : Forall (fun si => 0 <= si_overrun si) (th_queue y)
}.

Lemma queued_cons si q :
  queued (si :: q) = match si_code si with SI_TIMER => si_overrun si + 1 | SI_TKILL => 0 end + queued q.
Proof. done. Qed.

Lemma queued_expiry q : queued (queue_expiry q) = queued q + 1.
Proof.
  induction q as [|[[] n] q IH]; [done|..]; cbn [queue_expiry si_code si_overrun];
    rewrite !queued_cons; cbn [si_code si_overrun]; lia.
Qed.

Lemma overruns_expiry q :
  Forall (fun si => 0 <= si_overrun si) q -> Forall (fun si => 0 <= si_overrun si) (queue_expiry q).
Proof.
  induction 1 as [|[[] n] q Hn Hq IH]; cbn in *; repeat constructor; cbn; auto; lia.
Qed.

Lemma queue_expiry_cons q : queue_expiry q <> [].
Proof. destruct q as [|[[]]]; discriminate. Qed.

Lemma queued_app q1 q2 : queued (q1 ++ q2) = queued q1 + queued q2.
Proof. unfold queued. by rewrite fmap_app, sum_Z_app. Qed.

Lemma reported_app l n : reported (l ++ [n]) = reported l + (n + 1).
Proof. unfold reported. rewrite fmap_app, sum_Z_app. cbn. lia. Qed.

Lemma expirations_app tr a :
  expirations (tr ++ [a]) = expirations tr + match a with TExpire => 1 | _ => 0 end.
Proof. unfold expirations. rewrite fmap_app, sum_Z_app. cbn. lia. Qed.

Lemma thread_step_inv tr y a y' : thread_inv tr y -> thread_step y a y' -> thread_inv (tr ++ [a]) y'.
Proof.
  intros [Hrep Hex Hexit Hjoin Hwake Hover] Hstep.
  inversion Hstep as [y1|y1 si q Hrun Hq|y1 Hrun|y1 Hk|y1 Hk Hrun]; subst; clear Hstep;
    [|rewrite Hq in *; apply Forall_cons in Hover as [Hn Hover]; rewrite queued_cons in *;
      unfold thread_turn; destruct (killed (th_timer y)) eqn:Hk; [|destruct (si_code si)]|..];
    split; cbn [after_turn th_timer th_queue th_running th_notified th_joined killed set_killed];
    rewrite ?expirations_app, ?queued_expiry, ?queued_app, ?reported_app, ?Hk;
    try (intros Hr; specialize (Hex Hr)); auto using overruns_expiry, queue_expiry_cons; try done; try lia.
  - case_match; lia.
  - change (queued [_]) with 0. lia.
  - change (queued [_]) with 0. lia.
  - intros _. by destruct (th_queue y).
  - apply Forall_app. split; [done|]. by repeat constructor.
Qed.

Lemma thread_reachable_inv y tr y' : thread_initial y -> thread_steps y tr y' -> thread_inv tr y'.
Proof.
  intros (Hk & Hq & Hr & Hn & Hj) Hsteps. induction Hsteps as [y|y tr y1 a y2 Hsteps IH Hstep].
  - split; rewrite ?Hk, ?Hq, ?Hr, ?Hn, ?Hj; done.
  - eapply thread_step_inv; [by apply IH|done].
Qed.

(** A thread that has exited calls nothing any more. *)
Lemma thread_exited y tr y' :
  thread_steps y tr y' -> th_running y = false ->
  th_running y' = false /\ th_notified y' = th_notified y.
Proof.
  induction 1 as [y|y tr y1 a y2 Hsteps IH Hstep]; [done|]. intros Hr. destruct (IH Hr) as [Hr1 Hn1].
  inversion Hstep; subst; cbn in *; try done; congruence.
Qed.

(** ** Properties *)

(** The handler thread under any interleaving with the kernel and the main
    thread: until it is told to exit, the expirations it reported, overruns
    included, and those in the signal that waits for it are all the expirations
    of the timer, and afterwards it never reports more than there were; once it
    is told to exit a signal is always waiting for it, and the next one it
    receives makes it exit without a report; after it was joined it reports
    nothing. *)
Theorem handler_thread_reports y tr y' :
  thread_initial y -> thread_steps y tr y' ->
  reported (th_notified y') + queued (th_queue y') <= expirations tr /\
  (killed (th_timer y') = false ->
    reported (th_notified y') + queued (th_queue y') = expirations tr) /\
  (killed (th_timer y') = true -> th_running y' = true ->
    (exists y2, thread_step y' TReceive y2) /\
    forall y2, thread_step y' TReceive y2 ->
      th_running y2 = false /\ th_notified y2 = th_notified y') /\
  (th_joined y' = true -> forall tr2 y2, thread_steps y' tr2 y2 -> th_notified y2 = th_notified y').
Proof.
  intros Hinit Hsteps. destruct (thread_reachable_inv y tr y' Hinit Hsteps) as [Hrep Hex Hexit Hjoin Hwake _].
  split_and!; [done|..].
  - intros Hk. apply Hex. destruct (th_running y') eqn:Hr; [done|]. by rewrite Hexit in Hk.
  - intros Hk Hr. split.
    + destruct (th_queue y') as [|si q] eqn:Hq; [by apply Hwake in Hk|]. eexists. by eapply step_receive.
    + intros y2 Hstep. inversion Hstep; subst. unfold thread_turn. by rewrite Hk.
  - intros Hj tr2 y2 Hsteps2. by apply (thread_exited y' tr2 y2 Hsteps2), Hjoin.
Qed.

Section posix_properties.
  Context {E : Type} `{PosixEnv E}.
  Implicit Types (t : posix_timer) (o : sys_os E).

Lemma settime_owns tr0 t its o :
  owns tr0 t o -> exists o1 ok, settime t its o = (o1, (t, ok)) /\ owns tr0 t o1.
Proof.
  intros Hown. destruct (settime_spec t its o) as (o1 & ok & Hset & Htr). exists o1, ok.
  split; [done|]. unfold owns. rewrite Htr. by apply holds_settime.
Qed.

Lemma start_owns tr0 t period initial o :
  owns tr0 t o -> exists o1 ok, posix_timer_start t period initial o = (o1, (t, ok)) /\ owns tr0 t o1.
Proof.
  intros Hown. unfold posix_timer_start. destruct (timer_valid t); [|by exists o, false].
  by apply settime_owns.
Qed.

Lemma run_op_owns tr0 op t o :
  owns tr0 t o -> exists o1, run_op op t o = (o1, t) /\ owns tr0 t o1.
Proof.
  intros Hown. destruct op as [period initial|d|d| |]; cbn;
    unfold timerlib_timer_start_oneshot, timerlib_timer_start_periodic; cbn.
  - destruct (start_owns tr0 t period initial o Hown) as (o1 & ok & -> & ?). by exists o1.
  - destruct (start_owns tr0 t (Timespec 0 0) d o Hown) as (o1 & ok & -> & ?). by exists o1.
  - destruct (start_owns tr0 t d d o Hown) as (o1 & ok & -> & ?). by exists o1.
  - unfold posix_timer_stop. destruct (timer_valid t); cbn [negb]; [|by exists o].
    by destruct (settime_owns tr0 t (Itimerspec (Timespec 0 0) (Timespec 0 0)) o Hown) as (o1 & ok & -> & ?);
      exists o1.
  - unfold posix_timer_get_time. destruct (timer_valid t) eqn:Hv; [|by exists o].
    unfold mbind, Sys_bind, call. destruct (env_timer_gettime _ _) as [e r]. destruct r; by eexists.
Qed.

Lemma run_ops_owns tr0 ops t o :
  owns tr0 t o -> exists o', run_ops ops t o = (o', t) /\ owns tr0 t o'.
Proof.
  revert o. induction ops as [|op ops IH]; intros o Hown; [by exists o|].
  destruct (run_op_owns tr0 op t o Hown) as (o1 & Hrun & Hown1). cbn [run_ops]. rewrite Hrun. auto.
Qed.


(** Starting arms the POSIX timer and stopping disarms it: starting sets the
    period and the given delay, or the shortest delay instead of zero, which
    would disarm the timer; stopping sets both to zero. A timer that could not
    be created is never touched and both report failure. *)
Theorem posix_start_stop t period initial o :
  exists o1 ok1 o2 ok2,
    timerlib_timer_start t period initial o = (o1, (t, ok1)) /\
    timerlib_timer_stop t o = (o2, (t, ok2)) /\
    if timer_valid t then
      let delay := if timerlib_timespec_is_zero initial then Timespec 0 1 else initial in
      trace o1 = trace o ++ [ev_timer_settime (pt_timer t) (Itimerspec period delay)] /\
      timerlib_timespec_is_zero delay = false /\
      trace o2 = trace o ++ [ev_timer_settime (pt_timer t) (Itimerspec (Timespec 0 0) (Timespec 0 0))]
    else o1 = o /\ ok1 = false /\ o2 = o /\ ok2 = false.
Proof.
  cbn. unfold posix_timer_start, posix_timer_stop. destruct (timer_valid t); [|by exists o, false, o, false].
  cbn [negb]. match goal with |- context [settime t (Itimerspec period ?d) o] =>
    destruct (settime_spec t (Itimerspec period d) o) as (o1 & ok1 & -> & Htr1) end.
  destruct (settime_spec t (Itimerspec (Timespec 0 0) (Timespec 0 0)) o) as (o2 & ok2 & -> & Htr2).
  exists o1, ok1, o2, ok2. split_and!; [done..| | |done].
  - destruct initial as [sec nsec]. rewrite Htr1. unfold timerlib_timespec_is_zero. cbn.
    destruct (Z.eqb_spec sec 0) as [->|]; [|done]. by destruct (nsec =? 0).
  - by destruct (timerlib_timespec_is_zero initial) eqn:Hz.
Qed.

End posix_properties.

(** ** Witnesses *)

Definition ex_thread : thread_sys :=
  ThreadSys (PosixTimer 1 true 2 true 3 0 None true false) [] true [] false.

(** Two expirations before the thread runs: one report with an overrun. *)
Lemma handler_thread_reports_witness :
  exists y', thread_steps ex_thread [TExpire; TExpire; TReceive] y' /\
    reported (th_notified y') + queued (th_queue y') = 2 /\ th_notified y' = [1].
Proof.
  eexists. assert (Hsteps : thread_steps ex_thread ((([] ++ [TExpire]) ++ [TExpire]) ++ [TReceive])
    (ThreadSys (th_timer ex_thread) [] true [1] false)).
  { eapply thread_steps_snoc; [eapply thread_steps_snoc; [eapply thread_steps_snoc|]|].
    - apply thread_steps_nil.
    - apply step_expire.
    - apply step_expire.
    - exact (step_receive (ThreadSys (th_timer ex_thread) [Siginfo SI_TIMER 1] true [] false)
        (Siginfo SI_TIMER 1) [] eq_refl eq_refl). }
  split; [exact Hsteps|]. split; [|done].
  destruct (handler_thread_reports ex_thread _ _ ltac:(done) Hsteps) as (_ & Hexact & _).
  by apply Hexact.
Defined.

(** A system on which [timer_create] fails; its state is never used. *)
#[local] Instance ex_posix_env : PosixEnv unit := {
  env_pthread_create e := (e, inr 2);
  env_gettid th := th + 1000;
  env_waits e := (e, [0]);
  env_timer_create _ _ e := (e, inl 11);
  env_timer_settime _ _ e := (e, 0);
  env_timer_gettime _ e := (e, inl 22);
  env_timer_delete _ e := (e, 0);
  env_pthread_kill _ e := (e, 0);
  env_pthread_join _ e := (e, 0);
  env_getcpuclockid e := (e, inr 1);
  env_clock_gettime _ e := (e, inr (Timespec 5 0))
}.

