(* ===== verification/PosixReady.v ===== *)
(** * The start of the handler thread on POSIX timers

    [timerlib_timer_init] of [timerlib_posix.c] creates the handler thread and
    waits, with a mutex and a condition variable, until the thread has stored its
    ID in the timer. This file has the two threads as a step relation, one step
    for each call that locks, unlocks, waits or wakes and for each access to the
    shared fields. [TimerlibPosix] has the wait as one step of the main thread,
    which the theorems here justify.

    The condition variable may wake up without a reason, and
    [pthread_cond_wait] may fail. *)

From S2P Require Import Prelude Timespec PendingList Timer TimerlibCommon TimerlibPosix.

(** ** Data *)

(** Where [timerlib_timer_init] is, after [pthread_create]. *)
Inductive main_pc : Type :=
  | m_lock      (* timerlib_mutex_lock(&timer->ready_mutex) *)
  | m_check     (* while (!timer->ready) *)
  | m_wait      (* blocked in pthread_cond_wait *)
  | m_relock    (* woken up, about to have the mutex again *)
  | m_unlock    (* timerlib_mutex_unlock(&timer->ready_mutex) *)
  | m_ready     (* past the handshake *)
  | m_failed.   (* return TIMERLIB_FAILURE *)

(** Where [timerlib_timer_thread_main] is. *)
Inductive handler_pc : Type :=
  | h_tid       (* timer->tid = gettid() *)
  | h_lock      (* timerlib_mutex_lock in timerlib_notify_ready *)
  | h_set       (* timer->ready = 1 *)
  | h_broadcast (* pthread_cond_broadcast *)
  | h_unlock    (* timerlib_mutex_unlock *)
  | h_loop.     (* the loop that waits for signals *)

Inductive thread : Type := main_thread | handler_thread.

(** The timer, the owner of [ready_mutex] and the two threads. *)
Record handshake : Type := Handshake {
  hs_timer : posix_timer;
  hs_owner : option thread;
  hs_main : main_pc;
  hs_handler : handler_pc
}.

Inductive hs_label : Type :=
  | by_main
  | by_handler
  | spurious
  | wait_error (error : Z).

Section handshake.
  Context {E : Type} `{PosixEnv E}.
  Implicit Types (t : posix_timer) (x y : handshake).

Inductive hs_step : handshake -> hs_label -> handshake -> Prop :=
  | step_main_lock t h :
      hs_step (Handshake t None m_lock h) by_main (Handshake t (Some main_thread) m_check h)
  | step_main_ready t h :
      ready t = true ->
      hs_step (Handshake t (Some main_thread) m_check h) by_main (Handshake t (Some main_thread) m_unlock h)
  | step_main_wait t h :
      ready t = false ->
      hs_step (Handshake t (Some main_thread) m_check h) by_main (Handshake t None m_wait h)
  | step_main_error t h error :
      ready t = false -> error <> 0 ->
      hs_step (Handshake t (Some main_thread) m_check h) (wait_error error)
        (Handshake t (Some main_thread) m_failed h)
  | step_spurious t o h :
      hs_step (Handshake t o m_wait h) spurious (Handshake t o m_relock h)
  | step_main_relock t h :
      hs_step (Handshake t None m_relock h) by_main (Handshake t (Some main_thread) m_check h)
  | step_main_unlock t h :
      hs_step (Handshake t (Some main_thread) m_unlock h) by_main (Handshake t None m_ready h)
  | step_handler_tid t o m :
      hs_step (Handshake t o m h_tid) by_handler (Handshake (set_tid (env_gettid (pt_thread t)) t) o m h_lock)
  | step_handler_lock t m :
      hs_step (Handshake t None m h_lock) by_handler (Handshake t (Some handler_thread) m h_set)
  | step_handler_set t o m :
      hs_step (Handshake t o m h_set) by_handler (Handshake (timerlib_notify_ready t) o m h_broadcast)
  | step_handler_broadcast t o m :
      hs_step (Handshake t o m h_broadcast) by_handler
        (Handshake t o (match m with m_wait => m_relock | _ => m end) h_unlock)
  | step_handler_unlock t m :
      hs_step (Handshake t (Some handler_thread) m h_unlock) by_handler (Handshake t None m h_loop).

Inductive hs_steps : handshake -> list hs_label -> handshake -> Prop :=
  | hs_steps_nil x : hs_steps x [] x
  | hs_steps_snoc x tr y a z : hs_steps x tr y -> hs_step y a z -> hs_steps x (tr ++ [a]) z.

(** The same, executable: the step of a thread is determined by its label. *)
Definition hs_next x (a : hs_label) : option handshake :=
  let '(Handshake t o m h) := x in
  match a with
  | by_main =>
      match m, o with
      | (m_lock | m_relock), None => Some (Handshake t (Some main_thread) m_check h)
      | m_check, Some main_thread =>
          if ready t then Some (Handshake t o m_unlock h) else Some (Handshake t None m_wait h)
      | m_unlock, Some main_thread => Some (Handshake t None m_ready h)
      | _, _ => None
      end
  | by_handler =>
      match h, o with
      | h_tid, _ => Some (Handshake (set_tid (env_gettid (pt_thread t)) t) o m h_lock)
      | h_lock, None => Some (Handshake t (Some handler_thread) m h_set)
      | h_set, _ => Some (Handshake (timerlib_notify_ready t) o m h_broadcast)
      | h_broadcast, _ => Some (Handshake t o (match m with m_wait => m_relock | _ => m end) h_unlock)
      | h_unlock, Some handler_thread => Some (Handshake t None m h_loop)
      | _, _ => None
      end
  | spurious => match m with m_wait => Some (Handshake t o m_relock h) | _ => None end
  | wait_error error =>
      match m, o with
      | m_check, Some main_thread =>
          if ready t || (error =? 0) then None else Some (Handshake t o m_failed h)
      | _, _ => None
      end
  end.

Fixpoint hs_run (tr : list hs_label) x : option handshake :=
  match tr with
  | [] => Some x
  | a :: tr' => match hs_next x a with Some y => hs_run tr' y | None => None end
  end.

(** After [pthread_create] of a timer that is not ready yet. *)
Definition hs_start t : handshake := Handshake t None m_lock h_tid.

(** ** Specification *)

Definition is_spurious (a : hs_label) : bool := match a with spurious => true | _ => false end.

Definition no_error (a : hs_label) : Prop := match a with wait_error _ => False | _ => True end.

(** What the handler has written when it is at [h]. *)
Definition written t (h : handler_pc) : posix_timer :=
  match h with
  | h_tid => t
  | h_lock | h_set => set_tid (env_gettid (pt_thread t)) t
  | h_broadcast | h_unlock | h_loop => thread_start t
  end.

Definition main_critical (m : main_pc) : bool :=
  match m with m_check | m_unlock | m_failed => true | _ => false end.

Definition handler_critical (h : handler_pc) : bool :=
  match h with h_set | h_broadcast | h_unlock => true | _ => false end.

Definition is_written (h : handler_pc) : bool :=
  match h with h_broadcast | h_unlock | h_loop => true | _ => false end.

(** Where the threads can be at the same time: not both have the mutex, no
    thread waits for a broadcast that is over, the main thread passes only when
    the handler has written, and a failure stops the handler before it has. *)
Definition together (m : main_pc) (h : handler_pc) : bool :=
  negb (main_critical m && handler_critical h) &&
  match m, h with
  | m_wait, (h_unlock | h_loop) => false
  | (m_unlock | m_ready), _ => is_written h
  | m_failed, _ => negb (is_written h)
  | _, _ => true
  end.

Record hs_inv t0 x : Prop := HsInv {
  hi_timer : hs_timer x = written t0 (hs_handler x);
  hi_owner : hs_owner x = (if main_critical (hs_main x) then Some main_thread
    else if handler_critical (hs_handler x) then Some handler_thread else None);
  hi_together : together (hs_main x) (hs_handler x) = true
}.

(** Decreases with every step that is not a spurious wake-up. *)
Definition main_measure (m : main_pc) (h : handler_pc) : nat :=
  match m with
  | m_lock => 5
  | m_check => match h with h_unlock | h_loop => 2 | _ => 4 end
  | m_wait => 1
  | m_relock => match h with h_unlock | h_loop => 3 | _ => 5 end
  | m_unlock => 1
  | m_ready | m_failed => 0
  end.

Definition handler_measure (h : handler_pc) : nat :=
  match h with h_tid => 5 | h_lock => 4 | h_set => 3 | h_broadcast => 2 | h_unlock => 1 | h_loop => 0 end.

Definition hs_measure (x : handshake) : nat :=
  main_measure (hs_main x) (hs_handler x) + 4 * handler_measure (hs_handler x).

Definition spurious_count (tr : list hs_label) : nat := length (List.filter is_spurious tr).

End handshake.

(** ** Lemmas *)

Section handshake_facts.
  Context {E : Type} `{PosixEnv E}.
  Implicit Types (t : posix_timer) (x y : handshake).

Lemma hs_next_step x a y : hs_next x a = Some y <-> hs_step x a y.
Proof.
  split.
  - destruct x as [t o m h]. destruct a; cbn; intros Hn; repeat case_match; simplify_eq/=;
      try match goal with Hb : _ || _ = false |- _ => apply orb_false_iff in Hb as [? ?%Z.eqb_neq] end;
      econstructor; done.
  - destruct 1 as [|t h Hr|t h Hr|t h error Hr He%Z.eqb_neq| | | | | | | |]; cbn; by rewrite ?Hr, ?He.
Qed.

Lemma hs_steps_trans x tr y tr' z : hs_steps x tr y -> hs_steps y tr' z -> hs_steps x (tr ++ tr') z.
Proof.
  intros H1 H2. induction H2 as [|y tr' z a w H2 IH Hs]; [by rewrite app_nil_r|].
  rewrite app_assoc. by eapply hs_steps_snoc; [apply IH|].
Qed.

Lemma hs_run_sound tr x y : hs_run tr x = Some y -> hs_steps x tr y.
Proof.
  revert x. induction tr as [|a tr IH]; intros x; cbn [hs_run]; [intros [= <-]; constructor|].
  destruct (hs_next x a) as [z|] eqn:Hn; [|done]. intros Hrun%IH. apply hs_next_step in Hn.
  apply (hs_steps_trans _ [a] z); [|done]. apply (hs_steps_snoc _ [] x); [constructor|done].
Qed.

Lemma written_ready t h : ready t = false -> ready (written t h) = is_written h.
Proof. by destruct h. Qed.

Lemma hs_start_inv t : hs_inv t (hs_start t).
Proof. by split. Qed.

(** A step from a state with the invariant, with the threads spelled out. *)
Ltac step_cases :=
  match goal with
  | Hr : ready ?t0 = false, Hi : hs_inv ?t0 ?x, Hs : hs_step ?x _ _ |- _ =>
      let Hwr := fresh "Hwr" in
      pose proof (written_ready t0 (hs_handler x) Hr) as Hwr;
      destruct Hi as [Ht Ho Hg]; rewrite <-Ht in Hwr; destruct Hs; cbn in Ht, Ho, Hg, Hwr;
      repeat match goal with h : handler_pc |- _ => destruct h | m : main_pc |- _ => destruct m end;
      cbn in Ht, Ho, Hg, Hwr; try congruence
  end.

Lemma hs_step_inv t0 x a y : ready t0 = false -> hs_inv t0 x -> hs_step x a y -> hs_inv t0 y.
Proof. intros Hr Hinv Hstep. step_cases; split; cbn; by subst. Qed.

Lemma hs_step_measure t0 x a y :
  ready t0 = false -> hs_inv t0 x -> hs_step x a y ->
  if is_spurious a then (hs_measure y <= hs_measure x + 4)%nat else (hs_measure y < hs_measure x)%nat.
Proof. intros Hr Hinv Hstep. step_cases; unfold hs_measure; cbn; lia. Qed.

Lemma hs_steps_inv t0 tr x :
  ready t0 = false -> hs_steps (hs_start t0) tr x ->
  hs_inv t0 x /\ (length tr + hs_measure x <= 25 + 5 * spurious_count tr)%nat.
Proof.
  intros Hr Hsteps. remember (hs_start t0) as x0 eqn:Hx0.
  induction Hsteps as [x|x tr y a z Hsteps IH Hstep]; subst; [by split; [apply hs_start_inv|cbn; lia]|].
  destruct IH as [Hinv Hlen]; [done|]. split; [by eapply hs_step_inv|].
  pose proof (hs_step_measure t0 y a z Hr Hinv Hstep) as Hm. unfold spurious_count in *.
  rewrite List.filter_app, !length_app. destruct a; cbn in *; lia.
Qed.

(** Unless the wait has failed, a thread can go on until both are done. *)
Lemma hs_progress t0 x :
  ready t0 = false -> hs_inv t0 x -> hs_main x <> m_failed ->
  hs_main x = m_ready /\ hs_handler x = h_loop \/ exists a y, hs_step x a y /\ a <> spurious /\ no_error a.
Proof.
  intros Hr [Ht Ho Hg] Hf. pose proof (written_ready t0 (hs_handler x) Hr) as Hwr. rewrite <-Ht in Hwr.
  destruct x as [t o m h]; cbn in *. subst o.
  destruct m, h; cbn in *; try congruence; first
    [ by left
    | right; eexists by_handler, _; split; [constructor|done]
    | right; eexists by_main, _; split; [by constructor|done] ].
Qed.

(** A failure keeps the mutex. *)
Lemma hs_failed_stays t0 x a y :
  ready t0 = false -> hs_inv t0 x -> hs_main x = m_failed -> hs_step x a y -> hs_main y = m_failed.
Proof. intros Hr Hinv Hm Hstep. step_cases; done. Qed.

Lemma hs_steps_failed t0 tr x tr' y :
  ready t0 = false -> hs_steps (hs_start t0) tr x -> hs_main x = m_failed -> hs_steps x tr' y ->
  hs_inv t0 y /\ hs_main y = m_failed.
Proof.
  intros Hr Hsteps Hm Hsteps'. induction Hsteps' as [x|x tr' y a z Hsteps' IH Hstep].
  - split; [by apply (hs_steps_inv t0 tr)|done].
  - destruct IH as [Hinv Hy]; [done..|]. split; [by eapply hs_step_inv|by eapply hs_failed_stays].
Qed.

Lemma hs_no_failure t0 tr x : hs_steps (hs_start t0) tr x -> Forall no_error tr -> hs_main x <> m_failed.
Proof.
  intros Hsteps. remember (hs_start t0) as x0 eqn:Hx0.
  induction Hsteps as [x|x tr y a z Hsteps IH Hstep]; intros Hne; subst; [done|].
  apply Forall_app in Hne as [Hne Ha]. rewrite Forall_singleton in Ha. specialize (IH eq_refl Hne).
  destruct Hstep; cbn in *; try done; repeat case_match; congruence.
Qed.

(** ** Properties *)


(** A failed wait blocks the handler thread for ever: [timerlib_timer_init]
    returns with [ready_mutex] locked, so that the handler thread, which has not
    been ready, never gets the mutex and never comes to the loop where it would
    notice that it should exit. [timerlib_timer_destroy], which joins the thread,
    then does not return. *)
Theorem failed_wait_blocks t0 tr x tr' y :
  ready t0 = false -> hs_steps (hs_start t0) tr x -> hs_main x = m_failed -> hs_steps x tr' y ->
  hs_owner y = Some main_thread /\ (hs_handler y = h_tid \/ hs_handler y = h_lock).
Proof.
  intros Hr Hsteps Hm Hsteps'. destruct (hs_steps_failed t0 tr x tr' y Hr Hsteps Hm Hsteps') as [[_ Ho Hg] Hy].
  rewrite Hy in Ho, Hg. split; [done|]. destruct (hs_handler y); cbn in Hg; auto; discriminate.
Qed.

End handshake_facts.

(** ** Witnesses *)

Section witnesses.
  #[local] Existing Instance ex_posix_env.

Definition ex_posix_timer : posix_timer := set_pthread 3 true posix_timer_zero.

(** The main thread waits, wakes up without a reason, waits again, and is woken up. *)
Definition ex_labels : list hs_label :=
  [by_main; by_main; spurious; by_handler; by_main; by_main; by_handler; by_handler; by_handler; by_handler;
   by_main; by_main; by_main].


Lemma failed_wait_blocks_witness :
  exists x, hs_run [by_main; by_handler; wait_error 22] (hs_start ex_posix_timer) = Some x /\
    hs_owner x = Some main_thread /\ (hs_handler x = h_tid \/ hs_handler x = h_lock).
Proof.
  destruct (hs_run [by_main; by_handler; wait_error 22] (hs_start ex_posix_timer)) as [x|] eqn:Hrun;
    [|vm_compute in Hrun; discriminate].
  exists x. split; [reflexivity|].
  apply (failed_wait_blocks ex_posix_timer [by_main; by_handler; wait_error 22] x []).
  - reflexivity.
  - by apply hs_run_sound.
  - vm_compute in Hrun. by injection Hrun as <-.
  - apply hs_steps_nil.
Defined.

End witnesses.
