(* ===== verification/PosixSignals.v ===== *)
(** * Signals and the handler thread on POSIX timers

    The handler thread must not run the process's signal handlers, and a timer's
    signal that comes before the thread waits for it must not end the process.
    [timerlib_posix.c] blocks all signals for it, in one of two ways:
    with an attribute of the new thread where [pthread_attr_setsigmask_np]
    exists, otherwise by blocking the signals of the main thread while the thread
    is created. This file has the signal masks of the threads and the signals of
    the process as a step relation; signals arrive at any moment.

    A set of signals is an integer with a bit for each signal. The two signals
    that cannot be blocked, SIGKILL and SIGSTOP, are left out. *)

From S2P Require Import Prelude Timespec PendingList Timer TimerlibCommon TimerlibPosix.

(** ** Sets of signals *)

Definition sigset : Type := Z.

Definition sigemptyset : sigset := 0.
Definition sigfillset : sigset := Z.ones 64.
Definition sigaddset (set : sigset) (n : Z) : sigset := Z.lor set (Z.shiftl 1 (n - 1)).
Definition sigdelset (set : sigset) (n : Z) : sigset := Z.ldiff set (Z.shiftl 1 (n - 1)).
Definition sigismember (set : sigset) (n : Z) : bool := Z.testbit set (n - 1).

Definition SIGKILL : Z := 9.
Definition SIGSTOP : Z := 19.
Definition is_signal (n : Z) : Prop := 1 <= n <= 64 /\ n <> SIGKILL /\ n <> SIGSTOP.

(** [SIGRTMIN] of the platform, and [TIMERLIB_SIGNAL]. *)
Class Signals : Type := {
  SIGRTMIN : Z;
  SIGRTMIN_range : 32 <= SIGRTMIN < 64
}.

Definition TIMERLIB_SIGNAL `{Signals} : Z := SIGRTMIN + 1.

(** ** Threads and their signals *)

(** The masks of the main thread and of the handler threads; the signals that
    are pending for the process, and the handler threads for which a timer's
    signal is pending; which threads ran the handlers of which signals ([None]
    is the main thread). A signal whose default action ends the process was not
    delivered while [sp_alive]. *)
Record sig_process : Type := SigProcess {
  sp_mask : sigset;
  sp_handlers : gmap Z sigset;
  sp_shared : sigset;
  sp_private : gset Z;
  sp_handled : list (option Z * Z);
  sp_alive : bool
}.

Definition set_mask (m : sigset) (y : sig_process) : sig_process :=
  SigProcess m (sp_handlers y) (sp_shared y) (sp_private y) (sp_handled y) (sp_alive y).
Definition set_handlers (h : gmap Z sigset) (y : sig_process) : sig_process :=
  SigProcess (sp_mask y) h (sp_shared y) (sp_private y) (sp_handled y) (sp_alive y).
Definition set_shared (m : sigset) (y : sig_process) : sig_process :=
  SigProcess (sp_mask y) (sp_handlers y) m (sp_private y) (sp_handled y) (sp_alive y).
Definition set_private (p : gset Z) (y : sig_process) : sig_process :=
  SigProcess (sp_mask y) (sp_handlers y) (sp_shared y) p (sp_handled y) (sp_alive y).
Definition add_handled (who : option Z) (n : Z) (y : sig_process) : sig_process :=
  SigProcess (sp_mask y) (sp_handlers y) (sp_shared y) (sp_private y) (sp_handled y ++ [(who, n)]) (sp_alive y).
Definition kill_process (y : sig_process) : sig_process :=
  SigProcess (sp_mask y) (sp_handlers y) (sp_shared y) (sp_private y) (sp_handled y) false.

(** ** The functions of [timerlib_posix.c] *)

Section signals.
  Context `{Signals} (HAVE_PTHREAD_ATTR_SETSIGMASK_NP : bool).
  Implicit Types (y : sig_process) (attr old_sigmask : option sigset).

(** [attr] is the signal mask in the attributes of the new thread, [old_sigmask]
    the variable of the caller, [None] before it is set. *)
Definition timerlib_block_signals attr old_sigmask y : sig_process * (option sigset * option sigset) :=
  let sigmask := sigfillset in
  if HAVE_PTHREAD_ATTR_SETSIGMASK_NP then (y, (Some sigmask, old_sigmask))
  else (set_mask (Z.lor (sp_mask y) sigmask) y, (attr, Some (sp_mask y))).

Definition timerlib_unblock_signals old_sigmask y : outcome sig_process :=
  if HAVE_PTHREAD_ATTR_SETSIGMASK_NP then Ok y
  else
    match old_sigmask with
    | Some m => Ok (set_mask m y)
    | None => Crash "uninitialised variable"
    end.

(** A new thread has the mask of its attributes, or that of its creator. *)
Definition pthread_create (tid : Z) attr y : sig_process :=
  set_handlers (<[tid := default (sp_mask y) attr]> (sp_handlers y)) y.

(** The set that the handler thread waits for. *)
Definition wait_set : sigset := sigaddset sigemptyset TIMERLIB_SIGNAL.

(** Where [timerlib_timer_init] is. *)
Inductive init_pc : Type :=
  | i_block                                   (* timerlib_block_signals *)
  | i_create (attr old_sigmask : option sigset) (* pthread_create *)
  | i_unblock (old_sigmask : option sigset)   (* timerlib_unblock_signals *)
  | i_done.

Inductive sig_label : Type :=
  | l_block
  | l_create (r : option Z)            (* the new thread, or none after an error *)
  | l_unblock
  | l_again                            (* another timer is initialised *)
  | l_raise (n : Z)                    (* the process gets a signal *)
  | l_handle (who : option Z) (n : Z)  (* a thread runs the handler of a signal *)
  | l_timer (tid : Z)                  (* TIMERLIB_SIGNAL for a handler thread, by its timer or pthread_kill *)
  | l_default (tid : Z)                (* its default action *)
  | l_wait (tid : Z)                   (* sigwaitinfo takes it *)
  | l_wait_shared (tid : Z)            (* sigwaitinfo takes one that was sent to the process *)
  | l_exit (tid : Z).                  (* the thread ends *)

Definition sig_sys : Type := init_pc * sig_process.

Inductive sig_step : sig_sys -> sig_label -> sig_sys -> Prop :=
  | step_block y y' attr old_sigmask :
      timerlib_block_signals None None y = (y', (attr, old_sigmask)) ->
      sig_step (i_block, y) l_block (i_create attr old_sigmask, y')
  | step_create y attr old_sigmask tid :
      sp_handlers y !! tid = None ->
      sig_step (i_create attr old_sigmask, y) (l_create (Some tid)) (i_unblock old_sigmask, pthread_create tid attr y)
  | step_create_error y attr old_sigmask :
      sig_step (i_create attr old_sigmask, y) (l_create None) (i_unblock old_sigmask, y)
  | step_unblock y y' old_sigmask :
      timerlib_unblock_signals old_sigmask y = Ok y' ->
      sig_step (i_unblock old_sigmask, y) l_unblock (i_done, y')
  | step_again y : sig_step (i_done, y) l_again (i_block, y)
  | step_raise pc y n :
      is_signal n -> sig_step (pc, y) (l_raise n) (pc, set_shared (sigaddset (sp_shared y) n) y)
  | step_handle_main pc y n :
      is_signal n -> sigismember (sp_shared y) n = true -> sigismember (sp_mask y) n = false ->
      sig_step (pc, y) (l_handle None n) (pc, add_handled None n (set_shared (sigdelset (sp_shared y) n) y))
  | step_handle_thread pc y tid mask n :
      is_signal n -> sp_handlers y !! tid = Some mask ->
      sigismember (sp_shared y) n = true -> sigismember mask n = false ->
      sig_step (pc, y) (l_handle (Some tid) n)
        (pc, add_handled (Some tid) n (set_shared (sigdelset (sp_shared y) n) y))
  | step_timer pc y tid :
      is_Some (sp_handlers y !! tid) ->
      sig_step (pc, y) (l_timer tid) (pc, set_private ({[tid]} ∪ sp_private y) y)
  | step_default pc y tid mask :
      tid ∈ sp_private y -> sp_handlers y !! tid = Some mask -> sigismember mask TIMERLIB_SIGNAL = false ->
      sig_step (pc, y) (l_default tid) (pc, kill_process y)
  | step_wait pc y tid :
      tid ∈ sp_private y -> is_Some (sp_handlers y !! tid) -> sigismember wait_set TIMERLIB_SIGNAL = true ->
      sig_step (pc, y) (l_wait tid) (pc, set_private (sp_private y ∖ {[tid]}) y)
  | step_wait_shared pc y tid n :
      is_Some (sp_handlers y !! tid) -> is_signal n ->
      sigismember (sp_shared y) n = true -> sigismember wait_set n = true ->
      sig_step (pc, y) (l_wait_shared tid) (pc, set_shared (sigdelset (sp_shared y) n) y)
  | step_exit pc y tid :
      is_Some (sp_handlers y !! tid) ->
      sig_step (pc, y) (l_exit tid)
        (pc, set_private (sp_private y ∖ {[tid]}) (set_handlers (delete tid (sp_handlers y)) y)).

Inductive sig_steps : sig_sys -> list sig_label -> sig_sys -> Prop :=
  | sig_steps_nil x : sig_steps x [] x
  | sig_steps_snoc x tr (y : sig_sys) a z : sig_steps x tr y -> sig_step y a z -> sig_steps x (tr ++ [a]) z.

(** ** Specification *)

(** No timer was made yet. *)
Definition sig_initial (x : sig_sys) : Prop :=
  x.1 = i_block /\ sp_handlers x.2 = ∅ /\ sp_shared x.2 = 0 /\ sp_private x.2 = ∅ /\ sp_handled x.2 = [] /\
  sp_alive x.2 = true.

(** A mask that blocks every signal. *)
Definition blocks_all (m : sigset) : Prop := forall n, is_signal n -> sigismember m n = true.

(** What the new thread's mask will be. *)
Definition masks_ok (m0 : sigset) (pc : init_pc) y : Prop :=
  match pc with
  | i_block | i_done => sp_mask y = m0
  | i_create attr old_sigmask =>
      blocks_all (default (sp_mask y) attr) /\ exists y', timerlib_unblock_signals old_sigmask y = Ok y' /\ sp_mask y' = m0
  | i_unblock old_sigmask => exists y', timerlib_unblock_signals old_sigmask y = Ok y' /\ sp_mask y' = m0
  end.

Record sig_inv (m0 : sigset) (tr : list sig_label) (x : sig_sys) : Prop := SigInv {
  si_masks : masks_ok m0 x.1 x.2;
  si_handlers : forall tid m, sp_handlers x.2 !! tid = Some m -> blocks_all m;
  si_alive : sp_alive x.2 = true;
  si_main : Forall (fun h => h.1 = None) (sp_handled x.2);
  si_signals : forall n, l_raise n ∈ tr -> is_signal n;
  si_kept : forall n, l_raise n ∈ tr -> n <> TIMERLIB_SIGNAL ->
    sigismember (sp_shared x.2) n = true \/ (None, n) ∈ sp_handled x.2
}.

End signals.

(** ** Lemmas: sets of signals *)

Lemma signal_bit n k : is_signal n -> is_signal k -> Z.testbit (Z.shiftl 1 (n - 1)) (k - 1) = bool_decide (k = n).
Proof.
  unfold is_signal. intros Hn Hk. rewrite Z.shiftl_spec by lia. case_bool_decide as Hkn.
  - subst k. by replace (n - 1 - (n - 1)) with 0 by lia.
  - destruct (Z.lt_ge_cases (k - 1 - (n - 1)) 0); [by apply Z.testbit_neg_r|].
    apply Z.bits_above_log2; [lia|]. simpl. lia.
Qed.

Lemma member_add set n k : is_signal n -> is_signal k ->
  sigismember (sigaddset set n) k = bool_decide (k = n) || sigismember set k.
Proof.
  intros Hn Hk. unfold sigismember, sigaddset. by rewrite Z.lor_spec, signal_bit, orb_comm.
Qed.

Lemma member_del set n k : is_signal n -> is_signal k ->
  sigismember (sigdelset set n) k = negb (bool_decide (k = n)) && sigismember set k.
Proof.
  intros Hn Hk. unfold sigismember, sigdelset. by rewrite Z.ldiff_spec, signal_bit, andb_comm.
Qed.

Lemma fill_blocks : blocks_all sigfillset.
Proof.
  intros n Hn. unfold is_signal in Hn. apply Z.ones_spec_low. lia.
Qed.

Lemma lor_blocks m m' : blocks_all m' -> blocks_all (Z.lor m m').
Proof. intros Hb n Hn. unfold sigismember. rewrite Z.lor_spec. fold (sigismember m' n). by rewrite Hb, orb_true_r. Qed.

Section signal_facts.
  Context `{Signals} (have_np : bool).
  Abbreviation step := (sig_step have_np).
  Abbreviation steps := (sig_steps have_np).
  Abbreviation inv := (sig_inv have_np).

Lemma timerlib_signal_ok : is_signal TIMERLIB_SIGNAL.
Proof. unfold is_signal, SIGKILL, SIGSTOP, TIMERLIB_SIGNAL. pose proof SIGRTMIN_range. lia. Qed.

(** The handler thread waits for its signal only. *)
Lemma wait_set_member n : is_signal n -> sigismember wait_set n = bool_decide (n = TIMERLIB_SIGNAL).
Proof.
  intros Hn. unfold wait_set. rewrite member_add by (done || apply timerlib_signal_ok).
  unfold sigismember, sigemptyset. by rewrite Z.bits_0, orb_false_r.
Qed.

Lemma masks_ok_same m0 pc y y' : sp_mask y' = sp_mask y -> masks_ok have_np m0 pc y -> masks_ok have_np m0 pc y'.
Proof.
  intros Hm. unfold masks_ok, timerlib_unblock_signals. rewrite Hm.
  destruct pc as [|attr [old|]|[old|]|], have_np; naive_solver.
Qed.

Lemma inv_mask m0 tr x a x' : inv m0 tr x -> step x a x' -> masks_ok have_np m0 x'.1 x'.2.
Proof.
  intros [Hm _ _ _ _ _] Hstep. destruct Hstep as [y y' attr old Hb|y attr old tid Hno|y attr old|y y' old Hu| | | | | | | | |];
    cbn in *; try (by eapply masks_ok_same; [|done]).
  - unfold timerlib_block_signals in Hb. unfold timerlib_unblock_signals.
    destruct have_np; injection Hb as <- <- <-; cbn;
      (split; [|by eexists]); [apply fill_blocks|apply lor_blocks, fill_blocks].
  - destruct Hm as [_ Hm]. apply (masks_ok_same m0 (i_unblock old) y); done.
  - apply Hm.
  - destruct Hm as (y1 & Hu1 & Hm1). congruence.
  - done.
Qed.

Lemma block_other y y' attr old :
  timerlib_block_signals have_np None None y = (y', (attr, old)) -> y' = set_mask (sp_mask y') y.
Proof. unfold timerlib_block_signals. destruct y, have_np; by intros [= <- _ _]. Qed.

Lemma unblock_other y y' old :
  timerlib_unblock_signals have_np old y = Ok y' -> y' = set_mask (sp_mask y') y.
Proof. unfold timerlib_unblock_signals. destruct y, have_np, old; by intros [= <-]. Qed.

Lemma inv_handlers m0 tr x a x' : inv m0 tr x -> step x a x' ->
  (forall tid m, sp_handlers x'.2 !! tid = Some m -> blocks_all m) /\ sp_alive x'.2 = true /\
  Forall (fun h => h.1 = None) (sp_handled x'.2).
Proof.
  intros [Hm Hh Ha Hmain _ _] Hstep. destruct Hstep as [y y' attr old Hb|y attr old tid Hno|y attr old|y y' old Hu
    | | |pc y n Hn Hs Hmask|pc y tid m n Hn Ht Hs Hmask| |pc y tid m Hp Ht Hmask| | |]; cbn in *;
    try (by split_and!).
  - apply block_other in Hb as ->. by split_and!.
  - split_and!; [|done..]. intros tid' m [[<- <-]|[_ Ht]]%lookup_insert_Some; [apply Hm|by eapply Hh].
  - apply unblock_other in Hu as ->. by split_and!.
  - split_and!; [done..|]. apply Forall_app. split; [done|by repeat constructor].
  - rewrite (Hh tid m Ht n Hn) in Hmask. done.
  - rewrite (Hh tid m Ht _ timerlib_signal_ok) in Hmask. done.
  - split_and!; [|done..]. intros tid' m [_ Ht]%lookup_delete_Some. by eapply Hh.
Qed.

(** A signal stays pending until it is handled. *)
Lemma inv_kept m0 tr x a x' : inv m0 tr x -> step x a x' ->
  forall n, l_raise n ∈ tr ++ [a] -> is_signal n /\
    (n <> TIMERLIB_SIGNAL -> sigismember (sp_shared x'.2) n = true \/ (None, n) ∈ sp_handled x'.2).
Proof.
  intros [_ Hh _ _ Hsig Hk] Hstep n Hn. rewrite elem_of_app, list_elem_of_singleton in Hn.
  assert (Hold : l_raise n ∈ tr -> is_signal n /\
    (n <> TIMERLIB_SIGNAL -> sigismember (sp_shared x.2) n = true \/ (None, n) ∈ sp_handled x.2)) by auto.
  destruct Hstep as [y y' attr old Hb|y attr old tid Hno|y attr old|y y' old Hu
    | |pc y m Hm|pc y m Hm Hs Hmask|pc y tid mask m Hm Ht Hs Hmask| | | |pc y tid m Ht Hm Hs Hw|]; cbn in *;
    try (destruct Hn as [Hn|Hn]; [by apply Hold|done]).
  - apply block_other in Hb as ->. destruct Hn as [Hn|Hn]; [by apply Hold|done].
  - apply unblock_other in Hu as ->. destruct Hn as [Hn|Hn]; [by apply Hold|done].
  - destruct Hn as [Hn|[= ->]].
    + destruct (Hold Hn) as [Hs Hkn]. split; [done|]. intros [Hk1|Hk1]%Hkn; [|by right].
      left. by rewrite member_add, Hk1, orb_true_r.
    + split; [done|]. left. by rewrite member_add, bool_decide_true.
  - destruct Hn as [Hn|Hn]; [|done]. destruct (Hold Hn) as [Hsn Hkn]. split; [done|].
    rewrite elem_of_app, list_elem_of_singleton, member_del by done. intros [Hk1|Hk1]%Hkn; [|auto].
    case_bool_decide; [subst; auto|]. by left.
  - rewrite (Hh tid mask Ht m Hm) in Hmask. done.
  - destruct Hn as [Hn|Hn]; [|done]. destruct (Hold Hn) as [Hsn Hkn]. split; [done|].
    intros Hne. rewrite wait_set_member in Hw by done. apply bool_decide_eq_true in Hw as ->.
    rewrite member_del, bool_decide_false by done. by apply Hkn.
Qed.

Lemma inv_step m0 tr x a x' : inv m0 tr x -> step x a x' -> inv m0 (tr ++ [a]) x'.
Proof.
  intros Hinv Hstep. destruct (inv_handlers _ _ _ _ _ Hinv Hstep) as (Hh & Ha & Hmain). split; [|done..| |].
  - by eapply inv_mask.
  - intros n Hn. by destruct (inv_kept _ _ _ _ _ Hinv Hstep n Hn).
  - intros n Hn. by destruct (inv_kept _ _ _ _ _ Hinv Hstep n Hn).
Qed.

Lemma inv_reachable x tr x' : sig_initial x -> steps x tr x' -> inv (sp_mask x.2) tr x'.
Proof.
  intros (Hpc & Hh & Hs & Hp & Hd & Ha) Hsteps. induction Hsteps as [x|x tr y a z Hsteps IH Hstep].
  - destruct x as [pc y]. cbn in *. subst pc. split; cbn; rewrite ?Hh, ?Hd; try done.
    all: intros n Hn; by apply elem_of_nil in Hn.
  - eapply inv_step; [by apply IH|done].
Qed.

(** ** Properties *)


End signal_facts.

(** ** Witness *)

#[local] Instance ex_signals : Signals.
Proof. refine {| SIGRTMIN := 34 |}. lia. Defined.

Definition ex_process : sig_process := SigProcess 0 ∅ 0 ∅ [] true.

