(* ===== verification/TimerlibKqueue.v ===== *)
(** * The timer library on kqueue

    Models [timerlib/timerlib_kqueue.c] and [timerlib_kqueue.h], the
    implementation for BSD and macOS, as a second instance of [Timerlib]. The
    system calls are the class [KqueueEnv]. The handler thread is a function of
    the results of its calls of [kevent]. *)

From S2P Require Import Prelude Timespec PendingList Timer TimerlibCommon.

(** ** Data *)

(** [timerlib_timer_t]. Its [overrun_count] is never used. The notify function
    is always [excimer_timer_handle], called with [kq_notify_data]. *)
Record kqueue_timer : Type := KqTimer {
  kq : Z;
  kq_period : timespec;
  kq_initial : timespec;
  kq_notify_data : option ptr;
  handler_thread_id : Z;
  last_fired_at : timespec
}.

Definition EINTR : Z := 4.
Definition EBADF : Z := 9.
Definition EV_ADD : Z := 1.
Definition EV_ENABLE : Z := 4.
Definition EV_ONESHOT : Z := 16.

(** System calls. A number is an error number, zero for success. *)
Class KqueueEnv (E : Type) : Type := {
  env_kqueue : E -> E * (Z + Z);
  env_kevent_set : Z -> Z -> Z -> E -> E * Z;
  env_close : Z -> E -> E * Z;
  env_kq_thread_create : E -> E * (Z + Z);
  env_kq_join : Z -> E -> E * Z;
  env_mutex_destroy : E -> E * Z;
  env_monotonic : E -> E * (Z + timespec);
  (** The contents of an uninitialised variable. *)
  env_uninitialised : E -> E * timespec
}.

(** The result of a [kevent] that waits: an error number, or the number of
    events and the [data] of the event, its number of expirations. *)
Inductive kevent_result : Type :=
  | kevent_error (errno : Z)
  | kevent_events (n data : Z).

Section kqueue.
  Context {E : Type} `{KqueueEnv E}.
  Implicit Types (t : kqueue_timer) (o : sys_os E).

Definition set_kq_times (period initial : timespec) t : kqueue_timer :=
  KqTimer (kq t) period initial (kq_notify_data t) (handler_thread_id t) (last_fired_at t).
Definition set_kq (fd : Z) t : kqueue_timer :=
  KqTimer fd (kq_period t) (kq_initial t) (kq_notify_data t) (handler_thread_id t) (last_fired_at t).
Definition set_handler_thread (th : Z) t : kqueue_timer :=
  KqTimer (kq t) (kq_period t) (kq_initial t) (kq_notify_data t) th (last_fired_at t).
Definition set_last_fired (ts : timespec) t : kqueue_timer :=
  KqTimer (kq t) (kq_period t) (kq_initial t) (kq_notify_data t) (handler_thread_id t) ts.

(** ** Functions of [timerlib_kqueue.c] *)

(** [old] is the contents of [*time], which an error leaves alone. *)
Definition kqueue_clock_get_time (old : timespec) : Sys E (timespec * bool) :=
  r ← call env_monotonic;
  match r with
  | inl errno => _ ← timerlib_report_errno "clock_gettime" errno; mret (old, false)
  | inr now => mret (now, true)
  end.

(** The result: the timer, the overrun count [notify_function] is called with,
    and whether the thread goes on. [timerlib_abort] is [Fatal]. *)
Definition timerlib_handle_timer_event t (r : kevent_result) :
    Sys E (outcome (kqueue_timer * list Z * bool)) :=
  match r with
  | kevent_error errno =>
      if negb (errno =? EINTR) then
        if negb (errno =? EBADF) then mret (Fatal "kevent") else mret (Ok (t, [], false))
      else mret (Ok (t, [], true))
  | kevent_events n data =>
      if 0 <? n then
        now ← kqueue_clock_get_time (last_fired_at t);
        let overrun_count := wrap_i32 (wrap_i32 data - 1) in
        mret (Ok (set_last_fired now.1 t, [overrun_count], true))
      else mret (Ok (t, [], true))
  end.

Definition timerlib_setup_kqueue_timer t (flags : Z) (period : timespec) : Sys E bool :=
  let ns := timerlib_timespec_to_ns period in
  errno ← call (env_kevent_set (kq t) flags ns);
  if negb (errno =? 0) then
    _ ← timerlib_report_errno "kevent" errno; mret false
  else _ ← record (ev_kevent (kq t) flags ns); mret true.

(** The last loop of the thread, for the given results of [kevent]: the timer,
    the overrun counts reported, and whether the thread still runs. *)
Fixpoint event_loop (rs : list kevent_result) t (notified : list Z) :
    Sys E (outcome (kqueue_timer * list Z * bool)) :=
  match rs with
  | [] => mret (Ok (t, notified, true))
  | r :: rs' =>
      x ← timerlib_handle_timer_event t r;
      match x with
      | Ok (t, ns, true) => event_loop rs' t (notified ++ ns)
      | Ok (t, ns, false) => mret (Ok (t, notified ++ ns, false))
      | Fatal msg => mret (Fatal msg)
      | Crash why => mret (Crash why)
      | Diverge => mret Diverge
      end
  end.

(** The handler thread: [rs] are the results of [kevent] so far. *)
Definition timerlib_kqueue_handle t (rs : list kevent_result) :
    Sys E (outcome (kqueue_timer * list Z * bool)) :=
  if negb (timerlib_timespec_is_zero (kq_initial t)) then
    match rs with
    | [] => mret (Ok (t, [], true))
    | r :: rs' =>
        x ← timerlib_handle_timer_event t r;
        match x with
        | Ok (t, ns, true) =>
            if timerlib_timespec_is_zero (kq_period t) then mret (Ok (t, ns, false))
            else
              ok ← timerlib_setup_kqueue_timer t (Z.lor EV_ADD EV_ENABLE) (kq_period t);
              if negb ok then mret (Ok (t, ns, false)) else event_loop rs' t ns
        | Ok (t, ns, false) => mret (Ok (t, ns, false))
        | Fatal msg => mret (Fatal msg)
        | Crash why => mret (Crash why)
        | Diverge => mret Diverge
        end
    end
  else event_loop rs t [].

Definition kqueue_timer_zero : kqueue_timer :=
  KqTimer 0 (Timespec 0 0) (Timespec 0 0) None 0 (Timespec 0 0).

Definition kqueue_timer_init (c : Z) (data : ptr) : Sys E (kqueue_timer * bool) :=
  mret (KqTimer (-1) (Timespec 0 0) (Timespec 0 0) (Some data) 0 (Timespec 0 0), true).

Definition kqueue_timer_start t (period initial : timespec) : Sys E (kqueue_timer * bool) :=
  let t := set_kq_times period initial t in
  r ← call env_kqueue;
  match r with
  | inl errno => _ ← timerlib_report_errno "kqueue" errno; mret (t, false)
  | inr fd =>
      _ ← record (ev_kqueue fd);
      let t := set_kq fd t in
      now ← kqueue_clock_get_time (last_fired_at t);
      let t := set_last_fired now.1 t in
      let flags := Z.lor EV_ADD EV_ENABLE in
      ok ←
        (if negb (timerlib_timespec_is_zero initial)
         then timerlib_setup_kqueue_timer t (Z.lor flags EV_ONESHOT) initial
         else timerlib_setup_kqueue_timer t flags period);
      if negb ok then mret (t, false)
      else
        r ← call env_kq_thread_create;
        match r with
        | inl error => _ ← timerlib_report_errno "pthread_create" error; mret (t, false)
        | inr th => _ ← record (ev_pthread_create th); mret (set_handler_thread th t, true)
        end
  end.

Definition kqueue_timer_stop t : Sys E (kqueue_timer * bool) :=
  if negb (kq t =? -1) then
    let t := set_kq_times (Timespec 0 0) (kq_initial t) t in
    errno ← call (env_close (kq t));
    _ ← record (ev_close (kq t));
    if negb (errno =? 0) then _ ← timerlib_report_errno "close" errno; mret (t, false)
    else
      error ← call (env_kq_join (handler_thread_id t));
      _ ← record (ev_pthread_join (handler_thread_id t));
      if negb (error =? 0) then _ ← timerlib_report_errno "pthread_join" error; mret (t, false)
      else mret (t, true)
  else mret (t, true).

Definition kqueue_timer_destroy t : Sys E kqueue_timer :=
  error ← call env_mutex_destroy;
  if negb (error =? 0) then _ ← timerlib_report_errno "pthread_mutex_destroy" error; mret t
  else mret t.

Definition kqueue_timer_get_time t : Sys E (outcome (timespec * bool)) :=
  garbage ← call env_uninitialised;
  now ← kqueue_clock_get_time garbage;
  mret
    (let! will_fire_at := timerlib_timespec_add (kq_period t) (last_fired_at t) in
     let! remaining := timerlib_timespec_subtract will_fire_at now.1 in
     Ok (remaining, true)).

End kqueue.

#[export] Instance kqueue_timerlib {E} `{KqueueEnv E} : Timerlib kqueue_timer (sys_os E) := {
  tl_zero := kqueue_timer_zero;
  timerlib_timer_init c data o := kqueue_timer_init c data o;
  timerlib_timer_start t period initial o := kqueue_timer_start t period initial o;
  timerlib_timer_stop t o := kqueue_timer_stop t o;
  timerlib_timer_destroy t o := kqueue_timer_destroy t o;
  timerlib_timer_get_time t o := kqueue_timer_get_time t o;
  timerlib_clock_get_time _ o :=
    (garbage ← call env_uninitialised; kqueue_clock_get_time garbage) o
}.

(** ** Specification *)

(** What [kevent] normally returns to the thread of a timer: an interruption by
    a signal, or one event with its number of expirations. *)
Definition kevent_ok (r : kevent_result) : Prop :=
  match r with
  | kevent_error errno => errno = EINTR
  | kevent_events n data => n = 1 /\ 1 <= data < 2 ^ 31
  end.

Definition kevent_data (rs : list kevent_result) : list Z :=
  rs ≫= fun r => match r with kevent_events _ data => [data] | _ => [] end.

(** Changing the kernel's timer always succeeds. *)
Definition setup_succeeds {E} `{KqueueEnv E} : Prop :=
  forall fd flags ns e, (env_kevent_set fd flags ns e).2 = 0.

(** ** Lemmas *)

Section kqueue_facts.
  Context {E : Type} `{KqueueEnv E}.
  Implicit Types (t : kqueue_timer) (o : sys_os E).

(** Timers that differ in [last_fired_at] only. *)
Definition same_setting t t' : Prop := exists ts, t' = set_last_fired ts t.

Lemma same_setting_refl t : same_setting t t.
Proof. exists (last_fired_at t). by destruct t. Qed.

Lemma same_setting_trans t1 t2 t3 : same_setting t1 t2 -> same_setting t2 t3 -> same_setting t1 t3.
Proof. intros [ts1 ->] [ts2 ->]. by exists ts2. Qed.

Lemma overrun_of_data data : 1 <= data < 2 ^ 31 -> wrap_i32 (wrap_i32 data - 1) = data - 1.
Proof.
  intros Hd. unfold wrap_i32. rewrite (Z.mod_small (data + 2 ^ 31)) by lia. rewrite Z.mod_small; lia.
Qed.

Lemma kevent_data_cons r rs : kevent_data (r :: rs) = kevent_data [r] ++ kevent_data rs.
Proof. apply (bind_app _ [r] rs). Qed.

Lemma handle_event_ok t r o :
  kevent_ok r ->
  exists o' t', timerlib_handle_timer_event t r o
      = (o', Ok (t', (fun d => d - 1) <$> kevent_data [r], true)) /\
    trace o' = trace o /\ same_setting t t'.
Proof.
  destruct r as [errno|n data]; cbn [kevent_ok].
  - intros ->. exists o, t. split_and!; [done..|apply same_setting_refl].
  - intros [-> Hd]. cbn -[wrap_i32]. unfold kqueue_clock_get_time. rewrite overrun_of_data by done.
    unfold mbind, Sys_bind, call. destruct (env_monotonic (env o)) as [e [errno|now]];
      eexists _, _; (split; [reflexivity|]); (split; [done|]); by eexists.
Qed.

Lemma event_loop_ok rs t ns o :
  Forall kevent_ok rs ->
  exists o' t', event_loop rs t ns o = (o', Ok (t', ns ++ ((fun d => d - 1) <$> kevent_data rs), true)) /\
    trace o' = trace o /\ same_setting t t'.
Proof.
  intros Hrs. revert t ns o. induction Hrs as [|r rs Hr Hrs IH]; intros t ns o.
  { exists o, t. cbn. rewrite app_nil_r. split_and!; [done..|apply same_setting_refl]. }
  destruct (handle_event_ok t r o Hr) as (o1 & t1 & Hrun & Htr1 & Hs1).
  cbn [event_loop]. unfold mbind at 1, Sys_bind at 1. rewrite Hrun.
  destruct (IH t1 (ns ++ ((fun d => d - 1) <$> kevent_data [r])) o1) as (o2 & t2 & Hloop & Htr2 & Hs2).
  exists o2, t2. rewrite Hloop, Htr2. split_and!; [|done|by eapply same_setting_trans].
  by rewrite (kevent_data_cons r rs), fmap_app, app_assoc.
Qed.

Lemma setup_ok t flags period o :
  setup_succeeds (E:=E) ->
  exists o', timerlib_setup_kqueue_timer t flags period o = (o', true) /\
    trace o' = trace o ++ [ev_kevent (kq t) flags (timerlib_timespec_to_ns period)].
Proof.
  intros Hset. unfold timerlib_setup_kqueue_timer, mbind, Sys_bind, call.
  specialize (Hset (kq t) flags (timerlib_timespec_to_ns period) (env o)).
  destruct (env_kevent_set _ _ _ _) as [e errno]. cbn in Hset. subst errno. by eexists.
Qed.

End kqueue_facts.

(** ** Properties *)

Section kqueue_properties.
  Context {E : Type} `{KqueueEnv E}.
  Implicit Types (t : kqueue_timer) (o : sys_os E).

(** The handler thread of a periodic timer goes on as long as nobody closes
    its queue, and reports every expiration: for each event with [n] expirations
    it reports [n - 1] overruns, which the handler counts as [n]. Signals that
    interrupt the wait are ignored, once the initial delay is over; then, if
    there was an initial delay, the kernel's timer is set to the period. *)
Theorem kqueue_thread_reports t n rs o :
  setup_succeeds (E:=E) -> timerlib_timespec_is_zero (kq_period t) = false ->
  1 <= n < 2 ^ 31 -> Forall kevent_ok rs ->
  exists o' t' ns, timerlib_kqueue_handle t (kevent_events 1 n :: rs) o = (o', Ok (t', ns, true)) /\
    ns = (fun d => d - 1) <$> (n :: kevent_data rs) /\
    sum_Z ((fun k => k + 1) <$> ns) = n + sum_Z (kevent_data rs) /\
    trace o' = trace o ++ (if timerlib_timespec_is_zero (kq_initial t) then []
      else [ev_kevent (kq t) (Z.lor EV_ADD EV_ENABLE) (timerlib_timespec_to_ns (kq_period t))]).
Proof.
  intros Hset Hper Hn Hrs.
  assert (Hsum : forall l, sum_Z ((fun k => k + 1) <$> ((fun d => d - 1) <$> l)) = sum_Z l).
  { induction l as [|d l IH]; [done|]. rewrite !fmap_cons, !sum_Z_cons. lia. }
  assert (Hr : kevent_ok (kevent_events 1 n)) by done.
  unfold timerlib_kqueue_handle. destruct (timerlib_timespec_is_zero (kq_initial t)) eqn:Hz; cbn [negb].
  - destruct (event_loop_ok (kevent_events 1 n :: rs) t [] o) as (o' & t' & Hloop & Htr & _); [by constructor|].
    exists o', t'. eexists. split; [exact Hloop|]. rewrite app_nil_r. split_and!; [done| |done].
    exact (Hsum (n :: kevent_data rs)).
  - unfold mbind at 1, Sys_bind at 1.
    destruct (handle_event_ok t _ o Hr) as (o1 & t1 & Hrun & Htr1 & [ts ->]). rewrite Hrun.
    change (kq_period (set_last_fired ts t)) with (kq_period t). rewrite Hper.
    unfold mbind at 1, Sys_bind at 1.
    destruct (setup_ok (set_last_fired ts t) (Z.lor EV_ADD EV_ENABLE) (kq_period t) o1 Hset) as (o2 & Hsu & Htr2).
    rewrite Hsu. cbn [negb].
    edestruct (event_loop_ok rs (set_last_fired ts t)) as (o3 & t3 & Hloop & Htr3 & _); [done|].
    exists o3, t3. eexists. split; [exact Hloop|]. rewrite Htr3, Htr2, Htr1.
    split_and!; [done| |done]. exact (Hsum (n :: kevent_data rs)).
Qed.

(** A signal that interrupts the wait for the initial expiry is taken for
    the expiry: the thread of a one-shot timer ends without a report, whatever
    the kernel would have to report; that of a periodic timer replaces the
    initial delay by the period. *)
Theorem kqueue_initial_interrupted t rs o :
  setup_succeeds (E:=E) -> timerlib_timespec_is_zero (kq_initial t) = false ->
  if timerlib_timespec_is_zero (kq_period t) then
    timerlib_kqueue_handle t (kevent_error EINTR :: rs) o = (o, Ok (t, [], false))
  else exists o', trace o' = trace o ++
      [ev_kevent (kq t) (Z.lor EV_ADD EV_ENABLE) (timerlib_timespec_to_ns (kq_period t))] /\
    timerlib_kqueue_handle t (kevent_error EINTR :: rs) o = event_loop rs t [] o'.
Proof.
  intros Hset Hini. unfold timerlib_kqueue_handle. rewrite Hini. cbn [negb].
  unfold mbind at 1 3, Sys_bind at 1 3. cbn.
  destruct (timerlib_timespec_is_zero (kq_period t)); [done|]. unfold mbind, Sys_bind.
  destruct (setup_ok t (Z.lor EV_ADD EV_ENABLE) (kq_period t) o Hset) as (o' & Hsu & Htr).
  cbn in Hsu. rewrite Hsu. by exists o'.
Qed.

(** The remaining time is the time of the last expiry, or of the start, and
    the period, less the current time. The initial delay has no part in it: of a
    one-shot timer that has not expired yet, it is never positive. *)
Theorem kqueue_remaining_time t o e1 e2 g now :
  env_uninitialised (env o) = (e1, g) -> env_monotonic e1 = (e2, inr now) ->
  timespec_ok (kq_period t) -> timespec_ok (last_fired_at t) -> timespec_ok now ->
  - 2 ^ 61 < tv_sec (kq_period t) < 2 ^ 61 -> - 2 ^ 61 < tv_sec (last_fired_at t) < 2 ^ 61 ->
  timespec_small now ->
  exists o' r, timerlib_timer_get_time t o = (o', Ok (r, true)) /\
    total_ns r = total_ns (last_fired_at t) + total_ns (kq_period t) - total_ns now /\
    (timerlib_timespec_is_zero (kq_period t) = true ->
      total_ns (last_fired_at t) <= total_ns now -> total_ns r <= 0).
Proof.
  intros Hg Hnow Hp Hl Hn Hsp Hsl Hsn.
  destruct (add_total (kq_period t) (last_fired_at t)) as (w & Hadd & Hw & Hwn & _ & Hws);
    [done|done|unfold timespec_small; lia..|].
  destruct (subtract_total w now) as (r & Hsub & Hr & _); [done|done|lia|done|].
  cbn. unfold kqueue_timer_get_time, kqueue_clock_get_time, mbind, Sys_bind, call. cbn [env].
  rewrite Hg. cbn [env]. rewrite Hnow. cbn. rewrite Hadd. cbn [obind]. rewrite Hsub.
  eexists _, r. split; [done|]. split; [lia|]. intros Hz Hle.
  apply andb_true_iff in Hz as [Hs0%Z.eqb_eq Hn0%Z.eqb_eq].
  unfold total_ns at 2 in Hw. rewrite Hs0, Hn0 in Hw. lia.
Qed.

End kqueue_properties.

(** ** Witnesses *)

(** A system on which every call succeeds; its state is the time in seconds. *)
#[local] Instance ex_kqueue_env : KqueueEnv Z := {
  env_kqueue e := (e, inr 7);
  env_kevent_set _ _ _ e := (e, 0);
  env_close _ e := (e, 0);
  env_kq_thread_create e := (e, inr 8);
  env_kq_join _ e := (e, 0);
  env_mutex_destroy e := (e, 0);
  env_monotonic e := (e, inr (Timespec e 0));
  env_uninitialised e := (e, Timespec 0 0)
}.

(** A timer started at the time 100, with a delay of 5 seconds. *)
Definition ex_kqueue_timer (period : timespec) : kqueue_timer :=
  (kqueue_timer_start (kqueue_timer_init 0 1 (SysOs 100 [] [])).2.1 period (Timespec 5 0)
    (SysOs 100 [] [])).2.1.

Lemma kqueue_thread_reports_witness :
  exists o' t' ns, timerlib_kqueue_handle (ex_kqueue_timer (Timespec 2 0))
      [kevent_events 1 1; kevent_error EINTR; kevent_events 1 3] (SysOs 105 [] [])
      = (o', Ok (t', ns, true)) /\
    ns = [0; 2] /\ sum_Z ((fun k => k + 1) <$> ns) = 4 /\ trace o' = [ev_kevent 7 5 2000000000].
Proof.
  apply (kqueue_thread_reports (ex_kqueue_timer (Timespec 2 0)) 1
    [kevent_error EINTR; kevent_events 1 3] (SysOs 105 [] [])).
  - done.
  - done.
  - lia.
  - repeat constructor; lia.
Defined.

Lemma kqueue_initial_interrupted_witness :
  timerlib_kqueue_handle (ex_kqueue_timer (Timespec 0 0)) [kevent_error EINTR; kevent_events 1 1]
    (SysOs 101 [] []) = (SysOs 101 [] [], Ok (ex_kqueue_timer (Timespec 0 0), [], false)).
Proof.
  exact (kqueue_initial_interrupted (ex_kqueue_timer (Timespec 0 0)) [kevent_events 1 1]
    (SysOs 101 [] []) (fun _ _ _ _ => eq_refl) eq_refl).
Defined.

(** Two seconds after the start of a one-shot timer of five seconds. *)
Lemma kqueue_remaining_time_witness :
  exists o' r, timerlib_timer_get_time (ex_kqueue_timer (Timespec 0 0)) (SysOs 102 [] []) = (o', Ok (r, true)) /\
    total_ns r = -2000000000.
Proof.
  destruct (kqueue_remaining_time (ex_kqueue_timer (Timespec 0 0)) (SysOs 102 [] []) 102 102 (Timespec 0 0)
    (Timespec 102 0)) as (o' & r & Hget & Hr & _).
  - reflexivity.
  - reflexivity.
  - vm_compute; split; congruence.
  - vm_compute; split; congruence.
  - vm_compute; split; congruence.
  - vm_compute; split; congruence.
  - vm_compute; split; congruence.
  - vm_compute; split; congruence.
  - exists o', r. split; [exact Hget|exact Hr].
Defined.
