(* ===== verification/KqueueSystem.v ===== *)
(** * The handler thread on kqueue and the main thread

    The handler thread of a started timer of [timerlib_kqueue.c], the kernel's
    queue and the main thread that stops the timer, as a step relation. The
    handler's steps are the calls of [kevent], the handling of their results by
    [timerlib_handle_timer_event], and the accesses to [period], which
    [timerlib_timer_stop] clears while the handler runs; the main thread's are
    the assignments and system calls of [timerlib_timer_stop].

    What the kernel promises: a wait in [kevent] returns the number of
    expirations since the last one that did, may be interrupted, and fails with
    [EBADF] once the queue is closed, also when it was waiting already; a timer
    added again loses the expirations that were not reported; [pthread_join]
    returns when the thread has ended. The number of the queue is not given to
    another file before the thread has ended. *)

From S2P Require Import Prelude Timespec PendingList Timer TimerlibCommon TimerlibKqueue.

(** ** Data *)

(** Where [timerlib_kqueue_handle] is; [first] is the wait for the initial
    expiry, before the loop. *)
Inductive kq_pc : Type :=
  | kq_kevent (first : bool)                      (* in kevent *)
  | kq_handle (first : bool) (r : kevent_result)  (* kevent has returned *)
  | kq_decide                                     (* timerlib_timespec_is_zero(&timer->period) *)
  | kq_setup                                      (* timerlib_setup_kqueue_timer *)
  | kq_exited.

(** Where [timerlib_timer_stop] is. *)
Inductive stop_pc : Type :=
  | kq_running   (* not called *)
  | kq_half      (* tv_sec of the period is zero *)
  | kq_zeroed    (* so is tv_nsec *)
  | kq_closed    (* in pthread_join *)
  | kq_joined.

(** The kernel's timer. *)
Inductive kernel_timer : Type :=
  | kt_once      (* EV_ONESHOT *)
  | kt_expired   (* a one-shot timer afterwards *)
  | kt_periodic.

(** [ks_pending] is the number of expirations that [kevent] will return next. *)
Record kq_sys {E : Type} : Type := KqSys {
  ks_timer : kqueue_timer;
  ks_os : sys_os E;
  ks_kernel : kernel_timer;
  ks_pending : Z;
  ks_handler : kq_pc;
  ks_main : stop_pc
}.
Arguments kq_sys E : clear implicits.
Arguments KqSys {E} _ _ _ _ _ _.

Inductive kq_label : Type :=
  | k_expire                       (* the kernel's timer expires *)
  | k_handler                      (* the handler thread, without a report *)
  | k_report (overruns : list Z)   (* its calls of the notify function *)
  | k_interrupted (first : bool)   (* kevent is interrupted *)
  | k_lose (lost : Z)              (* expirations that nobody will report *)
  | k_main.

Section kqueue_system.
  Context {E : Type} `{KqueueEnv E}.
  Abbreviation sys := (kq_sys E).
  Implicit Types (x y : sys) (t : kqueue_timer) (kt : kernel_timer).

Definition queue_open (m : stop_pc) : bool :=
  match m with kq_running | kq_half | kq_zeroed => true | kq_closed | kq_joined => false end.

Definition kernel_expire kt : option kernel_timer :=
  match kt with kt_once => Some kt_expired | kt_expired => None | kt_periodic => Some kt_periodic end.

(** A wait in [kevent]: is the queue open, the expirations before, the result,
    the expirations afterwards. *)
Inductive kevent_returns : bool -> Z -> kevent_result -> Z -> Prop :=
  | returns_event n : 0 < n -> kevent_returns true n (kevent_events 1 n) 0
  | returns_eintr b n : kevent_returns b n (kevent_error EINTR) n
  | returns_ebadf n : kevent_returns false n (kevent_error EBADF) n.

Definition kevent_label (first : bool) (r : kevent_result) : kq_label :=
  match r with kevent_error 4 => k_interrupted first | _ => k_handler end.

(** Where the handler goes on, after the result of [timerlib_handle_timer_event]. *)
Definition after_event (first go : bool) : kq_pc :=
  if go then if first then kq_decide else kq_kevent false else kq_exited.

Inductive kq_step : sys -> kq_label -> sys -> Prop :=
  | kq_step_expire t o kt kt' n h m :
      queue_open m = true -> kernel_expire kt = Some kt' -> n + 1 < 2 ^ 31 ->
      kq_step (KqSys t o kt n h m) k_expire (KqSys t o kt' (n + 1) h m)
  | kq_step_kevent t o kt n n' f r m :
      kevent_returns (queue_open m) n r n' ->
      kq_step (KqSys t o kt n (kq_kevent f) m) (kevent_label f r) (KqSys t o kt n' (kq_handle f r) m)
  | kq_step_handle t o kt n f r m o' t' ns go :
      timerlib_handle_timer_event t r o = (o', Ok (t', ns, go)) ->
      kq_step (KqSys t o kt n (kq_handle f r) m) (k_report ns) (KqSys t' o' kt n (after_event f go) m)
  | kq_step_decide t o kt n m :
      kq_step (KqSys t o kt n kq_decide m) k_handler
        (KqSys t o kt n (if timerlib_timespec_is_zero (kq_period t) then kq_exited else kq_setup) m)
  | kq_step_setup t o kt n m o' :
      queue_open m = true ->
      timerlib_setup_kqueue_timer t (Z.lor EV_ADD EV_ENABLE) (kq_period t) o = (o', true) ->
      kq_step (KqSys t o kt n kq_setup m) (k_lose n) (KqSys t o' kt_periodic 0 (kq_kevent false) m)
  | kq_step_setup_error t o kt n m o' :
      queue_open m = true ->
      timerlib_setup_kqueue_timer t (Z.lor EV_ADD EV_ENABLE) (kq_period t) o = (o', false) ->
      kq_step (KqSys t o kt n kq_setup m) k_handler (KqSys t o' kt n kq_exited m)
  | kq_step_setup_closed t o kt n m :
      queue_open m = false ->
      kq_step (KqSys t o kt n kq_setup m) k_handler
        (KqSys t (timerlib_report_errno "kevent" EBADF o).1 kt n kq_exited m)
  | kq_step_zero_sec t o kt n h :
      kq_step (KqSys t o kt n h kq_running) k_main
        (KqSys (set_kq_times (Timespec 0 (tv_nsec (kq_period t))) (kq_initial t) t) o kt n h kq_half)
  | kq_step_zero_nsec t o kt n h :
      kq_step (KqSys t o kt n h kq_half) k_main
        (KqSys (set_kq_times (Timespec (tv_sec (kq_period t)) 0) (kq_initial t) t) o kt n h kq_zeroed)
  | kq_step_close t o kt n h o' :
      (errno ← call (env_close (kq t)); _ ← record (ev_close (kq t)); mret errno) o = (o', 0) ->
      kq_step (KqSys t o kt n h kq_zeroed) (k_lose n) (KqSys t o' kt 0 h kq_closed)
  | kq_step_join t o kt n o' :
      (error ← call (env_kq_join (handler_thread_id t)); _ ← record (ev_pthread_join (handler_thread_id t));
       mret error) o = (o', 0) ->
      kq_step (KqSys t o kt n kq_exited kq_closed) k_main (KqSys t o' kt n kq_exited kq_joined).

Inductive kq_steps : sys -> list kq_label -> sys -> Prop :=
  | kq_steps_nil x : kq_steps x [] x
  | kq_steps_snoc x tr y a z : kq_steps x tr y -> kq_step y a z -> kq_steps x (tr ++ [a]) z.

(** A timer that [timerlib_timer_start] has started. *)
Definition kq_started t o : sys :=
  if timerlib_timespec_is_zero (kq_initial t)
  then KqSys t o kt_periodic 0 (kq_kevent false) kq_running
  else KqSys t o kt_once 0 (kq_kevent true) kq_running.

(** ** Specification *)

Definition kq_expirations (tr : list kq_label) : Z :=
  sum_Z ((fun a => match a with k_expire => 1 | _ => 0 end) <$> tr).

(** [excimer_timer_handle] counts an overrun count [k] as [k + 1] events. *)
Definition kq_reported (tr : list kq_label) : Z :=
  sum_Z ((fun a => match a with k_report ns => sum_Z ((fun k => k + 1) <$> ns) | _ => 0 end) <$> tr).

Definition kq_lost (tr : list kq_label) : Z :=
  sum_Z ((fun a => match a with k_lose n => n | _ => 0 end) <$> tr).

Definition kq_interruptions (tr : list kq_label) : nat :=
  length (List.filter (fun a => match a with k_interrupted _ => true | _ => false end) tr).

(** The expirations in the result that the handler has in hand. *)
Definition result_events (r : kevent_result) : Z :=
  match r with kevent_events _ n => n | kevent_error _ => 0 end.

Definition in_hand (h : kq_pc) : Z :=
  match h with kq_handle _ r => result_events r | _ => 0 end.

Definition one_shot t : Prop :=
  timerlib_timespec_is_zero (kq_initial t) = false /\ timerlib_timespec_is_zero (kq_period t) = true.

(** The results that the handler can have in hand. *)
Definition result_ok (open : bool) (r : kevent_result) : Prop :=
  match r with
  | kevent_error errno => errno = EINTR \/ errno = EBADF /\ open = false
  | kevent_events n data => n = 1 /\ 1 <= data < 2 ^ 31
  end.

(** The kernel's timer and its pending expirations before the loop. *)
Definition quiet (kt : kernel_timer) (n : Z) (h : kq_pc) : Prop :=
  match h with
  | kq_kevent true => kt = kt_once -> n = 0
  | kq_handle true _ | kq_decide | kq_setup => kt = kt_expired /\ n = 0
  | _ => True
  end.

(** Where the handler is when it is past the set-up of the period. *)
Definition past_setup (h : kq_pc) : bool :=
  match h with kq_setup | kq_kevent false | kq_handle false _ => true | _ => false end.

Record kq_inv t0 (tr : list kq_label) x : Prop := KqInv {
  ki_pending : 0 <= ks_pending x < 2 ^ 31;
  ki_hand : match ks_handler x with kq_handle _ r => result_ok (queue_open (ks_main x)) r | _ => True end;
  ki_nonneg : 0 <= kq_lost tr;
  ki_balance : kq_expirations tr = kq_reported tr + kq_lost tr + in_hand (ks_handler x) + ks_pending x;
  ki_quiet : queue_open (ks_main x) = true -> k_interrupted true ∉ tr ->
    quiet (ks_kernel x) (ks_pending x) (ks_handler x) /\ kq_lost tr = 0;
  ki_first : match ks_handler x with
    | kq_kevent true | kq_handle true _ | kq_decide | kq_setup => ks_kernel x <> kt_periodic | _ => True end;
  ki_period : timerlib_timespec_is_zero (kq_period t0) = true ->
    timerlib_timespec_is_zero (kq_period (ks_timer x)) = true;
  ki_expired : one_shot t0 -> past_setup (ks_handler x) = false /\
    match ks_kernel x with kt_once => kq_expirations tr = 0 | kt_expired => kq_expirations tr = 1 | kt_periodic => False end;
  ki_joined : ks_main x = kq_joined -> ks_handler x = kq_exited /\ ks_pending x = 0;
  ki_closed : queue_open (ks_main x) = false -> ks_pending x = 0
}.

(** Decreases with every step after the queue is closed that is not an
    interruption. *)
Definition exit_steps (h : kq_pc) : nat :=
  match h with
  | kq_kevent true => 4
  | kq_handle true _ => 3
  | kq_decide => 2
  | kq_setup => 1
  | kq_kevent false => 2
  | kq_handle false (kevent_error 9) => 1
  | kq_handle false _ => 3
  | kq_exited => 0
  end.

Definition stop_steps x : nat :=
  exit_steps (ks_handler x) + match ks_main x with kq_joined => 0 | _ => 1 end.

End kqueue_system.

(** ** Lemmas *)

Section kqueue_system_facts.
  Context {E : Type} `{KqueueEnv E}.
  Implicit Types (x y : kq_sys E) (t : kqueue_timer) (tr : list kq_label).

Definition is_ebadf (r : kevent_result) : bool := match r with kevent_error 9 => true | _ => false end.

(** What the handling of a result reports and changes. *)
Lemma handle_event_reports t r (o o' : sys_os E) t' ns go open :
  result_ok open r -> timerlib_handle_timer_event t r o = (o', Ok (t', ns, go)) ->
  kq_period t' = kq_period t /\ sum_Z ((fun k => k + 1) <$> ns) = result_events r /\ go = negb (is_ebadf r).
Proof.
  destruct r as [errno|n d]; cbn [result_ok].
  { intros [->|[-> _]]; cbn; by intros [= <- <- <- <-]. }
  intros [-> Hd] Hrun. destruct (handle_event_ok t (kevent_events 1 d) o) as (o1 & t1 & Hok & _ & [ts ->]); [done|].
  rewrite Hok in Hrun. injection Hrun as <- <- <- <-. split_and!; [done| |done].
  cbn -[sum_Z]. rewrite !sum_Z_cons. cbn. lia.
Qed.

(** It never aborts. *)
Lemma handle_event_total t r (o : sys_os E) open :
  result_ok open r -> exists o' t' ns go, timerlib_handle_timer_event t r o = (o', Ok (t', ns, go)).
Proof.
  destruct r as [errno|n d]; cbn [result_ok].
  - intros [->|[-> _]]; by eexists _, _, _, _.
  - intros [-> Hd]. destruct (handle_event_ok t (kevent_events 1 d) o) as (o1 & t1 & Hok & _); [done|].
    by eexists _, _, _, _.
Qed.

Lemma is_zero_clear_sec ts : timerlib_timespec_is_zero ts = true ->
  timerlib_timespec_is_zero (Timespec 0 (tv_nsec ts)) = true.
Proof. intros [_ Hn]%andb_true_iff. exact Hn. Qed.

Lemma is_zero_clear_nsec ts : timerlib_timespec_is_zero ts = true ->
  timerlib_timespec_is_zero (Timespec (tv_sec ts) 0) = true.
Proof. intros [Hs _]%andb_true_iff. unfold timerlib_timespec_is_zero. cbn. by rewrite Hs. Qed.

Lemma kq_expirations_snoc tr a :
  kq_expirations (tr ++ [a]) = kq_expirations tr + match a with k_expire => 1 | _ => 0 end.
Proof. unfold kq_expirations. rewrite fmap_app, sum_Z_app, fmap_cons, sum_Z_cons. cbn. lia. Qed.

Lemma kq_reported_snoc tr a :
  kq_reported (tr ++ [a])
  = kq_reported tr + match a with k_report ns => sum_Z ((fun k => k + 1) <$> ns) | _ => 0 end.
Proof. unfold kq_reported. rewrite fmap_app, sum_Z_app, fmap_cons, sum_Z_cons. cbn. lia. Qed.

Lemma kq_lost_snoc tr a : kq_lost (tr ++ [a]) = kq_lost tr + match a with k_lose n => n | _ => 0 end.
Proof. unfold kq_lost. rewrite fmap_app, sum_Z_app, fmap_cons, sum_Z_cons. cbn. lia. Qed.

Lemma kq_interruptions_snoc tr a :
  kq_interruptions (tr ++ [a]) = (kq_interruptions tr + match a with k_interrupted _ => 1 | _ => 0 end)%nat.
Proof. unfold kq_interruptions. rewrite List.filter_app, length_app. by destruct a. Qed.

Hint Rewrite kq_expirations_snoc kq_reported_snoc kq_lost_snoc kq_interruptions_snoc : excimer.

Lemma kq_started_inv t o : kq_inv t [] (kq_started (E:=E) t o).
Proof.
  unfold kq_started. destruct (timerlib_timespec_is_zero (kq_initial t)) eqn:Hi; split; cbn; try done.
  intros [Hi' _]. congruence.
Qed.

(** Uses the hypotheses whose premises hold, and decides the rest. *)
Ltac kq_crush :=
  intros;
  repeat match goal with
  | H1 : ?P -> _, H2 : ?P |- _ => specialize (H1 H2)
  | H1 : ?a = ?a -> _ |- _ => specialize (H1 eq_refl)
  | H1 : _ /\ _ |- _ => destruct H1
  | |- _ /\ _ => split
  end;
  simplify_eq/=; try done; try lia; try congruence.

Lemma kq_step_inv t0 tr x a y : kq_inv t0 tr x -> kq_step x a y -> kq_inv t0 (tr ++ [a]) y.
Proof.
  intros [Hp Hh Hnn Hb Hq Hf Hpe Hex Hj Hc] Hstep.
  destruct Hstep as [t o kt kt' n h m Hm Hkt Hn|t o kt n n' f r m Hr|t o kt n f r m o' t' ns go Hrun
    |t o kt n m|t o kt n m o' Hm Hrun|t o kt n m o' Hm Hrun|t o kt n m Hm|t o kt n h|t o kt n h
    |t o kt n h o' Hrun|t o kt n o' Hrun]; cbn in *.
  all: try (apply (handle_event_reports _ _ _ _ _ _ _ _ Hh) in Hrun as (Hper & Hsum & ->)).
  all: try (destruct m; inversion Hr; subst; clear Hr).
  all: try destruct f; try (destruct (timerlib_timespec_is_zero (kq_period t)) eqn:Hz; [|]); try destruct (is_ebadf r) eqn:Hbad.
  all: split; autorewrite with excimer; cbn.
  all: try rewrite not_elem_of_app, list_elem_of_singleton.
  all: rewrite ?Z.add_0_r; kq_crush.
  all: try (destruct kt; kq_crush; fail); try (by apply is_zero_clear_sec); try (by apply is_zero_clear_nsec).
  all: try (match goal with Ho : one_shot _ |- _ => pose proof (Hpe (proj2 Ho)) end; congruence).
  all: try (destruct h as [|? []| | |]; cbn in *; tauto).
  all: destruct kt, h as [[]|[]| | |]; kq_crush; kq_crush.
Qed.

Lemma kq_steps_inv t o tr x : kq_steps (kq_started t o) tr x -> kq_inv t tr x.
Proof.
  intros Hsteps. remember (kq_started t o) as x0 eqn:Hx0.
  induction Hsteps as [x|x tr y a z Hsteps IH Hstep]; subst; [apply kq_started_inv|].
  eapply kq_step_inv; [by apply IH|done].
Qed.

(** A step after the queue is closed. *)
Lemma kq_step_closed t0 tr x a y :
  kq_inv t0 tr x -> queue_open (ks_main x) = false -> kq_step x a y ->
  queue_open (ks_main y) = false /\
  match a with
  | k_interrupted _ => stop_steps y <= stop_steps x + 1 | _ => stop_steps y < stop_steps x
  end%nat.
Proof.
  intros [_ Hh _ _ _ _ _ _ Hj _] Hm Hstep. unfold stop_steps.
  destruct Hstep as [| t o kt n n' f r m Hr|t o kt n f r m o' t' ns go Hrun
    |t o kt n m| | | | | | |]; cbn in *; try congruence.
  - destruct m; try done; inversion Hr; subst; destruct f; cbn; split; try done; lia.
  - apply (handle_event_reports _ _ _ _ _ _ _ _ Hh) in Hrun as (_ & _ & ->).
    split; [done|]. destruct f, r as [errno|]; cbn in *.
    all: try (destruct Hh as [->|[-> _]]). all: cbn; lia.
  - split; [done|]. destruct (timerlib_timespec_is_zero _); cbn; lia.
  - split; [done|]. lia.
  - split; [done|]. lia.
Qed.

(** A joined thread does nothing, and the kernel has no timer any more. *)
Lemma kq_joined_over t0 tr x a y : kq_inv t0 tr x -> ks_main x = kq_joined -> ~ kq_step x a y.
Proof.
  intros Hi Hm Hstep. destruct (ki_joined _ _ _ Hi Hm) as [Hh _]. destruct Hstep; cbn in *; subst; cbn in *; congruence.
Qed.

Lemma in_hand_nonneg t0 tr x : kq_inv t0 tr x -> 0 <= in_hand (ks_handler x).
Proof.
  intros [_ Hh _ _ _ _ _ _ _ _]. destruct (ks_handler x) as [|f [errno|n d]| | |]; cbn in *; lia.
Qed.

(** Steps after the queue is closed: how many there can be, and what the handler
    still reports. *)
Lemma kq_steps_closed t0 o0 tr x tr' y :
  kq_steps (kq_started t0 o0) tr x -> queue_open (ks_main x) = false -> kq_steps x tr' y ->
  (length tr' + stop_steps y <= stop_steps x + 2 * kq_interruptions tr')%nat /\
  queue_open (ks_main y) = false /\ kq_steps (kq_started t0 o0) (tr ++ tr') y.
Proof.
  intros Hsteps Hm Hsteps'. induction Hsteps' as [x|x tr' y a z Hsteps' IH Hstep].
  { rewrite app_nil_r. split; [cbn; lia|done]. }
  destruct IH as (Hlen & Hopen & Hrun); [done..|].
  destruct (kq_step_closed _ _ _ _ _ (kq_steps_inv _ _ _ _ Hrun) Hopen Hstep) as [Hz Hs].
  rewrite kq_interruptions_snoc, length_app, app_assoc. cbn. split; [destruct a; lia|].
  split; [done|]. by eapply kq_steps_snoc.
Qed.

Lemma kq_counts_app tr tr' :
  kq_expirations (tr ++ tr') = kq_expirations tr + kq_expirations tr' /\
  kq_reported (tr ++ tr') = kq_reported tr + kq_reported tr' /\ kq_lost (tr ++ tr') = kq_lost tr + kq_lost tr'.
Proof. unfold kq_expirations, kq_reported, kq_lost. by rewrite !fmap_app, !sum_Z_app. Qed.

(** Nothing expires or is lost in a closed queue. *)
Lemma kq_closed_quiet t0 o0 tr x tr' y :
  kq_steps (kq_started t0 o0) tr x -> queue_open (ks_main x) = false -> kq_steps x tr' y ->
  kq_expirations tr' = 0 /\ kq_lost tr' = 0.
Proof.
  intros Hsteps Hm Hsteps'. induction Hsteps' as [x|x tr' y a z Hsteps' IH Hstep]; [done|].
  destruct IH as [Hexp Hlost]; [done..|].
  destruct (kq_steps_closed t0 o0 tr x tr' y Hsteps Hm Hsteps') as (_ & Hopen & _).
  autorewrite with excimer. destruct Hstep as [| ? ? ? ? ? ? r| | | | | | | | |]; cbn in *; try congruence; try lia.
  assert (Hl : forall f, match kevent_label f r with k_expire => 1 | _ => 0 end = 0 /\
    match kevent_label f r with k_lose n => n | _ => 0 end = 0).
  { intros f0. unfold kevent_label. repeat case_match; done. }
  destruct (Hl f). lia.
Qed.

(** Calling [pthread_join] for a thread that has ended succeeds. *)
Definition join_succeeds : Prop := forall th (e : E), (env_kq_join th e).2 = 0.

(** In [pthread_join], some step other than an interruption is possible. *)
Lemma kq_closed_progress t0 tr x :
  join_succeeds -> kq_inv t0 tr x -> ks_main x = kq_closed ->
  exists a y, kq_step x a y /\ forall f, a <> k_interrupted f.
Proof.
  intros Hjoin [_ Hh _ _ _ _ _ _ _ _] Hm. destruct x as [t o kt n h m]; cbn in *. subst m.
  destruct h as [f|f r| | |].
  - eexists k_handler, _. split; [|done]. apply (kq_step_kevent t o kt n n f (kevent_error EBADF)). constructor.
  - destruct (handle_event_total t r o _ Hh) as (o' & t' & ns & go & Hrun).
    eexists (k_report ns), _. split; [|done]. by apply kq_step_handle.
  - eexists k_handler, _. split; [|done]. constructor.
  - eexists k_handler, _. split; [|done]. by constructor.
  - destruct ((error ← call (env_kq_join (handler_thread_id t)); _ ← record (ev_pthread_join (handler_thread_id t));
       mret error) o) as [o' e] eqn:Hrun.
    assert (e = 0) as ->.
    { unfold mbind, mret, Sys_bind, Sys_ret, call, record in Hrun. specialize (Hjoin (handler_thread_id t) (env o)).
      destruct (env_kq_join _ _) as [e' err]. cbn in *; congruence. }
    eexists k_main, _. split; [|done]. by constructor.
Qed.

(** ** Properties *)

(** Every expiration is accounted for: however the handler thread, the
    kernel and the main thread run, the expirations of the timer are those that
    the handler has reported, those in its hand, those pending in the queue and
    those lost. As long as the queue is open, nothing is lost unless a signal
    interrupts the wait for the initial expiry. A one-shot timer reports at most
    one event. When the thread is joined, none is pending and nothing happens
    any more. *)
Theorem kqueue_system_reports t0 o0 tr x :
  kq_steps (kq_started t0 o0) tr x ->
  kq_expirations tr = kq_reported tr + kq_lost tr + in_hand (ks_handler x) + ks_pending x /\
  (queue_open (ks_main x) = true -> k_interrupted true ∉ tr -> kq_lost tr = 0) /\
  (one_shot t0 -> kq_reported tr <= 1) /\
  (ks_main x = kq_joined -> kq_expirations tr = kq_reported tr + kq_lost tr /\ forall a y, ~ kq_step x a y).
Proof.
  intros Hi%kq_steps_inv. pose proof (in_hand_nonneg _ _ _ Hi) as Hhand.
  pose proof (fun a y => kq_joined_over _ _ _ a y Hi) as Hover.
  destruct Hi as [Hp _ Hnn Hb Hq _ _ Hex Hj _]. split; [done|]. split; [|split].
  - intros Ho Hf. by destruct (Hq Ho Hf).
  - intros [_ Hone]%Hex. destruct (ks_kernel x); lia.
  - intros Hm. destruct (Hj Hm) as [Hh Hp0]. rewrite Hh, Hp0 in Hb. cbn in Hb. split; [lia|]. by intros a y; apply Hover.
Qed.

(** [timerlib_timer_stop] ends the handler thread: once it has closed the
    queue, the only events that are still reported are those which the handler
    has in hand, none expire or are lost, and until the thread is joined, the
    handler or the main thread can go on; they take at most five steps, and two
    more for each signal that interrupts [kevent]. So the join returns. *)
Theorem kqueue_stop_ends t0 o0 tr x tr' y :
  join_succeeds -> kq_steps (kq_started t0 o0) tr x -> queue_open (ks_main x) = false -> kq_steps x tr' y ->
  (length tr' <= 5 + 2 * kq_interruptions tr')%nat /\
  kq_reported tr' + in_hand (ks_handler y) = in_hand (ks_handler x) /\
  (ks_main y = kq_joined /\ ks_handler y = kq_exited \/
    exists a z, kq_step y a z /\ forall f, a <> k_interrupted f).
Proof.
  intros Hjoin Hsteps Hm Hsteps'.
  destruct (kq_steps_closed _ _ _ _ _ _ Hsteps Hm Hsteps') as (Hlen & Hopen & Hrun).
  destruct (kq_closed_quiet _ _ _ _ _ _ Hsteps Hm Hsteps') as [Hexp Hlost].
  pose proof (kq_steps_inv _ _ _ _ Hsteps) as Hix. pose proof (kq_steps_inv _ _ _ _ Hrun) as Hiy.
  split; [|split].
  - assert (stop_steps x <= 5)%nat; [|lia]. unfold stop_steps.
    assert (exit_steps (ks_handler x) <= 4)%nat by (unfold exit_steps; repeat case_match; lia). destruct (ks_main x); lia.
  - pose proof (ki_balance _ _ _ Hix). pose proof (ki_balance _ _ _ Hiy).
    pose proof (ki_closed _ _ _ Hix Hm). pose proof (ki_closed _ _ _ Hiy Hopen).
    destruct (kq_counts_app tr tr') as (He & Hr & Hl). lia.
  - destruct (ks_main y) eqn:Hmy; try done.
    + right. by eapply kq_closed_progress.
    + left. split; [done|]. by apply (ki_joined _ _ _ Hiy).
Qed.

End kqueue_system_facts.

(** ** Witnesses *)

Section witnesses.
  #[local] Existing Instance ex_kqueue_env.

Lemma kq_steps_cons {E} `{KqueueEnv E} (x : kq_sys E) a y tr z :
  kq_step x a y -> kq_steps y tr z -> kq_steps x (a :: tr) z.
Proof.
  intros Hs Hsteps. induction Hsteps as [y|y tr z b w Hsteps IH Hstep].
  - apply (kq_steps_snoc x [] x); [constructor|done].
  - change (a :: tr ++ [b]) with ((a :: tr) ++ [b]). eapply kq_steps_snoc; [by apply IH|done].
Qed.

(** The next step of a run: by a rule, or a return of [kevent]. *)
Ltac kq_go c := eapply kq_steps_cons; [eapply c; vm_compute; reflexivity|cbn -[wrap_i32]].
Ltac kq_returns r c := eapply kq_steps_cons; [eapply (kq_step_kevent _ _ _ _ _ _ r); apply c; reflexivity|cbn -[wrap_i32]].

(** A delay of 5 seconds and a period of 2; the timer is stopped while the
    handler has two expirations in hand, and a signal arrives. *)
Definition ex_start : kq_sys Z := kq_started (ex_kqueue_timer (Timespec 2 0)) (SysOs 105 [] []).

Definition ex_before : list kq_label :=
  [k_expire; k_handler; k_report [0]; k_handler; k_lose 0; k_expire; k_expire; k_main; k_handler; k_main; k_lose 0].

Definition ex_after : list kq_label :=
  [k_report [1]; k_interrupted false; k_report []; k_handler; k_report []; k_main].

Lemma ex_kqueue_run : exists x y,
  kq_steps ex_start ex_before x /\ ks_main x = kq_closed /\ in_hand (ks_handler x) = 2 /\
  kq_steps x ex_after y /\ ks_main y = kq_joined.
Proof.
  eexists _, _. split; [|split; [|split; [|split]]].
  - unfold ex_start, kq_started, ex_before. cbn.
    kq_go kq_step_expire. kq_returns (kevent_events 1 1) (returns_event 1). kq_go kq_step_handle.
    kq_go kq_step_decide. kq_go kq_step_setup. kq_go kq_step_expire. kq_go kq_step_expire. kq_go kq_step_zero_sec.
    kq_returns (kevent_events 1 2) (returns_event 2). kq_go kq_step_zero_nsec. kq_go kq_step_close. constructor.
  - reflexivity.
  - reflexivity.
  - unfold ex_after. kq_go kq_step_handle. kq_returns (kevent_error EINTR) returns_eintr. kq_go kq_step_handle.
    kq_returns (kevent_error EBADF) returns_ebadf. kq_go kq_step_handle. kq_go kq_step_join. constructor.
  - reflexivity.
Qed.

(** Three expirations so far: one is reported, two are in hand. *)
Lemma kqueue_system_reports_witness :
  exists x, kq_steps ex_start ex_before x /\
    kq_expirations ex_before = kq_reported ex_before + kq_lost ex_before + in_hand (ks_handler x) + ks_pending x /\
    kq_expirations ex_before = 3 /\ kq_reported ex_before = 1.
Proof.
  destruct ex_kqueue_run as (x & y & Hx & _). exists x. split; [exact Hx|].
  destruct (kqueue_system_reports (ex_kqueue_timer (Timespec 2 0)) (SysOs 105 [] []) ex_before x Hx) as [Hb _].
  split; [exact Hb|]. split; reflexivity.
Defined.

Lemma kqueue_stop_ends_witness :
  exists x y, kq_steps x ex_after y /\ ks_main y = kq_joined /\
    kq_reported ex_after = 2 /\ kq_reported ex_after + in_hand (ks_handler y) = in_hand (ks_handler x) /\
    (length ex_after <= 5 + 2 * kq_interruptions ex_after)%nat.
Proof.
  destruct ex_kqueue_run as (x & y & Hx & Hm & _ & Hy & Hj). exists x, y.
  split; [exact Hy|]. split; [exact Hj|]. split; [reflexivity|].
  destruct (kqueue_stop_ends (ex_kqueue_timer (Timespec 2 0)) (SysOs 105 [] []) ex_before x ex_after y)
    as (Hlen & Hr & _).
  - intros th e. reflexivity.
  - exact Hx.
  - by rewrite Hm.
  - exact Hy.
  - split; [exact Hr|exact Hlen].
Defined.

End witnesses.
