(* ===== verification/TimerSystem.v ===== *)
(** * Timers and threads

    The main thread and the handler threads of the timers, interleaved, in a
    build without thread safety. A step is a critical section, or a stretch of
    code that touches only what its own thread uses:

    - a handler fires: the critical section of [excimer_timer_handle];
    - a handler raises the interrupt flag, some time later;
    - the engine notices the flag, clears it and calls [excimer_timer_interrupt];
    - the loop of that function takes a timer off the list and calls its
      callback, or finds the list empty and returns;
    - the main program, or a callback, allocates, initialises, starts, stops,
      destroys or frees a timer, or does something else.

    [excimer_timer_destroy] waits for the handler of the timer, so it does not
    overlap with one. Callbacks run PHP code, which can be interrupted again:
    [depth] counts the interrupts in progress. *)

From S2P Require Import Prelude Timespec PendingList Timer.

Section system.
  Context {TL OS X : Type} `{Timerlib TL OS}.
  Abbreviation state := (tstate TL OS X).

Record sys : Type := Sys {
  st : state;
  flight : list ptr;
  depth : nat
}.

Inductive label : Type :=
  | LFire (p : ptr) (overrun : Z)
  | LFlag (p : ptr)
  | LBegin
  | LDeliver (p : ptr) (count : Z)
  | LEnd
  | LAlloc (p : ptr)
  | LInit (p : ptr) (ok : bool)
  | LStart (p : ptr)
  | LStop (p : ptr)
  | LDestroy (p : ptr)
  | LFree (p : ptr)
  | LOther.

(** Fresh memory of a timer: zero bytes. *)
Definition zero_timer : excimer_timer TL :=
  Timer TL false false None tl_zero None None None None 0 None.

Definition valid_timer (s : state) (p : ptr) : Prop :=
  exists t, timers s !! p = Some t /\ is_valid t = true.
Definition invalid_timer (s : state) (p : ptr) : Prop :=
  exists t, timers s !! p = Some t /\ is_valid t = false.

(** Changes of the world, of the state of the timer library and of the warnings. *)
Definition same_timers (s s' : state) : Prop :=
  timers s' = timers s /\ tls s' = tls s /\ vm_interrupt s' = vm_interrupt s.

Inductive step : sys -> label -> sys -> Prop :=
  | step_fire s fl d self p n s' :
      valid_timer s p ->
      handle_locked false self p n s = (s', Ok tt) ->
      step (Sys s fl d) (LFire p n) (Sys s' (p :: fl) d)
  | step_flag s fl1 fl2 d p s' :
      raise_interrupt p s = (s', Ok tt) ->
      step (Sys s (fl1 ++ p :: fl2) d) (LFlag p) (Sys s' (fl1 ++ fl2) d)
  | step_begin s fl d :
      vm_interrupt s !! 0%nat = Some true ->
      step (Sys s fl d) LBegin (Sys (set_vm_interrupt (<[0%nat := false]> (vm_interrupt s)) s) fl (S d))
  | step_deliver s fl d self p n s' :
      excimer_timer_pending_dequeue false self s = (s', Ok (Some (p, n))) ->
      step (Sys s fl (S d)) (LDeliver p n) (Sys s' fl (S d))
  | step_end s fl d self s' :
      excimer_timer_pending_dequeue false self s = (s', Ok None) ->
      step (Sys s fl (S d)) LEnd (Sys s' fl d)
  | step_alloc s fl d p :
      timers s !! p = None ->
      step (Sys s fl d) (LAlloc p) (Sys (set_timers (<[p := zero_timer]> (timers s)) s) fl d)
  | step_init s fl d self p event_type cb data b s' :
      invalid_timer s p ->
      excimer_timer_init false self p event_type cb data s = (s', Ok b) ->
      step (Sys s fl d) (LInit p b) (Sys s' fl d)
  | step_start s fl d p period initial s' :
      excimer_timer_start p period initial s = (s', Ok tt) ->
      step (Sys s fl d) (LStart p) (Sys s' fl d)
  | step_stop s fl d p s' :
      excimer_timer_stop p s = (s', Ok tt) ->
      step (Sys s fl d) (LStop p) (Sys s' fl d)
  | step_destroy s fl d self p s' :
      p ∉ fl -> valid_timer s p ->
      excimer_timer_destroy false self p s = (s', Ok tt) ->
      step (Sys s fl d) (LDestroy p) (Sys s' fl d)
  | step_free s fl d p :
      invalid_timer s p ->
      step (Sys s fl d) (LFree p) (Sys (set_timers (delete p (timers s)) s) fl d)
  | step_other s fl d s' :
      same_timers s s' -> step (Sys s fl d) LOther (Sys s' fl d).

(** Runs, with the labels of their steps. *)
Inductive steps : sys -> list label -> sys -> Prop :=
  | steps_refl y : steps y [] y
  | steps_snoc y tr y' a y'' : steps y tr y' -> step y' a y'' -> steps y (tr ++ [a]) y''.

Definition initial_sys (y : sys) : Prop := timer_inv (st y) [] /\ flight y = [] /\ depth y = 0%nat.

(** ** Specification *)

(** The events of [p] that a run still owes a report of. *)
Definition owed_step (p : ptr) (z : Z) (a : label) : Z :=
  match a with
  | LFire q n => if decide (q = p) then z + (n + 1) else z
  | LDeliver q n => if decide (q = p) then z - n else z
  | LInit q _ | LDestroy q => if decide (q = p) then 0 else z
  | _ => z
  end.

Definition owed (p : ptr) (tr : list label) : Z := foldl (owed_step p) 0 tr.

(** Overrun counts are what an [int] can count. *)
Definition fire_ok (a : label) : Prop :=
  match a with LFire _ n => 0 <= n < 2 ^ 31 - 1 | _ => True end.

Record sys_inv (y : sys) (l : list ptr) : Prop := SysInv {
  sy_timers : timer_inv (st y) l;
  sy_flight : forall p, p ∈ flight y -> valid_timer (st y) p;
  sy_wakeup : l <> [] ->
    vm_interrupt (st y) !! 0%nat = Some true \/ flight y <> [] \/ (0 < depth y)%nat
}.

(** The counters of the valid timers after a step are what the step owes. *)
Definition counts_follow (s s' : state) (a : label) : Prop :=
  forall q t' z, timers s' !! q = Some t' -> is_valid t' = true ->
    (forall t, timers s !! q = Some t -> is_valid t = true -> event_count t = wrap_i64 z) ->
    event_count t' = wrap_i64 (owed_step q z a).

End system.
Arguments sys TL OS X : clear implicits.

(** ** Lemmas *)

Section system_facts.
  Context {TL OS X : Type} `{Timerlib TL OS}.
  Abbreviation state := (tstate TL OS X).
  Implicit Types (s : state) (p q : ptr) (l : list ptr) (y : sys TL OS X).

Lemma flag_inv s l m : timer_inv s l -> timer_inv (set_vm_interrupt m s) l.
Proof. by intros []. Qed.

Lemma same_timers_inv s s' l : same_timers s s' -> timer_inv s l -> timer_inv s' l.
Proof.
  intros (Hts & Htls & _) [Hl Ht Hm Hok Ha].
  assert (Hg : get_tls 0 s' = get_tls 0 s) by (unfold get_tls; by rewrite Htls).
  by split; rewrite ?Hts, ?Hg.
Qed.

(** Steps that change one timer, up to links. *)
Lemma relinked_valid s ts v p f q :
  erase_links <$> ts = erase_links <$> alter f p (timers s) ->
  (forall t, is_valid (f t) = is_valid t) ->
  valid_timer s q -> valid_timer (mid s ts v) q.
Proof.
  intros He Hf (t & Hq & Hv).
  assert (exists u, alter f p (timers s) !! q = Some u /\ is_valid u = true) as (u & Hu & Hvu).
  { destruct (decide (q = p)) as [->|Hne].
    - rewrite lookup_alter_eq, Hq. simpl. eexists. split; [done|]. by rewrite Hf.
    - rewrite lookup_alter_ne by done. eauto. }
  destruct (links_lookup_l _ _ q u He Hu) as (t' & Hq' & Heu). exists t'. split; [done|].
  apply (f_equal is_valid) in Heu. simpl in Heu. congruence.
Qed.

Lemma relinked_counts s ts v p f a :
  erase_links <$> ts = erase_links <$> alter f p (timers s) ->
  (forall t, is_valid (f t) = is_valid t) ->
  (forall t z, timers s !! p = Some t -> event_count t = wrap_i64 z ->
    event_count (f t) = wrap_i64 (owed_step p z a)) ->
  (forall q z, q <> p -> owed_step q z a = z) ->
  counts_follow s (mid s ts v) a.
Proof.
  intros He Hf Hp Hother q t' z Hq Hv Hold.
  destruct (links_lookup _ _ q t' He Hq) as (u & Hu & Heu).
  assert (Hvu : is_valid u = true) by (apply (f_equal is_valid) in Heu; simpl in Heu; congruence).
  rewrite (links_count t' u Heu).
  apply lookup_alter_Some in Hu as [(<- & t & Ht & ->)|[Hne Hu]].
  - apply Hp; [done|]. apply Hold; [done|]. by rewrite <-Hf.
  - rewrite Hother by done. by apply Hold.
Qed.

Lemma fire_step s l self p n s' :
  timer_inv s l -> valid_timer s p -> 0 <= n < 2 ^ 31 - 1 ->
  handle_locked false self p n s = (s', Ok tt) ->
  timer_inv s' (queue_add p l) /\ counts_follow s s' (LFire p n) /\
  (forall q, valid_timer s q -> valid_timer s' q) /\ vm_interrupt s' = vm_interrupt s.
Proof.
  intros Hinv (t & Hp & Hv) Hn Hrun.
  destruct (handle_locked_spec s l self p t n Hinv Hp Hv) as (ts & v & Hrun' & Hinv' & He).
  rewrite Hrun in Hrun'. injection Hrun' as ->. split_and!; [done| |by intros; eapply relinked_valid|done].
  eapply relinked_counts; [done|done| |]; simpl.
  - intros u z _ Hz. rewrite decide_True, Hz by done. rewrite wrap_i64_add_l. f_equal.
    unfold wrap_i32. rewrite Z.mod_small; lia.
  - intros q z Hq. by rewrite decide_False.
Qed.

Lemma deliver_step s l self p n s' :
  timer_inv s l -> excimer_timer_pending_dequeue false self s = (s', Ok (Some (p, n))) ->
  exists l', l = p :: l' /\ n = count_of s p /\ timer_inv s' l' /\ counts_follow s s' (LDeliver p n) /\
  (forall q, valid_timer s q -> valid_timer s' q) /\ vm_interrupt s' = vm_interrupt s.
Proof.
  intros Hinv Hrun. destruct (dequeue_spec s l self Hinv) as (ts & v & Hrun' & Hinv' & He).
  rewrite Hrun in Hrun'. destruct l as [|p' l]; [done|]. simplify_eq/=.
  exists l. split_and!; [done|done|done| |by intros; eapply relinked_valid|done].
  eapply relinked_counts; [done|done| |]; simpl.
  - intros u z Hu Hz. rewrite decide_True by done. unfold count_of. rewrite Hu. simpl. rewrite Hz.
    transitivity (wrap_i64 0); [done|]. apply wrap_i64_congr.
    rewrite Zminus_mod, wrap_i64_mod, <-Zminus_mod, Z.sub_diag. done.
  - intros q z Hq. by rewrite decide_False.
Qed.

Lemma end_step s l self s' :
  timer_inv s l -> excimer_timer_pending_dequeue false self s = (s', Ok None) ->
  l = [] /\ timer_inv s' [] /\ counts_follow s s' LEnd /\
  (forall q, valid_timer s q -> valid_timer s' q).
Proof.
  intros Hinv Hrun. destruct (dequeue_spec s l self Hinv) as (ts & v & Hrun' & Hinv' & He).
  rewrite Hrun in Hrun'. destruct l as [|p' l]; [|done]. simplify_eq/=. split_and!; [done|done| |].
  - intros q t' z Hq Hv Hold. destruct (links_lookup _ _ q t' He Hq) as (u & Hu & Heu).
    rewrite (links_count t' u Heu). apply Hold; [done|].
    apply (f_equal is_valid) in Heu. simpl in Heu. congruence.
  - intros q (t & Hq & Hv). destruct (links_lookup_l _ _ q t He Hq) as (t' & Hq' & Heu).
    exists t'. split; [done|]. apply (f_equal is_valid) in Heu. simpl in Heu. congruence.
Qed.

(** Steps that change one timer and keep its validity and counter. *)
Lemma only_timer_counts s s' p a t t' :
  only_timer p s s' -> timers s !! p = Some t -> timers s' !! p = Some t' ->
  is_valid t' = is_valid t -> event_count t' = event_count t -> (forall q z, owed_step q z a = z) ->
  counts_follow s s' a /\ (forall q, valid_timer s q -> valid_timer s' q).
Proof.
  intros (Ho & _) Hp Hp' Hv Hc Ha. split.
  - intros q u z Hq Hvq Hold. rewrite Ha. destruct (decide (q = p)) as [->|Hne].
    + rewrite Hp' in Hq. injection Hq as <-. rewrite Hc. apply Hold; [done|congruence].
    + rewrite Ho in Hq by done. by apply Hold.
  - intros q (u & Hq & Hvq). destruct (decide (q = p)) as [->|Hne].
    + exists t'. split; [done|]. congruence.
    + exists u. by rewrite Ho.
Qed.

Lemma start_step s l p period initial s' :
  timer_inv s l -> excimer_timer_start p period initial s = (s', Ok tt) ->
  timer_inv s' l /\ counts_follow s s' (LStart p) /\
  (forall q, valid_timer s q -> valid_timer s' q) /\ vm_interrupt s' = vm_interrupt s.
Proof.
  intros Hinv Hrun. destruct (timers s !! p) as [t|] eqn:Hp.
  2:{ unfold excimer_timer_start, load, mbind, M_bind, get_state, lift in Hrun. by rewrite Hp in Hrun. }
  destruct (start_spec s l p t period initial Hinv Hp) as (s1 & Hrun1 & Hinv1 & Ho & Heff).
  rewrite Hrun in Hrun1. injection Hrun1 as <-.
  assert (exists t', timers s' !! p = Some t' /\ is_valid t' = is_valid t /\ event_count t' = event_count t)
    as (t' & Hp' & Hv & Hc).
  { cbv zeta in Heff. destruct (is_valid t && _); [|destruct Heff as [msg ->]; by exists t].
    destruct (timerlib_timer_start _ _ _ _) as [o [tl ok]]. subst s'. eexists.
    split; [apply lookup_insert_eq|]. by destruct ok. }
  destruct (only_timer_counts s s' p (LStart p) t t' Ho Hp Hp' Hv Hc) as [Hcf Hvf]; [done|].
  split_and!; [done..|]. by destruct Ho as (_ & ? & _).
Qed.

Lemma stop_step s l p s' :
  timer_inv s l -> excimer_timer_stop p s = (s', Ok tt) ->
  timer_inv s' l /\ counts_follow s s' (LStop p) /\
  (forall q, valid_timer s q -> valid_timer s' q) /\ vm_interrupt s' = vm_interrupt s.
Proof.
  intros Hinv Hrun. destruct (timers s !! p) as [t|] eqn:Hp.
  2:{ unfold excimer_timer_stop, load, mbind, M_bind, get_state, lift in Hrun. by rewrite Hp in Hrun. }
  destruct (stop_spec s l p t Hinv Hp) as (s1 & Hrun1 & Hinv1 & Ho & Heff).
  rewrite Hrun in Hrun1. injection Hrun1 as <-.
  assert (exists t', timers s' !! p = Some t' /\ is_valid t' = is_valid t /\ event_count t' = event_count t)
    as (t' & Hp' & Hv & Hc).
  { destruct (is_valid t) eqn:Hv; [|destruct Heff as [msg ->]; by exists t].
    destruct (is_running t); [|subst s'; by exists t].
    destruct (timerlib_timer_stop _ _) as [o [tl ok]]. subst s'. eexists.
    split; [apply lookup_insert_eq|]. by destruct ok. }
  destruct (only_timer_counts s s' p (LStop p) t t' Ho Hp Hp' Hv Hc) as [Hcf Hvf]; [done|].
  split_and!; [done..|]. by destruct Ho as (_ & ? & _).
Qed.

Lemma init_step s l self p et cb data b s' :
  timer_inv s l -> invalid_timer s p ->
  excimer_timer_init false self p et cb data s = (s', Ok b) ->
  timer_inv s' l /\ counts_follow s s' (LInit p b) /\
  (forall q, valid_timer s q -> valid_timer s' q) /\ vm_interrupt s' = vm_interrupt s.
Proof.
  intros Hinv (t & Hp & Hv) Hrun.
  destruct (init_spec s l self p t et cb data Hinv Hp Hv)
    as (s1 & b1 & t1 & Hrun1 & Hinv1 & Hp1 & Hv1 & Hr1 & Hc1 & _ & _ & Ho).
  rewrite Hrun in Hrun1. injection Hrun1 as <- <-. split_and!; [done| | |by destruct Ho as (_ & ? & _)].
  - intros q u z Hq Hvq Hold. simpl. destruct (decide (p = q)) as [<-|Hne].
    + rewrite Hp1 in Hq. by injection Hq as <-.
    + rewrite (proj1 Ho) in Hq by done. by apply Hold.
  - intros q (u & Hq & Hvq). exists u. rewrite (proj1 Ho); [done|]. intros ->. congruence.
Qed.

Lemma destroy_step s l self p s' :
  timer_inv s l -> valid_timer s p -> excimer_timer_destroy false self p s = (s', Ok tt) ->
  timer_inv s' (queue_remove p l) /\ counts_follow s s' (LDestroy p) /\
  (forall q, q <> p -> valid_timer s q -> valid_timer s' q) /\ vm_interrupt s' = vm_interrupt s.
Proof.
  intros Hinv (t & Hp & Hv) Hrun.
  destruct (destroy_spec s l self p t Hinv Hp Hv) as (s1 & t1 & Hrun1 & Hinv1 & Hp1 & Hv1 & Hq1 & Hvm & _).
  rewrite Hrun in Hrun1. injection Hrun1 as <-. split_and!; [done| | |done].
  - intros q u z Hq Hvq Hold. simpl. destruct (decide (p = q)) as [<-|Hne]; [congruence|].
    specialize (Hq1 q ltac:(done)). rewrite Hq in Hq1. destruct (timers s !! q) as [w|]; [|done].
    apply (inj Some) in Hq1. rewrite (links_count u w Hq1). apply Hold; [done|].
    apply (f_equal is_valid) in Hq1. simpl in Hq1. congruence.
  - intros q Hne (u & Hq & Hvq). specialize (Hq1 q Hne). rewrite Hq in Hq1.
    destruct (timers s' !! q) as [w|] eqn:Hw; [|done]. apply (inj Some) in Hq1.
    exists w. split; [done|]. apply (f_equal is_valid) in Hq1. simpl in Hq1. congruence.
Qed.

Lemma pending_dom s l p : timer_inv s l -> p ∈ l -> valid_timer s p.
Proof.
  intros Hinv Hp. destruct (linked_dom _ _ p (proj2 (ti_list _ _ Hinv)) Hp) as [t Ht].
  exists t. split; [done|]. by apply (tok_pending l p t), Hp; apply (ti_timers _ _ Hinv).
Qed.

(** Adding or deleting memory that is not in use. *)
Lemma alloc_step s l p :
  timer_inv s l -> timers s !! p = None ->
  timer_inv (set_timers (<[p := zero_timer]> (timers s)) s) l /\
  counts_follow s (set_timers (<[p := zero_timer]> (timers s)) s) (LAlloc p) /\
  (forall q, valid_timer s q -> valid_timer (set_timers (<[p := zero_timer]> (timers s)) s) q).
Proof.
  intros Hinv Hp. pose proof Hinv as [[Hh Hl] Ht Hm Hok Ha].
  assert (Hpl : p ∉ l) by (intros (t & Ht' & _)%(pending_dom s l p Hinv); congruence).
  assert (Hne : forall q, is_Some (timers s !! q) -> q <> p) by (intros q [? ?] ->; congruence).
  split_and!.
  - split; simpl; [| |done| |].
    + split; [done|]. apply (linked_frame (timers s)); [|done]. intros q Hq.
      rewrite lookup_insert_ne; [done|]. by intros ->.
    + intros q Hq. destruct (decide (q = p)) as [->|Hqp].
      * right. exists zero_timer. by rewrite lookup_insert_eq.
      * rewrite lookup_insert_ne in Hq by done. unfold unlinked. rewrite lookup_insert_ne by done. by apply Ht.
    + intros q t [[<- <-]|[_ Hq]]%lookup_insert_Some; [by split|by apply Hok].
    + change (get_tls 0 (set_timers _ s)) with (get_tls 0 s). rewrite Ha, num_valid_insert_new by done.
      f_equal. unfold valid_Z. simpl. lia.
  - intros q t' z. simpl. rewrite lookup_insert_Some. intros [[<- <-]|[_ Hq]] Hv Hold; [done|by apply Hold].
  - intros q (t & Hq & Hv). exists t. simpl. rewrite lookup_insert_ne; [done|].
    symmetry. apply Hne. eauto.
Qed.

Lemma free_step s l p :
  timer_inv s l -> invalid_timer s p ->
  timer_inv (set_timers (delete p (timers s)) s) l /\
  counts_follow s (set_timers (delete p (timers s)) s) (LFree p) /\
  (forall q, valid_timer s q -> valid_timer (set_timers (delete p (timers s)) s) q).
Proof.
  intros Hinv (t & Hp & Hv). pose proof Hinv as [[Hh Hl] Ht Hm Hok Ha].
  assert (Hpl : p ∉ l) by (intros (u & Hu & Hvu)%(pending_dom s l p Hinv); congruence).
  split_and!.
  - split; simpl; [| |done| |].
    + split; [done|]. apply (linked_frame (timers s)); [|done]. intros q Hq.
      rewrite lookup_delete_ne; [done|]. by intros ->.
    + intros q Hq. destruct (decide (p = q)) as [<-|Hqp].
      * rewrite lookup_delete_eq in Hq. by destruct Hq.
      * rewrite lookup_delete_ne in Hq by done. unfold unlinked. rewrite lookup_delete_ne by done. by apply Ht.
    + intros q u [_ Hq]%lookup_delete_Some. by apply Hok.
    + change (get_tls 0 (set_timers _ s)) with (get_tls 0 s). rewrite Ha.
      rewrite <-(insert_delete_id (timers s) p t) at 1 by done.
      rewrite num_valid_insert_new by apply lookup_delete_eq. f_equal. unfold valid_Z. rewrite Hv. lia.
  - intros q t' z. simpl. rewrite lookup_delete_Some. intros [_ Hq] Hvq Hold. by apply Hold.
  - intros q (u & Hq & Hvq). exists u. simpl. rewrite lookup_delete_ne; [done|]. intros <-. congruence.
Qed.

Lemma flag_step s l p s' :
  timer_inv s l -> valid_timer s p -> raise_interrupt p s = (s', Ok tt) ->
  s' = set_vm_interrupt (<[0%nat := true]> (vm_interrupt s)) s.
Proof.
  intros Hinv (t & Hp & Hv). unfold raise_interrupt. rewrite (bind_ok _ _ _ _ _ (load_ok s p t Hp)).
  destruct (tok_owner _ _ _ (ti_timers _ _ Hinv _ _ Hp) Hv) as (_ & -> & _).
  rewrite (bind_ok (lift (deref (Some 0%nat))) _ s s 0%nat) by done. by intros [= <-].
Qed.

(** Every step keeps the invariant and the books. *)
Lemma step_sound y l a y' :
  sys_inv y l -> step y a y' -> fire_ok a ->
  exists l', sys_inv y' l' /\ counts_follow (st y) (st y') a.
Proof.
  intros [Hinv Hfl Hw] Hstep Hfire.
  destruct Hstep as [s fl d self p n s' Hv Hrun|s fl1 fl2 d p s' Hrun|s fl d Hflag|s fl d self p n s' Hrun
    |s fl d self s' Hrun|s fl d p Hnone|s fl d self p et cb data b s' Hv Hrun|s fl d p per ini s' Hrun
    |s fl d p s' Hrun|s fl d self p s' Hpf Hv Hrun|s fl d p Hv|s fl d s' Hsame]; cbn [st flight depth] in *.
  - destruct (fire_step s l self p n s' Hinv Hv Hfire Hrun) as (Hinv' & Hc & Hvs & Hvm).
    exists (queue_add p l). split; [|done]. split; simpl; [done| |by right; left].
    intros q [->|Hq]%elem_of_cons; auto.
  - rewrite (flag_step s l p s' Hinv) in * by (done || apply Hfl; set_solver).
    exists l. split; [|by intros q t z Hq Hvq Hold; apply Hold]. split; simpl; [by apply flag_inv| |].
    + intros q Hq. apply (Hfl q). set_solver.
    + intros _. left. by rewrite lookup_insert_eq.
  - exists l. split; [|by intros q t z Hq Hvq Hold; apply Hold].
    split; simpl; [by apply flag_inv|done|]. intros _. right; right. lia.
  - destruct (deliver_step s l self p n s' Hinv Hrun) as (l' & -> & -> & Hinv' & Hc & Hvs & Hvm).
    exists l'. split; [|done]. split; simpl; [done|by auto|]. intros _. right; right. lia.
  - destruct (end_step s l self s' Hinv Hrun) as (-> & Hinv' & Hc & Hvs).
    exists []. split; [|done]. split; simpl; [done|by auto|done].
  - destruct (alloc_step s l p Hinv Hnone) as (Hinv' & Hc & Hvs). exists l. by split; [split; simpl; auto|].
  - destruct (init_step s l self p et cb data b s' Hinv Hv Hrun) as (Hinv' & Hc & Hvs & Hvm).
    exists l. split; [|done]. split; simpl; [done|by auto|by rewrite Hvm].
  - destruct (start_step s l p per ini s' Hinv Hrun) as (Hinv' & Hc & Hvs & Hvm).
    exists l. split; [|done]. split; simpl; [done|by auto|by rewrite Hvm].
  - destruct (stop_step s l p s' Hinv Hrun) as (Hinv' & Hc & Hvs & Hvm).
    exists l. split; [|done]. split; simpl; [done|by auto|by rewrite Hvm].
  - destruct (destroy_step s l self p s' Hinv Hv Hrun) as (Hinv' & Hc & Hvs & Hvm).
    exists (queue_remove p l). split; [|done]. split; simpl; [done| |].
    + intros q Hq. apply Hvs; [|by auto]. by intros ->.
    + rewrite Hvm. intros Hne. apply Hw. intros ->. done.
  - destruct (free_step s l p Hinv Hv) as (Hinv' & Hc & Hvs). exists l. by split; [split; simpl; auto|].
  - pose proof Hsame as (Hts & _ & Hvm). exists l. split; [split; simpl|].
    + by apply (same_timers_inv s).
    + intros p Hp. destruct (Hfl p Hp) as (t & Ht & Hv). exists t. by rewrite Hts.
    + by rewrite Hvm.
    + intros q t z Hq Hv Hold. rewrite Hts in Hq. by apply Hold.
Qed.

Lemma steps_sound y tr y' :
  initial_sys y -> steps y tr y' -> Forall fire_ok tr ->
  (exists l, sys_inv y' l) /\
  forall p t, timers (st y') !! p = Some t -> is_valid t = true -> event_count t = wrap_i64 (owed p tr).
Proof.
  intros (Hinv & Hfl & Hd) Hsteps. induction Hsteps as [y|y tr y1 a y2 Hsteps IH Hstep]; intros Htr.
  - split.
    + exists []. split; [done|rewrite Hfl; set_solver|done].
    + intros p t Hp Hv. rewrite (tok_idle _ _ _ (ti_timers _ _ Hinv _ _ Hp) Hv); [done|set_solver].
  - apply Forall_app in Htr as [Htr Ha]. rewrite Forall_singleton in Ha.
    destruct (IH Hinv Hfl Hd Htr) as [[l Hl] Hcount].
    destruct (step_sound y1 l a y2 Hl Hstep Ha) as (l' & Hl' & Hc). split; [by exists l'|].
    intros p t Hp Hv. unfold owed. rewrite foldl_app. simpl.
    apply (Hc p t (owed p tr) Hp Hv). intros u Hu Hvu. by apply Hcount.
Qed.

Lemma raise_ok s l p :
  timer_inv s l -> valid_timer s p ->
  raise_interrupt p s = (set_vm_interrupt (<[0%nat := true]> (vm_interrupt s)) s, Ok tt).
Proof.
  intros Hinv (t & Hp & Hv). unfold raise_interrupt. rewrite (bind_ok _ _ _ _ _ (load_ok s p t Hp)).
  destruct (tok_owner _ _ _ (ti_timers _ _ Hinv _ _ Hp) Hv) as (_ & -> & _). done.
Qed.

(** ** Lemmas for systems that have this one as a part *)

(** A valid timer remains so until it is destroyed. *)
Lemma step_valid (z : sys TL OS X) l a z' q :
  sys_inv z l -> step z a z' -> fire_ok a -> a <> LDestroy q -> valid_timer (st z) q -> valid_timer (st z') q.
Proof.
  intros [Hinv Hfl _] Hstep Hfire Ha Hq.
  destruct Hstep as [s fl d self p n s' Hv Hrun|s fl1 fl2 d p s' Hrun|s fl d Hflag|s fl d self p n s' Hrun
    |s fl d self s' Hrun|s fl d p Hnone|s fl d self p et cb data b s' Hv Hrun|s fl d p per ini s' Hrun
    |s fl d p s' Hrun|s fl d self p s' Hpf Hv Hrun|s fl d p Hv|s fl d s' Hsame]; cbn [st flight depth] in *.
  - by apply (fire_step s l self p n s' Hinv Hv Hfire Hrun).
  - rewrite (flag_step s l p s' Hinv) by (done || apply Hfl; set_solver). done.
  - done.
  - destruct (deliver_step s l self p n s' Hinv Hrun) as (l' & _ & _ & _ & _ & Hvs & _). by apply Hvs.
  - by apply (end_step s l self s' Hinv Hrun).
  - by apply (alloc_step s l p Hinv Hnone).
  - by apply (init_step s l self p et cb data b s' Hinv Hv Hrun).
  - by apply (start_step s l p per ini s' Hinv Hrun).
  - by apply (stop_step s l p s' Hinv Hrun).
  - apply (destroy_step s l self p s' Hinv Hv Hrun); [|done]. congruence.
  - by apply (free_step s l p Hinv Hv).
  - destruct Hsame as (Hts & _). destruct Hq as (t & Ht & Hv). exists t. by rewrite Hts.
Qed.

(** The handlers between their critical section and raising the flag. *)
Lemma step_flight (z : sys TL OS X) a z' :
  step z a z' ->
  match a with
  | LFire p _ => flight z' = p :: flight z
  | LFlag p => exists fl1 fl2, flight z = fl1 ++ p :: fl2 /\ flight z' = fl1 ++ fl2
  | _ => flight z' = flight z
  end.
Proof. destruct 1; cbn; eauto. Qed.

Lemma flight_nodup (z : sys TL OS X) a z' :
  step z a z' -> NoDup (flight z) -> (forall p n, a = LFire p n -> p ∉ flight z) -> NoDup (flight z').
Proof.
  intros Hs%step_flight Hn Hf. destruct a; try (by rewrite Hs).
  - rewrite Hs. constructor; [by eapply Hf|done].
  - destruct Hs as (fl1 & fl2 & Hz & ->). rewrite Hz in Hn. by apply (NoDup_Permutation_proper _ _ (Permutation_middle _ _ _)), NoDup_cons in Hn as [_ Hn].
Qed.

Lemma owed_snoc p (ls : list label) a : owed p (ls ++ [a]) = owed_step p (owed p ls) a.
Proof. unfold owed. by rewrite foldl_app. Qed.

(** The threads after a step of the thread of [p]. *)
Lemma threads_insert {T} (P : ptr -> T -> Prop) (ths : gmap ptr T) p th' :
  P p th' -> (forall q th, q <> p -> ths !! q = Some th -> P q th) ->
  forall q th, <[p := th']> ths !! q = Some th -> P q th.
Proof. intros Hp Ho q th [[<- <-]|[Hne Hq]]%lookup_insert_Some; [done|]. by apply Ho. Qed.

(** A handler that is about to raise the flag can. *)
Lemma flag_possible (z : sys TL OS X) l p :
  sys_inv z l -> p ∈ flight z -> NoDup (flight z) ->
  exists z', step z (LFlag p) z' /\ p ∉ flight z' /\ (forall q, valid_timer (st z) q -> valid_timer (st z') q).
Proof.
  destruct z as [s fl d]. intros [Hinv Hfl _] Hin Hn. cbn [st flight] in *.
  pose proof (raise_ok s l p Hinv (Hfl p Hin)) as Hr.
  apply list_elem_of_split in Hin as (fl1 & fl2 & ->).
  eexists. split; [by eapply step_flag|]. cbn. split; [|done].
  rewrite <-Permutation_middle in Hn. by apply NoDup_cons in Hn as [? _].
Qed.

(** The handler of a valid timer can run its critical section. *)
Lemma fire_possible (z : sys TL OS X) l p n :
  sys_inv z l -> valid_timer (st z) p -> exists z', step z (LFire p n) z'.
Proof.
  destruct z as [s fl d]. intros [Hinv _ _] (t & Hp & Hv). cbn [st] in *.
  destruct (handle_locked_spec s l 0 p t n Hinv Hp Hv) as (ts & v & Hrun & _).
  eexists. eapply step_fire; [by exists t|done].
Qed.

(** ** Properties *)

(** C2. Safety of the timers under any interleaving of the main thread, its
    callbacks and the handler threads: in every reachable state the pending list
    is a well-formed list of valid timers, the mutex is free between steps and
    [timers_active] is the number of valid timers; and a handler of a valid
    timer, an interrupt and a destruction always run to their end without a
    null or dangling pointer. *)
Theorem reachable_safe y tr y' :
  initial_sys y -> steps y tr y' -> Forall fire_ok tr ->
  exists l, timer_inv (st y') l /\
    (forall p n self, valid_timer (st y') p ->
      exists s', handle_locked false self p n (st y') = (s', Ok tt)) /\
    (forall p, p ∈ flight y' -> exists s', raise_interrupt p (st y') = (s', Ok tt)) /\
    (forall self, exists s' r, excimer_timer_pending_dequeue false self (st y') = (s', Ok r)) /\
    (forall p self, valid_timer (st y') p ->
      exists s', excimer_timer_destroy false self p (st y') = (s', Ok tt)).
Proof.
  intros Hinit Hsteps Htr. destruct (steps_sound y tr y' Hinit Hsteps Htr) as [[l [Hinv Hfl _]] _].
  exists l. split_and!; [done|..].
  - intros p n self (t & Hp & Hv).
    destruct (handle_locked_spec (st y') l self p t n Hinv Hp Hv) as (ts & v & Hrun & _). eauto.
  - intros p Hp. rewrite (raise_ok (st y') l p) by auto. eauto.
  - intros self. destruct (dequeue_spec (st y') l self Hinv) as (ts & v & Hrun & _). eauto.
  - intros p self (t & Hp & Hv).
    destruct (destroy_spec (st y') l self p t Hinv Hp Hv) as (s' & t' & Hrun & _). eauto.
Qed.

(** C3. No event is lost or counted twice: in every reachable state the counter
    of a valid timer holds the number of times the timer elapsed since it was
    initialised, overruns included, less the events reported to its callback. *)
Theorem events_conserved y tr y' p t :
  initial_sys y -> steps y tr y' -> Forall fire_ok tr ->
  timers (st y') !! p = Some t -> is_valid t = true ->
  event_count t = wrap_i64 (owed p tr).
Proof. intros Hinit Hsteps Htr. by apply (steps_sound y tr y'). Qed.

(** C28. No wake-up is lost: whenever a timer is pending, the interrupt flag is
    set, or a handler is about to set it, or an interrupt is in progress. *)
Theorem no_lost_wakeup y tr y' :
  initial_sys y -> steps y tr y' -> Forall fire_ok tr ->
  pending_head (get_tls 0 (st y')) <> None ->
  vm_interrupt (st y') !! 0%nat = Some true \/ flight y' <> [] \/ (0 < depth y')%nat.
Proof.
  intros Hinit Hsteps Htr Hh. destruct (steps_sound y tr y' Hinit Hsteps Htr) as [[l [Hinv _ Hw]] _].
  apply Hw. intros ->. by destruct (ti_list _ _ Hinv) as [Heq _].
Qed.

Lemma deliver_possible y l p l' :
  sys_inv y l -> l = p :: l' -> (0 < depth y)%nat ->
  exists y', step y (LDeliver p (count_of (st y) p)) y'.
Proof.
  intros Hinv -> Hd. destruct y as [s fl [|d]]; simpl in *; [lia|].
  destruct (dequeue_spec s (p :: l') 0 (sy_timers _ _ Hinv)) as (ts & v & Hrun & _).
  eexists. by eapply step_deliver.
Qed.

(** C29. Events can always be delivered: from every reachable state with a pending
    timer, the timer at the head of the list can be delivered, with all its
    events, after at most the raising of the flag and the start of an interrupt. *)
Theorem pending_deliverable y tr y' p :
  initial_sys y -> steps y tr y' -> Forall fire_ok tr ->
  pending_head (get_tls 0 (st y')) = Some p ->
  exists tr1 y1 y2, steps y (tr ++ tr1) y1 /\ (length tr1 <= 2)%nat /\
    step y1 (LDeliver p (count_of (st y') p)) y2.
Proof.
  intros Hinit Hsteps Htr Hh. destruct (steps_sound y tr y' Hinit Hsteps Htr) as [[l Hinv] _].
  assert (exists l', l = p :: l') as [l' Hl].
  { destruct (ti_list _ _ (sy_timers _ _ Hinv)) as [Heq _]. rewrite Hh in Heq.
    destruct l as [|q l']; [done|]. injection Heq as ->. eauto. }
  assert (Hbegin : forall tr0 s fl d, steps y tr0 (Sys s fl d) -> sys_inv (Sys s fl d) l ->
    vm_interrupt s !! 0%nat = Some true -> exists y1 y2, steps y (tr0 ++ [LBegin]) y1 /\
      step y1 (LDeliver p (count_of s p)) y2).
  { intros tr0 s fl d Hst Hi Hflag. pose proof (step_begin s fl d Hflag) as Hb.
    destruct (step_sound _ l _ _ Hi Hb I) as (l1 & [Hi1 _ _] & _).
    destruct (deliver_possible (Sys (set_vm_interrupt (<[0%nat:=false]> (vm_interrupt s)) s) fl (S d)) l p l')
      as [y2 Hd]; [|done|simpl; lia|].
    - destruct Hi as [Hi ? ?]. split; simpl; [by apply flag_inv|done|]. intros _. right; right. lia.
    - exists (Sys (set_vm_interrupt (<[0%nat:=false]> (vm_interrupt s)) s) fl (S d)), y2.
      split; [by eapply steps_snoc|done]. }
  destruct (sy_wakeup _ _ Hinv ltac:(by rewrite Hl)) as [Hflag|[Hfl|Hd]].
  - destruct y' as [s fl d]. destruct (Hbegin tr s fl d Hsteps Hinv Hflag) as (y1 & y2 & H1 & H2).
    exists [LBegin], y1, y2. simpl. split_and!; [done|lia|done].
  - destruct y' as [s fl d]. simpl in *. destruct fl as [|q fl]; [done|].
    pose proof (raise_ok s l q (sy_timers _ _ Hinv) (sy_flight _ _ Hinv q ltac:(set_solver))) as Hr.
    pose proof (step_flag s [] fl d q _ Hr) as Hf. simpl in Hf.
    edestruct (Hbegin (tr ++ [LFlag q]) (set_vm_interrupt (<[0%nat:=true]> (vm_interrupt s)) s) fl d)
      as (y1 & y2 & H1 & H2); [by eapply steps_snoc| |by apply lookup_insert_eq|].
    + destruct Hinv as [Hi Hv Hw]. split; simpl in *; [by apply flag_inv| |].
      * intros r Hr'. apply (Hv r). set_solver.
      * intros _. left. by rewrite lookup_insert_eq.
    + exists [LFlag q; LBegin], y1, y2. rewrite <-app_assoc in H1. simpl in *. split_and!; [done|lia|done].
  - destruct (deliver_possible y' l p l' Hinv Hl Hd) as [y2 H2].
    exists [], y', y2. rewrite app_nil_r. simpl. split_and!; [done|lia|done].
Qed.

End system_facts.

(** ** Witnesses *)

Section witnesses.
  #[local] Existing Instance ex_timerlib.

Definition ex_sys0 : sys bool unit (list (timer_callback * option ptr * Z)) := Sys ex_initialised [] 0.
Definition ex_sys1 : sys bool unit (list (timer_callback * option ptr * Z)) :=
  Sys (handle_locked false 7 2 4 ex_initialised).1 [2%positive] 0.

Lemma ex_sys0_initial : initial_sys ex_sys0.
Proof. split; [apply ex_initialised_inv|done]. Qed.

Lemma ex_run : steps ex_sys0 [LFire 2 4] ex_sys1.
Proof.
  apply (steps_snoc ex_sys0 [] ex_sys0); [constructor|].
  apply (step_fire ex_initialised [] 0 7 2 4); [vm_compute; eauto|].
  destruct (handle_locked false 7 2 4 ex_initialised) as [s' r] eqn:Hrun.
  assert (r = Ok tt) as -> by by vm_compute in Hrun; injection Hrun. done.
Qed.

Lemma ex_run_ok : Forall fire_ok [LFire 2 4].
Proof. constructor; [simpl; lia|constructor]. Qed.

Lemma reachable_safe_witness : exists l, timer_inv (st ex_sys1) l.
Proof.
  destruct (reachable_safe ex_sys0 [LFire 2 4] ex_sys1 ex_sys0_initial ex_run ex_run_ok) as (l & Hinv & _).
  exists l. exact Hinv.
Defined.

Lemma events_conserved_witness :
  exists t, timers (st ex_sys1) !! 2%positive = Some t /\ event_count t = 5.
Proof.
  destruct (timers (st ex_sys1) !! 2%positive) as [t|] eqn:Hp; [|vm_compute in Hp; discriminate].
  exists t. split; [reflexivity|].
  rewrite (events_conserved ex_sys0 [LFire 2 4] ex_sys1 2 t ex_sys0_initial ex_run ex_run_ok Hp);
    [vm_compute; reflexivity|].
  vm_compute in Hp. injection Hp as <-. reflexivity.
Defined.

Lemma no_lost_wakeup_witness :
  pending_head (get_tls 0 (st ex_sys1)) = Some 2%positive /\
  (vm_interrupt (st ex_sys1) !! 0%nat = Some true \/ flight ex_sys1 <> [] \/ (0 < depth ex_sys1)%nat).
Proof.
  split; [vm_compute; reflexivity|].
  apply (no_lost_wakeup ex_sys0 [LFire 2 4] ex_sys1 ex_sys0_initial ex_run ex_run_ok).
  vm_compute. discriminate.
Defined.

Lemma pending_deliverable_witness :
  exists tr1 y1 y2, steps ex_sys0 ([LFire 2 4] ++ tr1) y1 /\ (length tr1 <= 2)%nat /\
    step y1 (LDeliver 2 5) y2.
Proof.
  apply (pending_deliverable ex_sys0 [LFire 2 4] ex_sys1 2 ex_sys0_initial ex_run ex_run_ok).
  vm_compute. reflexivity.
Defined.

End witnesses.
