(* ===== verification/PosixSystem.v ===== *)
(** * Timers on POSIX: kernel, handler threads and main thread

    The system of [TimerSystem] with the timer library of [TimerlibPosix], where
    the handler threads are those of [timerlib_timer_thread_main]: the kernel
    queues expirations as signals, the handler of each timer receives them one
    after the other and calls [excimer_timer_handle], the main thread takes the
    events off the pending list and calls the callbacks. In [TimerSystem] a handler
    fires whenever it likes; here it fires for the signals that it receives.

    The main thread tells the handler of a timer to exit, and is then in
    [pthread_join] until the thread has ended; the rest of
    [excimer_timer_destroy] is one step. *)

From S2P Require Import Prelude Timespec PendingList Timer TimerlibCommon TimerlibPosix TimerSystem.

(** ** The system *)

Section posix_system.
  Context {E X : Type} `{PosixEnv E}.
  Abbreviation psys_timers := (sys posix_timer (sys_os E) X).

(** [ps_joining] is the timer whose thread the main thread waits for. *)
Record psys : Type := PSys {
  ps_sys : psys_timers;
  ps_threads : gmap ptr thread_sys;
  ps_joining : option ptr
}.

Inductive plabel : Type :=
  | PExpire (p : ptr)                       (* the kernel's timer expires *)
  | PReceive (p : ptr) (overrun : option Z) (* the handler gets a signal, and may call the notify function *)
  | PInterrupted (p : ptr)
  | PFlag (p : ptr)                         (* the handler raises the interrupt flag *)
  | PKill (p : ptr)                         (* timerlib_graceful_exit *)
  | PMain (a : label).

(** Steps of the main thread alone. *)
Definition main_label (a : label) : bool :=
  match a with LFire _ _ | LFlag _ | LInit _ _ | LDestroy _ => false | _ => true end.

(** The handler thread of a timer that was initialised. *)
Definition thread_new (t : excimer_timer posix_timer) : thread_sys := ThreadSys (tl_timer t) [] true [] false.

(** An overrun count of the kernel is an [int] that can be counted up. *)
Definition overruns_fit (q : list siginfo_t) : Prop := Forall (fun si => si_overrun si < 2 ^ 31 - 1) q.

Inductive pstep : psys -> plabel -> psys -> Prop :=
  | pstep_expire y ths j p th th' :
      ths !! p = Some th -> thread_step th TExpire th' -> overruns_fit (th_queue th') ->
      pstep (PSys y ths j) (PExpire p) (PSys y (<[p := th']> ths) j)
  | pstep_notify y y' ths j p th th' n :
      ths !! p = Some th -> p ∉ flight y -> thread_step th TReceive th' ->
      th_notified th' = th_notified th ++ [n] -> step y (LFire p n) y' ->
      pstep (PSys y ths j) (PReceive p (Some n)) (PSys y' (<[p := th']> ths) j)
  | pstep_silent y ths j p th th' :
      ths !! p = Some th -> p ∉ flight y -> thread_step th TReceive th' ->
      th_notified th' = th_notified th ->
      pstep (PSys y ths j) (PReceive p None) (PSys y (<[p := th']> ths) j)
  | pstep_interrupted y ths j p th th' :
      ths !! p = Some th -> thread_step th TInterrupted th' ->
      pstep (PSys y ths j) (PInterrupted p) (PSys y (<[p := th']> ths) j)
  | pstep_flag y y' ths j p :
      step y (LFlag p) y' -> pstep (PSys y ths j) (PFlag p) (PSys y' ths j)
  | pstep_main y y' ths a :
      main_label a = true -> step y a y' -> pstep (PSys y ths None) (PMain a) (PSys y' ths None)
  | pstep_init y y' ths p t :
      step y (LInit p true) y' -> timers (st y') !! p = Some t ->
      pstep (PSys y ths None) (PMain (LInit p true)) (PSys y' (<[p := thread_new t]> ths) None)
  | pstep_init_error y y' ths p :
      step y (LInit p false) y' -> pstep (PSys y ths None) (PMain (LInit p false)) (PSys y' ths None)
  | pstep_kill y ths p th th' :
      ths !! p = Some th -> thread_step th TKill th' ->
      pstep (PSys y ths None) (PKill p) (PSys y (<[p := th']> ths) (Some p))
  | pstep_destroy y y' ths p th th' :
      ths !! p = Some th -> thread_step th TJoin th' -> step y (LDestroy p) y' ->
      pstep (PSys y ths (Some p)) (PMain (LDestroy p)) (PSys y' (delete p ths) None).

Inductive psteps : psys -> list plabel -> psys -> Prop :=
  | psteps_nil y : psteps y [] y
  | psteps_snoc y tr y1 a y2 : psteps y tr y1 -> pstep y1 a y2 -> psteps y (tr ++ [a]) y2.

Definition pinitial (y : psys) : Prop :=
  initial_sys (ps_sys y) /\ (forall p, ~ valid_timer (st (ps_sys y)) p) /\ ps_threads y = ∅ /\ ps_joining y = None.

(** ** Specification *)

(** The steps of [TimerSystem]. *)
Definition project (a : plabel) : list label :=
  match a with
  | PReceive p (Some n) => [LFire p n]
  | PFlag p => [LFlag p]
  | PMain a => [a]
  | _ => []
  end.

(** The expirations of the kernel's timer since it was created, and the events
    that were given to the callback since. *)
Definition elapsed_step (p : ptr) (z : Z) (a : plabel) : Z :=
  match a with
  | PExpire q => if decide (q = p) then z + 1 else z
  | PMain (LInit q _) | PMain (LDestroy q) => if decide (q = p) then 0 else z
  | _ => z
  end.

Definition elapsed (p : ptr) (tr : list plabel) : Z := foldl (elapsed_step p) 0 tr.

Definition delivered_step (p : ptr) (z : Z) (a : plabel) : Z :=
  match a with
  | PMain (LDeliver q n) => if decide (q = p) then z + n else z
  | PMain (LInit q _) | PMain (LDestroy q) => if decide (q = p) then 0 else z
  | _ => z
  end.

Definition delivered (p : ptr) (tr : list plabel) : Z := foldl (delivered_step p) 0 tr.

(** The thread of a timer: what it has reported is owed to the callback or was
    delivered. *)
Record thread_ok (tr : list plabel) (p : ptr) (th : thread_sys) : Prop := ThreadOk {
  tk_inv : exists trp, thread_inv trp th /\ expirations trp = elapsed p tr;
  tk_owed : owed p (tr ≫= project) = reported (th_notified th) - delivered p tr;
  tk_fit : overruns_fit (th_queue th);
  tk_joined : th_joined th = false
}.

Record pinv (tr : list plabel) (y : psys) : Prop := PInv {
  pv_sys : exists l, sys_inv (ps_sys y) l;
  pv_flight : NoDup (flight (ps_sys y));
  pv_valid : forall p, is_Some (ps_threads y !! p) -> valid_timer (st (ps_sys y)) p;
  pv_thread : forall p th, ps_threads y !! p = Some th -> thread_ok tr p th;
  pv_killed : forall p th, ps_threads y !! p = Some th ->
    killed (th_timer th) = bool_decide (ps_joining y = Some p);
  pv_joining : forall p, ps_joining y = Some p -> is_Some (ps_threads y !! p)
}.

End posix_system.
Arguments psys E X : clear implicits.

(** ** Lemmas *)

Section posix_system_facts.
  Context {E X : Type} `{PosixEnv E}.
  Implicit Types (y : psys E X) (z : sys posix_timer (sys_os E) X) (p q : ptr) (tr : list plabel).

(** A new timer is not told to exit. *)
Lemma posix_init_killed c data (o : sys_os E) : killed (posix_timer_init c data o).2.1 = false.
Proof.
  unfold posix_timer_init, call. unfold mbind at 1, Sys_bind at 1.
  destruct (env_pthread_create (env o)) as [e [error|th]]; [done|].
  unfold mbind at 1, Sys_bind at 1. cbn [record].
  unfold init_timer, call. unfold mbind at 1, Sys_bind at 1. cbn [env]. destruct (env_waits e) as [e1 ws].
  unfold mbind at 1, Sys_bind at 1.
  match goal with |- context [wait_ready ws ?t ?o1] => destruct (wait_ready_spec ws t o1) as [_ Hw]; destruct (wait_ready ws t o1) as [o2 w] end.
  cbn [fst snd] in Hw. destruct Hw as [->| ->]; [done|].
  unfold mbind at 1, Sys_bind at 1. destruct (timerlib_map_clock _ o2) as [o3 ck].
  unfold mbind at 1, Sys_bind at 1. destruct (env_timer_create ck _ _) as [e4 [errno|id]]; done.
Qed.

Lemma init_new (s s' : tstate posix_timer (sys_os E) X) self p et cb data :
  is_Some (timers s !! p) -> excimer_timer_init false self p et cb data s = (s', Ok true) ->
  exists t, timers s' !! p = Some t /\ is_valid t = true /\ killed (tl_timer t) = false.
Proof.
  intros [t Hp] Hrun. set (t0 := fresh_timer false self cb data : excimer_timer posix_timer).
  unfold excimer_timer_init in Hrun. rewrite (bind_ok _ _ _ _ _ (store_ok s p t _ Hp)) in Hrun. fold t0 in Hrun.
  set (s0 := set_timers _ s) in *.
  assert (Hp0 : timers s0 !! p = Some t0) by (simpl; by rewrite lookup_insert_eq).
  pose proof (posix_init_killed et p (os s0)) as Hk.
  destruct (posix_timer_init et p (os s0)) as [o1 [tl1 ok]] eqn:Hi. cbn [fst snd] in Hk.
  rewrite (bind_with_tl s0 p t0 _ _ o1 tl1 ok) in Hrun by done. set (s1 := set_timers _ (set_os o1 s0)) in *.
  assert (Hp1 : timers s1 !! p = Some (set_tl tl1 t0)) by (simpl; by rewrite lookup_insert_eq).
  destruct ok; cbn [negb] in Hrun.
  - rewrite (bind_ok _ _ _ _ _ (modify_tls_ok s1 self _)) in Hrun.
    rewrite (bind_ok _ _ _ _ _ (store_mid s1 _ _ p _ _ Hp1)) in Hrun.
    rewrite (bind_ok _ _ _ _ _ (store_mid s1 _ _ p _ _ (lookup_insert_eq _ _ _))) in Hrun.
    injection Hrun as <-. eexists. split; [apply lookup_insert_eq|]. done.
  - destruct (timerlib_timer_destroy tl1 (os s1)) as [o2 tl2] eqn:Hd.
    rewrite (bind_with_tl s1 p (set_tl tl1 t0) _ _ o2 tl2 tt) in Hrun by (done || (simpl in *; by rewrite Hd)). done.
Qed.

(** How a step changes what a thread has to account for. *)
Lemma elapsed_snoc p tr a : elapsed p (tr ++ [a]) = elapsed_step p (elapsed p tr) a.
Proof. unfold elapsed. by rewrite foldl_app. Qed.

Lemma delivered_snoc p tr a : delivered p (tr ++ [a]) = delivered_step p (delivered p tr) a.
Proof. unfold delivered. by rewrite foldl_app. Qed.

Lemma project_snoc tr a : (tr ++ [a]) ≫= project = (tr ≫= project) ++ project a.
Proof. rewrite bind_app. simpl. by rewrite app_nil_r. Qed.

(** Steps that a thread takes no part in. *)
Lemma thread_ok_other tr a p th :
  thread_ok tr p th -> elapsed_step p (elapsed p tr) a = elapsed p tr ->
  owed p ((tr ≫= project) ++ project a) - owed p (tr ≫= project) = delivered p tr - delivered_step p (delivered p tr) a ->
  thread_ok (tr ++ [a]) p th.
Proof.
  intros [(trp & Hi & Hx) Ho Hf Hj] He Hd. split; [exists trp|..]; try done.
  - by rewrite elapsed_snoc, He.
  - rewrite project_snoc, delivered_snoc. lia.
Qed.

(** A step of the thread itself. *)
Lemma thread_ok_step tr a b p th th' :
  thread_ok tr p th -> thread_step th b th' -> overruns_fit (th_queue th') -> th_joined th' = false ->
  elapsed p (tr ++ [a]) = elapsed p tr + match b with TExpire => 1 | _ => 0 end ->
  delivered p (tr ++ [a]) = delivered p tr ->
  owed p ((tr ++ [a]) ≫= project) - owed p (tr ≫= project) = reported (th_notified th') - reported (th_notified th) ->
  thread_ok (tr ++ [a]) p th'.
Proof.
  intros [(trp & Hi & Hx) Ho Hf Hj] Hs Hf' Hj' He Hd Hr. split; [exists (trp ++ [b])|..]; try done.
  - split; [by eapply thread_step_inv|]. rewrite expirations_app. lia.
  - lia.
Qed.

Lemma thread_step_timer th b th' :
  thread_step th b th' ->
  killed (th_timer th') = (match b with TKill => true | _ => killed (th_timer th) end) /\
  th_joined th' = (match b with TJoin => true | _ => th_joined th end) /\
  th_notified th' = th_notified th ++ (match b with
    | TReceive => match th_queue th with si :: _ => match thread_turn (th_timer th) si with turn_notify n => [n] | _ => [] end | [] => [] end
    | _ => [] end) /\
  (b <> TExpire -> overruns_fit (th_queue th) -> overruns_fit (th_queue th')).
Proof.
  intros Hs. inversion Hs as [y1|y1 si q Hrun Hq|y1 Hrun|y1 Hk|y1 Hk Hrun]; subst; cbn; rewrite ?app_nil_r.
  - by split_and!.
  - rewrite Hq. unfold after_turn. destruct (thread_turn (th_timer th) si); cbn; rewrite ?app_nil_r;
      (split_and!; [done..|]); intros _ Hf; by apply Forall_cons in Hf as [_ Hf].
  - by split_and!.
  - split_and!; [done..|]. intros _ Hf. apply Forall_app. split; [done|]. by repeat constructor.
  - by split_and!.
Qed.

(** A signal that the handler reports. *)
Lemma receive_notify tr p th th' n :
  thread_ok tr p th -> thread_step th TReceive th' -> th_notified th' = th_notified th ++ [n] -> 0 <= n < 2 ^ 31 - 1.
Proof.
  intros [(trp & Hi & _) _ Hf _] Hs Hn. destruct (thread_step_timer th _ th' Hs) as (_ & _ & Hn' & _).
  rewrite Hn in Hn'. apply app_inv_head in Hn'. pose proof (inv_overruns _ _ Hi) as Ho.
  destruct (th_queue th) as [|si q]; [done|]. apply Forall_cons in Ho as [Ho _]. apply Forall_cons in Hf as [Hf _].
  unfold thread_turn in Hn'. destruct (killed _); [done|]. destruct (si_code si); [|done]. injection Hn' as ->. lia.
Qed.

(** Steps of a thread that the main thread does not see. *)
Lemma local_step_inv tr y p th b th' a :
  pinv tr y -> ps_threads y !! p = Some th -> thread_step th b th' -> overruns_fit (th_queue th') ->
  b <> TKill -> b <> TJoin -> th_notified th' = th_notified th -> project a = [] ->
  (forall q, elapsed_step q (elapsed q tr) a = elapsed q tr + (if decide (p = q) then match b with TExpire => 1 | _ => 0 end else 0)) ->
  (forall q, delivered_step q (delivered q tr) a = delivered q tr) ->
  pinv (tr ++ [a]) (PSys (ps_sys y) (<[p := th']> (ps_threads y)) (ps_joining y)).
Proof.
  intros [[l Hl] Hfl Hv Ht Hk Hj] Hp Hs Hf Hb1 Hb2 Hn Ha He Hd.
  destruct (thread_step_timer th b th' Hs) as (Hk' & Hj' & _).
  split; cbn [ps_sys ps_threads ps_joining]; [eauto|done|..].
  - intros q. rewrite lookup_insert_is_Some'. intros [<-|Hq]; apply Hv; eauto.
  - apply threads_insert.
    + eapply thread_ok_step; [by apply Ht|done|done| | | |].
      * rewrite Hj'. destruct b; try done; apply (tk_joined _ _ _ (Ht _ _ Hp)).
      * by rewrite elapsed_snoc, He, decide_True.
      * by rewrite delivered_snoc, Hd.
      * rewrite project_snoc, Ha, app_nil_r, Hn. lia.
    + intros q thq Hne Hq. apply thread_ok_other; [by apply Ht| |].
      * rewrite He, decide_False by done. lia.
      * rewrite Ha, app_nil_r, Hd. lia.
  - apply (threads_insert (fun q th => killed (th_timer th) = _)); [|intros; by apply Hk].
    rewrite Hk'. destruct b; try done; by apply Hk.
  - intros q Hq. rewrite lookup_insert_is_Some'. right. by apply Hj.
Qed.

(** Steps of the timers without a change of the threads. *)
Lemma timers_step_inv tr y la z' a :
  pinv tr y -> step (ps_sys y) la z' -> project a = [la] ->
  match la with LFire _ _ | LInit _ true | LDestroy _ => False | _ => True end ->
  (forall q, is_Some (ps_threads y !! q) -> elapsed_step q (elapsed q tr) a = elapsed q tr) ->
  (forall q, is_Some (ps_threads y !! q) -> owed_step q (owed q (tr ≫= project)) la - owed q (tr ≫= project)
    = delivered q tr - delivered_step q (delivered q tr) a) ->
  pinv (tr ++ [a]) (PSys z' (ps_threads y) (ps_joining y)).
Proof.
  intros [[l Hl] Hfl Hv Ht Hk Hj] Hs Ha Hla He Hd.
  assert (Hfire : fire_ok la) by (by destruct la).
  destruct (step_sound _ _ _ _ Hl Hs Hfire) as (l' & Hl' & _).
  split; cbn [ps_sys ps_threads ps_joining]; [eauto| | | |done|done].
  - eapply flight_nodup; [done..|]. by intros p n ->.
  - intros q Hq. apply (step_valid _ _ _ _ _ Hl Hs Hfire); [|by apply Hv]. by intros ->.
  - intros q th Hq. apply thread_ok_other; [by apply Ht|apply He; eauto|]. rewrite Ha, owed_snoc. apply Hd. eauto.
Qed.

Lemma notify_inv tr y p th th' n z' :
  pinv tr y -> ps_threads y !! p = Some th -> p ∉ flight (ps_sys y) -> thread_step th TReceive th' ->
  th_notified th' = th_notified th ++ [n] -> step (ps_sys y) (LFire p n) z' ->
  pinv (tr ++ [PReceive p (Some n)]) (PSys z' (<[p := th']> (ps_threads y)) (ps_joining y)).
Proof.
  intros [[l Hl] Hfl Hv Ht Hk Hj] Hp Hpf Hth Hn Hs.
  pose proof (receive_notify tr p th th' n (Ht _ _ Hp) Hth Hn) as Hn'.
  destruct (thread_step_timer th _ th' Hth) as (Hk' & Hj' & _ & Hf').
  destruct (step_sound _ _ _ _ Hl Hs Hn') as (l' & Hl' & _).
  split; cbn [ps_sys ps_threads ps_joining]; [eauto| | | | |].
  - eapply flight_nodup; [done..|]. by intros q m [= <- _].
  - intros q. rewrite lookup_insert_is_Some'. intros Hq. apply (step_valid _ _ _ _ _ Hl Hs Hn'); [done|].
    apply Hv. destruct Hq as [<-|Hq]; eauto.
  - apply threads_insert.
    + eapply thread_ok_step; [by apply Ht|done|apply Hf'; [done|apply (tk_fit _ _ _ (Ht _ _ Hp))]| | | |].
      * rewrite Hj'. apply (tk_joined _ _ _ (Ht _ _ Hp)).
      * rewrite elapsed_snoc. cbn. lia.
      * by rewrite delivered_snoc.
      * rewrite project_snoc. cbn [project]. rewrite owed_snoc, Hn, reported_app. cbn. rewrite decide_True by done. lia.
    + intros q thq Hne Hq. apply thread_ok_other; [by apply Ht|done|].
      cbn [project]. rewrite owed_snoc. cbn. rewrite decide_False by done. lia.
  - apply (threads_insert (fun q th => killed (th_timer th) = _)); [|intros; by apply Hk]. rewrite Hk'. by apply Hk.
  - intros q Hq. rewrite lookup_insert_is_Some'. right. by apply Hj.
Qed.

Lemma init_inv tr y p t z' :
  pinv tr y -> ps_joining y = None -> step (ps_sys y) (LInit p true) z' -> timers (st z') !! p = Some t ->
  pinv (tr ++ [PMain (LInit p true)]) (PSys z' (<[p := thread_new t]> (ps_threads y)) None).
Proof.
  intros [[l Hl] Hfl Hv Ht Hk Hj] Hnone Hs Hp. destruct (step_sound _ _ _ _ Hl Hs I) as (l' & Hl' & _).
  assert (Hnew : is_valid t = true /\ killed (tl_timer t) = false).
  { inversion Hs as [| | | | | |s fl d self p' et cb data b s' (u & Hu & _) Hrun| | | | |]; subst. cbn in Hp.
    destruct (init_new s s' self p et cb data (ex_intro _ u Hu) Hrun) as (t' & Ht' & Hv' & Hk'). rewrite Hp in Ht'. by injection Ht' as ->. }
  destruct Hnew as [Hvt Hkt].
  split; cbn [ps_sys ps_threads ps_joining]; [eauto| | | | |done].
  - by eapply flight_nodup.
  - intros q. rewrite lookup_insert_is_Some'. intros [<-|Hq]; [by exists t|]. apply (step_valid _ _ _ _ _ Hl Hs I); [done|by apply Hv].
  - apply threads_insert.
    + split; [exists []|rewrite project_snoc; cbn [project]; rewrite owed_snoc, delivered_snoc; cbn; by rewrite !decide_True|constructor|done].
      split; [|by rewrite elapsed_snoc; cbn; rewrite decide_True]. apply (thread_reachable_inv (thread_new t)); [done|constructor].
    + intros q thq Hne Hq. apply thread_ok_other; [by apply Ht|by cbn; rewrite decide_False|].
      cbn [project]. rewrite owed_snoc. cbn. rewrite !decide_False by done. lia.
  - apply (threads_insert (fun q th => killed (th_timer th) = _)); [done|]. intros q thq _ Hq. rewrite <-Hnone. by apply Hk.
Qed.

Lemma kill_inv tr y p th th' :
  pinv tr y -> ps_joining y = None -> ps_threads y !! p = Some th -> thread_step th TKill th' ->
  pinv (tr ++ [PKill p]) (PSys (ps_sys y) (<[p := th']> (ps_threads y)) (Some p)).
Proof.
  intros [[l Hl] Hfl Hv Ht Hk Hj] Hnone Hp Hs. destruct (thread_step_timer th _ th' Hs) as (Hk' & Hj' & Hn' & Hf').
  split; cbn [ps_sys ps_threads ps_joining]; [eauto|done|..].
  - intros q. rewrite lookup_insert_is_Some'. intros [<-|Hq]; apply Hv; eauto.
  - apply threads_insert.
    + eapply thread_ok_step; [by apply Ht|done|apply Hf'; [done|apply (tk_fit _ _ _ (Ht _ _ Hp))]| | | |].
      * rewrite Hj'. apply (tk_joined _ _ _ (Ht _ _ Hp)).
      * rewrite elapsed_snoc. cbn. lia.
      * by rewrite delivered_snoc.
      * rewrite project_snoc, Hn', app_nil_r. cbn. rewrite app_nil_r. lia.
    + intros q thq Hne Hq. apply thread_ok_other; [by apply Ht|done|]. cbn. rewrite app_nil_r. lia.
  - apply (threads_insert (fun q th => killed (th_timer th) = _)); [by rewrite Hk', bool_decide_true|].
    intros q thq Hne Hq. rewrite bool_decide_false by congruence. rewrite (Hk q thq Hq), Hnone. done.
  - intros q [= <-]. rewrite lookup_insert_is_Some'. by left.
Qed.

Lemma destroy_inv tr y p z' :
  pinv tr y -> ps_joining y = Some p -> step (ps_sys y) (LDestroy p) z' ->
  pinv (tr ++ [PMain (LDestroy p)]) (PSys z' (delete p (ps_threads y)) None).
Proof.
  intros [[l Hl] Hfl Hv Ht Hk Hj] Hsome Hs. destruct (step_sound _ _ _ _ Hl Hs I) as (l' & Hl' & _).
  split; cbn [ps_sys ps_threads ps_joining]; [eauto| | | | |done].
  - by eapply flight_nodup.
  - intros q [th Hq]. apply lookup_delete_Some in Hq as [Hne Hq]. apply (step_valid _ _ _ _ _ Hl Hs I); [congruence|apply Hv; eauto].
  - intros q th [Hne Hq]%lookup_delete_Some. apply thread_ok_other; [by apply Ht|by cbn; rewrite decide_False|].
    cbn [project]. rewrite owed_snoc. cbn. rewrite !decide_False by done. lia.
  - intros q th [Hne Hq]%lookup_delete_Some. rewrite (Hk q th Hq), Hsome. apply bool_decide_false. congruence.
Qed.

Lemma pstep_inv tr y a y' : pinv tr y -> pstep y a y' -> pinv (tr ++ [a]) y'.
Proof.
  intros Hi Hstep. pose proof Hi as [_ _ Hv Ht _ _].
  destruct Hstep as [z ths j p th th' Hp Hs Hf|z z' ths j p th th' n Hp Hpf Hs Hn Hz|z ths j p th th' Hp Hpf Hs Hn
    |z ths j p th th' Hp Hs|z z' ths j p Hz|z z' ths b Hb Hz|z z' ths p t Hz Hp|z z' ths p Hz|z ths p th th' Hp Hs
    |z z' ths p th th' Hp Hs Hz]; cbn [ps_sys ps_threads ps_joining] in *.
  - destruct (thread_step_timer th _ th' Hs) as (_ & _ & Hn & _). rewrite app_nil_r in Hn.
    apply (local_step_inv tr (PSys z ths j) p th TExpire th'); try done.
    intros q. cbn. case_decide; lia.
  - by apply (notify_inv tr (PSys z ths j) p th th' n z').
  - destruct (thread_step_timer th _ th' Hs) as (_ & _ & _ & Hf').
    apply (local_step_inv tr (PSys z ths j) p th TReceive th'); try done.
    + apply Hf'; [done|apply (tk_fit _ _ _ (Ht _ _ Hp))].
    + intros q. cbn. case_decide; lia.
  - destruct (thread_step_timer th _ th' Hs) as (_ & _ & Hn & Hf'). rewrite app_nil_r in Hn.
    apply (local_step_inv tr (PSys z ths j) p th TInterrupted th'); try done.
    + apply Hf'; [done|apply (tk_fit _ _ _ (Ht _ _ Hp))].
    + intros q. cbn. case_decide; lia.
  - apply (timers_step_inv tr (PSys z ths j) (LFlag p) z'); try done. intros q _. cbn. lia.
  - apply (timers_step_inv tr (PSys z ths None) b z'); try done; [by destruct b|intros q _; by destruct b|].
    intros q _. destruct b; cbn; try lia; try done. case_decide; lia.
  - by apply (init_inv tr (PSys z ths None) p t z').
  - assert (Hne : forall q, is_Some (ths !! q) -> p <> q).
    { intros q (t & Hq & Hvq)%Hv ->. inversion Hz as [| | | | | |s fl d self q' et cb data b s' (u & Hu & Hvu)| | | | |]; subst.
      cbn in *. congruence. }
    apply (timers_step_inv tr (PSys z ths None) (LInit p false) z'); try done; intros q Hq%Hne; cbn; rewrite !decide_False by done; lia.
  - by apply (kill_inv tr (PSys z ths None) p th th').
  - by apply (destroy_inv tr (PSys z ths (Some p)) p z').
Qed.

Lemma psteps_inv y tr y' : pinitial y -> psteps y tr y' -> pinv tr y'.
Proof.
  intros (Hsys & Hnone & Hths & Hj) Hsteps. induction Hsteps as [y|y tr y1 a y2 Hsteps IH Hstep].
  - pose proof Hsys as (Hinv & Hfl & Hd). split; [exists []; split; [done|rewrite Hfl; set_solver|done]|..].
    + rewrite Hfl. constructor.
    + intros p. rewrite Hths, lookup_empty. by intros [].
    + intros p th. by rewrite Hths, lookup_empty.
    + intros p th. by rewrite Hths, lookup_empty.
    + intros p. by rewrite Hj.
  - eapply pstep_inv; [by apply IH|done].
Qed.

Lemma project_step tr y a y' : pinv tr y -> pstep y a y' -> Forall fire_ok (project a) /\
  (project a = [] /\ ps_sys y' = ps_sys y \/ exists la, project a = [la] /\ step (ps_sys y) la (ps_sys y')).
Proof.
  intros [_ _ _ Ht _ _] Hstep.
  destruct Hstep as [| z z' ths j p th th' n Hp Hpf Hs Hn Hz| | |z z' ths j p Hz|z z' ths b Hb Hz| | | |]; cbn [project ps_sys ps_threads] in *.
  all: try (split; [constructor|by left]).
  all: try (split; [by repeat constructor|right; by eexists]).
  - split; [constructor; [|done]|right; by eexists]. by apply (receive_notify tr p th th' n (Ht _ _ Hp)).
  - split; [constructor; [by destruct b|done]|right; by eexists].
Qed.

Lemma psteps_project y tr y' :
  pinitial y -> psteps y tr y' ->
  steps (ps_sys y) (tr ≫= project) (ps_sys y') /\ Forall fire_ok (tr ≫= project).
Proof.
  intros Hinit Hsteps. induction Hsteps as [y|y tr y1 a y2 Hsteps IH Hstep]; [by split; constructor|].
  destruct (IH Hinit) as [Hs Hf].
  destruct (project_step tr y1 a y2 (psteps_inv y tr y1 Hinit Hsteps) Hstep) as [Ha Hcase].
  rewrite project_snoc. split; [|by apply Forall_app].
  destruct Hcase as [[-> ->]|(la & -> & Hla)]; [by rewrite app_nil_r|by eapply steps_snoc].
Qed.

Lemma psteps_trans y tr y1 tr1 y2 : psteps y tr y1 -> psteps y1 tr1 y2 -> psteps y (tr ++ tr1) y2.
Proof.
  intros H1 H2. induction H2 as [y1|y1 tr1 y2 a y3 H2 IH Hs]; [by rewrite app_nil_r|].
  rewrite app_assoc. by eapply psteps_snoc; [apply IH|].
Qed.

(** The handler of [p] raises the flag, if it has to. *)
Lemma flag_first tr y p :
  pinv tr y -> exists trf y1, psteps y trf y1 /\ (length trf <= 1)%nat /\ pinv (tr ++ trf) y1 /\ p ∉ flight (ps_sys y1) /\
    ps_threads y1 = ps_threads y /\ ps_joining y1 = ps_joining y.
Proof.
  intros Hi. pose proof Hi as [[l Hl] Hfl _ _ _ _]. destruct (decide (p ∈ flight (ps_sys y))) as [Hin|Hin].
  2:{ exists [], y. rewrite app_nil_r. split; [constructor|]. split; [simpl; lia|done]. }
  destruct (flag_possible _ l p Hl Hin Hfl) as (z' & Hz & Hn & _). destruct y as [z ths j]. cbn [ps_sys] in *.
  assert (Hp : pstep (PSys z ths j) (PFlag p) (PSys z' ths j)) by by constructor.
  eexists [PFlag p], _. split; [by apply (psteps_snoc _ [] _ _ _ (psteps_nil _) Hp)|]. split; [simpl; lia|].
  split; [by eapply pstep_inv|done].
Qed.

(** A handler with a signal can receive it: then it exits, or reports it. *)
Lemma receive_possible tr y p th si (q : list siginfo_t) :
  pinv tr y -> ps_threads y !! p = Some th -> p ∉ flight (ps_sys y) -> th_running th = true -> th_queue th = si :: q ->
  exists y1, pstep y (PReceive p (match thread_turn (th_timer th) si with turn_notify n => Some n | _ => None end)) y1 /\
    ps_joining y1 = ps_joining y /\ ps_threads y1 !! p = Some (after_turn th q (thread_turn (th_timer th) si)).
Proof.
  intros Hi Hp Hfl Hr Hq. pose proof Hi as [[l Hl] _ Hv Ht _ _].
  pose proof (step_receive th si q Hr Hq) as Hs. set (th' := after_turn th q _) in *.
  destruct y as [z ths j]. cbn [ps_sys ps_threads ps_joining] in *.
  destruct (thread_turn (th_timer th) si) as [|n|] eqn:Hturn.
  - exists (PSys z (<[p := th']> ths) j). split; [by eapply pstep_silent|]. cbn. by rewrite lookup_insert_eq.
  - pose proof (receive_notify tr p th th' n (Ht _ _ Hp) Hs eq_refl) as Hn.
    destruct (fire_possible z l p n Hl (Hv p ltac:(eauto))) as [z' Hz].
    exists (PSys z' (<[p := th']> ths) j). split; [by eapply pstep_notify|]. cbn. by rewrite lookup_insert_eq.
  - exists (PSys z (<[p := th']> ths) j). split; [by eapply pstep_silent|]. cbn. by rewrite lookup_insert_eq.
Qed.

(** The main thread can go on when the thread has ended. *)
Lemma destroy_possible tr y p th :
  pinv tr y -> ps_joining y = Some p -> ps_threads y !! p = Some th -> th_running th = false -> p ∉ flight (ps_sys y) ->
  exists y1, pstep y (PMain (LDestroy p)) y1 /\ ps_joining y1 = None.
Proof.
  intros Hi Hj Hp Hr Hfl. pose proof Hi as [[l Hl] _ Hv _ Hk _].
  assert (Hkill : killed (th_timer th) = true) by (rewrite (Hk p th Hp); by apply bool_decide_true).
  destruct y as [[s fl d] ths j]. cbn [ps_sys ps_threads ps_joining flight] in *. subst j.
  destruct (Hv p ltac:(eauto)) as (t & Htp & Hvt). cbn in Htp.
  destruct (destroy_spec s l 0 p t (sy_timers _ _ Hl) Htp Hvt) as (s' & t' & Hrun & _).
  eexists (PSys _ (delete p ths) None). split; [|done].
  eapply pstep_destroy; [done|by apply step_join|]. eapply step_destroy; [done|by exists t|done].
Qed.

(** ** Properties *)


(** C4. From the kernel to the callback no expiration is lost or counted twice:
    in every reachable state, the expirations of the kernel's timer since it was
    created are the events delivered to the callback, those counted by the
    pending timer and those in the signals that wait for the handler, until the
    timer is being destroyed. *)
Theorem posix_expirations_conserved y tr y' p th :
  pinitial y -> psteps y tr y' -> ps_threads y' !! p = Some th ->
  exists t, timers (st (ps_sys y')) !! p = Some t /\ is_valid t = true /\
    (ps_joining y' <> Some p ->
      event_count t = wrap_i64 (elapsed p tr - delivered p tr - queued (th_queue th))).
Proof.
  intros Hinit Hsteps Hp. pose proof (psteps_inv y tr y' Hinit Hsteps) as [_ _ Hv Ht Hk _].
  destruct (psteps_project y tr y' Hinit Hsteps) as [Hs Hf]. destruct Hinit as [Hsys _].
  destruct (Hv p ltac:(eauto)) as (t & Htp & Hvt). exists t. split; [done|]. split; [done|]. intros Hj.
  rewrite (proj2 (steps_sound _ _ _ Hsys Hs Hf) p t Htp Hvt).
  destruct (Ht p th Hp) as [(trp & Hi & Hx) Ho _ _]. rewrite Ho, <-Hx. f_equal.
  assert (th_running th = true) as Hr%(inv_exact _ _ Hi); [|lia].
  destruct (th_running th) eqn:Hr; [done|]. apply (inv_exit _ _ Hi) in Hr.
  rewrite (Hk p th Hp), bool_decide_false in Hr by done. done.
Qed.

(** C30. The handlers make progress: in every reachable state a signal that waits
    for the handler of a timer can be reported within two steps; and when the main
    thread is in [pthread_join] to destroy a timer, it can return within three:
    the handler is never blocked by the main thread, which waits for it. *)
Theorem posix_handlers_progress y tr y' p th :
  pinitial y -> psteps y tr y' -> ps_threads y' !! p = Some th ->
  (forall n (q : list siginfo_t), ps_joining y' <> Some p -> th_queue th = Siginfo SI_TIMER n :: q ->
    exists tr1 y1, psteps y' (tr1 ++ [PReceive p (Some n)]) y1 /\ (length tr1 <= 1)%nat) /\
  (ps_joining y' = Some p -> exists tr1 y1, psteps y' tr1 y1 /\ (length tr1 <= 3)%nat /\ ps_joining y1 = None).
Proof.
  intros Hinit Hsteps Hp. pose proof (psteps_inv y tr y' Hinit Hsteps) as Hi.
  pose proof Hi as [_ _ _ Ht Hk _]. destruct (Ht p th Hp) as [(trp & Hti & _) _ _ _].
  destruct (flag_first tr y' p Hi) as (trf & y1 & Hf & Hlen & Hi1 & Hfl & Hths & Hj1).
  assert (Hp1 : ps_threads y1 !! p = Some th) by by rewrite Hths. split.
  - intros n q Hj Hq. assert (Hkill : killed (th_timer th) = false) by (rewrite (Hk p th Hp); by apply bool_decide_false).
    assert (Hr : th_running th = true).
    { destruct (th_running th) eqn:Hr; [done|]. by rewrite (inv_exit _ _ Hti Hr) in Hkill. }
    destruct (receive_possible _ y1 p th _ q Hi1 Hp1 Hfl Hr Hq) as (y2 & Hs & _).
    unfold thread_turn in Hs. rewrite Hkill in Hs. cbn in Hs. exists trf, y2. split; [by eapply psteps_snoc|done].
  - intros Hj. rewrite <-Hj1 in Hj.
    assert (Hkill : killed (th_timer th) = true) by (rewrite (Hk p th Hp), <-Hj1; by apply bool_decide_true).
    destruct (th_running th) eqn:Hr.
    + destruct (th_queue th) as [|si q] eqn:Hq; [by apply (inv_wake _ _ Hti) in Hq|].
      destruct (receive_possible _ y1 p th si q Hi1 Hp1 Hfl Hr Hq) as (y2 & Hs & Hj2 & Hp2).
      pose proof (pstep_inv _ _ _ _ Hi1 Hs) as Hi2. unfold thread_turn in Hs, Hp2. rewrite Hkill in Hs, Hp2.
      assert (Hfl2 : p ∉ flight (ps_sys y2)) by (inversion Hs; subst; done).
      destruct (destroy_possible _ y2 p _ Hi2 ltac:(by rewrite Hj2) Hp2 eq_refl Hfl2) as (y3 & Hd & Hj3).
      exists ((trf ++ [PReceive p None]) ++ [PMain (LDestroy p)]), y3.
      split; [by eapply psteps_snoc; [eapply psteps_snoc|]|]. split; [rewrite !length_app; simpl; lia|done].
    + destruct (destroy_possible _ y1 p th Hi1 Hj Hp1 Hr Hfl) as (y3 & Hd & Hj3).
      exists (trf ++ [PMain (LDestroy p)]), y3. split; [by eapply psteps_snoc|]. split; [rewrite length_app; simpl; lia|done].
Qed.

End posix_system_facts.

(** ** Witnesses *)

Section witnesses.

(** A system on which every call succeeds. *)
#[local] Instance ex_psys_env : PosixEnv unit := {
  env_pthread_create e := (e, inr 2);
  env_gettid th := th + 1000;
  env_waits e := (e, []);
  env_timer_create _ _ e := (e, inr 5);
  env_timer_settime _ _ e := (e, 0);
  env_timer_gettime _ e := (e, inl 22);
  env_timer_delete _ e := (e, 0);
  env_pthread_kill _ e := (e, 0);
  env_pthread_join _ e := (e, 0);
  env_getcpuclockid e := (e, inr 1);
  env_clock_gettime _ e := (e, inr (Timespec 5 0))
}.

Definition ex_empty : psys unit unit :=
  PSys (Sys (TState posix_timer (sys_os unit) unit ∅ ∅ ∅ None None [] (SysOs tt [] []) tt) [] 0) ∅ None.

Lemma ex_empty_initial : pinitial ex_empty.
Proof.
  assert (Hno : forall p t, timers (st (ps_sys ex_empty)) !! p = Some t -> False).
  { intros p t Hp. cbn in Hp. by rewrite lookup_empty in Hp. }
  split; [|split; [|done]].
  - split; [|done]. split; [| |done| |done].
    + split; [done|]. split; [apply NoDup_nil_2|]. intros a b Hab. by apply elem_of_nil in Hab.
    + intros p [t Hp]. by destruct (Hno p t).
    + intros p t Hp. by destruct (Hno p t).
  - intros p (t & Hp & _). by destruct (Hno p t).
Qed.

Lemma psteps_cons {E X} `{PosixEnv E} (y : psys E X) a y1 tr y2 : pstep y a y1 -> psteps y1 tr y2 -> psteps y (a :: tr) y2.
Proof. intros Hs H2. apply (psteps_trans y [a] y1 tr y2); [|done]. apply (psteps_snoc y [] y a y1); [constructor|done]. Qed.

(** A timer is made; three expirations, of which the handler has reported two. *)
Definition ex_plabels : list plabel :=
  [PMain (LAlloc 1); PMain (LInit 1 true); PExpire 1; PExpire 1; PReceive 1 (Some 1); PExpire 1].

Tactic Notation "ps_go" uconstr(c) := eapply psteps_cons; [eapply c|].

Lemma ex_prun : exists y th, psteps ex_empty ex_plabels y /\ ps_threads y !! 1%positive = Some th /\
  th_queue th = [Siginfo SI_TIMER 0] /\ ps_joining y = None.
Proof.
  eexists _, _. split; [|split; [|split]].
  - unfold ex_plabels, ex_empty.
    ps_go pstep_main; [done|by constructor|].
    ps_go pstep_init; [eapply (step_init _ _ _ 0%nat _ EXCIMER_REAL excimer_timer_event_cb None);
      [eexists; split; vm_compute; reflexivity|vm_compute; reflexivity]|vm_compute; reflexivity|].
    ps_go pstep_expire; [vm_compute; reflexivity|apply step_expire|by repeat constructor|].
    ps_go pstep_expire; [vm_compute; reflexivity|apply step_expire|by repeat constructor|].
    ps_go pstep_notify; [vm_compute; reflexivity|apply not_elem_of_nil|eapply step_receive; vm_compute; reflexivity|
      vm_compute; reflexivity|eapply (step_fire _ _ _ 0%nat); [eexists; split; vm_compute; reflexivity|vm_compute; reflexivity]|].
    ps_go pstep_expire; [vm_compute; reflexivity|apply step_expire|by repeat constructor|].
    apply psteps_nil.
  - vm_compute. reflexivity.
  - vm_compute. reflexivity.
  - reflexivity.
Qed.

Lemma posix_expirations_conserved_witness :
  exists y t, psteps ex_empty ex_plabels y /\ timers (st (ps_sys y)) !! 1%positive = Some t /\
    elapsed 1 ex_plabels = 3 /\ event_count t = 2.
Proof.
  destruct ex_prun as (y & th & Hrun & Hth & Hq & Hj).
  destruct (posix_expirations_conserved ex_empty ex_plabels y 1 th ex_empty_initial Hrun Hth) as (t & Ht & _ & Hc).
  exists y, t. split; [exact Hrun|]. split; [exact Ht|]. split; [reflexivity|].
  rewrite Hc; [|rewrite Hj; discriminate]. rewrite Hq. reflexivity.
Defined.


Lemma posix_handlers_progress_witness :
  exists y tr1 y1, psteps ex_empty ex_plabels y /\ psteps y (tr1 ++ [PReceive 1 (Some 0)]) y1 /\ (length tr1 <= 1)%nat.
Proof.
  destruct ex_prun as (y & th & Hrun & Hth & Hq & Hj).
  destruct (posix_handlers_progress ex_empty ex_plabels y 1 th ex_empty_initial Hrun Hth) as [Hp _].
  destruct (Hp 0 []) as (tr1 & y1 & H1 & H2).
  - rewrite Hj. discriminate.
  - exact Hq.
  - exists y, tr1, y1. split; [exact Hrun|]. split; [exact H1|exact H2].
Defined.

End witnesses.
