(* ===== verification/KqueueTimers.v ===== *)
(** * Timers on kqueue: kernel, handler threads and main thread

    The system of [TimerSystem] with the handler threads of [KqueueSystem]: a
    timer that is started has a thread, which ends when the timer is stopped or
    destroyed. Here a handler fires for the events that [kevent] returns to it.

    The steps of [timerlib_timer_stop] are those of [KqueueSystem]; when the
    thread was joined, the rest of [excimer_timer_stop] or
    [excimer_timer_destroy] is one step. A handler thread has its own copy of the
    timer and of the state of the system calls. *)

From S2P Require Import Prelude Timespec PendingList Timer TimerlibCommon TimerlibKqueue KqueueSystem TimerSystem.

(** ** The system *)

Section kqueue_timers.
  Context {E X : Type} `{KqueueEnv E}.

(** [kt_stopping] is the timer whose thread the main thread is ending. *)
Record ksys : Type := KSys {
  kt_sys : sys kqueue_timer (sys_os E) X;
  kt_threads : gmap ptr (kq_sys E);
  kt_stopping : option ptr
}.

Inductive klabel : Type :=
  | KThread (p : ptr) (a : kq_label)     (* the kernel, or the handler thread of a timer *)
  | KFlag (p : ptr)                      (* the handler raises the interrupt flag *)
  | KStopping (p : ptr) (a : kq_label)   (* the main thread, in timerlib_timer_stop *)
  | KMain (a : label).

(** The calls of the notify function in a step. *)
Definition kq_reports (a : kq_label) : list Z :=
  match a with k_report ns => ns | _ => [] end.

(** Steps of the main thread that do not concern a handler thread. *)
Definition plain_label (a : label) : bool :=
  match a with LFire _ _ | LFlag _ | LStart _ | LStop _ | LDestroy _ => false | _ => true end.

(** The timer is stopped or destroyed. *)
Definition ends_timer (p : ptr) (a : label) : Prop := a = LStop p \/ a = LDestroy p.

Definition running (s : tstate kqueue_timer (sys_os E) X) (p : ptr) : bool :=
  match timers s !! p with Some t => is_running t | None => false end.

(** A timer that was started has a thread if the library succeeded. *)
Definition thread_started (s : tstate kqueue_timer (sys_os E) X) (p : ptr) (ths : gmap ptr (kq_sys E)) :
    gmap ptr (kq_sys E) :=
  match timers s !! p with
  | Some t => if is_running t then <[p := kq_started (tl_timer t) (os s)]> ths else ths
  | None => ths
  end.

Inductive kstep : ksys -> klabel -> ksys -> Prop :=
  | kstep_thread y ths j p x x' a :
      ths !! p = Some x -> kq_step x a x' -> ks_main x' = ks_main x -> kq_reports a = [] ->
      a = k_expire \/ p ∉ flight y ->
      kstep (KSys y ths j) (KThread p a) (KSys y (<[p := x']> ths) j)
  | kstep_report y y' ths j p x x' n :
      ths !! p = Some x -> kq_step x (k_report [n]) x' -> p ∉ flight y -> step y (LFire p n) y' ->
      kstep (KSys y ths j) (KThread p (k_report [n])) (KSys y' (<[p := x']> ths) j)
  | kstep_flag y y' ths j p :
      step y (LFlag p) y' -> kstep (KSys y ths j) (KFlag p) (KSys y' ths j)
  | kstep_main y y' ths a :
      plain_label a = true -> step y a y' -> kstep (KSys y ths None) (KMain a) (KSys y' ths None)
  | kstep_start y y' ths p :
      ths !! p = None -> running (st y) p = false -> step y (LStart p) y' ->
      kstep (KSys y ths None) (KMain (LStart p)) (KSys y' (thread_started (st y') p ths) None)
  | kstep_idle y y' ths p a :
      ths !! p = None -> ends_timer p a -> step y a y' ->
      kstep (KSys y ths None) (KMain a) (KSys y' ths None)
  | kstep_stopping y ths j p x x' a :
      ths !! p = Some x -> j = None \/ j = Some p -> kq_step x a x' -> ks_main x' <> ks_main x ->
      kstep (KSys y ths j) (KStopping p a) (KSys y (<[p := x']> ths) (Some p))
  | kstep_stopped y y' ths p x a :
      ths !! p = Some x -> ks_main x = kq_joined -> ends_timer p a -> step y a y' ->
      running (st y') p = false ->
      kstep (KSys y ths (Some p)) (KMain a) (KSys y' (delete p ths) None).

Inductive ksteps : ksys -> list klabel -> ksys -> Prop :=
  | ksteps_nil y : ksteps y [] y
  | ksteps_snoc y tr y1 a y2 : ksteps y tr y1 -> kstep y1 a y2 -> ksteps y (tr ++ [a]) y2.

Definition kinitial (y : ksys) : Prop :=
  initial_sys (kt_sys y) /\ kt_threads y = ∅ /\ kt_stopping y = None.

(** ** Specification *)

(** The steps of [TimerSystem]. *)
Definition kproject (a : klabel) : list label :=
  match a with
  | KThread p a => LFire p <$> kq_reports a
  | KFlag p => [LFlag p]
  | KStopping _ _ => []
  | KMain a => [a]
  end.

(** Sums over a run since the timer was initialised. *)
Definition tally_step (f : ptr -> klabel -> Z) (p : ptr) (z : Z) (a : klabel) : Z :=
  match a with
  | KMain (LInit q _) | KMain (LDestroy q) => if decide (q = p) then 0 else z
  | _ => z + f p a
  end.

Definition tally (f : ptr -> klabel -> Z) (p : ptr) (tr : list klabel) : Z := foldl (tally_step f p) 0 tr.

(** The expirations of the kernel's timer. *)
Definition k_expired (p : ptr) (a : klabel) : Z :=
  match a with KThread q k_expire => if decide (q = p) then 1 else 0 | _ => 0 end.

(** Those that are lost when the handler sets up the period, and when the queue
    is closed. *)
Definition k_lost_setup (p : ptr) (a : klabel) : Z :=
  match a with KThread q (k_lose n) => if decide (q = p) then n else 0 | _ => 0 end.
Definition k_lost_close (p : ptr) (a : klabel) : Z :=
  match a with KStopping q (k_lose n) => if decide (q = p) then n else 0 | _ => 0 end.

(** The events given to the callback. *)
Definition k_delivered (p : ptr) (a : klabel) : Z :=
  match a with KMain (LDeliver q n) => if decide (q = p) then n else 0 | _ => 0 end.

(** The expirations that the kernel has not returned and those that the handler
    has in hand. *)
Definition outstanding (x : option (kq_sys E)) : Z :=
  match x with Some x => in_hand (ks_handler x) + ks_pending x | None => 0 end.

(** A thread has run since it was started. *)
Definition thread_history (tr : list klabel) (p : ptr) (x : kq_sys E) : Prop :=
  exists t0 o0 trp, kq_steps (kq_started t0 o0) trp x /\
    (k_interrupted true ∈ trp -> KThread p (k_interrupted true) ∈ tr).

Record kinv (tr : list klabel) (y : ksys) : Prop := KInv {
  kv_sys : exists l, sys_inv (kt_sys y) l;
  kv_flight : NoDup (flight (kt_sys y));
  kv_valid : forall p, is_Some (kt_threads y !! p) -> valid_timer (st (kt_sys y)) p;
  kv_thread : forall p x, kt_threads y !! p = Some x -> thread_history tr p x;
  kv_books : forall p, owed p (tr ≫= kproject)
    = tally k_expired p tr - tally k_lost_setup p tr - tally k_lost_close p tr - tally k_delivered p tr
      - outstanding (kt_threads y !! p);
  kv_first : forall p, KThread p (k_interrupted true) ∉ tr -> tally k_lost_setup p tr = 0;
  kv_hand : forall p, p ∈ flight (kt_sys y) ->
    exists x, kt_threads y !! p = Some x /\ (ks_handler x = kq_decide \/ ks_handler x = kq_kevent false);
  kv_stopping : forall p, kt_stopping y = Some p -> exists x, kt_threads y !! p = Some x /\ ks_main x <> kq_running
}.

End kqueue_timers.
Arguments ksys E X : clear implicits.

(** ** Lemmas *)

Section kqueue_timers_facts.
  Context {E X : Type} `{KqueueEnv E}.
  Implicit Types (y : ksys E X) (z : sys kqueue_timer (sys_os E) X) (x : kq_sys E) (p q : ptr)
    (ths : gmap ptr (kq_sys E)) (tr : list klabel) (trp : list kq_label).

(** *** One thread *)

#[local] Instance stop_pc_eq_dec : EqDecision stop_pc.
Proof. solve_decision. Defined.

(** What a step does with the expirations that are outstanding. *)
Lemma kq_step_balance t0 trp x a x' :
  kq_inv t0 trp x -> kq_step x a x' ->
  outstanding (Some x') = outstanding (Some x) + match a with k_expire => 1 | _ => 0 end
    - sum_Z ((fun k => k + 1) <$> kq_reports a) - match a with k_lose n => n | _ => 0 end.
Proof.
  intros Hi Hs. pose proof (ki_balance _ _ _ Hi) as H1. pose proof (ki_balance _ _ _ (kq_step_inv _ _ _ _ _ Hi Hs)) as H2.
  rewrite kq_expirations_snoc, kq_reported_snoc, kq_lost_snoc in H2. cbn [outstanding].
  destruct a; cbn [kq_reports fmap list_fmap] in *; change (sum_Z []) with 0; lia.
Qed.

(** A step reports at most once; then the handler goes on. *)
Lemma kq_step_reports t0 trp x a x' :
  kq_inv t0 trp x -> kq_step x a x' ->
  kq_reports a = [] \/ exists n, a = k_report [n] /\ 0 <= n < 2 ^ 31 - 1 /\ ks_main x' = ks_main x /\
    (ks_handler x' = kq_decide \/ ks_handler x' = kq_kevent false).
Proof.
  intros Hi Hs. pose proof (ki_hand _ _ _ Hi) as Hh.
  destruct Hs as [|t o kt n n' f r m Hr|t o kt n f r m o' t' ns go Hrun| | | | | | | |]; cbn in *; try by left.
  - left. unfold kevent_label. by repeat case_match.
  - destruct r as [errno|n1 d]; cbn [result_ok] in Hh.
    + left. destruct Hh as [->|[-> _]]; cbn in Hrun; by injection Hrun.
    + right. destruct Hh as [-> Hd]. destruct (handle_event_ok t (kevent_events 1 d) o) as (o1 & t1 & Hok & _); [done|].
      rewrite Hok in Hrun. injection Hrun as <- <- <- <-. exists (d - 1). cbn. split; [done|]. split; [lia|]. split; [done|].
      destruct f; [by left|by right].
Qed.

(** The steps of [timerlib_timer_stop]. *)
Lemma kq_main_step x a x' :
  kq_step x a x' -> ks_main x' <> ks_main x ->
  ks_handler x' = ks_handler x /\ kq_reports a = [] /\ ks_main x' <> kq_running /\ a <> k_expire /\
  forall f, a <> k_interrupted f.
Proof. destruct 1; cbn; done. Qed.

(** Only the setting up of the period loses expirations in the handler. *)
Lemma kq_thread_loses t0 trp x x' n :
  kq_inv t0 trp x -> kq_step x (k_lose n) x' -> ks_main x' = ks_main x -> k_interrupted true ∉ trp -> n = 0.
Proof.
  intros Hi Hs Hm Hf. pose proof (ki_quiet _ _ _ Hi) as Hq. inversion Hs; subst; cbn in *; try done.
  - unfold kevent_label in *. by repeat case_match.
  - by destruct Hq as [[_ ?] _].
Qed.

(** The kernel does not move the handler. *)
Lemma kq_expire_step x x' : kq_step x k_expire x' -> ks_handler x' = ks_handler x.
Proof.
  intros Hs. inversion Hs; subst; try done.
  unfold kevent_label in *. by repeat case_match.
Qed.

Lemma history_inv tr p x : thread_history tr p x -> exists t0 trp, kq_inv t0 trp x /\
  (k_interrupted true ∈ trp -> KThread p (k_interrupted true) ∈ tr).
Proof. intros (t0 & o0 & trp & Hs & Hf). exists t0, trp. split; [by eapply kq_steps_inv|done]. Qed.

Lemma history_mono tr p x b : thread_history tr p x -> thread_history (tr ++ [b]) p x.
Proof. intros (t0 & o0 & trp & Hs & Hf). exists t0, o0, trp. split; [done|]. set_solver. Qed.

Lemma history_step tr p x a x' b :
  thread_history tr p x -> kq_step x a x' -> b = KThread p a \/ (forall f, a <> k_interrupted f) ->
  thread_history (tr ++ [b]) p x'.
Proof.
  intros (t0 & o0 & trp & Hs & Hf) Hstep Hb. exists t0, o0, (trp ++ [a]). split; [by eapply kq_steps_snoc|].
  intros [Hin|Ha%list_elem_of_singleton]%elem_of_app; [set_solver|]. destruct Hb as [->|Hb]; [set_solver|].
  by destruct (Hb true).
Qed.

Lemma history_joined tr p x : thread_history tr p x -> ks_main x = kq_joined ->
  ks_handler x = kq_exited /\ outstanding (Some x) = 0.
Proof.
  intros (t0 & trp & Hi & _)%history_inv Hm. destruct (ki_joined _ _ _ Hi Hm) as [Hh Hp].
  split; [done|]. cbn. by rewrite Hh, Hp.
Qed.

(** *** The books *)

Lemma tally_snoc f p tr a : tally f p (tr ++ [a]) = tally_step f p (tally f p tr) a.
Proof. unfold tally. by rewrite foldl_app. Qed.

Lemma owed_kproject p tr a :
  owed p ((tr ++ [a]) ≫= kproject) = foldl (owed_step p) (owed p (tr ≫= kproject)) (kproject a).
Proof. rewrite bind_app. cbn [mbind list_bind]. rewrite app_nil_r. unfold owed. by rewrite foldl_app. Qed.

Definition books tr p (out : Z) : Prop :=
  owed p (tr ≫= kproject)
  = tally k_expired p tr - tally k_lost_setup p tr - tally k_lost_close p tr - tally k_delivered p tr - out.

(** A step of a thread. *)
Lemma books_thread tr ths p x a x' b t0 trp q :
  kq_inv t0 trp x -> kq_step x a x' -> b = KThread p a \/ b = KStopping p a /\ ks_main x' <> ks_main x ->
  ths !! p = Some x -> books tr q (outstanding (ths !! q)) ->
  books (tr ++ [b]) q (outstanding (<[p := x']> ths !! q)).
Proof.
  unfold books. intros Hi Hs Hb Hp Hq. rewrite owed_kproject, !tally_snoc.
  pose proof (kq_step_balance _ _ _ _ _ Hi Hs) as Hbal.
  assert (Ho : foldl (owed_step q) (owed q (tr ≫= kproject)) (kproject b) = owed q (tr ≫= kproject)
    + (if decide (p = q) then sum_Z ((fun k => k + 1) <$> kq_reports a) else 0)).
  { destruct Hb as [->|[-> Hm]]; cbn [kproject].
    - destruct (kq_step_reports _ _ _ _ _ Hi Hs) as [->|(n & -> & _)]; cbn -[sum_Z]; [case_decide; cbn; lia|].
      change (sum_Z [n + 1]) with (n + 1 + 0). case_decide; lia.
    - destruct (kq_main_step _ _ _ Hs Hm) as (_ & -> & _). cbn. case_decide; lia. }
  assert (Hx : tally_step k_expired q (tally k_expired q tr) b
      - tally_step k_lost_setup q (tally k_lost_setup q tr) b - tally_step k_lost_close q (tally k_lost_close q tr) b
      - tally_step k_delivered q (tally k_delivered q tr) b
    = tally k_expired q tr - tally k_lost_setup q tr - tally k_lost_close q tr - tally k_delivered q tr
      + if decide (p = q) then match a with k_expire => 1 | k_lose n => - n | _ => 0 end else 0).
  { destruct Hb as [->|[-> Hm]]; [|apply kq_main_step in Hs as (_ & _ & _ & He & _); [|done]];
      destruct a; cbn; case_decide; try done; lia. }
  rewrite Ho, Hq. destruct (decide (p = q)) as [<-|Hne].
  - rewrite lookup_insert_eq, Hbal, Hp in *. destruct a; lia.
  - rewrite lookup_insert_ne by done. lia.
Qed.

Lemma first_thread tr p x a x' b q :
  thread_history tr p x -> kq_step x a x' ->
  b = KThread p a /\ ks_main x' = ks_main x \/ b = KStopping p a ->
  (KThread q (k_interrupted true) ∉ tr -> tally k_lost_setup q tr = 0) ->
  KThread q (k_interrupted true) ∉ tr ++ [b] -> tally k_lost_setup q (tr ++ [b]) = 0.
Proof.
  intros (t0 & trp & Hi & Hf)%history_inv Hs Hb Hq [Hn _]%not_elem_of_app. rewrite tally_snoc. specialize (Hq Hn).
  destruct Hb as [[-> Hm]| ->]; [|cbn; lia]. destruct a; cbn; try lia. case_decide as Hp; [subst q|lia].
  rewrite (kq_thread_loses _ _ _ _ _ Hi Hs Hm); [lia|]. intros Hin. by apply Hn, Hf.
Qed.

(** *** Steps of the system *)

(** A step of a thread that reports nothing. *)
Lemma quiet_step_inv tr z ths j j' p x a x' b :
  kinv tr (KSys z ths j) -> ths !! p = Some x -> kq_step x a x' -> kq_reports a = [] ->
  b = KThread p a /\ ks_main x' = ks_main x /\ (a = k_expire \/ p ∉ flight z) /\ j' = j \/
    b = KStopping p a /\ ks_main x' <> ks_main x /\ (j = None \/ j = Some p) /\ j' = Some p ->
  kinv (tr ++ [b]) (KSys z (<[p := x']> ths) j').
Proof.
  intros [Hl Hfl Hv Ht Hb Hf Hh Hst] Hp Hs Hr Hcase. cbn [kt_sys kt_threads kt_stopping] in *.
  pose proof (Ht p x Hp) as Hhist. destruct (history_inv _ _ _ Hhist) as (t0 & trp & Hi & _).
  split; cbn [kt_sys kt_threads kt_stopping]; [done|done|..].
  - intros q. rewrite lookup_insert_is_Some'. intros [<-|Hq]; apply Hv; eauto.
  - apply threads_insert; [|intros q xq _ Hq; by apply history_mono, Ht].
    eapply history_step; [done..|]. destruct Hcase as [[-> _]|(-> & Hm & _)]; [by left|right]. by apply kq_main_step in Hs as (_ & _ & _ & _ & ?).
  - intros q. eapply books_thread; [done..| |done|apply Hb]. naive_solver.
  - intros q. eapply first_thread; [done..| |apply Hf]. naive_solver.
  - intros q Hq. destruct (Hh q Hq) as (xq & Hxq & Hpc). destruct (decide (p = q)) as [<-|Hne].
    + exists x'. rewrite lookup_insert_eq. split; [done|]. rewrite Hp in Hxq. injection Hxq as <-.
      destruct Hcase as [(_ & _ & [->|Hn] & _)|(_ & Hm & _)]; [|done|].
      * by rewrite (kq_expire_step _ _ Hs).
      * by destruct (kq_main_step _ _ _ Hs Hm) as [-> _].
    + exists xq. by rewrite lookup_insert_ne.
  - intros q Hq. destruct Hcase as [(_ & Hm & _ & ->)|(_ & Hm & _ & ->)].
    + destruct (Hst q Hq) as (xq & Hxq & Hr'). destruct (decide (p = q)) as [<-|Hne].
      * exists x'. rewrite lookup_insert_eq. split; [done|]. rewrite Hm. congruence.
      * exists xq. by rewrite lookup_insert_ne.
    + injection Hq as <-. exists x'. rewrite lookup_insert_eq. split; [done|]. by destruct (kq_main_step _ _ _ Hs Hm) as (_ & _ & ? & _).
Qed.

(** A step of a handler that reports. *)
Lemma report_inv tr z z' ths j p x x' n :
  kinv tr (KSys z ths j) -> ths !! p = Some x -> kq_step x (k_report [n]) x' -> p ∉ flight z -> step z (LFire p n) z' ->
  kinv (tr ++ [KThread p (k_report [n])]) (KSys z' (<[p := x']> ths) j).
Proof.
  intros [[l Hl] Hfl Hv Ht Hb Hf Hh Hst] Hp Hs Hpf Hz. cbn [kt_sys kt_threads kt_stopping] in *.
  pose proof (Ht p x Hp) as Hhist. destruct (history_inv _ _ _ Hhist) as (t0 & trp & Hi & _).
  destruct (kq_step_reports _ _ _ _ _ Hi Hs) as [|(m & [= <-] & Hn & Hm & Hpc)]; [done|].
  destruct (step_sound _ _ _ _ Hl Hz Hn) as (l' & Hl' & _).
  split; cbn [kt_sys kt_threads kt_stopping]; [eauto|..].
  - eapply flight_nodup; [done..|]. by intros q k [= <- _].
  - intros q. rewrite lookup_insert_is_Some'. intros Hq. apply (step_valid _ _ _ _ _ Hl Hz Hn); [done|].
    apply Hv. destruct Hq as [<-|Hq]; eauto.
  - apply threads_insert; [|intros q xq _ Hq; by apply history_mono, Ht]. eapply history_step; [done..|by left].
  - intros q. eapply books_thread; [done..|by left|done|apply Hb].
  - intros q. eapply first_thread; [done..|by left|apply Hf].
  - intros q. rewrite (step_flight _ _ _ Hz). intros [->|Hq]%elem_of_cons.
    + exists x'. by rewrite lookup_insert_eq.
    + rewrite lookup_insert_ne by (intros <-; done). by apply Hh.
  - intros q Hq. destruct (Hst q Hq) as (xq & Hxq & Hr). destruct (decide (p = q)) as [<-|Hne].
    + exists x'. rewrite lookup_insert_eq. split; [done|]. rewrite Hm. congruence.
    + exists xq. by rewrite lookup_insert_ne.
Qed.

(** A step of the timers, after which the threads are [ths']: those before, but
    for threads that have ended and threads that are started. *)
Record threads_follow z' (la : label) ths ths' : Prop := ThreadsFollow {
  tf_new : forall q x, ths' !! q = Some x -> la <> LDestroy q /\
    (ths !! q = Some x \/ valid_timer (st (X:=X) z') q /\ exists t o, x = kq_started t o);
  tf_old : forall q x, ths !! q = Some x -> ths' !! q = Some x \/ ks_handler x = kq_exited;
  tf_books : forall q, outstanding (ths' !! q) = outstanding (ths !! q);
  tf_reset : forall q, (exists ok, la = LInit q ok) \/ la = LDestroy q -> outstanding (ths !! q) = 0
}.

Definition fires (la : label) : bool := match la with LFire _ _ => true | _ => false end.

Lemma system_step_inv tr z ths j la z' ths' j' b :
  kinv tr (KSys z ths j) -> step z la z' -> fires la = false -> kproject b = [la] ->
  (exists q, b = KFlag q) \/ b = KMain la -> threads_follow z' la ths ths' -> j' = None \/ j' = j /\ ths' = ths ->
  kinv (tr ++ [b]) (KSys z' ths' j').
Proof.
  intros [[l Hl] Hfl Hv Ht Hb Hf Hh Hst] Hz Hla Hproj Hcase [Hnew Hold Hbooks Hreset] Hj.
  cbn [kt_sys kt_threads kt_stopping] in *.
  assert (Hok : fire_ok la) by by destruct la. destruct (step_sound _ _ _ _ Hl Hz Hok) as (l' & Hl' & _).
  split; cbn [kt_sys kt_threads kt_stopping]; [eauto|..].
  - eapply flight_nodup; [done..|]. by intros q n ->.
  - intros q [x Hx]. destruct (Hnew q x Hx) as [Hd [Hx'|[Hvq _]]]; [|done].
    apply (step_valid _ _ _ _ _ Hl Hz Hok); [done|]. apply Hv. eauto.
  - intros q x Hx. destruct (Hnew q x Hx) as [_ [Hx'|(_ & t & o & ->)]]; [by apply history_mono, Ht|].
    exists t, o, []. split; [constructor|]. by intros ?%elem_of_nil.
  - intros q. specialize (Hb q). rewrite owed_kproject, !tally_snoc, Hproj, Hbooks. cbn [foldl].
    specialize (Hreset q). destruct Hcase as [[r ->]| ->]; [injection Hproj as <-; cbn; lia|].
    destruct la; cbn in *; try done; try case_decide; subst; try lia;
      (rewrite Hreset in * by eauto; lia).
  - intros q [Hn _]%not_elem_of_app. specialize (Hf q Hn). rewrite tally_snoc.
    destruct Hcase as [[r ->]| ->]; [cbn; lia|]. destruct la; cbn; try case_decide; lia.
  - intros q Hq. assert (Hq' : q ∈ flight z).
    { pose proof (step_flight _ _ _ Hz) as Hz'. destruct la; try done; try by rewrite <-Hz'.
      destruct Hz' as (fl1 & fl2 & -> & Hfl2). rewrite Hfl2 in Hq. set_solver. }
    destruct (Hh q Hq') as (x & Hx & Hpc). exists x. destruct (Hold q x Hx) as [?|He]; [done|].
    rewrite He in Hpc. by destruct Hpc.
  - intros q Hq. destruct Hj as [->|[-> ->]]; [done|by apply Hst].
Qed.

(** The threads stay. *)
Lemma threads_same z z' la ths l :
  (forall p, is_Some (ths !! p) -> valid_timer (st z) p) -> sys_inv z l -> step z la z' ->
  (forall q, la = LDestroy q -> ths !! q = None) -> threads_follow z' la ths ths.
Proof.
  intros Hv Hl Hz Hd. split; [|by left|done|].
  - intros q x Hq. split; [|by left]. intros ->. by rewrite Hd in Hq.
  - intros q Hq. destruct (ths !! q) as [x|] eqn:Hx; [|done]. exfalso. destruct Hq as [[ok ->]| ->]; [|by rewrite Hd in Hx].
    destruct (Hv q ltac:(eauto)) as (t & Ht & Hvt).
    inversion Hz as [| | | | | |s fl d self q' et cb data b' s' (u & Hu & Hvu)| | | | |]; subst. cbn in *. congruence.
Qed.

(** A timer that runs after [excimer_timer_start], but not before, is valid. *)
Lemma start_valid z z' l p :
  sys_inv z l -> step z (LStart p) z' -> running (st z) p = false -> running (st z') p = true -> valid_timer (st z') p.
Proof.
  intros Hl Hz Hr Hr'. inversion Hz as [| | | | | | |s fl d p' per ini s' Hrun| | | |]; subst. cbn [st] in *.
  destruct (timers s !! p) as [t|] eqn:Hp.
  2:{ unfold excimer_timer_start, load, mbind, M_bind, get_state, lift in Hrun. by rewrite Hp in Hrun. }
  destruct (start_spec s l p t per ini (sy_timers _ _ Hl) Hp) as (s1 & Hrun1 & _ & _ & Heff).
  rewrite Hrun in Hrun1. injection Hrun1 as <-. unfold running in *. rewrite Hp in Hr. cbv zeta in Heff.
  destruct (is_valid t) eqn:Hv; cbn [andb] in Heff; [|destruct Heff as [msg ->]; cbn in Hr'; rewrite Hp in Hr'; congruence].
  apply (step_valid (Sys s fl d) l (LStart p) (Sys s' fl d) p Hl Hz I); [done|by exists t].
Qed.

Lemma start_threads z z' ths p l :
  (forall p, is_Some (ths !! p) -> valid_timer (st z) p) -> sys_inv z l -> step z (LStart p) z' ->
  ths !! p = None -> running (st z) p = false ->
  threads_follow z' (LStart p) ths (thread_started (st z') p ths).
Proof.
  intros Hv Hl Hz Hp Hr. unfold thread_started.
  pose proof (start_valid z z' l p Hl Hz Hr) as Hval. unfold running in Hval.
  destruct (timers (st z') !! p) as [t|]; [|by eapply threads_same].
  destruct (is_running t); [|by eapply threads_same]. split.
  - intros q x [[<- <-]|[_ Hq]]%lookup_insert_Some; (split; [done|]); [right|by left]. split; [by apply Hval|]. by eexists _, _.
  - intros q x Hq. left. rewrite lookup_insert_ne; [done|]. congruence.
  - intros q. destruct (decide (p = q)) as [<-|Hne]; [|by rewrite lookup_insert_ne].
    rewrite lookup_insert_eq, Hp. unfold kq_started. by case_match.
  - intros q [[ok ?]|?]; done.
Qed.

Lemma stopped_threads z' ths p x la :
  ths !! p = Some x -> ks_handler x = kq_exited -> outstanding (Some x) = 0 -> ends_timer p la ->
  threads_follow z' la ths (delete p ths).
Proof.
  intros Hp Hh Ho Hla. split.
  - intros q xq [Hne Hq]%lookup_delete_Some. split; [|by left]. destruct Hla as [->| ->]; congruence.
  - intros q xq Hq. destruct (decide (p = q)) as [<-|Hne]; [right; congruence|left]. by rewrite lookup_delete_ne.
  - intros q. destruct (decide (p = q)) as [<-|Hne]; [|by rewrite lookup_delete_ne]. by rewrite lookup_delete_eq, Hp, Ho.
  - intros q Hq. destruct Hla as [->| ->]; [by destruct Hq as [[ok ?]|?]|].
    destruct Hq as [[ok ?]|[= <-]]; [done|]. by rewrite Hp.
Qed.

Lemma kstep_inv tr y b y' : kinv tr y -> kstep y b y' -> kinv (tr ++ [b]) y'.
Proof.
  intros Hi Hstep. pose proof Hi as [[l Hl] _ Hv Ht _ _ _ _].
  destruct Hstep as [z ths j p x x' a Hp Hs Hm Hr Ha|z z' ths j p x x' n Hp Hs Hpf Hz|z z' ths j p Hz|z z' ths la Hla Hz
    |z z' ths p Hp Hr Hz|z z' ths p la Hp Hla Hz|z ths j p x x' a Hp Hj Hs Hm|z z' ths p x la Hp Hm Hla Hz Hr];
    cbn [kt_sys kt_threads kt_stopping] in *.
  - eapply quiet_step_inv; [done..|]. naive_solver.
  - by eapply report_inv.
  - eapply system_step_inv; [done..|eauto| |by right]. by eapply threads_same.
  - eapply system_step_inv; [done|done|by destruct la|done|by right| |by left]. eapply threads_same; [done..|]. by intros q ->.
  - eapply system_step_inv; [done..|by right| |by left]. by eapply start_threads.
  - eapply system_step_inv; [done|done|by destruct Hla as [->| ->]|done|by right| |by left].
    eapply threads_same; [done..|]. intros q ->. by destruct Hla as [|[= ->]].
  - destruct (kq_main_step _ _ _ Hs Hm) as (_ & Hr & _). eapply quiet_step_inv; [done..|]. by right.
  - destruct (history_joined _ _ _ (Ht p x Hp) Hm) as [Hh Ho].
    eapply system_step_inv; [done|done|by destruct Hla as [->| ->]|done|by right| |by left]. by eapply stopped_threads.
Qed.

Lemma ksteps_inv y tr y' : kinitial y -> ksteps y tr y' -> kinv tr y'.
Proof.
  intros (Hsys & Hths & Hj) Hsteps. induction Hsteps as [y|y tr y1 a y2 Hsteps IH Hstep].
  - pose proof Hsys as (Hinv & Hfl & Hd). split; [exists []; split; [done|rewrite Hfl; set_solver|done]|..].
    + rewrite Hfl. constructor.
    + intros p. rewrite Hths, lookup_empty. by intros [].
    + intros p x. by rewrite Hths, lookup_empty.
    + intros p. by rewrite Hths, lookup_empty.
    + done.
    + intros p. rewrite Hfl. by intros ?%elem_of_nil.
    + intros p. by rewrite Hj.
  - eapply kstep_inv; [by apply IH|done].
Qed.

Lemma kproject_step tr y a y' : kinv tr y -> kstep y a y' -> Forall fire_ok (kproject a) /\
  (kproject a = [] /\ kt_sys y' = kt_sys y \/ exists la, kproject a = [la] /\ step (kt_sys y) la (kt_sys y')).
Proof.
  intros [_ _ _ Ht _ _ _ _] Hstep.
  destruct Hstep as [z ths j p x x' a Hp Hs Hm Hr Ha|z z' ths j p x x' n Hp Hs Hpf Hz|z z' ths j p Hz|z z' ths la Hla Hz
    |z z' ths p Hp Hr Hz|z z' ths p la Hp Hla Hz|z ths j p x x' a Hp Hj Hs Hm|z z' ths p x la Hp Hm Hla Hz Hr];
    cbn [kproject kt_sys kt_threads] in *.
  all: try (split; [by repeat constructor|right; by eexists]).
  - rewrite Hr. split; [constructor|by left].
  - destruct (history_inv _ _ _ (Ht p x Hp)) as (t0 & trp & Hi & _).
    destruct (kq_step_reports _ _ _ _ _ Hi Hs) as [|(m & [= <-] & Hn & _)]; [done|].
    split; [by apply Forall_singleton|right; by eexists].
  - split; [constructor; [by destruct la|done]|right; by eexists].
  - split; [constructor; [by destruct Hla as [->| ->]|done]|right; by eexists].
  - split; [constructor|by left].
  - split; [constructor; [by destruct Hla as [->| ->]|done]|right; by eexists].
Qed.

Lemma ksteps_project y tr y' :
  kinitial y -> ksteps y tr y' ->
  steps (kt_sys y) (tr ≫= kproject) (kt_sys y') /\ Forall fire_ok (tr ≫= kproject).
Proof.
  intros Hinit Hsteps. induction Hsteps as [y|y tr y1 a y2 Hsteps IH Hstep]; [by split; constructor|].
  destruct (IH Hinit) as [Hs Hf].
  destruct (kproject_step tr y1 a y2 (ksteps_inv y tr y1 Hinit Hsteps) Hstep) as [Ha Hcase].
  rewrite bind_app. cbn [mbind list_bind]. rewrite app_nil_r. split; [|by apply Forall_app].
  destruct Hcase as [[-> ->]|(la & -> & Hla)]; [by rewrite app_nil_r|by eapply steps_snoc].
Qed.

(** *** Ending a thread *)

Lemma ksteps_trans y tr y1 tr1 y2 : ksteps y tr y1 -> ksteps y1 tr1 y2 -> ksteps y (tr ++ tr1) y2.
Proof.
  intros H1 H2. induction H2 as [y1|y1 tr1 y2 a y3 H2 IH Hs]; [by rewrite app_nil_r|].
  rewrite app_assoc. by eapply ksteps_snoc; [apply IH|].
Qed.

Lemma ksteps_one y a y' : kstep y a y' -> ksteps y [a] y'.
Proof. intros Hs. apply (ksteps_snoc y [] y a y'); [constructor|done]. Qed.

Lemma ksteps_kinv tr y tr1 y' : kinv tr y -> ksteps y tr1 y' -> kinv (tr ++ tr1) y'.
Proof.
  intros Hi Hs. induction Hs as [y|y tr1 y1 a y2 Hs IH Hstep]; [by rewrite app_nil_r|].
  rewrite app_assoc. eapply kstep_inv; [by apply IH|done].
Qed.

(** Steps of the handler of [p] and of the main thread that ends it. *)
Definition concerns (p : ptr) (a : klabel) : Prop :=
  match a with KThread q _ | KFlag q | KStopping q _ => q = p | KMain _ => False end.

(** At most [n] such steps lead to a state with [Q]. *)
Definition can_reach (n : nat) p tr y (Q : ksys E X -> Prop) : Prop :=
  exists tr1 y1, ksteps y tr1 y1 /\ (length tr1 <= n)%nat /\ Forall (concerns p) tr1 /\ kinv (tr ++ tr1) y1 /\ Q y1.

(** The main thread is ending the thread [x] of [p]. *)
Definition ending p x y : Prop := kt_stopping y = Some p /\ kt_threads y !! p = Some x.

Lemma can_reach_now p tr y (Q : ksys E X -> Prop) : kinv tr y -> Q y -> can_reach 0 p tr y Q.
Proof. intros Hi HQ. exists [], y. rewrite app_nil_r. split_and!; [constructor|done|constructor|done..]. Qed.

Lemma can_reach_step p tr y b y1 (Q : ksys E X -> Prop) :
  kinv tr y -> kstep y b y1 -> concerns p b -> Q y1 -> can_reach 1 p tr y Q.
Proof.
  intros Hi Hs Hb HQ. exists [b], y1. split_and!; [by apply ksteps_one|done|by apply Forall_singleton|by eapply kstep_inv|done].
Qed.

Lemma can_reach_bind n1 n2 p tr y (Q R : ksys E X -> Prop) :
  can_reach n1 p tr y Q -> (forall tr' y1, kinv tr' y1 -> Q y1 -> can_reach n2 p tr' y1 R) ->
  can_reach (n1 + n2) p tr y R.
Proof.
  intros (tr1 & y1 & Hs1 & Hl1 & Hc1 & Hi1 & HQ) H2.
  destruct (H2 _ _ Hi1 HQ) as (tr2 & y2 & Hs2 & Hl2 & Hc2 & Hi2 & HR).
  exists (tr1 ++ tr2), y2. rewrite length_app, app_assoc.
  split_and!; [by eapply ksteps_trans|lia|by apply Forall_app|done..].
Qed.

Lemma can_reach_weaken n1 n2 p tr y (Q : ksys E X -> Prop) :
  (n1 <= n2)%nat -> can_reach n1 p tr y Q -> can_reach n2 p tr y Q.
Proof. intros Hn (tr1 & y1 & Hs & Hl & Hrest). exists tr1, y1. split; [done|]. split; [lia|done]. Qed.

(** The handler raises the flag, if it has to. *)
Lemma reach_flag tr y p x :
  kinv tr y -> ending p x y -> can_reach 1 p tr y (fun y1 => ending p x y1 /\ p ∉ flight (kt_sys y1)).
Proof.
  intros Hi [Hj Hp]. pose proof Hi as [[l Hl] Hfl _ _ _ _ _ _]. destruct (decide (p ∈ flight (kt_sys y))) as [Hin|Hin].
  - destruct (flag_possible _ l p Hl Hin Hfl) as (z' & Hz & Hn & _). destruct y as [z ths j]. cbn in *.
    eapply can_reach_step; [done|by constructor|done..].
  - eapply can_reach_weaken; [|by apply can_reach_now]. lia.
Qed.

(** A step of the thread, or of the main thread that ends it. *)
Lemma reach_thread tr y p x a x' :
  kinv tr y -> ending p x y -> kq_step x a x' -> can_reach 2 p tr y (ending p x').
Proof.
  intros Hi0 He0 Hs. apply (can_reach_bind 1 1 _ _ _ _ _ (reach_flag tr y p x Hi0 He0)).
  intros tr1 [z ths j] Hi [[Hj Hp] Hfl]. pose proof Hi as [[l Hl] _ Hv Ht _ _ _ _].
  destruct (history_inv _ _ _ (Ht p x Hp)) as (t0 & trp & Hk & _). specialize (Hv p ltac:(eauto)).
  cbn [kt_sys kt_threads kt_stopping] in *. subst j.
  assert (Hend : forall z', ending p x' (KSys (X:=X) z' (<[p := x']> ths) (Some p))) by (split; [done|apply lookup_insert_eq]).
  destruct (decide (ks_main x' = ks_main x)) as [Hm|Hm].
  - destruct (kq_step_reports _ _ _ _ _ Hk Hs) as [Hr|(n & -> & _)].
    + eapply can_reach_step; [done|by eapply kstep_thread; eauto|done..].
    + destruct (fire_possible z l p n Hl Hv) as [z' Hz]. eapply can_reach_step; [done|by eapply kstep_report|done..].
  - eapply can_reach_step; [done|by eapply kstep_stopping; eauto|done..].
Qed.

(** In [pthread_join]: the thread ends, and is joined. *)
Lemma reach_joined n tr y p x :
  join_succeeds (E:=E) -> kinv tr y -> ending p x y -> ks_main x = kq_closed -> (stop_steps x <= n)%nat ->
  can_reach (2 * n) p tr y (fun y1 => exists x1, ending p x1 y1 /\ ks_main x1 = kq_joined).
Proof.
  intros Hjoin. revert tr y x. induction n as [|n IH]; intros tr y x Hi He Hm Hn.
  { unfold stop_steps in Hn. rewrite Hm in Hn. lia. }
  pose proof Hi as [_ _ _ Ht _ _ _ _]. destruct (history_inv _ _ _ (Ht p x (proj2 He))) as (t0 & trp & Hk & _).
  destruct (kq_closed_progress _ _ _ Hjoin Hk Hm) as (a & x' & Hs & Hni).
  assert (Hopen : queue_open (ks_main x) = false) by by rewrite Hm.
  destruct (kq_step_closed _ _ _ _ _ Hk Hopen Hs) as [Ho Hlt].
  assert (Hdec : (stop_steps x' < stop_steps x)%nat) by (destruct a as [| | |f| |]; try done; by destruct (Hni f)).
  replace (2 * S n)%nat with (2 + 2 * n)%nat by lia.
  eapply can_reach_bind; [by eapply reach_thread|]. intros tr1 y1 Hi1 He1. cbv beta in He1.
  destruct (ks_main x') eqn:Hm'; try done.
  - apply (IH _ _ x'); [done..|]. lia.
  - eapply can_reach_weaken; [|apply can_reach_now; [done|by exists x']]. lia.
Qed.

(** Closing the queue succeeds. *)
Definition close_succeeds : Prop := forall fd (e : E), (env_close fd e).2 = 0.

(** From the start of [timerlib_timer_stop]. *)
Lemma reach_stopped tr y p x :
  close_succeeds -> join_succeeds (E:=E) -> kinv tr y -> ending p x y -> ks_main x <> kq_running ->
  can_reach 14 p tr y (fun y1 => exists x1, ending p x1 y1 /\ ks_main x1 = kq_joined).
Proof.
  intros Hclose Hjoin.
  assert (Hc : forall tr y x, kinv tr y -> ending p x y -> ks_main x = kq_closed ->
    can_reach 10 p tr y (fun y1 => exists x1, ending p x1 y1 /\ ks_main x1 = kq_joined)).
  { intros tr1 y1 x1 Hi He Hm. apply (reach_joined 5 tr1 y1 p x1 Hjoin Hi He Hm). unfold stop_steps. rewrite Hm.
    unfold exit_steps. repeat case_match; lia. }
  assert (Hz : forall tr y x, kinv tr y -> ending p x y -> ks_main x = kq_zeroed ->
    can_reach 12 p tr y (fun y1 => exists x1, ending p x1 y1 /\ ks_main x1 = kq_joined)).
  { intros tr1 y1 [t o kt n h m] Hi He Hm. cbn in Hm. subst m.
    destruct ((errno ← call (env_close (kq t)); _ ← record (ev_close (kq t)); mret errno) o) as [o' errno] eqn:Hrun.
    assert (errno = 0) as ->.
    { unfold mbind, mret, Sys_bind, Sys_ret, call, record in Hrun. specialize (Hclose (kq t) (env o)).
      destruct (env_close _ _) as [e' err]. cbn in *; congruence. }
    eapply (can_reach_bind 2 10); [eapply reach_thread; [done..|by apply kq_step_close]|]. intros tr2 y2 Hi2 He2. by eapply Hc. }
  intros Hi He Hm. destruct x as [t o kt n h m]. cbn in Hm. destruct m; [done|..].
  - eapply (can_reach_bind 2 12); [eapply reach_thread; [done..|by apply kq_step_zero_nsec]|]. intros tr2 y2 Hi2 He2. by eapply Hz.
  - eapply can_reach_weaken; [|by eapply Hz]. lia.
  - eapply can_reach_weaken; [|by eapply Hc]. lia.
  - eapply can_reach_weaken; [|apply can_reach_now; [done|by eexists]]. lia.
Qed.

(** The rest of [excimer_timer_stop], and of [excimer_timer_destroy]. *)
Lemma kqueue_stop_ok t (o : sys_os E) : close_succeeds -> join_succeeds (E:=E) -> (kqueue_timer_stop t o).2.2 = true.
Proof.
  intros Hclose Hjoin. unfold kqueue_timer_stop. destruct (negb _); [|done].
  unfold mbind, mret, Sys_bind, Sys_ret, call, record. cbn [kq env set_kq_times handler_thread_id].
  specialize (Hclose (kq t) (env o)). destruct (env_close _ _) as [e' errno]. cbn in Hclose. subst errno. cbn.
  specialize (Hjoin (handler_thread_id t) e'). destruct (env_kq_join _ _) as [e2 error]. cbn in *. by subst error.
Qed.

Lemma end_possible z l p la :
  close_succeeds -> join_succeeds (E:=E) -> sys_inv z l -> valid_timer (st z) p -> p ∉ flight z -> ends_timer p la ->
  exists z', step z la z' /\ running (st z') p = false.
Proof.
  intros Hclose Hjoin Hl (t & Hp & Hv) Hfl Hla. destruct z as [s fl d]. cbn [st flight] in *.
  pose proof (sy_timers _ _ Hl) as Hinv. cbn in Hinv. destruct Hla as [->| ->].
  - destruct (stop_spec s l p t Hinv Hp) as (s' & Hrun & _ & _ & Heff). exists (Sys s' fl d).
    split; [by eapply step_stop|]. cbn. unfold running. rewrite Hv in Heff.
    destruct (is_running t) eqn:Hr; [|by subst s'; rewrite Hp].
    pose proof (kqueue_stop_ok (tl_timer t) (os s) Hclose Hjoin) as Hok. cbn [timerlib_timer_stop kqueue_timerlib] in Heff.
    destruct (kqueue_timer_stop _ _) as [o [tl ok]]. cbn in Hok. subst ok s'. cbn. by rewrite lookup_insert_eq.
  - destruct (destroy_spec s l 0 p t Hinv Hp Hv) as (s' & t' & Hrun & Hinv' & Hp' & Hv' & _). exists (Sys s' fl d).
    split; [eapply step_destroy; [done|by exists t|done]|]. cbn. unfold running. rewrite Hp'.
    pose proof (tok_running _ _ _ (ti_timers _ _ Hinv' _ _ Hp')). destruct (is_running t'); [|done]. naive_solver.
Qed.

(** ** Properties *)


(** C7. From the kernel to the callback no expiration is counted twice, and each
    is accounted for: in every reachable state the counter of a valid timer holds
    the expirations since the timer was initialised, less those delivered to the
    callback, those that its thread has not reported yet, and those that were
    lost. They are lost when the queue is closed; or when the handler sets up the
    period, but then only if a signal has interrupted the wait for the initial
    expiry. *)
Theorem kqueue_expirations_conserved y tr y' p t :
  kinitial y -> ksteps y tr y' -> timers (st (kt_sys y')) !! p = Some t -> is_valid t = true ->
  event_count t = wrap_i64 (tally k_expired p tr - tally k_delivered p tr
    - tally k_lost_close p tr - tally k_lost_setup p tr - outstanding (kt_threads y' !! p)) /\
  (KThread p (k_interrupted true) ∉ tr -> tally k_lost_setup p tr = 0).
Proof.
  intros Hinit Hsteps Hp Hv. pose proof (ksteps_inv y tr y' Hinit Hsteps) as [_ _ _ _ Hb Hf _ _].
  destruct (ksteps_project y tr y' Hinit Hsteps) as [Hs Hok]. destruct Hinit as [Hsys _].
  split; [|apply Hf]. rewrite (proj2 (steps_sound _ _ _ Hsys Hs Hok) p t Hp Hv), Hb. f_equal. lia.
Qed.


End kqueue_timers_facts.

(** ** Witnesses *)

Section witnesses.
  #[local] Existing Instance ex_kqueue_env.

Definition ex_kempty : ksys Z unit :=
  KSys (Sys (TState kqueue_timer (sys_os Z) unit ∅ ∅ ∅ None None [] (SysOs 100 [] []) tt) [] 0) ∅ None.

Lemma ex_kempty_initial : kinitial ex_kempty.
Proof.
  assert (Hno : forall p t, timers (st (kt_sys ex_kempty)) !! p = Some t -> False).
  { intros p t Hp. cbn in Hp. by rewrite lookup_empty in Hp. }
  split; [|done]. split; [|done]. split; [| |done| |done].
  - split; [done|]. split; [apply NoDup_nil_2|]. intros a b Hab. by apply elem_of_nil in Hab.
  - intros p [t Hp]. by destruct (Hno p t).
  - intros p t Hp. by destruct (Hno p t).
Qed.

Lemma ksteps_cons {E X} `{KqueueEnv E} (y : ksys E X) a y1 tr y2 : kstep y a y1 -> ksteps y1 tr y2 -> ksteps y (a :: tr) y2.
Proof. intros Hs H2. apply (ksteps_trans y [a] y1 tr y2); [by apply ksteps_one|done]. Qed.

(** A timer with a delay of 5 seconds and a period of 2 has expired three times
    and reported once when the main thread begins to stop it. *)
Definition ex_klabels : list klabel :=
  [KMain (LAlloc 1); KMain (LInit 1 true); KMain (LStart 1); KThread 1 k_expire; KThread 1 k_handler;
   KThread 1 (k_report [0]); KFlag 1; KThread 1 k_handler; KThread 1 (k_lose 0); KThread 1 k_expire;
   KThread 1 k_expire; KStopping 1 k_main].

Tactic Notation "kt_go" uconstr(c) := eapply ksteps_cons; [eapply c|].
Ltac kt_compute := match goal with |- ksteps ?y _ _ => let y' := eval vm_compute in y in change y with y' end.
Ltac kt_thread c := kt_go kstep_thread; [vm_compute; reflexivity|c|reflexivity|reflexivity|
  first [left; reflexivity|right; apply not_elem_of_nil]|kt_compute].

Lemma ex_krun : exists y x, ksteps ex_kempty ex_klabels y /\ kt_threads y !! 1%positive = Some x /\
  kt_stopping y = Some 1%positive /\ outstanding (Some x) = 2.
Proof.
  eexists _, _. split; [|split; [|split]].
  - unfold ex_klabels, ex_kempty.
    kt_go kstep_main; [done|by constructor|].
    kt_go kstep_main; [done|eapply (step_init _ _ _ 0%nat _ EXCIMER_REAL excimer_timer_event_cb None);
      [eexists; split; vm_compute; reflexivity|vm_compute; reflexivity]|].
    kt_go kstep_start; [reflexivity|vm_compute; reflexivity|
      eapply (step_start _ _ _ _ (Timespec 2 0) (Timespec 5 0)); vm_compute; reflexivity|kt_compute].
    kt_thread ltac:(eapply kq_step_expire; vm_compute; reflexivity).
    kt_thread ltac:(eapply (kq_step_kevent _ _ _ _ _ _ (kevent_events 1 1)); apply (returns_event 1); reflexivity).
    kt_go kstep_report; [vm_compute; reflexivity|eapply kq_step_handle; vm_compute; reflexivity|apply not_elem_of_nil|
      eapply (step_fire _ _ _ 0%nat); [eexists; split; vm_compute; reflexivity|vm_compute; reflexivity]|kt_compute].
    kt_go kstep_flag; [eapply (step_flag _ [] []); vm_compute; reflexivity|kt_compute].
    kt_thread ltac:(eapply kq_step_decide).
    kt_thread ltac:(eapply kq_step_setup; vm_compute; reflexivity).
    kt_thread ltac:(eapply kq_step_expire; vm_compute; reflexivity).
    kt_thread ltac:(eapply kq_step_expire; vm_compute; reflexivity).
    kt_go kstep_stopping; [vm_compute; reflexivity|by left|eapply kq_step_zero_sec|done|].
    apply ksteps_nil.
  - vm_compute. reflexivity.
  - reflexivity.
  - vm_compute. reflexivity.
Qed.

Lemma kqueue_expirations_conserved_witness :
  exists y t, ksteps ex_kempty ex_klabels y /\ timers (st (kt_sys y)) !! 1%positive = Some t /\
    tally k_expired 1 ex_klabels = 3 /\ event_count t = 1.
Proof.
  destruct ex_krun as (y & x & Hrun & Hx & _ & Hout).
  destruct (kv_valid _ _ (ksteps_inv _ _ _ ex_kempty_initial Hrun) 1%positive ltac:(eauto)) as (t & Ht & Hv).
  destruct (kqueue_expirations_conserved ex_kempty ex_klabels y 1 t ex_kempty_initial Hrun Ht Hv) as [Hc _].
  exists y, t. split; [exact Hrun|]. split; [exact Ht|]. split; [reflexivity|].
  rewrite Hc, Hx, Hout. reflexivity.
Defined.



End witnesses.
