(* ===== verification/LogObject.v ===== *)
(** * The PHP objects of a log: [ExcimerLog] and [ExcimerLogEntry]

    Models the object layer of [excimer.c] over a log: its iteration as a PHP
    [Iterator] and by [foreach], [Countable], [ArrayAccess], the log's own
    methods and those of its entries. An object is referred to by a handle. An
    index is a [zend_long] that the code compares with a [size_t], so it is
    converted to an unsigned integer first. *)

From S2P Require Import Prelude ZendHash Log LogTrace Tally LogFormat LogAggregate LogSpeedscope Timespec.
From Stdlib Require Import Floats.SpecFloat.

Abbreviation handle := positive.

(** [ExcimerLogEntry_obj]; a null [z_log] is [None]. *)
Record ExcimerLogEntry_obj : Type := LogEntryObj {
  entry_z_log : option handle;
  entry_index : Z
}.

#[export] Instance ExcimerLogEntry_obj_eq_dec : EqDecision ExcimerLogEntry_obj.
Proof. solve_decision. Defined.

(** [ExcimerLog_obj]. *)
Record ExcimerLog_obj {HT : Type -> Type -> Type} : Type := LogObj {
  obj_log : excimer_log HT;
  z_current : option ExcimerLogEntry_obj;
  iter_entry_index : Z
}.
Arguments ExcimerLog_obj HT : clear implicits.

(** [ExcimerLog_iterator]. *)
Record ExcimerLog_iterator : Type := LogIterator {
  it_data : handle;
  it_current : option ExcimerLogEntry_obj;
  it_index : Z
}.

Section log_object.
  Context {HT : Type -> Type -> Type} `{ZendHash HT}.
  Implicit Types (log : excimer_log HT) (o : ExcimerLog_obj HT) (it : ExcimerLog_iterator).

Definition set_log log o : ExcimerLog_obj HT := LogObj HT log (z_current o) (iter_entry_index o).

(** [i < log->entries_size]. *)
Definition below_size (i : Z) log : bool := wrap_u64 i <? entries_size log.

(** A log object of zero bytes, initialised. *)
Definition ExcimerLog_new : ExcimerLog_obj HT :=
  LogObj HT (excimer_log_init (Log HT [] [] zend_new_array 0 0 0 0)) None 0.

Definition ExcimerLogEntry_new : ExcimerLogEntry_obj := LogEntryObj None 0.

(** An entry object, or null. *)
Definition ExcimerLog_init_entry (this : handle) log (index : Z) : option ExcimerLogEntry_obj :=
  match excimer_log_get_entry log index with
  | Some _ => Some (LogEntryObj (Some this) index)
  | None => None
  end.

(** ** Iteration by [foreach] *)

(** Throws a [RuntimeException] for iteration by reference. *)
Definition ExcimerLog_get_iterator (this : handle) (by_ref : bool) : string + ExcimerLog_iterator :=
  if by_ref then inl "An iterator cannot be used with foreach by reference"
  else inr (LogIterator this None 0).

Definition ExcimerLog_iterator_valid it log : bool := below_size (it_index it) log.

(** Returns the iterator with its cached value, and the value. *)
Definition ExcimerLog_iterator_get_current_data it log :
    ExcimerLog_iterator * option ExcimerLogEntry_obj :=
  match it_current it with
  | Some e => (it, Some e)
  | None =>
      if below_size (it_index it) log then
        let e := ExcimerLog_init_entry (it_data it) log (it_index it) in
        (LogIterator (it_data it) e (it_index it), e)
      else (it, None)
  end.

Definition ExcimerLog_iterator_get_current_key it log : option Z :=
  if below_size (it_index it) log then Some (it_index it) else None.

Definition ExcimerLog_iterator_move_forward it log : ExcimerLog_iterator :=
  LogIterator (it_data it) None
    (if below_size (it_index it) log then it_index it + 1 else it_index it).

Definition ExcimerLog_iterator_rewind it : ExcimerLog_iterator := LogIterator (it_data it) None 0.

Definition ExcimerLog_iterator_invalidate_current it : ExcimerLog_iterator :=
  LogIterator (it_data it) None (it_index it).

(** ** The [Iterator] interface *)

Definition ExcimerLog_current (this : handle) o : ExcimerLog_obj HT * option ExcimerLogEntry_obj :=
  let o :=
    match z_current o with
    | None =>
        if below_size (iter_entry_index o) (obj_log o)
        then LogObj HT (obj_log o) (ExcimerLog_init_entry this (obj_log o) (iter_entry_index o))
               (iter_entry_index o)
        else o
    | Some _ => o
    end in
  (o, z_current o).

Definition ExcimerLog_key o : option Z :=
  if below_size (iter_entry_index o) (obj_log o) then Some (iter_entry_index o) else None.

Definition ExcimerLog_next o : ExcimerLog_obj HT :=
  LogObj HT (obj_log o) None
    (if below_size (iter_entry_index o) (obj_log o) then iter_entry_index o + 1 else iter_entry_index o).

Definition ExcimerLog_rewind o : ExcimerLog_obj HT := LogObj HT (obj_log o) None 0.

Definition ExcimerLog_valid o : bool := below_size (iter_entry_index o) (obj_log o).

(** ** [Countable] and [ArrayAccess] *)

Definition ExcimerLog_count_elements o : Z := wrap_i64 (entries_size (obj_log o)).
Definition ExcimerLog_count o : Z := wrap_i64 (entries_size (obj_log o)).

Definition ExcimerLog_offsetExists o (offset : Z) : bool :=
  (0 <=? offset) && below_size offset (obj_log o).

Definition ExcimerLog_offsetGet (this : handle) o (offset : Z) : option ExcimerLogEntry_obj :=
  if (offset <? 0) || negb (below_size offset (obj_log o)) then None
  else ExcimerLog_init_entry this (obj_log o) offset.

(** ** Other methods of the log *)

Definition ExcimerLog_getEventCount o : Z := log_event_count (obj_log o).
Definition ExcimerLog_formatCollapsed o : outcome string := excimer_log_format_collapsed (obj_log o).
Definition ExcimerLog_getSpeedscopeData o : outcome zval := excimer_log_get_speedscope_data (obj_log o).
Definition ExcimerLog_aggregateByFunction o : outcome (HT string (HT string zval)) :=
  excimer_log_aggr_by_func (obj_log o).

(** ** Methods of an entry

    [logs] maps handles to log objects. A null [z_log] is not an object of the
    right class, so that the pointer to the log object is null. *)

Definition entry_lookup (logs : gmap handle (ExcimerLog_obj HT)) (e : ExcimerLogEntry_obj) :
    outcome (excimer_log HT * excimer_log_entry) :=
  let! h := deref (entry_z_log e) in
  let! o := deref (logs !! h) in
  let! entry := deref (excimer_log_get_entry (obj_log o) (entry_index e)) in
  Ok (obj_log o, entry).

(** Nanoseconds since the epoch of the log, as seconds. *)
Definition ExcimerLogEntry_getTimestamp logs e : outcome double :=
  let! '(log, entry) := entry_lookup logs e in
  Ok (SFdiv 53 1024 (double_of_Z (wrap_u64 (timestamp entry - epoch log))) double_1e9).

Definition ExcimerLogEntry_getEventCount logs e : outcome Z :=
  let! '(log, entry) := entry_lookup logs e in
  Ok (entry_event_count entry).

Definition ExcimerLogEntry_getTrace logs e : outcome (list zval) :=
  let! '(log, entry) := entry_lookup logs e in
  excimer_log_trace_to_array log (frame_index entry).

(** ** Loops over a log *)

(** [foreach ($log as $key => $value)]: the engine asks for the current value
    and then for its key. *)
Fixpoint foreach_loop (fuel : nat) it log (acc : list (option Z * option ExcimerLogEntry_obj)) :
    outcome (list (option Z * option ExcimerLogEntry_obj)) :=
  match fuel with
  | O => Diverge
  | S fuel' =>
      if ExcimerLog_iterator_valid it log then
        let '(it, value) := ExcimerLog_iterator_get_current_data it log in
        let key := ExcimerLog_iterator_get_current_key it log in
        foreach_loop fuel' (ExcimerLog_iterator_move_forward it log) log (acc ++ [(key, value)])
      else Ok acc
  end.

Definition foreach (this : handle) (by_ref : bool) log :
    string + outcome (list (option Z * option ExcimerLogEntry_obj)) :=
  match ExcimerLog_get_iterator this by_ref with
  | inl exception => inl exception
  | inr it => inr (foreach_loop (S (length (entries log))) (ExcimerLog_iterator_rewind it) log [])
  end.

(** [for ($log->rewind(); $log->valid(); $log->next())], with the key and the
    value of each round. *)
Fixpoint for_loop (fuel : nat) (this : handle) o (acc : list (option Z * option ExcimerLogEntry_obj)) :
    outcome (ExcimerLog_obj HT * list (option Z * option ExcimerLogEntry_obj)) :=
  match fuel with
  | O => Diverge
  | S fuel' =>
      if ExcimerLog_valid o then
        let '(o, value) := ExcimerLog_current this o in
        for_loop fuel' this (ExcimerLog_next o) (acc ++ [(ExcimerLog_key o, value)])
      else Ok (o, acc)
  end.

Definition for_each (this : handle) o :
    outcome (ExcimerLog_obj HT * list (option Z * option ExcimerLogEntry_obj)) :=
  for_loop (S (length (entries (obj_log o)))) this (ExcimerLog_rewind o) [].

(** ** Specification *)

(** The items [from], [from + 1], ... of the log. *)
Definition log_items (this : handle) (from n : Z) : list (option Z * option ExcimerLogEntry_obj) :=
  (fun i => (Some i, Some (LogEntryObj (Some this) i))) <$> seqZ from n.

(** The memory of a log bounds the number of its entries. *)
Definition size_ok log : Prop := entries_size log < 2 ^ 63.

(** A handle to a log that holds [log]. *)
Definition has_log (logs : gmap handle (ExcimerLog_obj HT)) (h : handle) log : Prop :=
  exists o, logs !! h = Some o /\ obj_log o = log.

End log_object.

(** ** Lemmas *)

Section log_object_facts.
  Context {HT : Type -> Type -> Type} `{ZendHashLaws HT}.
  Implicit Types (log : excimer_log HT) (o : ExcimerLog_obj HT).

Lemma below_size_nonneg i log : 0 <= i < 2 ^ 64 -> below_size i log = (i <? entries_size log).
Proof. intros Hi. unfold below_size. by rewrite wrap_u64_small. Qed.

Lemma below_size_in i log : size_ok log -> 0 <= i < entries_size log -> below_size i log = true.
Proof.
  unfold size_ok. intros Hsz Hi. rewrite below_size_nonneg by lia. apply Z.ltb_lt. lia.
Qed.

Lemma init_entry_in this log i :
  0 <= i < entries_size log -> ExcimerLog_init_entry this log i = Some (LogEntryObj (Some this) i).
Proof.
  intros Hi. unfold ExcimerLog_init_entry, entries_size in *.
  destruct (array_get_is_Some (entries log) i Hi) as [e He].
  by rewrite (get_entry_lookup log i e).
Qed.

Lemma get_entry_none log i : i < 0 \/ entries_size log <= i < 2 ^ 64 -> excimer_log_get_entry log i = None.
Proof.
  intros Hi. unfold excimer_log_get_entry. destruct (Z.leb_spec 0 i); [|done]. cbn [andb].
  rewrite wrap_u64_small by (unfold is_u64; lia). by rewrite (proj2 (Z.ltb_ge _ _)) by lia.
Qed.

Lemma log_items_step this i n :
  0 < n -> log_items this i n = (Some i, Some (LogEntryObj (Some this) i)) :: log_items this (i + 1) (n - 1).
Proof. intros Hn. unfold log_items. by rewrite seqZ_cons by lia. Qed.

Lemma foreach_loop_spec log this n i acc fuel :
  size_ok log -> 0 <= i -> entries_size log = i + Z.of_nat n -> (n < fuel)%nat ->
  foreach_loop fuel (LogIterator this None i) log acc = Ok (acc ++ log_items this i (Z.of_nat n)).
Proof.
  intros Hsz. unfold size_ok in Hsz. revert i acc fuel.
  induction n as [|n IH]; intros i acc [|fuel] Hi Hn Hf; [lia| |lia|]; cbn [foreach_loop];
    unfold ExcimerLog_iterator_valid, ExcimerLog_iterator_get_current_data,
      ExcimerLog_iterator_get_current_key, ExcimerLog_iterator_move_forward; cbn [it_index it_data it_current].
  - rewrite below_size_nonneg, (proj2 (Z.ltb_ge _ _)) by lia. by rewrite app_nil_r.
  - rewrite (below_size_in i log) by (unfold size_ok; lia). cbn [it_index it_data].
    rewrite (below_size_in i log) by (unfold size_ok; lia).
    rewrite IH, init_entry_in by lia. rewrite <-app_assoc. simpl. f_equal. f_equal.
    rewrite (log_items_step this i (Z.of_nat (S n))) by lia. do 2 f_equal. lia.
Qed.

Lemma for_loop_spec o this n acc fuel :
  size_ok (obj_log o) -> 0 <= iter_entry_index o -> z_current o = None ->
  entries_size (obj_log o) = iter_entry_index o + Z.of_nat n -> (n < fuel)%nat ->
  exists o', for_loop fuel this o acc
    = Ok (o', acc ++ log_items this (iter_entry_index o) (Z.of_nat n)) /\ obj_log o' = obj_log o.
Proof.
  intros Hsz. unfold size_ok in Hsz. revert o Hsz acc fuel.
  induction n as [|n IH]; intros o Hsz acc [|fuel] Hi Hc Hn Hf; [lia| |lia|]; cbn [for_loop]; unfold ExcimerLog_valid, ExcimerLog_current, ExcimerLog_key, ExcimerLog_next.
  - rewrite below_size_nonneg, (proj2 (Z.ltb_ge _ _)) by lia. exists o. by rewrite app_nil_r.
  - rewrite (below_size_in _ (obj_log o)), Hc by (unfold size_ok; lia). cbn [obj_log iter_entry_index z_current].
    rewrite (below_size_in _ (obj_log o)), init_entry_in by (unfold size_ok; lia).
    destruct (IH (LogObj HT (obj_log o) None (iter_entry_index o + 1)) Hsz
      (acc ++ [(Some (iter_entry_index o), Some (LogEntryObj (Some this) (iter_entry_index o)))]) fuel)
      as (o' & Hrun & Hlog); [simpl; lia|done|simpl; lia|lia|].
    exists o'. rewrite Hrun. split; [|done]. rewrite <-app_assoc. simpl. do 2 f_equal.
    rewrite (log_items_step this (iter_entry_index o) (Z.of_nat (S n))) by lia. do 3 f_equal. lia.
Qed.

Lemma entry_lookup_in (logs : gmap handle (ExcimerLog_obj HT)) h log i e :
  has_log logs h log -> array_get (entries log) i = Some e ->
  entry_lookup logs (LogEntryObj (Some h) i) = Ok (log, e).
Proof.
  intros (o & Ho & <-) He. unfold entry_lookup. cbn [entry_z_log entry_index deref obind].
  rewrite Ho. cbn [deref obind]. by rewrite (get_entry_lookup (obj_log o) i e).
Qed.

(** ** Properties *)

(** C37. Both ways to iterate over a log, [foreach] and the methods of [Iterator],
    terminate and yield every entry once, in the order in which the samples were
    taken, with its index as the key; iteration by reference is refused. *)
Theorem iteration_enumerates this o :
  size_ok (obj_log o) ->
  foreach this false (obj_log o) = inr (Ok (log_items this 0 (entries_size (obj_log o)))) /\
  (exists o', for_each this o = Ok (o', log_items this 0 (entries_size (obj_log o))) /\
    obj_log o' = obj_log o) /\
  exists msg, foreach this true (obj_log o) = inl msg.
Proof.
  intros Hsz. split_and!.
  - unfold foreach. cbn [ExcimerLog_get_iterator ExcimerLog_iterator_rewind it_data].
    f_equal. rewrite (foreach_loop_spec (obj_log o) this (length (entries (obj_log o))) 0 []);
      [done|done|done|unfold entries_size; lia|lia].
  - unfold for_each. destruct (for_loop_spec (ExcimerLog_rewind o) this (length (entries (obj_log o))) []
      (S (length (entries (obj_log o))))) as (o' & Hrun & Hlog);
      [done..|unfold entries_size; simpl; lia|lia|]. by exists o'.
  - by eexists.
Qed.

(** [ArrayAccess] agrees with [Countable]: an offset exists if and only if it
    lies between zero and the count, and exactly then [offsetGet] returns an
    entry, the one with that index; negative offsets are never valid, although
    they are compared as unsigned integers. *)
Theorem array_access_consistent this o offset :
  size_ok (obj_log o) -> is_i64 offset ->
  (ExcimerLog_offsetExists o offset = true <-> 0 <= offset < ExcimerLog_count o) /\
  (ExcimerLog_offsetExists o offset = true ->
    ExcimerLog_offsetGet this o offset = Some (LogEntryObj (Some this) offset)) /\
  (ExcimerLog_offsetExists o offset = false -> ExcimerLog_offsetGet this o offset = None).
Proof.
  unfold size_ok, is_i64. intros Hsz Hoff. unfold ExcimerLog_offsetExists, ExcimerLog_offsetGet, ExcimerLog_count.
  assert (0 <= entries_size (obj_log o)) by (unfold entries_size; lia).
  rewrite wrap_i64_small by (unfold is_i64; lia).
  destruct (Z.leb_spec 0 offset); cbn [andb].
  - rewrite (proj2 (Z.ltb_ge offset 0)), below_size_nonneg by lia. cbn [orb].
    destruct (Z.ltb_spec offset (entries_size (obj_log o))); cbn [negb];
      split_and!; try done; try lia; intros _; by apply init_entry_in.
  - rewrite (proj2 (Z.ltb_lt offset 0)) by lia. split_and!; [split; [done|lia]|done|done].
Qed.

(** An entry object stays valid and keeps its meaning while the log grows:
    after any further sample, the entry obtained for an index still exists and
    [getEventCount] and [getTrace] answer as before; none of its methods meets a
    null pointer. *)
Theorem entry_object_stable (logs logs' : gmap handle (ExcimerLog_obj HT)) h log log' i stack n now :
  has_log logs h log -> has_log logs' h log' -> log_wf log -> stack_ok stack ->
  excimer_log_add stack n now log = (log', Ok tt) -> 0 <= i < entries_size log ->
  exists e count trace, ExcimerLog_init_entry h log i = Some e /\
    ExcimerLogEntry_getEventCount logs e = Ok count /\ ExcimerLogEntry_getEventCount logs' e = Ok count /\
    ExcimerLogEntry_getTrace logs e = Ok trace /\ ExcimerLogEntry_getTrace logs' e = Ok trace /\
    ExcimerLogEntry_getTimestamp logs' e = ExcimerLogEntry_getTimestamp logs e.
Proof.
  intros Hh Hh' Hwf Hst Hrun Hi.
  destruct (array_get_is_Some (entries log) i Hi) as [e He].
  pose proof (log_add_wf stack n now log log' Hwf Hst Hrun) as Hwf'.
  pose proof (log_add_spec stack n now log Hwf Hst) as Hspec. rewrite Hrun in Hspec.
  inversion Hspec as [logf j [Hext _ _ _] _ Heq|]; subst log'.
  pose proof (array_get_app_l (entries log) [Entry j n now] i e He) as He'.
  assert (Hfi : 0 <= frame_index e < frames_size log).
  { apply array_get_Some in He as [_ Hl]. apply (Forall_lookup_1 _ _ _ _ (wf_entries _ Hwf) Hl). }
  exists (LogEntryObj (Some h) i), (entry_event_count e).
  eexists. split_and!; [by apply init_entry_in|..];
    unfold ExcimerLogEntry_getEventCount, ExcimerLogEntry_getTrace, ExcimerLogEntry_getTimestamp;
    rewrite ?(entry_lookup_in logs h log i e Hh He), ?(entry_lookup_in logs' h _ i e Hh' He'); cbn [obind].
  - done.
  - done.
  - by apply trace_to_array_spec.
  - rewrite (trace_stable log) by (done || apply (ext_frames _ _ Hext)). by apply trace_to_array_spec.
  - simpl. by rewrite (ext_epoch _ _ Hext).
Qed.

End log_object_facts.

(** ** Witnesses *)

(** A log object with one and with two samples. *)
Definition ex_log_obj : ExcimerLog_obj alist := LogObj alist (ex_log1 0) None 0.
Definition ex_log_obj2 : ExcimerLog_obj alist := LogObj alist ex_log2 None 0.

Lemma iteration_enumerates_witness :
  foreach 7 false ex_log2
    = inr (Ok [(Some 0, Some (LogEntryObj (Some 7%positive) 0)); (Some 1, Some (LogEntryObj (Some 7%positive) 1))]).
Proof. apply (iteration_enumerates 7 ex_log_obj2). vm_compute. reflexivity. Defined.

Lemma array_access_consistent_witness :
  ExcimerLog_offsetExists ex_log_obj2 1 = true /\
  ExcimerLog_offsetGet 7 ex_log_obj2 1 = Some (LogEntryObj (Some 7%positive) 1).
Proof.
  split; [vm_compute; reflexivity|].
  apply (array_access_consistent 7 ex_log_obj2 1); [vm_compute; reflexivity| |vm_compute; reflexivity].
  unfold is_i64. lia.
Defined.

Lemma entry_object_stable_witness :
  exists e count trace, ExcimerLog_init_entry 7 (ex_log1 0) 0 = Some e /\
    ExcimerLogEntry_getEventCount {[7%positive := ex_log_obj]} e = Ok count /\
    ExcimerLogEntry_getEventCount {[7%positive := ex_log_obj2]} e = Ok count /\
    ExcimerLogEntry_getTrace {[7%positive := ex_log_obj]} e = Ok trace /\
    ExcimerLogEntry_getTrace {[7%positive := ex_log_obj2]} e = Ok trace.
Proof.
  destruct (entry_object_stable {[7%positive := ex_log_obj]} {[7%positive := ex_log_obj2]} 7
    (ex_log1 0) ex_log2 0 ex_recursive 2 2000) as (e & c & t & H1 & H2 & H3 & H4 & H5 & _).
  - exists ex_log_obj. split; reflexivity.
  - exists ex_log_obj2. split; reflexivity.
  - apply ex_log1_wf.
  - by repeat constructor.
  - vm_compute. reflexivity.
  - vm_compute. split; [discriminate|reflexivity].
  - exists e, c, t. split_and!; assumption.
Defined.
