(* ===== verification/ObjectRefs.v ===== *)
(** * Reference counts of PHP objects

    The references that the objects of [excimer.c] hold to each other, in a heap
    of counted objects: a profiler holds its log and its callback, a timer its
    callback, a log its cached current entry, an entry its log, an iterator its
    log and its cached entry. Every operation that copies or drops a reference
    is here, with [zval_ptr_dtor] and the [free_obj] handlers it runs.

    An operation on an object is called by PHP code, which holds a reference to
    the object and to the arguments, and gets a reference to the result.
    The references outside the heap are a list of handles. What an operation
    does to timers and samples is in [Objects] and [LogObject]; the destructor
    of a profiler, which flushes, is the operation [op_flush] here. *)

From S2P Require Import Prelude ZendHash Log LogObject.

(** A [zval] as far as references go. *)
Inductive zval_ref : Type :=
  | z_undef
  | z_null
  | z_obj (h : handle).

#[export] Instance zval_ref_eq_dec : EqDecision zval_ref.
Proof. solve_decision. Defined.

Definition Z_ISNULL (z : zval_ref) : bool := bool_decide (z = z_null).

(** The structs of the objects, and a PHP value such as a closure with the
    values that it has captured. *)
Inductive obj_body {HT : Type -> Type -> Type} : Type :=
  | b_profiler (z_log z_callback : zval_ref)
  | b_timer (z_callback : zval_ref)
  | b_log (log : excimer_log HT) (z_current : zval_ref) (iter_entry_index : Z)
  | b_entry (z_log : zval_ref) (index : Z)
  | b_iterator (data z_current : zval_ref) (index : Z)
  | b_value (captured : list zval_ref).
Arguments obj_body HT : clear implicits.

Inductive obj_class : Type := c_profiler | c_timer | c_log | c_entry | c_iterator | c_value.

#[export] Instance obj_class_eq_dec : EqDecision obj_class.
Proof. solve_decision. Defined.

Record zobject {HT : Type -> Type -> Type} : Type := ZObject {
  refcount : Z;
  body : obj_body HT
}.
Arguments zobject HT : clear implicits.

Record heap {HT : Type -> Type -> Type} : Type := Heap {
  objs : gmap handle (zobject HT);
  next_handle : handle
}.
Arguments heap HT : clear implicits.

(** What PHP code, or the engine for it, can do with references. *)
Inductive ref_op : Type :=
  | op_copy (a : handle)
  | op_release (a : handle)
  | op_closure (captured : list handle)
  | op_profiler_new
  | op_getLog (p : handle)
  | op_flush (p : handle)
  | op_setFlushCallback (p v : handle)
  | op_clearFlushCallback (p : handle)
  | op_timer_new
  | op_setCallback (t v : handle)
  | op_clearCallback (t : handle)
  | op_sample (l : handle) (stack : list zend_execute_data) (event_count now : Z)
  | op_current (l : handle)
  | op_next (l : handle)
  | op_rewind (l : handle)
  | op_offsetGet (l : handle) (offset : Z)
  | op_read_entry (e : handle)
  | op_get_iterator (l : handle)
  | op_iterator_current (it : handle)
  | op_iterator_move_forward (it : handle)
  | op_iterator_rewind (it : handle)
  | op_iterator_invalidate (it : handle).

(** The objects an operation is called on or with, and their classes. *)
Definition op_args (op : ref_op) : list (handle * option obj_class) :=
  match op with
  | op_copy a | op_release a => [(a, None)]
  | op_closure l => (fun a => (a, None)) <$> l
  | op_profiler_new | op_timer_new => []
  | op_getLog p | op_flush p | op_clearFlushCallback p => [(p, Some c_profiler)]
  | op_setFlushCallback p v => [(p, Some c_profiler); (v, None)]
  | op_setCallback t v => [(t, Some c_timer); (v, None)]
  | op_clearCallback t => [(t, Some c_timer)]
  | op_sample l _ _ _ | op_current l | op_next l | op_rewind l | op_offsetGet l _ | op_get_iterator l =>
      [(l, Some c_log)]
  | op_read_entry e => [(e, Some c_entry)]
  | op_iterator_current it | op_iterator_move_forward it | op_iterator_rewind it | op_iterator_invalidate it =>
      [(it, Some c_iterator)]
  end.

Fixpoint remove_one (a : handle) (R : list handle) : list handle :=
  match R with
  | [] => []
  | x :: R' => if decide (x = a) then R' else x :: remove_one a R'
  end.

Section object_refs.
  Context {HT : Type -> Type -> Type} `{ZendHash HT}.
  Abbreviation heap := (heap HT).
  Implicit Types (s : heap) (a this : handle) (z : zval_ref) (b : obj_body HT).

Definition set_objs m s : heap := Heap HT m (next_handle s).

(** ** Counted objects *)

Definition get_obj a : M heap (zobject HT) := s ← get_state; lift (deref (objs s !! a)).
Definition put_obj a (o : zobject HT) : M heap unit := modify (fun s => set_objs (<[a := o]> (objs s)) s).
Definition put_body a b : M heap unit := o ← get_obj a; put_obj a (ZObject HT (refcount o) b).

Definition Z_ADDREF z : M heap unit :=
  match z with
  | z_obj a => o ← get_obj a; put_obj a (ZObject HT (refcount o + 1) (body o))
  | _ => mret tt
  end.

Definition Z_DELREF z : M heap unit :=
  match z with
  | z_obj a => o ← get_obj a; put_obj a (ZObject HT (refcount o - 1) (body o))
  | _ => mret tt
  end.

(** [ZVAL_COPY(&dest, z)]: the value for [dest]. *)
Definition ZVAL_COPY z : M heap zval_ref := _ ← Z_ADDREF z; mret z.

(** [object_init_ex] and the [create_object] handlers. *)
Definition object_init_ex b : M heap handle :=
  s ← get_state;
  _ ← modify (fun s => Heap HT (<[next_handle s := ZObject HT 1 b]> (objs s)) (Pos.succ (next_handle s)));
  mret (next_handle s).

(** *** Freeing

    The [free_obj] handlers, for a given [zval_ptr_dtor] on a given state. The
    object's memory is out of the heap when its fields are released. *)

Section free_obj.
  Context {S : Type}.
  Variable (zval_ptr_dtor : zval_ref -> M S unit).

Definition r_ExcimerProfiler_free_object (z_log z_callback : zval_ref) : M S unit :=
  _ ← zval_ptr_dtor z_log; zval_ptr_dtor z_callback.

Definition r_ExcimerTimer_free_object (z_callback : zval_ref) : M S unit := zval_ptr_dtor z_callback.

Definition ExcimerLog_free_object (z_current : zval_ref) : M S unit := zval_ptr_dtor z_current.

Definition ExcimerLogEntry_free_object (z_log : zval_ref) : M S unit := zval_ptr_dtor z_log.

Definition ExcimerLog_iterator_dtor (data z_current : zval_ref) : M S unit :=
  _ ← zval_ptr_dtor z_current; zval_ptr_dtor data.

Fixpoint free_captured (zs : list zval_ref) : M S unit :=
  match zs with
  | [] => mret tt
  | z :: zs' => _ ← zval_ptr_dtor z; free_captured zs'
  end.

Definition free_obj b : M S unit :=
  match b with
  | b_profiler l c => r_ExcimerProfiler_free_object l c
  | b_timer c => r_ExcimerTimer_free_object c
  | b_log _ c _ => ExcimerLog_free_object c
  | b_entry l _ => ExcimerLogEntry_free_object l
  | b_iterator d c _ => ExcimerLog_iterator_dtor d c
  | b_value zs => free_captured zs
  end.

End free_obj.

Fixpoint dtor_fuel (fuel : nat) z : M heap unit :=
  match z with
  | z_obj a =>
      match fuel with
      | O => lift Diverge
      | S fuel' =>
          o ← get_obj a;
          if refcount o - 1 =? 0 then
            _ ← modify (fun s => set_objs (delete a (objs s)) s);
            free_obj (dtor_fuel fuel') (body o)
          else put_obj a (ZObject HT (refcount o - 1) (body o))
      end
  | _ => mret tt
  end.

(** Every object that is freed is one object less, so this is enough. *)
Definition zval_ptr_dtor z : M heap unit := s ← get_state; dtor_fuel (S (size (objs s))) z.

(** ** Access to objects

    [excimer_check_object] gives null for an object of another class. *)

Definition zobj z : M heap handle :=
  match z with z_obj a => mret a | _ => lift (Crash "not an object") end.

Definition get_log_obj a : M heap (excimer_log HT * zval_ref * Z) :=
  o ← get_obj a; match body o with b_log l c i => mret (l, c, i) | _ => lift (deref None) end.
Definition get_entry_obj a : M heap (zval_ref * Z) :=
  o ← get_obj a; match body o with b_entry l i => mret (l, i) | _ => lift (deref None) end.
Definition get_iterator_obj a : M heap (zval_ref * zval_ref * Z) :=
  o ← get_obj a; match body o with b_iterator d c i => mret (d, c, i) | _ => lift (deref None) end.
Definition get_profiler_obj a : M heap (zval_ref * zval_ref) :=
  o ← get_obj a; match body o with b_profiler l c => mret (l, c) | _ => lift (deref None) end.
Definition get_timer_cb a : M heap zval_ref :=
  o ← get_obj a; match body o with b_timer c => mret c | _ => lift (deref None) end.

(** ** [ExcimerLog] and [ExcimerLogEntry] *)

Definition r_init_entry z_log (index : Z) : M heap zval_ref :=
  a ← zobj z_log;
  '(log, _, _) ← get_log_obj a;
  match excimer_log_get_entry log index with
  | Some _ =>
      e ← object_init_ex (b_entry z_null 0);
      z ← ZVAL_COPY z_log;
      _ ← put_body e (b_entry z index);
      mret (z_obj e)
  | None => mret z_null
  end.

Definition r_current this : M heap zval_ref :=
  '(log, cur, i) ← get_log_obj this;
  _ ← (if Z_ISNULL cur && below_size i log then
         e ← r_init_entry (z_obj this) i; put_body this (b_log log e i)
       else mret tt);
  '(_, cur, _) ← get_log_obj this;
  ZVAL_COPY cur.

Definition r_next this : M heap unit :=
  '(log, cur, i) ← get_log_obj this;
  _ ← zval_ptr_dtor cur;
  put_body this (b_log log z_null (if below_size i log then i + 1 else i)).

Definition r_rewind this : M heap unit :=
  '(log, cur, _) ← get_log_obj this;
  _ ← put_body this (b_log log cur 0);
  _ ← zval_ptr_dtor cur;
  put_body this (b_log log z_null 0).

Definition r_offsetGet this (offset : Z) : M heap zval_ref :=
  '(log, _, _) ← get_log_obj this;
  if (offset <? 0) || negb (below_size offset log) then mret z_null
  else r_init_entry (z_obj this) offset.

(** [excimer_log_add] on the log of an object. *)
Definition r_set_log this (f : excimer_log HT -> excimer_log HT) : M heap unit :=
  '(log, cur, i) ← get_log_obj this; put_body this (b_log (f log) cur i).

(** What the getters of an entry read. *)
Definition r_entry_log this : M heap (excimer_log HT) :=
  '(z, _) ← get_entry_obj this;
  a ← zobj z;
  '(log, _, _) ← get_log_obj a;
  mret log.

(** ** Iterators of [foreach] *)

Definition r_get_iterator this : M heap zval_ref :=
  it ← object_init_ex (b_iterator z_undef z_null 0);
  d ← ZVAL_COPY (z_obj this);
  _ ← put_body it (b_iterator d z_null 0);
  mret (z_obj it).

(** The value is not copied here; [foreach] copies it. *)
Definition r_iterator_current it : M heap zval_ref :=
  '(d, cur, i) ← get_iterator_obj it;
  if Z_ISNULL cur then
    a ← zobj d;
    '(log, _, _) ← get_log_obj a;
    if below_size i log then
      e ← r_init_entry d i; _ ← put_body it (b_iterator d e i); ZVAL_COPY e
    else mret z_null
  else ZVAL_COPY cur.

Definition r_iterator_move_forward it : M heap unit :=
  '(d, cur, i) ← get_iterator_obj it;
  a ← zobj d;
  '(log, _, _) ← get_log_obj a;
  _ ← zval_ptr_dtor cur;
  put_body it (b_iterator d z_null (if below_size i log then i + 1 else i)).

Definition r_iterator_rewind it : M heap unit :=
  '(d, cur, i) ← get_iterator_obj it;
  _ ← zval_ptr_dtor cur;
  put_body it (b_iterator d z_null 0).

Definition r_iterator_invalidate_current it : M heap unit :=
  '(d, cur, i) ← get_iterator_obj it;
  _ ← zval_ptr_dtor cur;
  put_body it (b_iterator d z_null i).

(** ** [ExcimerProfiler] and [ExcimerTimer] *)

Definition r_profiler_new : M heap zval_ref :=
  p ← object_init_ex (b_profiler z_undef z_undef);
  l ← object_init_ex (b_log (obj_log ExcimerLog_new) z_null 0);
  _ ← put_body p (b_profiler (z_obj l) z_null);
  mret (z_obj p).

Definition r_getLog p : M heap zval_ref := '(l, _) ← get_profiler_obj p; ZVAL_COPY l.

(** The rotation of the log in [ExcimerProfiler_flush]. *)
Definition r_flush p : M heap zval_ref :=
  '(l, c) ← get_profiler_obj p;
  old ← ZVAL_COPY l;
  _ ← Z_DELREF l;
  a ← zobj l;
  '(log, _, _) ← get_log_obj a;
  n ← object_init_ex (b_log (excimer_log_copy_options (obj_log ExcimerLog_new) log) z_null 0);
  _ ← put_body p (b_profiler (z_obj n) c);
  mret old.

(** The old callback is overwritten, not released. *)
Definition r_setFlushCallback p v : M heap unit :=
  '(l, _) ← get_profiler_obj p;
  z ← ZVAL_COPY (z_obj v);
  put_body p (b_profiler l z).

Definition r_clearFlushCallback p : M heap unit :=
  '(l, c) ← get_profiler_obj p;
  _ ← zval_ptr_dtor c;
  put_body p (b_profiler l z_null).

Definition r_timer_new : M heap zval_ref := t ← object_init_ex (b_timer z_undef); mret (z_obj t).

Definition r_set_callback t v : M heap unit :=
  c ← get_timer_cb t;
  _ ← zval_ptr_dtor c;
  z ← ZVAL_COPY (z_obj v);
  put_body t (b_timer z).

Definition r_clear_callback t : M heap unit :=
  c ← get_timer_cb t;
  _ ← zval_ptr_dtor c;
  put_body t (b_timer z_null).

(** A new PHP closure takes references to what it captures. *)
Fixpoint copy_all (l : list handle) : M heap (list zval_ref) :=
  match l with
  | [] => mret []
  | a :: l' => z ← ZVAL_COPY (z_obj a); zs ← copy_all l'; mret (z :: zs)
  end.

Definition r_closure (l : list handle) : M heap zval_ref :=
  zs ← copy_all l; c ← object_init_ex (b_value zs); mret (z_obj c).

Definition unit_null (f : M heap unit) : M heap zval_ref := _ ← f; mret z_null.

(** The result of an operation, to which PHP gets a reference. *)
Definition run_op (op : ref_op) : M heap zval_ref :=
  match op with
  | op_copy a => ZVAL_COPY (z_obj a)
  | op_release a => unit_null (zval_ptr_dtor (z_obj a))
  | op_closure l => r_closure l
  | op_profiler_new => r_profiler_new
  | op_getLog p => r_getLog p
  | op_flush p => r_flush p
  | op_setFlushCallback p v => unit_null (r_setFlushCallback p v)
  | op_clearFlushCallback p => unit_null (r_clearFlushCallback p)
  | op_timer_new => r_timer_new
  | op_setCallback t v => unit_null (r_set_callback t v)
  | op_clearCallback t => unit_null (r_clear_callback t)
  | op_sample l stack n now => unit_null (r_set_log l (fun log => (excimer_log_add stack n now log).1))
  | op_current l => r_current l
  | op_next l => unit_null (r_next l)
  | op_rewind l => unit_null (r_rewind l)
  | op_offsetGet l i => r_offsetGet l i
  | op_read_entry e => _ ← r_entry_log e; mret z_null
  | op_get_iterator l => r_get_iterator l
  | op_iterator_current it => r_iterator_current it
  | op_iterator_move_forward it => unit_null (r_iterator_move_forward it)
  | op_iterator_rewind it => unit_null (r_iterator_rewind it)
  | op_iterator_invalidate it => unit_null (r_iterator_invalidate_current it)
  end.

(** ** Specification *)

Definition zrefs z : list handle := match z with z_obj a => [a] | _ => [] end.

Definition body_refs b : list handle :=
  match b with
  | b_profiler l c => zrefs l ++ zrefs c
  | b_timer c => zrefs c
  | b_log _ c _ => zrefs c
  | b_entry l _ => zrefs l
  | b_iterator d c _ => zrefs d ++ zrefs c
  | b_value zs => zs ≫= zrefs
  end.

Definition class_of b : obj_class :=
  match b with
  | b_profiler _ _ => c_profiler
  | b_timer _ => c_timer
  | b_log _ _ _ => c_log
  | b_entry _ _ => c_entry
  | b_iterator _ _ _ => c_iterator
  | b_value _ => c_value
  end.

(** All references from objects of the heap. *)
Definition heap_refs (m : gmap handle (zobject HT)) : list handle :=
  (map_to_list m).*2 ≫= (fun o => body_refs (body o)).

(** Counts are right when [R] are the references from outside. *)
Record rc_inv s (R : list handle) : Prop := RcInv {
  rc_count : forall a,
    match objs s !! a with
    | Some o => refcount o = occurrences a (R ++ heap_refs (objs s)) /\ 0 < refcount o
    | None => occurrences a (R ++ heap_refs (objs s)) = 0
    end;
  rc_bound : forall a, is_Some (objs s !! a) -> (a < next_handle s)%positive
}.

(** [z] is an object of class [c]. *)
Definition z_is s (c : obj_class) z : Prop :=
  exists a o, z = z_obj a /\ objs s !! a = Some o /\ class_of (body o) = c.

Definition body_ok s b : Prop :=
  match b with
  | b_profiler l _ => z_is s c_log l
  | b_log _ c _ => c = z_null \/ z_is s c_entry c
  | b_entry l _ => z_is s c_log l
  | b_iterator d c _ => z_is s c_log d /\ (c = z_null \/ z_is s c_entry c)
  | b_timer _ | b_value _ => True
  end.

Definition typed s : Prop := forall a o, objs s !! a = Some o -> body_ok s (body o).

Definition ref_inv s (R : list handle) : Prop := rc_inv s R /\ typed s.

Definition class_at s a : option obj_class := (fun o => class_of (body o)) <$> objs s !! a.

(** PHP code holds what it uses. *)
Definition op_allowed (op : ref_op) s (R : list handle) : bool :=
  forallb (fun '(a, c) => bool_decide (a ∈ R) &&
    match c with Some c => bool_decide (class_at s a = Some c) | None => true end) (op_args op).

(** The references of PHP code after an operation that returned [z]. *)
Definition roots_after (op : ref_op) (R : list handle) z : list handle :=
  zrefs z ++ match op with op_release a => remove_one a R | _ => R end.

(** The references that an operation loses: they are counted, but nobody has them. *)
Definition lost_by (op : ref_op) s : list handle :=
  match op with
  | op_setFlushCallback p _ =>
      match objs s !! p with
      | Some o => match body o with b_profiler _ c => zrefs c | _ => [] end
      | None => []
      end
  | _ => []
  end.

(** A sequence of operations: the references of PHP code and the lost ones. *)
Fixpoint run_ops (ops : list ref_op) (R L : list handle) : M heap (list handle * list handle) :=
  match ops with
  | [] => mret (R, L)
  | op :: ops' =>
      s ← get_state;
      if op_allowed op s R then
        z ← run_op op; run_ops ops' (roots_after op R z) (lost_by op s ++ L)
      else lift (Fatal "call not allowed")
  end.

(** The objects as [LogObject] has them, without identities and counts. *)
Definition erase_entry s z : option ExcimerLogEntry_obj :=
  match z with
  | z_obj e =>
      match objs s !! e with
      | Some o =>
          match body o with
          | b_entry (z_obj l) i => Some (LogEntryObj (Some l) i)
          | b_entry _ i => Some (LogEntryObj None i)
          | _ => None
          end
      | None => None
      end
  | _ => None
  end.

Definition erase_log s a : option (ExcimerLog_obj HT) :=
  match objs s !! a with
  | Some o => match body o with b_log l c i => Some (LogObj HT l (erase_entry s c) i) | _ => None end
  | None => None
  end.

(** What is left of the heap after a release. *)
Definition shrinks s s' : Prop :=
  next_handle s' = next_handle s /\ (size (objs s') <= size (objs s))%nat /\
  forall a o', objs s' !! a = Some o' -> exists o, objs s !! a = Some o /\ body o' = body o.

End object_refs.

(** ** Lemmas: counts *)

Section object_refs_facts.
  Context {HT : Type -> Type -> Type} `{ZendHash HT}.
  Abbreviation heap := (heap HT).
  Implicit Types (s : heap) (a this : handle) (z : zval_ref) (b : obj_body HT) (R : list handle)
    (m : gmap handle (zobject HT)).

Lemma heap_refs_insert m a o : m !! a = None -> heap_refs (<[a := o]> m) ≡ₚ body_refs (body o) ++ heap_refs m.
Proof. intros Ha. unfold heap_refs. by rewrite map_to_list_insert. Qed.

Lemma heap_refs_delete m a o : m !! a = Some o -> heap_refs m ≡ₚ body_refs (body o) ++ heap_refs (delete a m).
Proof.
  intros Ha. rewrite <-(insert_delete_id m a o Ha) at 1. apply heap_refs_insert, lookup_delete_eq.
Qed.

Lemma heap_refs_update m a o o' :
  m !! a = Some o -> body_refs (body o) ++ heap_refs (<[a := o']> m) ≡ₚ body_refs (body o') ++ heap_refs m.
Proof.
  intros Ha. rewrite (heap_refs_delete m a o Ha), <-insert_delete_eq, heap_refs_insert by apply lookup_delete_eq.
  rewrite !app_assoc. by rewrite (Permutation_app_comm (body_refs (body o))).
Qed.

Lemma get_obj_ok s a o : objs s !! a = Some o -> get_obj a s = (s, Ok o).
Proof. intros Ha. unfold get_obj, mbind, M_bind, get_state, lift. by rewrite Ha. Qed.

Lemma rc_alive s R a : rc_inv s R -> a ∈ R ++ heap_refs (objs s) -> exists o, objs s !! a = Some o.
Proof.
  intros Hinv Ha. pose proof (rc_count _ _ Hinv a) as Hc. destruct (objs s !! a) as [o|]; [by exists o|].
  by apply occurrences_in in Hc.
Qed.

(** A change of the object [a], whose fields become those of [b], with [R'] outside. *)
Lemma rc_update s R R' a o n b :
  rc_inv s R -> objs s !! a = Some o -> 0 < n ->
  n = refcount o + occurrences a (R' ++ body_refs b) - occurrences a (R ++ body_refs (body o)) ->
  (forall c, c <> a -> occurrences c (R' ++ body_refs b) = occurrences c (R ++ body_refs (body o))) ->
  rc_inv (set_objs (<[a := ZObject HT n b]> (objs s)) s) R'.
Proof.
  intros Hinv Ha Hn Hna Hother. split; cbn [objs set_objs next_handle].
  - intros c. pose proof (rc_count _ _ Hinv c) as Hc.
    assert (Hocc : occurrences c (R' ++ heap_refs (<[a := ZObject HT n b]> (objs s)))
      = occurrences c (R ++ heap_refs (objs s)) + occurrences c (R' ++ body_refs b) -
        occurrences c (R ++ body_refs (body o))).
    { pose proof (occurrences_perm c _ _ (heap_refs_update (objs s) a o (ZObject HT n b) Ha)) as Hp.
      rewrite !occurrences_app in Hp. rewrite !occurrences_app. simpl in Hp. lia. }
    rewrite Hocc. destruct (decide (c = a)) as [->|Hne].
    + rewrite lookup_insert_eq. rewrite Ha in Hc. simpl. lia.
    + rewrite lookup_insert_ne by done. rewrite (Hother c Hne). destruct (objs s !! c); lia.
  - intros c. rewrite lookup_insert_is_Some'. intros [<-|Hc]; apply (rc_bound _ _ Hinv); eauto.
Qed.

(** The outside references matter up to their order. *)
Lemma rc_perm s R R' : R ≡ₚ R' -> rc_inv s R -> rc_inv s R'.
Proof. intros Hp [Hc Hb]. split; [|done]. intros a. specialize (Hc a). by rewrite (occurrences_perm a (R' ++ _) (R ++ heap_refs (objs s))) by (by rewrite Hp). Qed.

Lemma addref_obj s R a :
  rc_inv s R -> is_Some (objs s !! a) ->
  exists o, objs s !! a = Some o /\
    Z_ADDREF (z_obj a) s = (set_objs (<[a := ZObject HT (refcount o + 1) (body o)]> (objs s)) s, Ok tt) /\
    rc_inv (set_objs (<[a := ZObject HT (refcount o + 1) (body o)]> (objs s)) s) (a :: R).
Proof.
  intros Hinv [o Ha]. exists o. split_and!; [done| |].
  - unfold Z_ADDREF. by rewrite (bind_ok _ _ _ _ _ (get_obj_ok s a o Ha)).
  - pose proof (rc_count _ _ Hinv a) as Hc. rewrite Ha in Hc. apply (rc_update s R _ a o); [done..|lia| |].
    + rewrite occurrences_app, occurrences_cons, decide_True, !occurrences_app by done. lia.
    + intros c Hne. rewrite occurrences_app, occurrences_cons, decide_False, !occurrences_app by done. lia.
Qed.

Lemma shrinks_refl s : shrinks s s.
Proof. split_and!; [done|done|]. intros a o Ha. by exists o. Qed.

Lemma shrinks_trans s1 s2 s3 : shrinks s1 s2 -> shrinks s2 s3 -> shrinks s1 s3.
Proof.
  intros (Hn1 & Hs1 & H1) (Hn2 & Hs2 & H2). split_and!; [congruence|lia|].
  intros a o3 Ha. destruct (H2 a o3 Ha) as (o2 & Ha2 & Hb2). destruct (H1 a o2 Ha2) as (o1 & ? & ?).
  exists o1. split; congruence.
Qed.

(** The last reference to [a] is gone: its fields are released next. *)
Lemma rc_delete s R a o :
  rc_inv s (a :: R) -> objs s !! a = Some o -> refcount o = 1 ->
  rc_inv (set_objs (delete a (objs s)) s) (body_refs (body o) ++ R).
Proof.
  intros Hinv Ha H1. split; cbn [objs set_objs next_handle].
  - intros c. pose proof (rc_count _ _ Hinv c) as Hc.
    assert (Hocc : occurrences c ((body_refs (body o) ++ R) ++ heap_refs (delete a (objs s)))
      = occurrences c (R ++ heap_refs (objs s))).
    { apply occurrences_perm. rewrite (heap_refs_delete _ a o Ha), !app_assoc.
      by rewrite (Permutation_app_comm R). }
    rewrite Hocc. simpl in Hc. rewrite occurrences_cons in Hc. destruct (decide (a = c)) as [<-|Hne].
    + rewrite lookup_delete_eq. rewrite Ha in Hc. lia.
    + by rewrite lookup_delete_ne.
  - intros c [oc Hc]. apply (rc_bound _ _ Hinv). apply lookup_delete_Some in Hc as [_ Hc]. eauto.
Qed.

Definition dtor_spec (fuel : nat) : Prop :=
  forall z s R, rc_inv s (zrefs z ++ R) -> (size (objs s) < fuel)%nat ->
  exists s', dtor_fuel fuel z s = (s', Ok tt) /\ rc_inv s' R /\ shrinks s s'.

(** Releasing two fields, one after the other. *)
Lemma dtor_two fuel z1 z2 s R :
  dtor_spec fuel -> rc_inv s (zrefs z1 ++ zrefs z2 ++ R) -> (size (objs s) < fuel)%nat ->
  exists s', (_ ← dtor_fuel fuel z1; dtor_fuel fuel z2) s = (s', Ok tt) /\ rc_inv s' R /\ shrinks s s'.
Proof.
  intros Hd Hinv Hf. destruct (Hd z1 s _ Hinv Hf) as (s1 & Hr1 & Hi1 & Hs1). rewrite (bind_ok _ _ _ _ _ Hr1).
  pose proof Hs1 as (_ & Hsz & _). destruct (Hd z2 s1 _ Hi1) as (s2 & Hr2 & Hi2 & Hs2); [lia|].
  exists s2. split_and!; [done|done|by eapply shrinks_trans].
Qed.

Lemma free_obj_ok fuel b s R :
  dtor_spec fuel -> rc_inv s (body_refs b ++ R) -> (size (objs s) < fuel)%nat ->
  exists s', free_obj (dtor_fuel fuel) b s = (s', Ok tt) /\ rc_inv s' R /\ shrinks s s'.
Proof.
  intros Hd Hinv Hf. destruct b as [l c|c|log c i|l i|d c i|zs]; cbn [free_obj body_refs] in *;
    try (by apply Hd); rewrite <-?app_assoc in Hinv.
  - by apply dtor_two.
  - apply dtor_two; [done| |done]. revert Hinv. apply rc_perm.
    rewrite !app_assoc. by rewrite (Permutation_app_comm (zrefs d)).
  - revert s Hinv Hf. induction zs as [|z zs IH]; intros s Hinv Hf; simpl in Hinv.
    + exists s. split_and!; [done|done|apply shrinks_refl].
    + cbn [free_captured]. rewrite <-app_assoc in Hinv.
      destruct (Hd z s _ Hinv Hf) as (s1 & Hr1 & Hi1 & Hs1). rewrite (bind_ok _ _ _ _ _ Hr1).
      pose proof Hs1 as (_ & Hsz & _). destruct (IH s1 Hi1) as (s2 & Hr2 & Hi2 & Hs2); [lia|].
      exists s2. split_and!; [done|done|by eapply shrinks_trans].
Qed.

(** A release needs no more fuel than there are objects. *)
Lemma dtor_fuel_ok fuel : dtor_spec fuel.
Proof.
  induction fuel as [|fuel IH]; intros z s R Hinv Hf; [lia|].
  destruct z as [| |a]; [by exists s; split_and!; [..|apply shrinks_refl]..|]. simpl in Hinv. cbn [dtor_fuel].
  destruct (rc_alive s _ a Hinv) as [o Ha]; [set_solver|]. rewrite (bind_ok _ _ _ _ _ (get_obj_ok s a o Ha)).
  pose proof (rc_count _ _ Hinv a) as Hc. rewrite Ha in Hc. simpl in Hc.
  destruct (Z.eqb_spec (refcount o - 1) 0) as [Hz|Hz].
  - set (s1 := set_objs (delete a (objs s)) s). rewrite (bind_ok _ _ s s1 tt) by done.
    assert (Hsz : S (size (objs s1)) = size (objs s)).
    { rewrite <-(insert_delete_id (objs s) a o Ha). by rewrite map_size_insert_None by apply lookup_delete_eq. }
    destruct (free_obj_ok fuel (body o) s1 R IH) as (s' & Hr & Hi & Hs).
    + apply (rc_delete s R a o); [done..|lia].
    + lia.
    + exists s'. split_and!; [done|done|]. eapply shrinks_trans; [|exact Hs]. split_and!; [done|lia|].
      intros c oc Hc'. cbn [objs set_objs s1] in Hc'. apply lookup_delete_Some in Hc' as [_ Hc']. by exists oc.
  - eexists. split_and!; [done| |].
    + apply (rc_update s (a :: R) R a o); [done|done|lia| |].
      * rewrite !occurrences_app, occurrences_cons, decide_True by done. lia.
      * intros c Hne. by rewrite !occurrences_app, occurrences_cons, decide_False by done.
    + split_and!; [done|simpl; rewrite map_size_insert_Some; [done|by rewrite Ha]|].
      intros c oc Hc'. cbn [objs set_objs] in Hc'.
      apply lookup_insert_Some in Hc' as [[<- <-]|[_ Hc']]; [by exists o|by exists oc].
Qed.

Lemma dtor_ok z s R :
  rc_inv s (zrefs z ++ R) ->
  exists s', zval_ptr_dtor z s = (s', Ok tt) /\ rc_inv s' R /\ shrinks s s'.
Proof.
  intros Hinv. unfold zval_ptr_dtor. rewrite (bind_ok get_state _ s s s) by done.
  apply dtor_fuel_ok; [done|lia].
Qed.

(** ** Lemmas: classes *)

Lemma z_is_alive s R c z : rc_inv s R -> z_is s c z -> forall a, z = z_obj a -> exists o, objs s !! a = Some o.
Proof. intros _ (a & o & -> & Ha & _) a' [= <-]. eauto. Qed.

(** What survives a release is as well typed as before. *)
Lemma shrinks_typed s s' R : typed s -> rc_inv s' R -> shrinks s s' -> typed s'.
Proof.
  intros Ht Hrc (_ & _ & Hsh) a o Ha. destruct (Hsh a o Ha) as (o0 & Ha0 & Hb0).
  assert (Hz : forall c z, (forall x, x ∈ zrefs z -> x ∈ body_refs (body o)) -> z_is s c z -> z_is s' c z).
  { intros c z Hin (x & ox & -> & Hx & Hcl). assert (Hxb : x ∈ body_refs (body o)) by (apply Hin; set_solver).
    destruct (rc_alive s' R x Hrc) as [ox' Hx'].
    { apply elem_of_app. right. rewrite (heap_refs_delete _ a o Ha). set_solver. }
    destruct (Hsh x ox' Hx') as (ox0 & Hx0 & Hbx). simplify_eq. exists x, ox'. split_and!; [done..|congruence]. }
  specialize (Ht a o0 Ha0). rewrite <-Hb0 in Ht.
  destruct (body o) as [l c|c|log c i|l i|d c i|zs]; cbn [body_ok body_refs] in *; try done.
  - apply Hz; [set_solver|done].
  - destruct Ht as [?|Ht]; [by left|right]. apply Hz; [set_solver|done].
  - apply Hz; [set_solver|done].
  - destruct Ht as [Hd [?|Ht]]; (split; [by apply Hz; [set_solver|]|]); [by left|right; apply Hz; [set_solver|done]].
Qed.

(** ** Lemmas: releasing a field

    A field is released before it is overwritten. A release does not look at the
    fields of objects that survive it. *)

Definition set_body (t : handle) b s : heap :=
  set_objs (alter (fun o => ZObject HT (refcount o) b) t (objs s)) s.

Definition framed (f : M heap unit) : Prop :=
  forall s s', f s = (s', Ok tt) ->
    (forall t, is_Some (objs s' !! t) -> is_Some (objs s !! t)) /\
    (forall t b, is_Some (objs s' !! t) -> f (set_body t b s) = (set_body t b s', Ok tt)).

Lemma framed_bind f g : framed f -> framed g -> framed (_ ← f; g).
Proof.
  intros Hf Hg s s'. unfold mbind, M_bind. destruct (f s) as [s1 [[]|msg|why|]] eqn:Hrun; [|done..].
  intros Hrun2. destruct (Hf s s1 Hrun) as [Hd1 Hb1]. destruct (Hg s1 s' Hrun2) as [Hd2 Hb2]. split; [by auto|].
  intros t b Ht. rewrite Hb1 by auto. by apply Hb2.
Qed.

Lemma framed_ret : framed (mret tt).
Proof. intros s s' [= <-]. split; [done|]. by intros t b _. Qed.

Lemma set_body_lookup t b s a : objs (set_body t b s) !! a
  = if decide (a = t) then (fun o => ZObject HT (refcount o) b) <$> objs s !! a else objs s !! a.
Proof. simpl. case_decide; [subst; apply lookup_alter_eq|by apply lookup_alter_ne]. Qed.

Lemma heap_eq s s' : (forall a, objs s !! a = objs s' !! a) -> next_handle s = next_handle s' -> s = s'.
Proof. destruct s, s'. simpl. intros Ho ->. f_equal. by apply map_eq. Qed.

Lemma free_obj_framed fuel b : (forall z, framed (dtor_fuel fuel z)) -> framed (free_obj (dtor_fuel fuel) b).
Proof.
  intros Hd. destruct b as [l c|c|log c i|l i|d c i|zs]; try apply Hd; try (by apply framed_bind; apply Hd).
  cbn [free_obj]. induction zs as [|z zs IH]; [apply framed_ret|]. by apply framed_bind.
Qed.

Lemma dtor_framed fuel z : framed (dtor_fuel fuel z).
Proof.
  revert z. induction fuel as [|fuel IH]; intros z s s'; (destruct z as [| |a]; [apply framed_ret..|]); [done|].
  cbn [dtor_fuel]. destruct (objs s !! a) as [o|] eqn:Ha.
  2:{ unfold get_obj, mbind, M_bind, get_state, lift. by rewrite Ha. }
  rewrite (bind_ok _ _ _ _ _ (get_obj_ok s a o Ha)). destruct (refcount o - 1 =? 0) eqn:Hz.
  - rewrite (bind_ok _ _ s (set_objs (delete a (objs s)) s) tt) by done. intros Hrun.
    destruct (free_obj_framed fuel (body o) IH _ _ Hrun) as [Hd Hb].
    assert (Hsur : forall t, is_Some (objs s' !! t) -> t <> a /\ is_Some (objs s !! t)).
    { intros t Ht. specialize (Hd t Ht) as [ot Hot]. cbn [objs set_objs] in Hot.
      apply lookup_delete_Some in Hot as [? ?]. eauto. }
    split; [intros t Ht; by apply Hsur|]. intros t b Ht. destruct (Hsur t Ht) as [Hne _].
    assert (Ha' : objs (set_body t b s) !! a = Some o) by (by rewrite set_body_lookup, decide_False).
    rewrite (bind_ok _ _ _ _ _ (get_obj_ok _ _ _ Ha')), Hz.
    rewrite (bind_ok _ _ _ (set_objs (delete a (objs (set_body t b s))) (set_body t b s)) tt) by done.
    rewrite <-(Hb t b Ht). f_equal. apply heap_eq; [|done]. intros c. rewrite set_body_lookup. cbn [objs set_objs].
    destruct (decide (c = a)) as [->|Hca]; [by rewrite !lookup_delete_eq; case_decide|].
    rewrite !lookup_delete_ne by done. by rewrite set_body_lookup.
  - intros [= <-]. split; [intros t; cbn [objs set_objs]; rewrite lookup_insert_is_Some'; intros [<-|?]; eauto|].
    intros t b _.
    assert (Hget : objs (set_body t b s) !! a
      = Some (ZObject HT (refcount o) (if decide (a = t) then b else body o))).
    { rewrite set_body_lookup, Ha. case_decide; [done|]. by destruct o. }
    rewrite (bind_ok _ _ _ _ _ (get_obj_ok _ _ _ Hget)). cbn [refcount]. rewrite Hz. unfold put_obj, modify. f_equal. apply heap_eq; [|done].
    intros c. rewrite set_body_lookup. cbn [objs set_objs body refcount].
    destruct (decide (c = a)) as [->|Hca].
    + rewrite !lookup_insert_eq. by case_decide.
    + rewrite !lookup_insert_ne by done. by rewrite set_body_lookup.
Qed.

(** Updates of objects keep the classes. *)
Definition same_classes s s' : Prop :=
  forall a o, objs s !! a = Some o -> exists o', objs s' !! a = Some o' /\ class_of (body o') = class_of (body o).

Lemma z_is_mono s s' c z : same_classes s s' -> z_is s c z -> z_is s' c z.
Proof. intros Hs (a & o & -> & Ha & Hc). destruct (Hs a o Ha) as (o' & ? & ?). exists a, o'. split_and!; congruence. Qed.

Lemma body_ok_mono s s' b : same_classes s s' -> body_ok s b -> body_ok s' b.
Proof.
  intros Hs. destruct b as [l c|c|log c i|l i|d c i|zs]; cbn [body_ok]; eauto using z_is_mono.
  - intros [?|?]; eauto using z_is_mono.
  - intros [? [?|?]]; eauto using z_is_mono.
Qed.

Lemma update_classes s a o n b :
  objs s !! a = Some o -> class_of b = class_of (body o) ->
  same_classes s (set_objs (<[a := ZObject HT n b]> (objs s)) s).
Proof.
  intros Ha Hc c oc Hoc. cbn [objs set_objs]. destruct (decide (c = a)) as [->|Hne].
  - simplify_eq. eexists. rewrite lookup_insert_eq. done.
  - exists oc. by rewrite lookup_insert_ne.
Qed.

Lemma typed_update s a o n b :
  typed s -> objs s !! a = Some o -> class_of b = class_of (body o) -> body_ok s b ->
  typed (set_objs (<[a := ZObject HT n b]> (objs s)) s).
Proof.
  intros Ht Ha Hc Hb c oc Hoc. cbn [objs set_objs] in Hoc. pose proof (update_classes s a o n b Ha Hc) as Hs.
  apply lookup_insert_Some in Hoc as [[<- <-]|[_ Hoc]]; apply (body_ok_mono s); [done|done|done|by apply (Ht c)].
Qed.

Lemma typed_new s a n b k :
  typed s -> objs s !! a = None -> body_ok s b -> typed (Heap HT (<[a := ZObject HT n b]> (objs s)) k).
Proof.
  intros Ht Ha Hb. assert (Hs : same_classes s (Heap HT (<[a := ZObject HT n b]> (objs s)) k)).
  { intros c oc Hoc. exists oc. cbn [objs]. rewrite lookup_insert_ne; [done|]. intros ->. congruence. }
  intros c oc Hoc. cbn [objs] in Hoc.
  apply lookup_insert_Some in Hoc as [[<- <-]|[_ Hoc]]; apply (body_ok_mono s); [done|done|done|by apply (Ht c)].
Qed.

(** Releasing the field [z] of [this], which somebody else holds: the object
    still has its old fields, but counts and classes are right for [b]. *)
Lemma release_field s R this o z b :
  ref_inv s R -> this ∈ R -> objs s !! this = Some o -> body_refs (body o) ≡ₚ zrefs z ++ body_refs b ->
  class_of b = class_of (body o) -> body_ok s b ->
  exists s2, zval_ptr_dtor z s = (set_body this (body o) s2, Ok tt) /\ ref_inv s2 R /\
    exists o2, objs s2 !! this = Some o2 /\ body o2 = b.
Proof.
  intros [Hrc Hty] Hin Ho Hperm Hcl Hb. set (s1 := set_objs (<[this := ZObject HT (refcount o) b]> (objs s)) s).
  pose proof (rc_count _ _ Hrc this) as Hc. rewrite Ho in Hc.
  assert (Hrc1 : rc_inv s1 (zrefs z ++ R)).
  { assert (Heq : forall c, occurrences c ((zrefs z ++ R) ++ body_refs b) = occurrences c (R ++ body_refs (body o))).
    { intros c. apply occurrences_perm. rewrite Hperm, !app_assoc. by rewrite (Permutation_app_comm R). }
    apply (rc_update s R _ this o); [done..|lia|rewrite Heq; lia|]. intros c _. apply Heq. }
  destruct (dtor_fuel_ok (S (size (objs s))) z s1 R Hrc1) as (s2 & Hrun & Hrc2 & Hsh).
  { simpl. rewrite map_size_insert_Some by eauto. lia. }
  destruct (rc_alive s2 R this Hrc2) as [o2 Ho2]; [set_solver|].
  assert (Hback : s = set_body this (body o) s1).
  { apply heap_eq; [|done]. intros a. rewrite set_body_lookup. cbn [objs set_objs s1]. case_decide; [subst a|].
    - rewrite lookup_insert_eq, Ho. by destruct o.
    - by rewrite lookup_insert_ne. }
  destruct (dtor_framed _ z s1 s2 Hrun) as [_ Hfr]. specialize (Hfr this (body o) ltac:(eauto)).
  exists s2. split_and!.
  - unfold zval_ptr_dtor. rewrite (bind_ok get_state _ s s s) by done. rewrite Hback at 2. exact Hfr.
  - split; [done|]. apply (shrinks_typed s1 s2 R); [by apply (typed_update s this o)|done|done].
  - exists o2. split; [done|]. destruct Hsh as (_ & _ & Hsh). destruct (Hsh this o2 Ho2) as (o1 & Ho1 & ->).
    cbn [objs set_objs s1] in Ho1. rewrite lookup_insert_eq in Ho1. by injection Ho1 as <-.
Qed.

Lemma put_body_ok s a o b :
  objs s !! a = Some o -> put_body a b s = (set_objs (<[a := ZObject HT (refcount o) b]> (objs s)) s, Ok tt).
Proof. intros Ha. unfold put_body. by rewrite (bind_ok _ _ _ _ _ (get_obj_ok s a o Ha)). Qed.

(** Overwriting the fields of an object. *)
Lemma put_body_over s a b0 b : put_body a b (set_body a b0 s) = put_body a b s.
Proof.
  destruct (objs s !! a) as [o|] eqn:Ha.
  - assert (Ha' : objs (set_body a b0 s) !! a = Some (ZObject HT (refcount o) b0))
      by (rewrite set_body_lookup, decide_True, Ha; done).
    rewrite (put_body_ok _ _ _ b Ha'), (put_body_ok _ _ _ b Ha). f_equal. apply heap_eq; [|done]. intros c.
    cbn [objs set_objs refcount]. destruct (decide (c = a)) as [->|Hne]; [by rewrite !lookup_insert_eq|].
    rewrite !lookup_insert_ne by done. by rewrite set_body_lookup, decide_False.
  - assert (Hs : set_body a b0 s = s).
    { apply heap_eq; [|done]. intros c. rewrite set_body_lookup. case_decide; [subst; by rewrite Ha|done]. }
    by rewrite Hs.
Qed.

(** Putting the references [body_refs b] into [a], whose old ones come out. *)
Lemma rc_put_body s R a o b :
  rc_inv s (body_refs b ++ R) -> objs s !! a = Some o ->
  rc_inv (set_objs (<[a := ZObject HT (refcount o) b]> (objs s)) s) (body_refs (body o) ++ R).
Proof.
  intros Hrc Ha. pose proof (rc_count _ _ Hrc a) as Hc. rewrite Ha in Hc.
  assert (Heq : forall c, occurrences c ((body_refs (body o) ++ R) ++ body_refs b)
    = occurrences c ((body_refs b ++ R) ++ body_refs (body o))).
  { intros c. rewrite !occurrences_app. lia. }
  apply (rc_update s (body_refs b ++ R) _ a o); [done..|lia|rewrite Heq; lia|]. intros c _. apply Heq.
Qed.

(** [zval_ptr_dtor(&this->field); this->field = ...;] *)
Lemma release_field_ok s R this o z b :
  ref_inv s R -> this ∈ R -> objs s !! this = Some o -> body_refs (body o) ≡ₚ zrefs z ++ body_refs b ->
  class_of b = class_of (body o) -> body_ok s b ->
  exists s', (_ ← zval_ptr_dtor z; put_body this b) s = (s', Ok tt) /\ ref_inv s' R /\
    exists o', objs s' !! this = Some o' /\ body o' = b.
Proof.
  intros Hinv Hin Ho Hperm Hcl Hb.
  destruct (release_field s R this o z b Hinv Hin Ho Hperm Hcl Hb) as (s2 & Hrun & Hinv2 & o2 & Ho2 & Hb2).
  exists s2. split_and!; [|done|by exists o2]. rewrite (bind_ok _ _ _ _ _ Hrun), put_body_over, (put_body_ok _ _ _ b Ho2). f_equal.
  apply heap_eq; [|done]. intros c. cbn [objs set_objs]. destruct (decide (c = this)) as [->|Hne].
  - rewrite lookup_insert_eq, Ho2. destruct o2. simpl in *. by rewrite Hb2.
  - by rewrite lookup_insert_ne.
Qed.

(** ** Lemmas: operations *)

(** An operation that leaves well-counted, well-typed objects and a reference to its result. *)
Definition gives (f : M heap zval_ref) s R : Prop :=
  exists s' z, f s = (s', Ok z) /\ ref_inv s' (zrefs z ++ R).

Lemma gives_null f s R :
  (exists s', f s = (s', Ok tt) /\ ref_inv s' R) -> gives (unit_null f) s R.
Proof. intros (s' & Hf & Hinv). exists s', z_null. split; [|done]. unfold unit_null. by rewrite (bind_ok _ _ _ _ _ Hf). Qed.

Lemma gives_read {A} (f : M heap A) (k : A -> M heap zval_ref) s R x :
  f s = (s, Ok x) -> gives (k x) s R -> gives (f ≫= k) s R.
Proof. intros Hm (s' & z & Hk & Hinv). exists s', z. by rewrite (bind_ok _ _ _ _ _ Hm). Qed.

Lemma alive_handle s R a : ref_inv s R -> a ∈ R -> is_Some (objs s !! a).
Proof. intros [Hrc _] Ha. destruct (rc_alive s R a Hrc) as [o Ho]; [set_solver|eauto]. Qed.

(** Another reference to a live object. *)
Lemma copy_obj s R a :
  ref_inv s R -> is_Some (objs s !! a) ->
  exists s', ZVAL_COPY (z_obj a) s = (s', Ok (z_obj a)) /\ ref_inv s' (a :: R) /\
    next_handle s' = next_handle s /\
    (forall c oc, objs s !! c = Some oc -> exists oc', objs s' !! c = Some oc' /\ body oc' = body oc) /\
    forall c, objs s !! c = None -> objs s' !! c = None.
Proof.
  intros [Hrc Hty] Ha. destruct (addref_obj s R a Hrc Ha) as (o & Ho & Hrun & Hrc').
  eexists. split_and!; [unfold ZVAL_COPY; by rewrite (bind_ok _ _ _ _ _ Hrun)| |done| |].
  - split; [done|]. by apply (typed_update s a o); [..|apply (Hty a)].
  - intros c oc Hc. cbn [objs set_objs]. destruct (decide (c = a)) as [->|Hne].
    + simplify_eq. eexists. by rewrite lookup_insert_eq.
    + exists oc. by rewrite lookup_insert_ne.
  - intros c Hc. cbn [objs set_objs]. rewrite lookup_insert_ne; [done|]. intros <-. congruence.
Qed.

Lemma copy_gives s R z :
  ref_inv s R -> (forall a, z = z_obj a -> is_Some (objs s !! a)) -> gives (ZVAL_COPY z) s R.
Proof.
  intros Hinv Hz. destruct z as [| |a]; [by eexists s, _..|].
  destruct (copy_obj s R a Hinv) as (s' & Hrun & Hinv' & _); [by apply Hz|]. by exists s', (z_obj a).
Qed.

(** A new object. *)
Lemma rc_alloc s R b :
  rc_inv s (body_refs b ++ R) ->
  let a := next_handle s in
  objs s !! a = None /\
  object_init_ex b s = (Heap HT (<[a := ZObject HT 1 b]> (objs s)) (Pos.succ a), Ok a) /\
  rc_inv (Heap HT (<[a := ZObject HT 1 b]> (objs s)) (Pos.succ a)) (a :: R).
Proof.
  intros Hrc a. assert (Ha : objs s !! a = None).
  { destruct (objs s !! a) eqn:He; [|done]. pose proof (rc_bound _ _ Hrc a ltac:(eauto)). unfold a in *. lia. }
  split_and!; [done|done|]. split; cbn [objs next_handle].
  - intros c. pose proof (rc_count _ _ Hrc c) as Hc.
    assert (Hocc : occurrences c ((a :: R) ++ heap_refs (<[a := ZObject HT 1 b]> (objs s)))
      = (if decide (a = c) then 1 else 0) + occurrences c ((body_refs b ++ R) ++ heap_refs (objs s))).
    { pose proof (occurrences_perm c _ _ (heap_refs_insert (objs s) a (ZObject HT 1 b) Ha)) as Hp.
      rewrite !occurrences_app in Hp. simpl in Hp |- *. rewrite occurrences_cons, !occurrences_app. lia. }
    rewrite Hocc. destruct (decide (a = c)) as [<-|Hne].
    + rewrite lookup_insert_eq. rewrite Ha in Hc. simpl. lia.
    + by rewrite lookup_insert_ne.
  - intros c. rewrite lookup_insert_is_Some'. intros [<-|Hc]; [lia|].
    pose proof (rc_bound _ _ Hrc c Hc). unfold a. lia.
Qed.

Lemma alloc_ref_inv s R b :
  ref_inv s (body_refs b ++ R) -> body_ok s b ->
  exists s', object_init_ex b s = (s', Ok (next_handle s)) /\ ref_inv s' (next_handle s :: R) /\
    objs s !! next_handle s = None /\ objs s' = <[next_handle s := ZObject HT 1 b]> (objs s).
Proof.
  intros [Hrc Hty] Hb. destruct (rc_alloc s R b Hrc) as (Ha & Hrun & Hrc'). eexists. split_and!; [done| |done|done].
  split; [done|]. by apply typed_new.
Qed.

(** Reading the struct of an object of a known class. *)
Ltac read_struct :=
  let o := fresh "o" in let Ha := fresh in let Hc := fresh in let Hb := fresh in
  unfold class_at;
  match goal with |- context [objs ?s !! ?a] => destruct (objs s !! a) as [o|] eqn:Ha; [|done] end;
  simpl; intros [= Hc]; destruct (body o) eqn:Hb; try discriminate;
  repeat eexists; [eassumption|]; unfold get_log_obj, get_profiler_obj, get_timer_cb, get_entry_obj, get_iterator_obj;
  rewrite (bind_ok _ _ _ _ _ (get_obj_ok _ _ _ Ha)), Hb; reflexivity.

Lemma log_at s a : class_at s a = Some c_log ->
  exists o l c i, objs s !! a = Some o /\ body o = b_log l c i /\ get_log_obj a s = (s, Ok (l, c, i)).
Proof. read_struct. Qed.

Lemma profiler_at s a : class_at s a = Some c_profiler ->
  exists o l c, objs s !! a = Some o /\ body o = b_profiler l c /\ get_profiler_obj a s = (s, Ok (l, c)).
Proof. read_struct. Qed.

Lemma timer_at s a : class_at s a = Some c_timer ->
  exists o c, objs s !! a = Some o /\ body o = b_timer c /\ get_timer_cb a s = (s, Ok c).
Proof. read_struct. Qed.

Lemma entry_at s a : class_at s a = Some c_entry ->
  exists o l i, objs s !! a = Some o /\ body o = b_entry l i /\ get_entry_obj a s = (s, Ok (l, i)).
Proof. read_struct. Qed.

Lemma iterator_at s a : class_at s a = Some c_iterator ->
  exists o d c i, objs s !! a = Some o /\ body o = b_iterator d c i /\ get_iterator_obj a s = (s, Ok (d, c, i)).
Proof. read_struct. Qed.

Lemma z_is_class s c z : z_is s c z -> exists a, z = z_obj a /\ class_at s a = Some c.
Proof. intros (a & o & -> & Ha & Hc). exists a. split; [done|]. unfold class_at. rewrite Ha. simpl. congruence. Qed.

Definition keeps_bodies s s' : Prop :=
  forall c oc, objs s !! c = Some oc -> exists oc', objs s' !! c = Some oc' /\ body oc' = body oc.

Lemma keeps_class s s' a c : keeps_bodies s s' -> class_at s a = Some c -> class_at s' a = Some c.
Proof.
  unfold class_at. intros Hk. destruct (objs s !! a) as [o|] eqn:Ha; [|done].
  destruct (Hk a o Ha) as (o' & -> & Hb). simpl. by rewrite Hb.
Qed.

Lemma class_alive s a c : class_at s a = Some c -> is_Some (objs s !! a).
Proof. unfold class_at. destruct (objs s !! a); [eauto|done]. Qed.

(** [object_init_ex(&x, ce); x->z_log = ZVAL_COPY(log)], for entries and iterators. *)
Lemma alloc_with_log s R l b0 b :
  ref_inv s R -> class_at s l = Some c_log -> body_refs b0 = [] -> body_refs b = [l] ->
  (forall s', z_is s' c_log (z_obj l) -> body_ok s' b) ->
  exists s1 s2 s3, let e := next_handle s in
    object_init_ex b0 s = (s1, Ok e) /\ ZVAL_COPY (z_obj l) s1 = (s2, Ok (z_obj l)) /\
    put_body e b s2 = (s3, Ok tt) /\ ref_inv s3 (e :: R) /\ keeps_bodies s s3 /\
    objs s3 !! e = Some (ZObject HT 1 b).
Proof.
  intros [Hrc Hty] Hcl Hb0 Hb Hok. set (e := next_handle s).
  assert (Hrc0 : rc_inv s (body_refs b0 ++ R)) by by rewrite Hb0.
  destruct (rc_alloc s R b0 Hrc0) as (He & Hr1 & Hrc1). fold e in He, Hr1, Hrc1.
  set (s1 := Heap HT _ _) in *. destruct (class_alive s l _ Hcl) as [ol Hol].
  assert (Hne : l <> e) by congruence.
  assert (Hl1 : objs s1 !! l = Some ol) by (simpl; by rewrite lookup_insert_ne).
  destruct (addref_obj s1 _ l Hrc1) as (ol1 & Hol1 & Hr2 & Hrc2); [by eauto|]. rewrite Hl1 in Hol1.
  injection Hol1 as <-. set (s2 := set_objs (<[l := _]> (objs s1)) s1) in *.
  assert (He2 : objs s2 !! e = Some (ZObject HT 1 b0)).
  { simpl. rewrite lookup_insert_ne by done. apply lookup_insert_eq. }
  pose proof (rc_put_body s2 (e :: R) e (ZObject HT 1 b0) b) as Hrc3.
  rewrite Hb in Hrc3. specialize (Hrc3 Hrc2 He2). cbn [body refcount] in Hrc3. rewrite Hb0 in Hrc3.
  exists s1, s2, (set_objs (<[e := ZObject HT 1 b]> (objs s2)) s2).
  split_and!; [done|unfold ZVAL_COPY; by rewrite (bind_ok _ _ _ _ _ Hr2)|by rewrite (put_body_ok s2 e _ b He2)|
    | |apply lookup_insert_eq].
  - split; [done|]. pose (sA := set_objs (<[l := ZObject HT (refcount ol + 1) (body ol)]> (objs s)) s).
    assert (HtA : typed sA) by (apply (typed_update s l ol); [done..|by apply (Hty l)]).
    assert (Heq : set_objs (<[e := ZObject HT 1 b]> (objs s2)) s2
      = Heap HT (<[e := ZObject HT 1 b]> (objs sA)) (Pos.succ e)).
    { apply heap_eq; [|done]. intros c. cbn [objs set_objs]. destruct (decide (c = e)) as [->|Hce].
      - by rewrite !lookup_insert_eq.
      - rewrite !lookup_insert_ne by done. simpl. destruct (decide (c = l)) as [->|Hcl'].
        + by rewrite !lookup_insert_eq.
        + by rewrite !lookup_insert_ne. }
    rewrite Heq. apply typed_new; [done|simpl; by rewrite lookup_insert_ne|]. apply Hok.
    exists l, (ZObject HT (refcount ol + 1) (body ol)). split_and!; [done|simpl; by rewrite lookup_insert_eq|].
    unfold class_at in Hcl. rewrite Hol in Hcl. by injection Hcl.
  - intros c oc Hoc. cbn [objs set_objs]. rewrite lookup_insert_ne by congruence. simpl.
    destruct (decide (c = l)) as [->|Hcl'].
    + rewrite lookup_insert_eq. rewrite Hol in Hoc. injection Hoc as <-. by eexists.
    + rewrite !lookup_insert_ne by congruence. by exists oc.
Qed.

Lemma init_entry_ok s R l i log cur k :
  ref_inv s R -> class_at s l = Some c_log -> get_log_obj l s = (s, Ok (log, cur, k)) ->
  exists s' z, r_init_entry (z_obj l) i s = (s', Ok z) /\ ref_inv s' (zrefs z ++ R) /\ keeps_bodies s s' /\
    match excimer_log_get_entry log i with
    | Some _ => exists e, z = z_obj e /\ objs s !! e = None /\ objs s' !! e = Some (ZObject HT 1 (b_entry (z_obj l) i))
    | None => z = z_null
    end.
Proof.
  intros Hinv Hcl Hget. unfold r_init_entry. rewrite (bind_ok (zobj (z_obj l)) _ s s l) by done.
  rewrite (bind_ok _ _ _ _ _ Hget). destruct (excimer_log_get_entry log i).
  2:{ exists s, z_null. split_and!; [done|done| |done]. intros c oc Hc. by exists oc. }
  destruct (alloc_with_log s R l (b_entry z_null 0) (b_entry (z_obj l) i)) as (s1 & s2 & s3 & Hr1 & Hr2 & Hr3 & Hi & Hk & He);
    [done..|].
  rewrite (bind_ok _ _ _ _ _ Hr1), (bind_ok _ _ _ _ _ Hr2), (bind_ok _ _ _ _ _ Hr3).
  exists s3, (z_obj (next_handle s)). split_and!; [done..|]. exists (next_handle s). split_and!; [done| |done].
  destruct (objs s !! next_handle s) eqn:Hn; [|done].
  destruct Hinv as [Hrc _]. pose proof (rc_bound _ _ Hrc (next_handle s) ltac:(eauto)). lia.
Qed.

(** Storing the references [new] in [a] in the place of [old]; the others stay. *)
Lemma put_body_inv s R a o b rest old new :
  ref_inv s (new ++ R) -> objs s !! a = Some o -> class_of b = class_of (body o) -> body_ok s b ->
  body_refs (body o) ≡ₚ rest ++ old -> body_refs b ≡ₚ rest ++ new ->
  put_body a b s = (set_objs (<[a := ZObject HT (refcount o) b]> (objs s)) s, Ok tt) /\
  ref_inv (set_objs (<[a := ZObject HT (refcount o) b]> (objs s)) s) (old ++ R).
Proof.
  intros [Hrc Hty] Ha Hcl Hb Hold Hnew. split; [by apply put_body_ok|]. split; [|by apply (typed_update s a o)].
  pose proof (rc_count _ _ Hrc a) as Hc. rewrite Ha in Hc.
  assert (Heq : forall c, occurrences c ((old ++ R) ++ body_refs b)
    = occurrences c ((new ++ R) ++ body_refs (body o))).
  { intros c. rewrite !occurrences_app, Hold, Hnew, !occurrences_app. lia. }
  apply (rc_update s (new ++ R) _ a o); [done..|lia|rewrite Heq; lia|]. intros c _. apply Heq.
Qed.

Lemma get_log_of s a o l c i : objs s !! a = Some o -> body o = b_log l c i -> get_log_obj a s = (s, Ok (l, c, i)).
Proof. intros Ha Hb. unfold get_log_obj. by rewrite (bind_ok _ _ _ _ _ (get_obj_ok s a o Ha)), Hb. Qed.

Lemma field_alive s c z a : z = z_null \/ z_is s c z -> z = z_obj a -> is_Some (objs s !! a).
Proof. intros [->|(a' & o & -> & Ha & _)]; [done|]. intros [= <-]. eauto. Qed.

(** A reference to the value of a field of [this]. *)
Lemma copy_field_ok s R z :
  ref_inv s R -> z = z_null \/ z_is s c_entry z ->
  exists s', ZVAL_COPY z s = (s', Ok z) /\ ref_inv s' (zrefs z ++ R) /\ keeps_bodies s s'.
Proof.
  intros Hinv Hz. assert (Hrefl : keeps_bodies s s) by (intros c oc Hc; by exists oc).
  destruct z as [| |a]; [by exists s..|].
  destruct (copy_obj s R a Hinv) as (s' & Hrun & Hinv' & _ & Hk & _); [by apply (field_alive s c_entry (z_obj a))|].
  by exists s'.
Qed.

(** What [current] does to the log and what it returns. *)
Lemma current_ok s R this o log cur i :
  ref_inv s R -> objs s !! this = Some o -> body o = b_log log cur i ->
  exists s' z o', r_current this s = (s', Ok z) /\ ref_inv s' (zrefs z ++ R) /\
    objs s' !! this = Some o' /\ body o' = b_log log z i /\
    if Z_ISNULL cur && below_size i log then
      match excimer_log_get_entry log i with
      | Some _ => exists e oe, z = z_obj e /\ objs s' !! e = Some oe /\ body oe = b_entry (z_obj this) i
      | None => z = z_null
      end
    else z = cur /\ keeps_bodies s s'.
Proof.
  intros Hinv Ho Hb. pose proof (proj2 Hinv this o Ho) as Hbo. rewrite Hb in Hbo.
  pose proof (get_log_of s this o log cur i Ho Hb) as Hget.
  assert (Hcl : class_at s this = Some c_log) by (unfold class_at; rewrite Ho; simpl; by rewrite Hb).
  unfold r_current. rewrite (bind_ok _ _ _ _ _ Hget).
  destruct (Z_ISNULL cur && below_size i log) eqn:Hc.
  - apply andb_prop in Hc as [Hnull _]. apply bool_decide_eq_true in Hnull as ->.
    destruct (init_entry_ok s R this i log z_null i Hinv Hcl Hget) as (s1 & z & Hr1 & Hi1 & Hk1 & Hz).
    destruct (Hk1 this o Ho) as (o1 & Ho1 & Hb1). rewrite Hb in Hb1.
    assert (Hzv : z = z_null \/ z_is s1 c_entry z).
    { destruct (excimer_log_get_entry log i) as [en|]; [|by left]. destruct Hz as (e & -> & _ & He). right. by eexists e, _. }
    destruct (put_body_inv s1 R this o1 (b_log log z i) [] [] (zrefs z)) as [Hr2 Hi2];
      [done|done|by rewrite Hb1|done|by rewrite Hb1|done|]. simpl in Hi2. set (s2 := set_objs _ s1) in *.
    rewrite (bind_ok (e ← r_init_entry (z_obj this) i; put_body this (b_log log e i)) _ s s2 tt)
      by (by rewrite (bind_ok _ _ _ _ _ Hr1)).
    assert (Ho2 : objs s2 !! this = Some (ZObject HT (refcount o1) (b_log log z i))) by apply lookup_insert_eq.
    rewrite (bind_ok _ _ _ _ _ (get_log_of s2 this _ log z i Ho2 eq_refl)).
    destruct (copy_field_ok s2 R z Hi2) as (s3 & Hr3 & Hi3 & Hk3); [apply (proj2 Hi2 this _ Ho2)|].
    destruct (Hk3 this _ Ho2) as (o3 & Ho3 & Hb3). exists s3, z, o3. split_and!; [done..|].
    destruct (excimer_log_get_entry log i) as [en|]; [|done]. destruct Hz as (e & -> & Hnone & He).
    assert (He2 : objs s2 !! e = Some (ZObject HT 1 (b_entry (z_obj this) i))).
    { simpl. rewrite lookup_insert_ne; [done|]. intros <-. congruence. }
    destruct (Hk3 e _ He2) as (oe & Hoe & Hbe). by exists e, oe.
  - rewrite (bind_ok (mret tt) _ s s tt), (bind_ok _ _ _ _ _ Hget) by done.
    destruct (copy_field_ok s R cur Hinv Hbo) as (s' & Hr & Hi & Hk).
    destruct (Hk this o Ho) as (o' & Ho' & Hb'). exists s', cur, o'. split_and!; [done|done|done|congruence|done|done].
Qed.

Lemma current_gives s R this : ref_inv s R -> class_at s this = Some c_log -> gives (r_current this) s R.
Proof.
  intros Hinv Hcl. destruct (log_at s this Hcl) as (o & log & cur & i & Ho & Hb & _).
  destruct (current_ok s R this o log cur i Hinv Ho Hb) as (s' & z & _ & Hr & Hi & _). by exists s', z.
Qed.

(** Methods that drop the cached entry of a log or an iterator. *)
Lemma next_ok s R this o log cur i :
  ref_inv s R -> this ∈ R -> objs s !! this = Some o -> body o = b_log log cur i ->
  exists s', r_next this s = (s', Ok tt) /\ ref_inv s' R /\
    exists o', objs s' !! this = Some o' /\ body o' = b_log log z_null (if below_size i log then i + 1 else i).
Proof.
  intros Hinv Hin Ho Hb. unfold r_next. rewrite (bind_ok _ _ _ _ _ (get_log_of s this o log cur i Ho Hb)).
  apply (release_field_ok s R this o); [done..|rewrite Hb; simpl; by rewrite app_nil_r|by rewrite Hb|by left].
Qed.

Lemma rewind_ok s R this o log cur i :
  ref_inv s R -> this ∈ R -> objs s !! this = Some o -> body o = b_log log cur i ->
  exists s', r_rewind this s = (s', Ok tt) /\ ref_inv s' R /\
    exists o', objs s' !! this = Some o' /\ body o' = b_log log z_null 0.
Proof.
  intros Hinv Hin Ho Hb. unfold r_rewind. rewrite (bind_ok _ _ _ _ _ (get_log_of s this o log cur i Ho Hb)).
  pose proof (proj2 Hinv this o Ho) as Hbo. rewrite Hb in Hbo.
  destruct (put_body_inv s R this o (b_log log cur 0) (zrefs cur) [] []) as [Hr Hi];
    [done|done|by rewrite Hb|done|rewrite Hb; simpl; by rewrite app_nil_r|simpl; by rewrite app_nil_r|].
  rewrite (bind_ok _ _ _ _ _ Hr). set (s1 := set_objs _ s) in *.
  apply (release_field_ok s1 R this (ZObject HT (refcount o) (b_log log cur 0))); [done|done|apply lookup_insert_eq|
    simpl; by rewrite app_nil_r|done|by left].
Qed.

Lemma next_gives s R this :
  ref_inv s R -> this ∈ R -> class_at s this = Some c_log -> gives (unit_null (r_next this)) s R.
Proof.
  intros Hinv Hin Hcl. destruct (log_at s this Hcl) as (o & log & cur & i & Ho & Hb & _). apply gives_null.
  destruct (next_ok s R this o log cur i) as (s' & ? & ? & _); eauto.
Qed.

Lemma rewind_gives s R this :
  ref_inv s R -> this ∈ R -> class_at s this = Some c_log -> gives (unit_null (r_rewind this)) s R.
Proof.
  intros Hinv Hin Hcl. destruct (log_at s this Hcl) as (o & log & cur & i & Ho & Hb & _). apply gives_null.
  destruct (rewind_ok s R this o log cur i) as (s' & ? & ? & _); eauto.
Qed.

Lemma iterator_release_ok s R it (k : excimer_log HT -> Z -> Z) :
  ref_inv s R -> it ∈ R -> class_at s it = Some c_iterator ->
  exists a c i l c' i', get_iterator_obj it s = (s, Ok (z_obj a, c, i)) /\
    get_log_obj a s = (s, Ok (l, c', i')) /\
    exists s', (_ ← zval_ptr_dtor c; put_body it (b_iterator (z_obj a) z_null (k l i))) s = (s', Ok tt) /\
      ref_inv s' R.
Proof.
  intros Hinv Hin Hcl. destruct (iterator_at s it Hcl) as (o & d & c & i & Ho & Hb & Hget).
  pose proof (proj2 Hinv it o Ho) as Hbo. rewrite Hb in Hbo. destruct Hbo as [Hd Hc].
  destruct (z_is_class s c_log d Hd) as (a & -> & Hcla).
  destruct (log_at s a Hcla) as (oa & l & c' & i' & _ & _ & Hga).
  exists a, c, i, l, c', i'. split_and!; [done..|].
  destruct (release_field_ok s R it o c (b_iterator (z_obj a) z_null (k l i))) as (s' & ? & ? & _);
    [done..| |by rewrite Hb|by split; [|left]|by eauto].
  rewrite Hb. simpl. apply Permutation_cons_append.
Qed.

Lemma offsetGet_gives s R this i : ref_inv s R -> class_at s this = Some c_log -> gives (r_offsetGet this i) s R.
Proof.
  intros Hinv Hcl. destruct (log_at s this Hcl) as (o & log & cur & k & Ho & Hb & Hget).
  unfold r_offsetGet. apply (gives_read _ _ s R (log, cur, k)); [done|]. destruct (_ || _); [by exists s, z_null|].
  destruct (init_entry_ok s R this i log cur k Hinv Hcl Hget) as (s' & z & Hr & Hi & _). by exists s', z.
Qed.

Lemma get_iterator_gives s R this : ref_inv s R -> class_at s this = Some c_log -> gives (r_get_iterator this) s R.
Proof.
  intros Hinv Hcl.
  destruct (alloc_with_log s R this (b_iterator z_undef z_null 0) (b_iterator (z_obj this) z_null 0))
    as (s1 & s2 & s3 & Hr1 & Hr2 & Hr3 & Hi & _); [done..|by intros s' Hl; split; [|left]|].
  unfold r_get_iterator. exists s3, (z_obj (next_handle s)).
  by rewrite (bind_ok _ _ _ _ _ Hr1), (bind_ok _ _ _ _ _ Hr2), (bind_ok _ _ _ _ _ Hr3).
Qed.

Lemma iterator_current_gives s R it :
  ref_inv s R -> class_at s it = Some c_iterator -> gives (r_iterator_current it) s R.
Proof.
  intros Hinv Hcl. destruct (iterator_at s it Hcl) as (o & d & cur & i & Ho & Hb & Hget).
  pose proof (proj2 Hinv it o Ho) as Hbo. rewrite Hb in Hbo. destruct Hbo as [Hd Hc].
  unfold r_iterator_current. apply (gives_read _ _ s R (d, cur, i)); [done|].
  destruct (Z_ISNULL cur) eqn:Hnull; [|by apply copy_gives; [|intros a; apply (field_alive s c_entry)]].
  apply bool_decide_eq_true in Hnull as ->.
  destruct (z_is_class s c_log d Hd) as (l & -> & Hcll). apply (gives_read _ _ s R l); [done|].
  destruct (log_at s l Hcll) as (ol & log & lc & k & Hol & Hbl & Hgl).
  apply (gives_read _ _ s R (log, lc, k)); [done|]. destruct (below_size i log); [|by exists s, z_null].
  destruct (init_entry_ok s R l i log lc k Hinv Hcll Hgl) as (s1 & z & Hr1 & Hi1 & Hk1 & Hz).
  destruct (Hk1 it o Ho) as (o1 & Ho1 & Hb1). rewrite Hb in Hb1.
  assert (Hzv : z = z_null \/ z_is s1 c_entry z).
  { destruct (excimer_log_get_entry log i) as [en|]; [|by left]. destruct Hz as (e & -> & _ & He). right. by eexists e, _. }
  assert (Hd1 : z_is s1 c_log (z_obj l)).
  { destruct (Hk1 l ol Hol) as (ol1 & Hol1 & Hbl1). exists l, ol1. by rewrite Hbl1, Hbl. }
  destruct (put_body_inv s1 R it o1 (b_iterator (z_obj l) z i) [l] [] (zrefs z)) as [Hr2 Hi2];
    [done|done|by rewrite Hb1|done|by rewrite Hb1|done|]. set (s2 := set_objs _ s1) in *.
  assert (Ho2 : objs s2 !! it = Some (ZObject HT (refcount o1) (b_iterator (z_obj l) z i))) by apply lookup_insert_eq.
  destruct (copy_gives s2 R z) as (s3 & z3 & Hr3 & Hi3); [done| |].
  { intros a. apply (field_alive s2 c_entry). apply (proj2 Hi2 it _ Ho2). }
  exists s3, z3. by rewrite (bind_ok _ _ _ _ _ Hr1), (bind_ok _ _ _ _ _ Hr2).
Qed.

Lemma sample_gives s R this f :
  ref_inv s R -> class_at s this = Some c_log -> gives (unit_null (r_set_log this f)) s R.
Proof.
  intros Hinv Hcl. destruct (log_at s this Hcl) as (o & log & cur & i & Ho & Hb & Hget). apply gives_null.
  unfold r_set_log. rewrite (bind_ok _ _ _ _ _ Hget). pose proof (proj2 Hinv this o Ho) as Hbo. rewrite Hb in Hbo.
  destruct (put_body_inv s R this o (b_log (f log) cur i) (zrefs cur) [] []) as [Hr Hi];
    [done|done|by rewrite Hb|done|rewrite Hb; simpl; by rewrite app_nil_r|simpl; by rewrite app_nil_r|].
  by eexists.
Qed.

Lemma entry_log_ok s R e :
  ref_inv s R -> class_at s e = Some c_entry -> exists log, r_entry_log e s = (s, Ok log).
Proof.
  intros Hinv Hcl. destruct (entry_at s e Hcl) as (o & z & i & Ho & Hb & Hget).
  pose proof (proj2 Hinv e o Ho) as Hbo. rewrite Hb in Hbo. destruct (z_is_class s c_log z Hbo) as (l & -> & Hcll).
  destruct (log_at s l Hcll) as (ol & log & lc & k & Hol & Hbl & Hgl). exists log. unfold r_entry_log.
  rewrite (bind_ok _ _ _ _ _ Hget), (bind_ok (zobj (z_obj l)) _ s s l) by done. by rewrite (bind_ok _ _ _ _ _ Hgl).
Qed.

(** *** Profilers and timers *)

Lemma profiler_new_gives s R : ref_inv s R -> gives r_profiler_new s R.
Proof.
  intros [Hrc Hty]. unfold gives, r_profiler_new. set (p := next_handle s).
  destruct (rc_alloc s R (b_profiler z_undef z_undef) Hrc) as (Hp & Hr1 & Hrc1). fold p in Hp, Hr1, Hrc1.
  rewrite (bind_ok _ _ _ _ _ Hr1). set (s1 := Heap HT _ _) in *.
  set (lb := b_log (obj_log ExcimerLog_new) z_null 0).
  destruct (rc_alloc s1 (p :: R) lb Hrc1) as (Hl & Hr2 & Hrc2). set (l := next_handle s1) in *.
  rewrite (bind_ok _ _ _ _ _ Hr2). set (s2 := Heap HT (<[l := _]> (objs s1)) _) in *.
  assert (Hne : p <> l) by (simpl in Hl; intros <-; simpl in Hl; by rewrite lookup_insert_eq in Hl).
  assert (Hp2 : objs s2 !! p = Some (ZObject HT 1 (b_profiler z_undef z_undef))).
  { simpl. rewrite lookup_insert_ne by done. apply lookup_insert_eq. }
  rewrite (bind_ok _ _ _ _ _ (put_body_ok s2 p _ (b_profiler (z_obj l) z_null) Hp2)).
  eexists _, (z_obj p). split; [done|]. split.
  - apply (rc_put_body s2 (p :: R) p _ (b_profiler (z_obj l) z_null) Hrc2 Hp2).
  - set (s3 := set_objs _ s2).
    assert (Hsl : objs s !! l = None) by (simpl in Hl; by apply lookup_insert_None in Hl as [? _]).
    pose (sA := Heap HT (<[l := ZObject HT 1 lb]> (objs s)) (Pos.succ l)).
    assert (HtA : typed sA) by (apply typed_new; [done..|by left]).
    assert (Heq : s3 = Heap HT (<[p := ZObject HT 1 (b_profiler (z_obj l) z_null)]> (objs sA)) (Pos.succ l)).
    { apply heap_eq; [|done]. intros c. cbn [objs set_objs s3]. destruct (decide (c = p)) as [->|Hcp].
      - by rewrite !lookup_insert_eq.
      - rewrite !lookup_insert_ne by done. simpl. destruct (decide (c = l)) as [->|Hcl].
        + by rewrite !lookup_insert_eq.
        + by rewrite !lookup_insert_ne. }
    rewrite Heq. apply typed_new; [done|simpl; by rewrite lookup_insert_ne|].
    exists l, (ZObject HT 1 lb). split_and!; [done|simpl; by rewrite lookup_insert_eq|done].
Qed.

Lemma profiler_log s R p :
  ref_inv s R -> class_at s p = Some c_profiler ->
  exists o l c, objs s !! p = Some o /\ body o = b_profiler (z_obj l) c /\
    get_profiler_obj p s = (s, Ok (z_obj l, c)) /\ class_at s l = Some c_log.
Proof.
  intros Hinv Hcl. destruct (profiler_at s p Hcl) as (o & z & c & Ho & Hb & Hget).
  pose proof (proj2 Hinv p o Ho) as Hbo. rewrite Hb in Hbo. destruct (z_is_class s c_log z Hbo) as (l & -> & Hcll).
  by exists o, l, c.
Qed.

Lemma getLog_gives s R p : ref_inv s R -> class_at s p = Some c_profiler -> gives (r_getLog p) s R.
Proof.
  intros Hinv Hcl. destruct (profiler_log s R p Hinv Hcl) as (o & l & c & Ho & Hb & Hget & Hcll).
  unfold r_getLog. apply (gives_read _ _ s R (z_obj l, c)); [done|]. apply copy_gives; [done|].
  intros a [= <-]. by eapply class_alive.
Qed.

(** [ZVAL_COPY(old, z); Z_DELREF(z)] moves the reference. *)
Lemma move_ref s l : is_Some (objs s !! l) ->
  exists s1, ZVAL_COPY (z_obj l) s = (s1, Ok (z_obj l)) /\ Z_DELREF (z_obj l) s1 = (s, Ok tt).
Proof.
  intros [o Ho]. eexists. split.
  - unfold ZVAL_COPY, Z_ADDREF. unfold mbind at 1, M_bind at 1. by rewrite (bind_ok _ _ _ _ _ (get_obj_ok s l o Ho)).
  - unfold Z_DELREF. rewrite (bind_ok _ _ _ _ _ (get_obj_ok _ _ _ (lookup_insert_eq _ _ _))).
    unfold put_obj, modify. f_equal. apply heap_eq; [|done]. intros c. simpl. rewrite insert_insert_eq.
    destruct (decide (c = l)) as [->|Hne]; [|by rewrite lookup_insert_ne].
    rewrite lookup_insert_eq, Ho. destruct o. simpl. do 2 f_equal. lia.
Qed.

Lemma flush_gives s R p : ref_inv s R -> class_at s p = Some c_profiler -> gives (r_flush p) s R.
Proof.
  intros Hinv Hcl. destruct (profiler_log s R p Hinv Hcl) as (o & l & c & Ho & Hb & Hget & Hcll).
  unfold r_flush. apply (gives_read _ _ s R (z_obj l, c)); [done|].
  destruct (move_ref s l ltac:(by eapply class_alive)) as (s1 & Hr1 & Hr2).
  destruct (log_at s l Hcll) as (ol & log & lc & k & Hol & Hbl & Hgl).
  set (nb := b_log (excimer_log_copy_options (obj_log ExcimerLog_new) log) z_null 0).
  destruct (alloc_ref_inv s R nb) as (s2 & Hr3 & Hi2 & Hnone & Hs2); [done|by left|]. set (n := next_handle s) in *.
  assert (Hp2 : objs s2 !! p = Some o) by (rewrite Hs2, lookup_insert_ne; [done|congruence]).
  assert (Hn : z_is s2 c_log (z_obj n)) by (exists n, (ZObject HT 1 nb); by rewrite Hs2, lookup_insert_eq).
  destruct (put_body_inv s2 R p o (b_profiler (z_obj n) c) (zrefs c) [l] [n]) as [Hr4 Hi4]; [done|done|by rewrite Hb|
    done|rewrite Hb; apply Permutation_app_comm|apply Permutation_app_comm|].
  eexists _, (z_obj l). split; [|exact Hi4].
  rewrite (bind_ok _ _ _ _ _ Hr1), (bind_ok _ _ _ _ _ Hr2), (bind_ok (zobj (z_obj l)) _ s s l) by done.
  by rewrite (bind_ok _ _ _ _ _ Hgl), (bind_ok _ _ _ _ _ Hr3), (bind_ok _ _ _ _ _ Hr4).
Qed.

(** The reference to the old callback stays behind. *)
Lemma setFlushCallback_ok s R p v :
  ref_inv s R -> class_at s p = Some c_profiler -> is_Some (objs s !! v) ->
  exists s' o l c, objs s !! p = Some o /\ body o = b_profiler (z_obj l) c /\
    r_setFlushCallback p v s = (s', Ok tt) /\ ref_inv s' (zrefs c ++ R).
Proof.
  intros Hinv Hcl Hv. destruct (profiler_log s R p Hinv Hcl) as (o & l & c & Ho & Hb & Hget & Hcll).
  destruct (copy_obj s R v Hinv Hv) as (s1 & Hr1 & Hi1 & _ & Hk1 & _).
  destruct (Hk1 p o Ho) as (o1 & Ho1 & Hb1). rewrite Hb in Hb1.
  destruct (put_body_inv s1 R p o1 (b_profiler (z_obj l) (z_obj v)) [l] (zrefs c) [v]) as [Hr2 Hi2];
    [done|done|by rewrite Hb1| |by rewrite Hb1|done|].
  { pose proof (proj2 Hi1 p o1 Ho1) as Hbo. by rewrite Hb1 in Hbo. }
  eexists _, o, l, c. split_and!; [done|done| |exact Hi2].
  unfold r_setFlushCallback. by rewrite (bind_ok _ _ _ _ _ Hget), (bind_ok _ _ _ _ _ Hr1).
Qed.

Lemma clearFlushCallback_gives s R p :
  ref_inv s R -> p ∈ R -> class_at s p = Some c_profiler -> gives (unit_null (r_clearFlushCallback p)) s R.
Proof.
  intros Hinv Hin Hcl. destruct (profiler_log s R p Hinv Hcl) as (o & l & c & Ho & Hb & Hget & Hcll).
  apply gives_null. unfold r_clearFlushCallback. rewrite (bind_ok _ _ _ _ _ Hget).
  pose proof (proj2 Hinv p o Ho) as Hbo. rewrite Hb in Hbo.
  destruct (release_field_ok s R p o c (b_profiler (z_obj l) z_null)) as (s' & ? & ? & _);
    [done..|rewrite Hb; simpl; apply Permutation_cons_append|by rewrite Hb|done|by eauto].
Qed.

Lemma timer_new_gives s R : ref_inv s R -> gives r_timer_new s R.
Proof.
  intros Hinv. destruct (alloc_ref_inv s R (b_timer z_undef)) as (s' & Hr & Hi & _); [done|done|].
  exists s', (z_obj (next_handle s)). split; [|done]. unfold r_timer_new. by rewrite (bind_ok _ _ _ _ _ Hr).
Qed.

Lemma clear_callback_gives s R t :
  ref_inv s R -> t ∈ R -> class_at s t = Some c_timer -> gives (unit_null (r_clear_callback t)) s R.
Proof.
  intros Hinv Hin Hcl. destruct (timer_at s t Hcl) as (o & c & Ho & Hb & Hget). apply gives_null.
  unfold r_clear_callback. rewrite (bind_ok _ _ _ _ _ Hget).
  destruct (release_field_ok s R t o c (b_timer z_null)) as (s' & ? & ? & _);
    [done..|rewrite Hb; simpl; by rewrite app_nil_r|by rewrite Hb|done|by eauto].
Qed.

(** A copy does not look at the fields of objects. *)
Lemma copy_framed s s' v t b :
  ZVAL_COPY (z_obj v) s = (s', Ok (z_obj v)) -> ZVAL_COPY (z_obj v) (set_body t b s) = (set_body t b s', Ok (z_obj v)).
Proof.
  unfold ZVAL_COPY, Z_ADDREF. unfold mbind at 1 3, M_bind at 1 3. destruct (objs s !! v) as [o|] eqn:Hv.
  2:{ unfold get_obj, mbind, M_bind, get_state, lift. by rewrite Hv. }
  assert (Hv' : objs (set_body t b s) !! v = Some (ZObject HT (refcount o) (if decide (v = t) then b else body o))).
  { rewrite set_body_lookup, Hv. case_decide; [done|]. by destruct o. }
  rewrite (bind_ok _ _ _ _ _ (get_obj_ok s v o Hv)), (bind_ok _ _ _ _ _ (get_obj_ok _ _ _ Hv')).
  unfold put_obj, modify. intros [= <-]. unfold mret, M_ret. f_equal. apply heap_eq; [|done].
  intros c. rewrite set_body_lookup. cbn [objs set_objs body refcount]. destruct (decide (c = v)) as [->|Hne].
  - rewrite !lookup_insert_eq. by case_decide.
  - rewrite !lookup_insert_ne by done. by rewrite set_body_lookup.
Qed.

Lemma set_callback_gives s R t v :
  ref_inv s R -> t ∈ R -> v ∈ R -> class_at s t = Some c_timer -> gives (unit_null (r_set_callback t v)) s R.
Proof.
  intros Hinv Hin Hv Hcl. destruct (timer_at s t Hcl) as (o & c & Ho & Hb & Hget). apply gives_null.
  unfold r_set_callback. rewrite (bind_ok _ _ _ _ _ Hget).
  destruct (release_field s R t o c (b_timer z_null)) as (s2 & Hr2 & Hi2 & o2 & Ho2 & Hb2);
    [done..|rewrite Hb; simpl; by rewrite app_nil_r|by rewrite Hb|done|].
  rewrite (bind_ok _ _ _ _ _ Hr2).
  destruct (copy_obj s2 R v Hi2) as (s3 & Hr3 & Hi3 & _ & Hk3 & _); [by apply (alive_handle s2 R)|].
  rewrite (bind_ok _ _ _ _ _ (copy_framed _ _ _ t (body o) Hr3)), put_body_over.
  destruct (Hk3 t o2 Ho2) as (o3 & Ho3 & Hb3). rewrite Hb2 in Hb3.
  destruct (put_body_inv s3 R t o3 (b_timer (z_obj v)) [] [] [v]) as [Hr4 Hi4];
    [done|done|by rewrite Hb3|done|by rewrite Hb3|done|]. by eexists.
Qed.

(** *** Closures *)

Lemma copy_all_ok l s R :
  ref_inv s R -> (forall a, a ∈ l -> a ∈ R) ->
  exists s', copy_all l s = (s', Ok (z_obj <$> l)) /\ ref_inv s' (l ++ R).
Proof.
  revert s R. induction l as [|a l IH]; intros s R Hinv Hl; [by exists s|]. cbn [copy_all].
  destruct (copy_obj s R a Hinv) as (s1 & Hr1 & Hi1 & _); [apply (alive_handle s R); set_solver|].
  rewrite (bind_ok _ _ _ _ _ Hr1). destruct (IH s1 (a :: R) Hi1) as (s2 & Hr2 & Hi2); [set_solver|].
  rewrite (bind_ok _ _ _ _ _ Hr2). exists s2. split; [done|]. destruct Hi2 as [Hrc Hty]. split; [|done].
  revert Hrc. apply rc_perm. simpl. by rewrite Permutation_middle.
Qed.

Lemma closure_gives s R l : ref_inv s R -> (forall a, a ∈ l -> a ∈ R) -> gives (r_closure l) s R.
Proof.
  intros Hinv Hl. destruct (copy_all_ok l s R Hinv Hl) as (s1 & Hr1 & Hi1).
  assert (Hb : body_refs (b_value (z_obj <$> l) : obj_body HT) = l).
  { cbn [body_refs]. clear. induction l as [|a l IH]; [done|]. by rewrite fmap_cons, bind_cons, IH. }
  destruct (alloc_ref_inv s1 R (b_value (z_obj <$> l))) as (s2 & Hr2 & Hi2 & _); [by rewrite Hb|done|].
  exists s2, (z_obj (next_handle s1)). split; [|done].
  unfold r_closure. by rewrite (bind_ok _ _ _ _ _ Hr1), (bind_ok _ _ _ _ _ Hr2).
Qed.

(** *** All operations *)

Lemma remove_one_perm a R : a ∈ R -> R ≡ₚ a :: remove_one a R.
Proof.
  induction R as [|x R IH]; intros Hin; [by apply elem_of_nil in Hin|]. simpl.
  destruct (decide (x = a)) as [->|Hne]; [done|].
  rewrite IH at 1 by set_solver. apply Permutation_swap.
Qed.

Lemma ref_inv_perm s R R' : R ≡ₚ R' -> ref_inv s R -> ref_inv s R'.
Proof. intros Hp [Hrc Hty]. split; [by apply (rc_perm s R)|done]. Qed.

Lemma op_release_ok s R a : ref_inv s (a :: R) -> gives (unit_null (zval_ptr_dtor (z_obj a))) s R.
Proof.
  intros [Hrc Hty]. destruct (dtor_ok (z_obj a) s R Hrc) as (s' & Hr & Hrc' & Hsh).
  apply gives_null. exists s'. split; [done|]. split; [done|]. by apply (shrinks_typed s s' R).
Qed.

(** A release that is not the last one. *)
Lemma release_shared s a o :
  objs s !! a = Some o -> 1 < refcount o ->
  unit_null (zval_ptr_dtor (z_obj a)) s
  = (set_objs (<[a := ZObject HT (refcount o - 1) (body o)]> (objs s)) s, Ok z_null).
Proof.
  intros Ha Hc. unfold unit_null, zval_ptr_dtor. unfold mbind at 1, M_bind at 1.
  rewrite (bind_ok get_state _ s s s) by done. cbn [dtor_fuel].
  rewrite (bind_ok _ _ _ _ _ (get_obj_ok s a o Ha)). by rewrite (proj2 (Z.eqb_neq _ 0)) by lia.
Qed.

(** The arguments of an operation that is allowed. *)
Lemma allowed_arg op s R a c :
  op_allowed op s R = true -> (a, c) ∈ op_args op ->
  a ∈ R /\ match c with Some c => class_at s a = Some c | None => True end.
Proof.
  intros Hok Hin. unfold op_allowed in Hok. rewrite forallb_forall in Hok.
  specialize (Hok (a, c) ltac:(by apply list_elem_of_In)). simpl in Hok.
  apply andb_prop in Hok as [Ha Hc]. apply bool_decide_eq_true in Ha. split; [done|].
  destruct c; [by apply bool_decide_eq_true in Hc|done].
Qed.

Lemma run_op_ok op s R L :
  ref_inv s (R ++ L) -> op_allowed op s R = true ->
  exists s' z, run_op op s = (s', Ok z) /\ ref_inv s' (roots_after op R z ++ lost_by op s ++ L).
Proof.
  intros Hinv Hok.
  assert (Harg : forall a c, (a, c) ∈ op_args op -> a ∈ R ++ L /\
    match c with Some c => class_at s a = Some c | None => True end).
  { intros a c Hin. destruct (allowed_arg op s R a c Hok Hin). split; [set_solver|done]. }
  assert (Hgive : (match op with op_release _ | op_setFlushCallback _ _ => False | _ => True end) ->
    gives (run_op op) s (R ++ L) ->
    exists s' z, run_op op s = (s', Ok z) /\ ref_inv s' (roots_after op R z ++ lost_by op s ++ L)).
  { intros Hop (s' & z & Hr & Hi). exists s', z. split; [done|]. rewrite app_assoc in Hi. by destruct op. }
  destruct op as [a|a|l| |p|p|p v|p| |t v|t|l st n now|l|l|l|l i|e|l|it|it|it|it]; cbn [op_args run_op] in *;
    try (apply Hgive; [done|]);
    repeat match goal with Harg : forall a c, (a, c) ∈ (?x, ?d) :: ?rest -> _ |- _ =>
      let H1 := fresh "Hin" in let H2 := fresh "Hcl" in
      destruct (Harg x d ltac:(apply elem_of_cons; by left)) as [H1 H2];
      assert (forall a c, (a, c) ∈ rest -> a ∈ R ++ L /\
        match c with Some c => class_at s a = Some c | None => True end) by (intros ? ? ?; apply Harg, elem_of_cons; by right);
      clear Harg end.
  - apply copy_gives; [done|]. intros a' [= <-]. by apply (alive_handle s (R ++ L)).
  - destruct (allowed_arg _ _ _ a None Hok ltac:(apply elem_of_cons; by left)) as [HR _].
    destruct (op_release_ok s (remove_one a R ++ L) a) as (s' & z & Hr & Hi).
    { revert Hinv. apply ref_inv_perm. by rewrite (remove_one_perm a R HR) at 1. }
    exists s', z. split; [done|]. unfold roots_after. by rewrite <-app_assoc.
  - apply closure_gives; [done|]. intros a Ha. apply (Harg a None), list_elem_of_fmap. eauto.
  - by apply profiler_new_gives.
  - by apply getLog_gives.
  - by apply flush_gives.
  - destruct (setFlushCallback_ok s (R ++ L) p v Hinv Hcl) as (s' & o & l & c & Ho & Hb & Hr & Hi).
    { by apply (alive_handle s (R ++ L)). }
    exists s', z_null. split; [unfold unit_null; by rewrite (bind_ok _ _ _ _ _ Hr)|]. simpl. rewrite Ho, Hb.
    revert Hi. apply ref_inv_perm. rewrite !app_assoc. by rewrite (Permutation_app_comm (zrefs c)).
  - by apply clearFlushCallback_gives.
  - by apply timer_new_gives.
  - by apply set_callback_gives.
  - by apply clear_callback_gives.
  - by apply sample_gives.
  - by apply current_gives.
  - by apply next_gives.
  - by apply rewind_gives.
  - by apply offsetGet_gives.
  - destruct (entry_log_ok s (R ++ L) e Hinv Hcl) as [log Hr]. apply (gives_read _ _ s _ log); [done|]. by exists s, z_null.
  - by apply get_iterator_gives.
  - by apply iterator_current_gives.
  - destruct (iterator_release_ok s (R ++ L) it (fun l i => if below_size i l then i + 1 else i) Hinv Hin Hcl)
      as (a & c & i & l & c' & i' & Hget & Hga & s' & Hr & Hi).
    apply gives_null. exists s'. split; [|done]. unfold r_iterator_move_forward. rewrite (bind_ok _ _ _ _ _ Hget).
    rewrite (bind_ok (zobj (z_obj a)) _ s s a) by done. by rewrite (bind_ok _ _ _ _ _ Hga).
  - destruct (iterator_release_ok s (R ++ L) it (fun _ _ => 0) Hinv Hin Hcl)
      as (a & c & i & l & c' & i' & Hget & Hga & s' & Hr & Hi).
    apply gives_null. exists s'. split; [|done]. unfold r_iterator_rewind. by rewrite (bind_ok _ _ _ _ _ Hget).
  - destruct (iterator_release_ok s (R ++ L) it (fun _ i => i) Hinv Hin Hcl)
      as (a & c & i & l & c' & i' & Hget & Hga & s' & Hr & Hi).
    apply gives_null. exists s'. split; [|done]. unfold r_iterator_invalidate_current.
    by rewrite (bind_ok _ _ _ _ _ Hget).
Qed.

Lemma run_ops_ok ops s R L :
  ref_inv s (R ++ L) ->
  let '(s', r) := run_ops ops R L s in
  (exists R' L', r = Ok (R', L') /\ ref_inv s' (R' ++ L')) \/ r = Fatal "call not allowed".
Proof.
  revert s R L. induction ops as [|op ops IH]; intros s R L Hinv; cbn [run_ops]; [left; by exists R, L|].
  rewrite (bind_ok get_state _ s s s) by done. destruct (op_allowed op s R) eqn:Hok; [|by right].
  destruct (run_op_ok op s R L Hinv Hok) as (s1 & z & Hr & Hi). rewrite (bind_ok _ _ _ _ _ Hr).
  by apply IH.
Qed.

Lemma empty_heap_inv k : ref_inv (Heap HT ∅ k) [].
Proof. by split; [split|]; [|intros a [o Ho]|intros a o Ho]. Qed.

(** *** Erasure *)

Lemma erase_entry_keeps s s' z : keeps_bodies s s' -> z = z_null \/ z_is s c_entry z -> erase_entry s' z = erase_entry s z.
Proof.
  intros Hk [->|(e & o & -> & He & _)]; [done|]. destruct (Hk e o He) as (o' & He' & Hb). simpl. by rewrite He, He', Hb.
Qed.

Lemma erase_entry_null s z : z = z_null \/ z_is s c_entry z -> erase_entry s z = None <-> z = z_null.
Proof.
  intros [->|(e & o & -> & He & Hc)]; [done|]. simpl. rewrite He.
  destruct (body o) as [| | |[] i| |]; try discriminate; by split.
Qed.

Lemma erase_log_inv s this lo : erase_log s this = Some lo ->
  exists o c, objs s !! this = Some o /\ body o = b_log (obj_log lo) c (iter_entry_index lo) /\
    z_current lo = erase_entry s c.
Proof.
  unfold erase_log. destruct (objs s !! this) as [o|] eqn:Ho; [|done].
  destruct (body o) as [| |l c i| | |] eqn:Hb; [done|done| |done..]. intros [= <-]. by exists o, c.
Qed.

(** ** Properties *)

(** C21. References are counted right: whatever sequence of operations PHP code
    performs on profilers, timers, logs, entries, iterators and closures, with
    references that it holds, no operation uses a freed object or an object of
    the wrong class, and afterwards the count of every object is exactly the
    number of references to it. *)
Theorem references_counted ops s R L :
  ref_inv s (R ++ L) ->
  let '(s', r) := run_ops ops R L s in
  (exists R' L', r = Ok (R', L') /\ ref_inv s' (R' ++ L')) \/ r = Fatal "call not allowed".
Proof. apply run_ops_ok. Qed.


(** [setFlushCallback] loses a reference: the count of the callback that it
    replaces is one more than the number of references to it, so the callback
    is never freed. *)
Theorem replaced_callback_leaks s R p v c l o :
  ref_inv s R -> p ∈ R -> v ∈ R -> objs s !! p = Some o -> body o = b_profiler l (z_obj c) ->
  exists s' oc, r_setFlushCallback p v s = (s', Ok tt) /\ objs s' !! c = Some oc /\
    refcount oc = occurrences c (R ++ heap_refs (objs s')) + 1.
Proof.
  intros Hinv Hp Hv Ho Hb.
  assert (Hcl : class_at s p = Some c_profiler) by (unfold class_at; rewrite Ho; simpl; by rewrite Hb).
  destruct (setFlushCallback_ok s R p v Hinv Hcl) as (s' & o' & l' & c' & Ho' & Hb' & Hr & Hrc & _);
    [by apply (alive_handle s R)|]. simplify_eq. rewrite Hb in Hb'. injection Hb' as -> <-. simpl in Hrc.
  destruct (rc_alive s' _ c Hrc) as [oc Hoc]; [set_solver|]. exists s', oc. split_and!; [done..|].
  pose proof (rc_count _ _ Hrc c) as Hc. rewrite Hoc in Hc. simpl in Hc.
  rewrite occurrences_cons, decide_True in Hc by done. lia.
Qed.

(** The cached entry makes a cycle: after [current] on a log that has a current
    entry, the log and the entry keep each other alive. When PHP code drops its
    references to both, neither is freed, although nothing outside refers to them. *)
Theorem cached_entry_leaks s l o log i en :
  ref_inv s [l] -> objs s !! l = Some o -> body o = b_log log z_null i ->
  below_size i log = true -> excimer_log_get_entry log i = Some en ->
  exists e s' ol oe,
    run_ops [op_current l; op_release e; op_release l] [l] [] s = (s', Ok ([], [])) /\ ref_inv s' [] /\
    objs s' !! l = Some ol /\ body ol = b_log log (z_obj e) i /\
    objs s' !! e = Some oe /\ body oe = b_entry (z_obj l) i.
Proof.
  intros Hinv Ho Hb Hbelow Hen.
  assert (Hcl : class_at s l = Some c_log) by (unfold class_at; rewrite Ho; simpl; by rewrite Hb).
  destruct (current_ok s [l] l o log z_null i Hinv Ho Hb) as (s1 & z & o1 & Hr1 & Hi1 & Ho1 & Hb1 & Hz).
  rewrite Hbelow, Hen in Hz. destruct Hz as (e & oe1 & -> & Hoe1 & Hbe1). simpl in Hi1.
  destruct (dtor_ok (z_obj e) s1 [l] (proj1 Hi1)) as (s2 & Hr2 & Hrc2 & Hsh2).
  pose proof (shrinks_typed s1 s2 [l] (proj2 Hi1) Hrc2 Hsh2) as Hty2. pose proof Hsh2 as (_ & _ & Hb2).
  destruct (rc_alive s2 [l] l Hrc2) as [ol2 Hol2]; [set_solver|].
  destruct (Hb2 l ol2 Hol2) as (ol1 & Hol1 & Hbl2). simplify_eq. rewrite Hb1 in Hbl2.
  destruct (rc_alive s2 [l] e Hrc2) as [oe2 Hoe2].
  { apply elem_of_app. right. rewrite (heap_refs_delete _ l ol2 Hol2), Hbl2. set_solver. }
  destruct (Hb2 e oe2 Hoe2) as (oe1' & Hoe1' & Hbe2). simplify_eq. rewrite Hbe1 in Hbe2.
  assert (Hcount : 1 < refcount ol2).
  { pose proof (rc_count _ _ Hrc2 l) as Hc. rewrite Hol2 in Hc. simpl in Hc.
    rewrite occurrences_cons, decide_True in Hc by done.
    rewrite (heap_refs_delete _ e oe2 Hoe2), occurrences_app, Hbe2 in Hc. simpl in Hc.
    rewrite occurrences_cons, decide_True in Hc by done.
    pose proof (occurrences_nonneg l (heap_refs (delete e (objs s2)))). pose proof (occurrences_nonneg l []). lia. }
  destruct (op_release_ok s2 [] l (conj Hrc2 Hty2)) as (s3 & z3 & Hr3 & Hi3).
  pose proof Hr3 as Hs3. rewrite (release_shared s2 l ol2 Hol2 Hcount) in Hs3. injection Hs3 as Hs3 <-.
  exists e, s3, (ZObject HT (refcount ol2 - 1) (body ol2)), oe2. split_and!; [|done| |done| |done].
  - cbn [run_ops]. rewrite (bind_ok get_state _ s s s) by done. unfold op_allowed. cbn [forallb op_args].
    rewrite bool_decide_true, Hcl by set_solver. rewrite bool_decide_true by done. cbn [andb run_op].
    rewrite (bind_ok _ _ _ _ _ Hr1), (bind_ok get_state _ s1 s1 s1) by done. cbn [roots_after zrefs app lost_by].
    rewrite bool_decide_true by set_solver. cbn [andb].
    rewrite (bind_ok (unit_null (zval_ptr_dtor (z_obj e))) _ s1 s2 z_null)
      by (unfold unit_null; by rewrite (bind_ok _ _ _ _ _ Hr2)).
    rewrite (bind_ok get_state _ s2 s2 s2) by done. cbn [roots_after zrefs app remove_one].
    rewrite decide_True by done. rewrite bool_decide_true by set_solver. cbn [andb].
    rewrite (bind_ok _ _ _ _ _ Hr3). cbn [roots_after zrefs app remove_one]. by rewrite decide_True.
  - rewrite <-Hs3. apply lookup_insert_eq.
  - rewrite <-Hs3. simpl. rewrite lookup_insert_ne; [done|]. intros ->. congruence.
Qed.

(** The methods of [ExcimerLog] on counted objects do what [LogObject] says
    of plain values: [current] and the caching of the current entry, [next],
    [rewind] and [offsetGet]. *)
Theorem log_methods_erase s R this lo :
  ref_inv s R -> this ∈ R -> erase_log s this = Some lo ->
  (exists s' z, r_current this s = (s', Ok z) /\ erase_log s' this = Some (ExcimerLog_current this lo).1 /\
    erase_entry s' z = (ExcimerLog_current this lo).2) /\
  (exists s', r_next this s = (s', Ok tt) /\ erase_log s' this = Some (ExcimerLog_next lo)) /\
  (exists s', r_rewind this s = (s', Ok tt) /\ erase_log s' this = Some (ExcimerLog_rewind lo)) /\
  (forall i, exists s' z, r_offsetGet this i s = (s', Ok z) /\ erase_entry s' z = ExcimerLog_offsetGet this lo i).
Proof.
  intros Hinv Hin Hlo. destruct (erase_log_inv s this lo Hlo) as (o & c & Ho & Hb & Hcur).
  pose proof (proj2 Hinv this o Ho) as Hbo. rewrite Hb in Hbo. pose proof (erase_entry_null s c Hbo) as Hnull.
  assert (Hcl : class_at s this = Some c_log) by (unfold class_at; rewrite Ho; simpl; by rewrite Hb).
  split_and!.
  - destruct (current_ok s R this o _ c _ Hinv Ho Hb) as (s' & z & o' & Hr & Hi & Ho' & Hb' & Hz).
    exists s', z. split; [done|]. unfold erase_log. rewrite Ho', Hb'. unfold ExcimerLog_current. rewrite Hcur.
    unfold ExcimerLog_init_entry. destruct lo as [log zc i]. cbn [obj_log iter_entry_index z_current] in *.
    unfold Z_ISNULL in Hz. destruct (erase_entry s c) as [en|] eqn:He.
    + rewrite bool_decide_false in Hz by (intros Hc; apply Hnull in Hc; discriminate).
      destruct Hz as [-> Hk]. rewrite (erase_entry_keeps s s' c Hk Hbo), He. subst zc. done.
    + rewrite bool_decide_true in Hz by by apply Hnull. cbn [andb] in Hz. destruct (below_size i log); cbn [fst snd z_current].
      * destruct (excimer_log_get_entry log i) as [e0|]; [|by subst z].
        destruct Hz as (e & oe & -> & Hoe & Hbe). simpl. by rewrite Hoe, Hbe.
      * destruct Hz as [-> Hk]. rewrite (erase_entry_keeps s s' c Hk Hbo), He. by subst zc.
  - destruct (next_ok s R this o _ c _ Hinv Hin Ho Hb) as (s' & Hr & _ & o' & Ho' & Hb').
    exists s'. split; [done|]. unfold erase_log. by rewrite Ho', Hb'.
  - destruct (rewind_ok s R this o _ c _ Hinv Hin Ho Hb) as (s' & Hr & _ & o' & Ho' & Hb').
    exists s'. split; [done|]. unfold erase_log. by rewrite Ho', Hb'.
  - intros i. pose proof (get_log_of s this o _ c _ Ho Hb) as Hget. unfold r_offsetGet, ExcimerLog_offsetGet.
    rewrite (bind_ok _ _ _ _ _ Hget). destruct (_ || _); [by exists s, z_null|].
    destruct (init_entry_ok s R this i _ c _ Hinv Hcl Hget) as (s' & z & Hr & _ & _ & Hz). exists s', z. split; [done|].
    unfold ExcimerLog_init_entry. destruct (excimer_log_get_entry (obj_log lo) i) as [en|]; [|by subst z].
    destruct Hz as (e & -> & _ & He). simpl. by rewrite He.
Qed.

End object_refs_facts.

(** ** Witnesses *)

Section witnesses.

Definition ex_exec_data : zend_execute_data :=
  ExecData (Some (ZFunction true "a.php" None (Some "f") false 0)) 3.

(** The heap after some operations, starting with an empty one. *)
Definition ex_heap (ops : list ref_op) : heap alist := (run_ops ops [] [] (Heap alist ∅ 1)).1.

Lemma ex_heap_inv ops R L :
  (run_ops ops [] [] (Heap alist ∅ 1)).2 = Ok (R, L) -> ref_inv (ex_heap ops) (R ++ L).
Proof.
  intros Hr. pose proof (run_ops_ok ops (Heap alist ∅ 1) [] [] (empty_heap_inv 1)) as Hok.
  unfold ex_heap. destruct (run_ops ops [] [] (Heap alist ∅ 1)) as [s r]. simpl in Hr. subst r.
  destruct Hok as [(R' & L' & [= -> ->] & Hi)|Hf]; [exact Hi|discriminate].
Qed.

(** A log (2) with one sample, whose profiler is gone. *)
Definition ex_log_ops : list ref_op :=
  [op_profiler_new; op_getLog 1; op_sample 2 [ex_exec_data] 1 5; op_release 1].

(** A profiler (1) with the callback 3; PHP code also has another one, 4. *)
Definition ex_callback_ops : list ref_op :=
  [op_profiler_new; op_closure []; op_closure []; op_setFlushCallback 1 3].

(** The profiler, its log, an entry and an iterator, in many ways. *)
Definition ex_many_ops : list ref_op :=
  ex_callback_ops ++
  [op_getLog 1; op_sample 2 [ex_exec_data] 1 5; op_closure [1%positive; 2%positive]; op_setFlushCallback 1 5;
   op_flush 1; op_current 2; op_read_entry 7; op_get_iterator 2; op_iterator_current 8;
   op_iterator_move_forward 8; op_iterator_rewind 8; op_next 2; op_offsetGet 2 0; op_clearFlushCallback 1;
   op_timer_new; op_setCallback 11 4; op_setCallback 11 5; op_clearCallback 11; op_release 2; op_release 2; op_release 8;
   op_read_entry 7].

Lemma references_counted_witness :
  exists R L, (run_ops ex_many_ops [] [] (Heap alist ∅ 1)).2 = Ok (R, L) /\
    ref_inv (ex_heap ex_many_ops) (R ++ L) /\ L = [3%positive].
Proof.
  pose proof (references_counted ex_many_ops (Heap alist ∅ 1) [] [] (empty_heap_inv 1)) as Hok.
  assert (Hr : exists R, (run_ops ex_many_ops [] [] (Heap alist ∅ 1)).2 = Ok (R, [3%positive]))
    by (vm_compute; eexists; reflexivity).
  unfold ex_heap. destruct (run_ops ex_many_ops [] [] (Heap alist ∅ 1)) as [s r]. destruct Hr as [R Hr].
  simpl in Hr. subst r. destruct Hok as [(R' & L' & Heq & Hi)|Hf]; [|discriminate].
  injection Heq as <- <-. exists R, [3%positive]. split; [reflexivity|]. split; [exact Hi|reflexivity].
Defined.


Lemma replaced_callback_leaks_witness :
  exists s' oc, r_setFlushCallback 1 4 (ex_heap ex_callback_ops) = (s', Ok tt) /\ objs s' !! 3%positive = Some oc /\
    refcount oc = occurrences 3%positive ([4; 3; 1]%positive ++ heap_refs (objs s')) + 1.
Proof.
  assert (Hp : exists o l, objs (ex_heap ex_callback_ops) !! 1%positive = Some o /\ body o = b_profiler l (z_obj 3))
    by (vm_compute; eexists _, _; split; reflexivity).
  destruct Hp as (o & l & Hp & Hb).
  apply (replaced_callback_leaks (ex_heap ex_callback_ops) [4; 3; 1]%positive 1 4 3 l o).
  - apply (ex_heap_inv ex_callback_ops [4; 3; 1]%positive []). vm_compute. reflexivity.
  - set_solver.
  - set_solver.
  - exact Hp.
  - exact Hb.
Defined.

Lemma ex_log_heap : exists o log en, objs (ex_heap ex_log_ops) !! 2%positive = Some o /\ body o = b_log log z_null 0 /\
  below_size 0 log = true /\ excimer_log_get_entry log 0 = Some en.
Proof. vm_compute. eexists _, _, _. repeat split; reflexivity. Qed.

Lemma ex_log_heap_inv : ref_inv (ex_heap ex_log_ops) [2%positive].
Proof. apply (ex_heap_inv ex_log_ops [2%positive] []). vm_compute. reflexivity. Qed.

Lemma cached_entry_leaks_witness :
  exists e s' ol, run_ops [op_current 2; op_release e; op_release 2] [2%positive] [] (ex_heap ex_log_ops)
    = (s', Ok ([], [])) /\ objs s' !! 2%positive = Some ol.
Proof.
  destruct ex_log_heap as (o & log & en & Ho & Hb & Hbelow & Hen).
  destruct (cached_entry_leaks (ex_heap ex_log_ops) 2 o log 0 en ex_log_heap_inv Ho Hb Hbelow Hen)
    as (e & s' & ol & oe & Hrun & _ & Hl & _).
  exists e, s', ol. split; [exact Hrun|exact Hl].
Defined.

Lemma log_methods_erase_witness :
  exists lo, erase_log (ex_heap ex_log_ops) 2 = Some lo /\
    exists s' z, r_current 2 (ex_heap ex_log_ops) = (s', Ok z) /\
      erase_log s' 2 = Some (ExcimerLog_current 2 lo).1 /\ erase_entry s' z = (ExcimerLog_current 2 lo).2.
Proof.
  destruct (erase_log (ex_heap ex_log_ops) 2) as [lo|] eqn:Hlo; [|vm_compute in Hlo; discriminate].
  exists lo. split; [reflexivity|].
  destruct (log_methods_erase (ex_heap ex_log_ops) [2%positive] 2 lo ex_log_heap_inv) as [Hc _].
  - set_solver.
  - exact Hlo.
  - exact Hc.
Defined.

End witnesses.
