(* ===== verification/Destructors.v ===== *)
(** * Destructors: PHP code that runs while an object is released

    [zval_ptr_dtor] calls the destructor of an object whose last reference it
    drops: PHP code, which can call methods of the same objects before the
    method that has released something goes on. [ObjectRefs] runs one operation
    after the other; here the operations of [ObjectRefs] run with destructors
    inside them. [ExcimerProfiler::clearFlushCallback],
    [ExcimerTimer::setCallback] and the free handlers release values of PHP; what
    the methods of logs and iterators release are entries and logs, which have no
    destructors ([log_release_runs_no_php]). *)

From S2P Require Import Prelude ZendHash Log LogObject ObjectRefs.

(** What PHP code does: an operation, or fetching the value [x] that the object
    [a] has captured. *)
Inductive php_op : Type :=
  | p_op (op : ref_op)
  | p_property (a x : handle).

(** The objects; those whose destructor has been called; the references of PHP
    variables, of the frames of running calls ([$this] and the arguments), and
    the lost ones; the objects whose callback is being released. *)
Record nstate {HT : Type -> Type -> Type} : Type := NState {
  nheap : heap HT;
  called : gset handle;
  php : list handle;
  frames : list handle;
  lost : list handle;
  busy : list handle
}.
Arguments nstate HT : clear implicits.

(** The object whose callback an operation replaces. *)
Definition changes_callback (op : ref_op) : option handle :=
  match op with
  | op_setFlushCallback a _ | op_clearFlushCallback a | op_setCallback a _ | op_clearCallback a => Some a
  | _ => None
  end.

Section destructors.
  Context {HT : Type -> Type -> Type} `{ZendHash HT}.
  Abbreviation heap := (heap HT).
  Abbreviation nstate := (nstate HT).

  (** The destructors of objects by what they do; an object is destructed once.
      That of a profiler is [ExcimerProfiler_dtor]: a flush and what the callback
      does. [reenter] says whether PHP code changes the callback of an object
      while this callback is being released. *)
  Variable destructors : gmap handle (list php_op).
  Variable reenter : bool.

Definition on_heap {A} (f : M heap A) : M nstate A := fun s =>
  let '(h, r) := f (nheap s) in (NState HT h (called s) (php s) (frames s) (lost s) (busy s), r).

Definition set_php l (s : nstate) : nstate := NState HT (nheap s) (called s) l (frames s) (lost s) (busy s).
Definition set_frames l (s : nstate) : nstate := NState HT (nheap s) (called s) (php s) l (lost s) (busy s).
Definition set_busy l (s : nstate) : nstate := NState HT (nheap s) (called s) (php s) (frames s) (lost s) l.
Definition lose l (s : nstate) : nstate := NState HT (nheap s) (called s) (php s) (frames s) (l ++ lost s) (busy s).
Definition set_called (a : handle) (s : nstate) : nstate :=
  NState HT (nheap s) ({[a]} ∪ called s) (php s) (frames s) (lost s) (busy s).

(** PHP code uses the objects that it has, or that are in a frame; it can drop
    only its own references. *)
Definition php_allowed (op : ref_op) (s : nstate) : bool :=
  op_allowed op (nheap s) (match op with op_release _ => php s | _ => php s ++ frames s end) &&
  match changes_callback op with Some a => reenter || bool_decide (a ∉ busy s) | None => true end.

Definition property_allowed (a x : handle) (s : nstate) : bool :=
  bool_decide (a ∈ php s ++ frames s) &&
  match objs (nheap s) !! a with
  | Some o => match body o with b_value zs => bool_decide (z_obj x ∈ zs) | _ => false end
  | None => false
  end.

(** The destructor to call for [a]. *)
Definition destructor_of (a : handle) (o : zobject HT) (s : nstate) : option (list php_op) :=
  match class_of (body o) with
  | c_value | c_profiler | c_timer => if decide (a ∈ called s) then None else destructors !! a
  | c_log | c_entry | c_iterator => None
  end.

(** ** Operations, for a given [zval_ptr_dtor] *)

Section calls.
  Variable (zval_ptr_dtor : zval_ref -> M nstate unit).

(** The release of the callback of [a]. *)
Definition releasing (a : handle) z : M nstate unit :=
  _ ← modify (fun s => set_busy (a :: busy s) s);
  _ ← zval_ptr_dtor z;
  modify (fun s => set_busy (tail (busy s)) s).

(** Only the field [z_callback] is written after the release. The number of samples
    that is reset as well is a field of [Objects]. *)
Definition n_clearFlushCallback p : M nstate unit :=
  '(_, c) ← on_heap (get_profiler_obj p);
  _ ← releasing p c;
  '(l, _) ← on_heap (get_profiler_obj p);
  on_heap (put_body p (b_profiler l z_null)).

(** [v] is callable; otherwise nothing happens to references. *)
Definition n_set_callback t v : M nstate unit :=
  c ← on_heap (get_timer_cb t);
  _ ← releasing t c;
  z ← on_heap (ZVAL_COPY (z_obj v));
  on_heap (put_body t (b_timer z)).

Definition n_clear_callback t : M nstate unit :=
  c ← on_heap (get_timer_cb t);
  _ ← releasing t c;
  on_heap (put_body t (b_timer z_null)).

(** A frame holds [$this] and the arguments until the call returns. *)
Fixpoint leave_frame (l : list handle) : M nstate unit :=
  match l with
  | [] => mret tt
  | a :: l' =>
      _ ← modify (fun s => set_frames (tail (frames s)) s);
      _ ← zval_ptr_dtor (z_obj a);
      leave_frame l'
  end.

Definition with_frame (l : list handle) (f : M nstate unit) : M nstate zval_ref :=
  _ ← on_heap (copy_all l);
  _ ← modify (fun s => set_frames (l ++ frames s) s);
  _ ← f;
  _ ← leave_frame l;
  mret z_null.

Definition n_release a : M nstate zval_ref :=
  _ ← modify (fun s => set_php (remove_one a (php s)) s);
  _ ← zval_ptr_dtor (z_obj a);
  mret z_null.

(** Only the operations that run PHP code before they return need a frame. *)
Definition n_call (op : ref_op) : M nstate zval_ref :=
  match op with
  | op_release a => n_release a
  | op_clearFlushCallback p => with_frame [p] (n_clearFlushCallback p)
  | op_setCallback t v => with_frame [t; v] (n_set_callback t v)
  | op_clearCallback t => with_frame [t] (n_clear_callback t)
  | _ => on_heap (run_op op)
  end.

Definition php_step (o : php_op) : M nstate unit :=
  s ← get_state;
  match o with
  | p_op op =>
      if php_allowed op s then
        z ← n_call op;
        modify (fun s' => lose (lost_by op (nheap s)) (set_php (zrefs z ++ php s') s'))
      else lift (Fatal "call not allowed")
  | p_property a x =>
      if property_allowed a x s then
        _ ← on_heap (Z_ADDREF (z_obj x));
        modify (fun s' => set_php (x :: php s') s')
      else lift (Fatal "call not allowed")
  end.

Fixpoint run_php (ops : list php_op) : M nstate unit :=
  match ops with
  | [] => mret tt
  | o :: ops' => _ ← php_step o; run_php ops'
  end.

End calls.

(** [zval_ptr_dtor], with [zend_objects_store_del]: while the destructor runs the
    engine holds two references to the object. *)
Fixpoint n_dtor (fuel : nat) z : M nstate unit :=
  match z with
  | z_obj a =>
      match fuel with
      | O => lift Diverge
      | S fuel' =>
          o ← on_heap (get_obj a);
          if refcount o - 1 =? 0 then
            s ← get_state;
            match destructor_of a o s with
            | Some ops =>
                _ ← on_heap (put_obj a (ZObject HT 2 (body o)));
                _ ← modify (fun s => set_called a (set_frames (a :: a :: frames s) s));
                _ ← run_php (n_dtor fuel') ops;
                leave_frame (n_dtor fuel') [a; a]
            | None =>
                _ ← on_heap (modify (fun h => set_objs (delete a (objs h)) h));
                free_obj (n_dtor fuel') (body o)
            end
          else on_heap (put_obj a (ZObject HT (refcount o - 1) (body o)))
      end
  | _ => mret tt
  end.

(** ** Specification *)

(** [h] with the callback of [t] replaced by [c]. *)
Definition set_callback_of c (b : obj_body HT) : obj_body HT :=
  match b with b_profiler l _ => b_profiler l c | b_timer _ => b_timer c | _ => b end.

Definition set_cb (t : handle) c (h : heap) : heap :=
  set_objs (alter (fun o => ZObject HT (refcount o) (set_callback_of c (body o))) t (objs h)) h.

(** The callbacks that are being released are still in the fields of their objects,
    which have the class that is given. *)
Definition stale (B : list (handle * (obj_class * zval_ref))) (h : heap) : heap :=
  foldr (fun tc h => set_cb tc.1 tc.2.2 h) h B.

(** Counts and classes are right with [E] as further references, if the stale
    callbacks of [B] are disregarded. *)
Definition n_inv (E : list handle) (s : nstate) (B : list (handle * (obj_class * zval_ref))) : Prop :=
  busy s = B.*1 /\ NoDup B.*1 /\
  exists h, nheap s = stale B h /\ ref_inv h (E ++ php s ++ frames s ++ lost s) /\
    forall t k c, (t, (k, c)) ∈ B -> t ∈ frames s /\ class_at h t = Some k /\ set_cb t z_null h = h.

(** What destructors can still do: to call one takes a level of recursion, and
    each operation makes at most two objects. *)
Definition weight (ops : list php_op) : nat := S (2 * length ops).
Definition pending (C : gset handle) : nat :=
  sum_list_with (fun kv => weight kv.2) (map_to_list (filter (fun kv => kv.1 ∉ C) destructors)).
Definition effort (s : nstate) : nat := size (objs (nheap s)) + pending (called s).

(** The only failure is a call that PHP code cannot make. *)
Definition safe {A} (Q : A -> nstate -> Prop) (m : M nstate A) (s : nstate) : Prop :=
  let '(s', r) := m s in
  match r with Ok x => Q x s' | Fatal msg => msg = "call not allowed" | Crash _ | Diverge => False end.

End destructors.

(** ** Lemmas: code that does not look at callbacks

    Such code does the same whatever the callback of the object [t], if any, is,
    and leaves it alone; it keeps the classes of objects and makes at most [n] new ones. *)

Section tame.
  Context {HT : Type -> Type -> Type} `{ZendHash HT}.
  Abbreviation heap := (heap HT).
  Implicit Types (h : heap) (a : handle) (W : list (handle * obj_class)).

Definition bounded h : Prop := forall a, is_Some (objs h !! a) -> (a < next_handle h)%positive.

(** The classes that are known of objects, as long as they live. *)
Definition knows W h : Prop :=
  forall a c, (a, c) ∈ W -> (a < next_handle h)%positive /\ (objs h !! a = None \/ class_at h a = Some c).

Definition keeps_classes h h' : Prop :=
  (next_handle h <= next_handle h')%positive /\
  forall a, (a < next_handle h)%positive -> is_Some (objs h' !! a) -> class_at h' a = class_at h a.

Definition tame {A} t n W (f : M heap A) : Prop := forall h h' x,
  bounded h -> (forall u, t = Some u -> (u < next_handle h)%positive) -> knows W h -> f h = (h', Ok x) ->
  bounded h' /\ keeps_classes h h' /\ (size (objs h') <= n + size (objs h))%nat /\
  forall u, t = Some u -> is_Some (objs h' !! u) -> forall c, f (set_cb u c h) = (set_cb u c h', Ok x).

Lemma set_cb_lookup t c h a :
  objs (set_cb t c h) !! a =
  (fun o => ZObject HT (refcount o) (if decide (a = t) then set_callback_of c (body o) else body o)) <$> objs h !! a.
Proof.
  unfold set_cb, set_objs. cbn [objs]. case_decide; [subst; apply lookup_alter_eq|].
  rewrite lookup_alter_ne by done. by destruct (objs h !! a) as [[? ?]|].
Qed.

Lemma set_cb_at t c h a o : objs h !! a = Some o ->
  objs (set_cb t c h) !! a = Some (ZObject HT (refcount o) (if decide (a = t) then set_callback_of c (body o) else body o)).
Proof. intros Ha. by rewrite set_cb_lookup, Ha. Qed.

Lemma set_callback_class c (b : obj_body HT) : class_of (set_callback_of c b) = class_of b.
Proof. by destruct b. Qed.

Lemma set_cb_class t c h a : class_at (set_cb t c h) a = class_at h a.
Proof.
  unfold class_at. rewrite set_cb_lookup. destruct (objs h !! a) as [o|]; [|done]. simpl. f_equal.
  case_decide; [apply set_callback_class|done].
Qed.

Lemma keeps_classes_refl h : keeps_classes h h.
Proof. done. Qed.

Lemma class_alive_iff h a : is_Some (objs h !! a) <-> is_Some (class_at h a).
Proof. unfold class_at. by rewrite fmap_is_Some. Qed.

Lemma keeps_classes_alive h h' a :
  keeps_classes h h' -> (a < next_handle h)%positive -> is_Some (objs h' !! a) -> is_Some (objs h !! a).
Proof. intros [_ Hk] Ha Hs. apply class_alive_iff. rewrite <-Hk by done. by apply class_alive_iff. Qed.

Lemma knows_keeps W h h' : knows W h -> keeps_classes h h' -> knows W h'.
Proof.
  intros HW Hk a c Ha. destruct (HW a c Ha) as [Hlt Hc]. pose proof Hk as [Hn Hkc]. split; [lia|].
  destruct (objs h' !! a) as [o|] eqn:Ho; [right|by left]. rewrite Hkc by eauto.
  destruct Hc as [Hc|Hc]; [|done]. destruct (keeps_classes_alive h h' a Hk Hlt ltac:(eauto)) as [? ?]. congruence.
Qed.

Lemma tame_bind {A B} t n m W (f : M heap A) (k : A -> M heap B) :
  tame t n W f -> (forall x, tame t m W (k x)) -> tame t (n + m) W (f ≫= k).
Proof.
  intros Hf Hk h h' x Hb Ht HW. unfold mbind, M_bind. destruct (f h) as [h1 [y|msg|why|]] eqn:Hrun; [|done..].
  intros Hrun2. destruct (Hf h h1 y Hb Ht HW Hrun) as (Hb1 & Hc1 & Hs1 & Hcb1).
  pose proof Hc1 as [Hn1 Hcl1].
  destruct (Hk y h1 h' x Hb1) as (Hb2 & Hc2 & Hs2 & Hcb2);
    [intros u Hu; specialize (Ht u Hu); lia|by apply (knows_keeps W h)|done|].
  pose proof Hc2 as [Hn2 Hcl2]. split_and!; [done| |lia|].
  - split; [lia|]. intros a Ha Hs. rewrite Hcl2 by (lia || done). apply Hcl1; [done|].
    apply (keeps_classes_alive h1 h'); [done|lia|done].
  - intros u Hu Hs c. specialize (Ht u Hu). rewrite Hcb1; [by apply Hcb2|done|].
    apply (keeps_classes_alive h1 h'); [done|lia|done].
Qed.

Lemma tame_ret {A} t W (x : A) : tame t 0 W (mret x).
Proof. intros h h' y Hb Ht _ [= <- <-]. by split_and!. Qed.

Lemma tame_lift {A} t W (r : outcome A) : tame t 0 W (lift r).
Proof. intros h h' y Hb Ht _ [= <- ->]. by split_and!. Qed.

Lemma tame_le {A} t n m W (f : M heap A) : tame t n W f -> (n <= m)%nat -> tame t m W f.
Proof.
  intros Hf Hle h h' x Hb Ht HW Hrun. destruct (Hf h h' x Hb Ht HW Hrun) as (? & ? & ? & ?). split_and!; [done|done|lia|done].
Qed.

Lemma tame_weaken {A} t n W W' (f : M heap A) : tame t n W' f -> W' ⊆ W -> tame t n W f.
Proof. intros Hf Hsub h h' x Hb Ht HW. apply Hf; [done|done|]. intros a c Ha. by apply HW, Hsub. Qed.

(** Reading the struct of an object. *)
Definition reads {A} t (get : handle -> M heap A) (a : handle) (c : obj_class) : Prop :=
  (forall h, (get a h).1 = h) /\
  (forall h h' x, get a h = (h', Ok x) -> class_at h a = Some c /\
    forall u d, t = Some u -> get a (set_cb u d h) = (set_cb u d h, Ok x)).

Lemma tame_read {A B} t n W (get : handle -> M heap A) a c (k : A -> M heap B) :
  reads t get a c -> (forall x, tame t n ((a, c) :: W) (k x)) -> tame t n W (get a ≫= k).
Proof.
  intros [Hst Hget] Hk h h' y Hb Ht HW. unfold mbind, M_bind. pose proof (Hst h) as Hh.
  destruct (get a h) as [h1 [x|msg|why|]] eqn:Hrun; [|done..]. simpl in Hh. subst h1.
  destruct (Hget h h x Hrun) as [Hcl Hcb]. intros Hrun2.
  destruct (Hk x h h' y Hb Ht) as (? & ? & ? & Hcb2); [|done|].
  - intros a' c' [[= -> ->]|Hin]%elem_of_cons; [|by apply HW]. split; [|by right].
    apply Hb, class_alive_iff. by rewrite Hcl.
  - split_and!; [done..|]. intros u Hu Hs d. rewrite Hcb by done. by apply Hcb2.
Qed.

(** An object whose struct has no callback, or another object than [t]. *)
Ltac read_tame :=
  match goal with |- reads _ _ ?a _ => split;
    [ intros h; unfold get_log_obj, get_entry_obj, get_iterator_obj, get_profiler_obj, get_obj, get_state, mbind, M_bind, lift;
      destruct (objs h !! a) as [o|]; [simpl; by destruct (body o)|done]
    | intros h h' x; unfold get_log_obj, get_entry_obj, get_iterator_obj, get_profiler_obj, get_obj, class_at, get_state, mbind, M_bind, lift;
      destruct (objs h !! a) as [o|] eqn:Ho; [|done]; cbn [deref];
      destruct (body o) eqn:Hbo; try discriminate; intros [= <- <-]; split; [by simpl; rewrite Hbo|];
      intros u d Hu; rewrite set_cb_lookup, Ho; simpl; rewrite Hbo; case_decide; first [done|congruence] ] end.

Lemma reads_log t a : reads t get_log_obj a c_log.
Proof. read_tame. Qed.

Lemma reads_entry t a : reads t get_entry_obj a c_entry.
Proof. read_tame. Qed.

Lemma reads_iterator t a : reads t get_iterator_obj a c_iterator.
Proof. read_tame. Qed.

Lemma reads_profiler t a : t <> Some a -> reads t get_profiler_obj a c_profiler.
Proof. intros Hne. read_tame. Qed.

(** A change of the object [a] that keeps its class. *)
Lemma tame_update h a o n b :
  bounded h -> objs h !! a = Some o -> class_of b = class_of (body o) ->
  let h' := set_objs (<[a := ZObject HT n b]> (objs h)) h in
  bounded h' /\ keeps_classes h h' /\ size (objs h') = size (objs h).
Proof.
  intros Hb Ha Hc h'. split_and!.
  - intros x. cbn [objs set_objs h' next_handle]. rewrite lookup_insert_is_Some'. intros [<-|?]; eauto.
  - split; [done|]. intros x _ _. unfold class_at. cbn [objs set_objs h']. destruct (decide (x = a)) as [->|Hne].
    + rewrite lookup_insert_eq, Ha. simpl. by rewrite Hc.
    + by rewrite lookup_insert_ne.
  - cbn [objs set_objs h']. by rewrite map_size_insert_Some by eauto.
Qed.

Lemma set_cb_insert t c h a n b :
  set_cb t c (set_objs (<[a := ZObject HT n b]> (objs h)) h) =
  set_objs (<[a := ZObject HT n (if decide (a = t) then set_callback_of c b else b)]> (objs (set_cb t c h))) (set_cb t c h).
Proof.
  apply heap_eq; [|done]. intros x. rewrite set_cb_lookup. cbn [objs set_objs].
  destruct (decide (x = a)) as [->|Hne]; [by rewrite !lookup_insert_eq|].
  rewrite !lookup_insert_ne by done. fold (set_cb t c h). symmetry. apply (set_cb_lookup t c h x).
Qed.

Lemma tame_put_body t W a b :
  (a, class_of b) ∈ W -> t <> Some a \/ (forall c, set_callback_of c b = b) -> tame t 0 W (put_body a b).
Proof.
  intros Hin Hcb h h' [] Hb Ht HW. destruct (objs h !! a) as [o|] eqn:Ha.
  2:{ unfold put_body, get_obj, mbind, M_bind, get_state, lift. by rewrite Ha. }
  rewrite (put_body_ok h a o b Ha). intros [= <-].
  assert (Hcl : class_of b = class_of (body o)).
  { destruct (HW a _ Hin) as [_ [Hn|Hc]]; [congruence|]. unfold class_at in Hc. rewrite Ha in Hc. by injection Hc. }
  destruct (tame_update h a o (refcount o) b Hb Ha Hcl) as (? & ? & ->). split_and!; [done|done|done|].
  intros u Hu _ c. pose proof (set_cb_at u c h a o Ha) as Ha'.
  rewrite (put_body_ok _ _ _ b Ha'), set_cb_insert. cbn [refcount]. do 4 f_equal.
  case_decide; [|done]. destruct Hcb as [?|Hcb]; [congruence|]. by rewrite Hcb.
Qed.

Lemma tame_count t W a (f : Z -> Z) :
  tame t 0 W (o ← get_obj a; put_obj a (ZObject HT (f (refcount o)) (body o))).
Proof.
  intros h h' [] Hb Ht HW. destruct (objs h !! a) as [o|] eqn:Ha.
  2:{ unfold get_obj, mbind, M_bind, get_state, lift. by rewrite Ha. }
  rewrite (bind_ok _ _ _ _ _ (get_obj_ok h a o Ha)). intros [= <-].
  destruct (tame_update h a o (f (refcount o)) (body o) Hb Ha eq_refl) as (? & ? & ->). split_and!; [done|done|done|].
  intros u Hu _ c. pose proof (set_cb_at u c h a o Ha) as Ha'.
  rewrite (bind_ok _ _ _ _ _ (get_obj_ok _ a _ Ha')). unfold put_obj, modify. rewrite set_cb_insert. cbn [refcount body]. done.
Qed.

Lemma tame_addref t W z : tame t 0 W (Z_ADDREF z).
Proof. destruct z as [| |a]; [apply tame_ret..|]. apply (tame_count t W a (fun n => n + 1)). Qed.

Lemma tame_delref t W z : tame t 0 W (Z_DELREF z).
Proof. destruct z as [| |a]; [apply tame_ret..|]. apply (tame_count t W a (fun n => n - 1)). Qed.

Lemma tame_copy t W z : tame t 0 W (ZVAL_COPY z).
Proof. apply (tame_bind t 0 0); [apply tame_addref|]. intros _. apply tame_ret. Qed.

Lemma tame_copy_all t W l : tame t 0 W (copy_all l).
Proof.
  induction l as [|a l IH]; [apply tame_ret|]. cbn [copy_all].
  apply (tame_bind t 0 0); [apply tame_copy|]. intros z. apply (tame_bind t 0 0); [apply IH|]. intros zs. apply tame_ret.
Qed.

Lemma tame_alloc {B} t n W b (k : handle -> M heap B) :
  (forall e, t <> Some e -> tame t n ((e, class_of b) :: W) (k e)) -> tame t (S n) W (object_init_ex b ≫= k).
Proof.
  intros Hk h h' x Hb Ht HW. set (e := next_handle h).
  set (h1 := Heap HT (<[e := ZObject HT 1 b]> (objs h)) (Pos.succ e)).
  unfold mbind, M_bind. change (object_init_ex b h) with (h1, Ok e). cbn iota beta. intros Hrun.
  assert (Hfresh : objs h !! e = None).
  { destruct (objs h !! e) eqn:He; [|done]. pose proof (Hb e ltac:(eauto)). unfold e in *. lia. }
  assert (Hb1 : bounded h1).
  { intros a. cbn [objs next_handle h1]. rewrite lookup_insert_is_Some'. intros [<-|Ha]; [lia|].
    pose proof (Hb a Ha). unfold e. lia. }
  assert (Hk1 : keeps_classes h h1).
  { split; [simpl; unfold e; lia|]. intros a Ha _. unfold class_at. cbn [objs h1].
    rewrite lookup_insert_ne by (unfold e; lia). done. }
  destruct (Hk e) with (h := h1) (h' := h') (x := x) as (Hb2 & Hk2 & Hs2 & Hcb2); [|done| | |done|].
  { intros He. specialize (Ht e He). unfold e in Ht. lia. }
  { intros u Hu. specialize (Ht u Hu). simpl. unfold e. lia. }
  { intros a c [[= -> ->]|Hin]%elem_of_cons; [|by apply (knows_keeps W h)].
    split; [simpl; lia|right]. unfold class_at. cbn [objs h1]. by rewrite lookup_insert_eq. }
  pose proof Hk1 as [Hn1 Hc1]. pose proof Hk2 as [Hn2 Hc2]. split_and!; [done| | |].
  - split; [lia|]. intros a Ha Hs. rewrite Hc2 by (lia || done). apply Hc1; [done|].
    apply (keeps_classes_alive h1 h'); [done|lia|done].
  - cbn [objs h1] in Hs2. rewrite map_size_insert_None in Hs2 by done. lia.
  - intros u Hu Hs c. specialize (Ht u Hu). change (object_init_ex b (set_cb u c h)) with
      (Heap HT (<[e := ZObject HT 1 b]> (objs (set_cb u c h))) (Pos.succ e), Ok e : outcome handle).
    cbn iota beta. rewrite <-(Hcb2 u Hu Hs c). f_equal. apply heap_eq; [|done]. intros a. rewrite set_cb_lookup. cbn [objs h1].
    destruct (decide (a = e)) as [->|Hne].
    + rewrite !lookup_insert_eq. simpl. rewrite decide_False by (unfold e; lia). done.
    + rewrite !lookup_insert_ne by done. by rewrite set_cb_lookup.
Qed.

(** *** Releases *)

Lemma free_obj_shrinks fuel (b : obj_body HT) h h' :
  (forall z h h', dtor_fuel fuel z h = (h', Ok tt) -> shrinks h h') ->
  free_obj (dtor_fuel fuel) b h = (h', Ok tt) -> shrinks h h'.
Proof.
  intros Hd. assert (Htwo : forall z1 z2 h h', (_ ← dtor_fuel fuel z1; dtor_fuel fuel z2) h = (h', Ok tt) -> shrinks h h').
  { intros z1 z2 h0 h2. unfold mbind, M_bind. destruct (dtor_fuel fuel z1 h0) as [h1 [[]|msg|why|]] eqn:H1; [|done..].
    intros H2. eapply shrinks_trans; eauto. }
  destruct b as [l c|c|log c i|l i|d c i|zs]; cbn [free_obj]; [by apply Htwo|by apply Hd..|by apply Htwo|].
  revert h. induction zs as [|z zs IH]; intros h; cbn [free_captured]; [intros [= <-]; apply shrinks_refl|].
  unfold mbind, M_bind. destruct (dtor_fuel fuel z h) as [h1 [[]|msg|why|]] eqn:H1; [|done..].
  intros H2. eapply shrinks_trans; eauto.
Qed.

Lemma shrinks_delete h a : shrinks h (set_objs (delete a (objs h)) h).
Proof.
  split_and!; [done|simpl; rewrite map_size_delete; case_match; [apply Nat.le_pred_l|done]|].
  intros c oc. cbn [objs set_objs]. intros [_ Hc]%lookup_delete_Some. by exists oc.
Qed.

Lemma shrinks_count h a o n :
  objs h !! a = Some o -> shrinks h (set_objs (<[a := ZObject HT n (body o)]> (objs h)) h).
Proof.
  intros Ha. split_and!; [done|simpl; by rewrite map_size_insert_Some by eauto|].
  intros c oc. cbn [objs set_objs]. intros [[<- <-]|[_ Hc]]%lookup_insert_Some; [by exists o|by exists oc].
Qed.

Lemma dtor_shrinks fuel z h h' : dtor_fuel fuel z h = (h', Ok tt) -> shrinks h h'.
Proof.
  revert z h h'. induction fuel as [|fuel IH]; intros z h h';
    (destruct z as [| |a]; [intros [= <-]; apply shrinks_refl..|]); [done|]. cbn [dtor_fuel].
  destruct (objs h !! a) as [o|] eqn:Ha.
  2:{ unfold get_obj, mbind, M_bind, get_state, lift. by rewrite Ha. }
  rewrite (bind_ok _ _ _ _ _ (get_obj_ok h a o Ha)). destruct (refcount o - 1 =? 0).
  - rewrite (bind_ok _ _ h (set_objs (delete a (objs h)) h) tt) by done. intros Hrun.
    eapply shrinks_trans; [apply (shrinks_delete h a)|]. by apply (free_obj_shrinks fuel (body o)).
  - intros [= <-]. by apply shrinks_count.
Qed.

Lemma set_cb_body t c h o : objs h !! t = Some o -> set_cb t c h = set_body t (set_callback_of c (body o)) h.
Proof.
  intros Ho. apply heap_eq; [|done]. intros a. rewrite set_cb_lookup, set_body_lookup.
  case_decide; [subst; by rewrite Ho|]. by destruct (objs h !! a) as [[? ?]|].
Qed.

Lemma set_cb_insert_eq t c h o : objs h !! t = Some o ->
  set_cb t c h = set_objs (<[t := ZObject HT (refcount o) (set_callback_of c (body o))]> (objs h)) h.
Proof.
  intros Ho. apply heap_eq; [|done]. intros a. rewrite set_cb_lookup. cbn [objs set_objs].
  destruct (decide (a = t)) as [->|Hne]; [by rewrite lookup_insert_eq, Ho|].
  rewrite lookup_insert_ne by done. by destruct (objs h !! a) as [[? ?]|].
Qed.

Lemma tame_dtor t W z : tame t 0 W (zval_ptr_dtor z).
Proof.
  intros h h' [] Hb Ht _. unfold zval_ptr_dtor. rewrite (bind_ok get_state _ h h h) by done. intros Hrun.
  pose proof (dtor_shrinks _ _ _ _ Hrun) as (Hn & Hs & Hsh). split_and!; [| |done|].
  - intros a [o Ha]. rewrite Hn. destruct (Hsh a o Ha) as (o0 & Ho0 & _). eauto.
  - split; [lia|]. intros a _ [o Ha]. destruct (Hsh a o Ha) as (o0 & Ho0 & Hbo). unfold class_at. rewrite Ha, Ho0. simpl.
    by rewrite Hbo.
  - intros u Hu [o Ho] c. destruct (Hsh u o Ho) as (o0 & Ho0 & Hbo).
    rewrite (bind_ok get_state _ _ (set_cb u c h) (set_cb u c h)) by done.
    assert (Hsz : size (objs (set_cb u c h)) = size (objs h)).
    { rewrite (set_cb_insert_eq u c h o0 Ho0). simpl. by rewrite map_size_insert_Some by eauto. }
    rewrite Hsz, (set_cb_body u c h o0 Ho0), (set_cb_body u c h' o Ho), Hbo.
    apply (dtor_framed _ z h h' Hrun). eauto.
Qed.

(** *** Operations *)

Lemma tame_bind0 {A B} t n W (f : M heap A) (k : A -> M heap B) :
  tame t 0 W f -> (forall x, tame t n W (k x)) -> tame t n W (f ≫= k).
Proof. apply tame_bind. Qed.

Lemma tame_new t W b : tame t 1 W (object_init_ex b).
Proof.
  intros h h' x Hb Ht HW Hrun.
  apply (tame_alloc t 0 W b (fun e => mret e)) in Hrun as Hok; [done|intros e _; apply tame_ret|done..].
Qed.

(** Follows the code; what is left are conditions on the object that is written. *)
Ltac tame_step :=
  match goal with
  | |- tame _ _ _ (match ?x with (_, _) => _ end) => destruct x
  | |- tame _ _ _ (if ?c then _ else _) => destruct c
  | |- tame _ _ _ (match ?x with _ => _ end) => destruct x
  | |- tame _ _ _ (mret _) => apply (tame_le _ 0); [apply tame_ret|lia]
  | |- tame _ _ _ (lift _) => apply (tame_le _ 0); [apply tame_lift|lia]
  | |- tame _ _ _ (ZVAL_COPY _) => apply (tame_le _ 0); [apply tame_copy|lia]
  | |- tame _ _ _ (put_body _ _) =>
      apply (tame_le _ 0); [apply tame_put_body; [rewrite ?elem_of_cons; tauto|try (by right)]|lia]
  | |- tame _ _ _ (get_log_obj _ ≫= _) => apply (tame_read _ _ _ _ _ c_log); [apply reads_log|intros]
  | |- tame _ _ _ (get_entry_obj _ ≫= _) => apply (tame_read _ _ _ _ _ c_entry); [apply reads_entry|intros]
  | |- tame _ _ _ (get_iterator_obj _ ≫= _) => apply (tame_read _ _ _ _ _ c_iterator); [apply reads_iterator|intros]
  | |- tame _ (S _) _ (object_init_ex _ ≫= _) => apply tame_alloc; intros
  | |- tame _ _ _ (object_init_ex _) => apply tame_new
  | |- tame _ _ _ (_ ≫= _) => apply tame_bind0; [|intros]
  | |- tame _ _ _ (zval_ptr_dtor _) => apply (tame_le _ 0); [apply tame_dtor|lia]
  | |- tame _ _ _ (zobj ?z) => destruct z; unfold zobj
  end.
Ltac tame := repeat (tame_step; cbn beta iota).

Lemma tame_init_entry t W z i : tame t 1 W (r_init_entry z i).
Proof. unfold r_init_entry. tame. Qed.

Lemma tame_current t W a : tame t 1 W (r_current a).
Proof.
  unfold r_current. apply (tame_read _ _ _ _ _ c_log); [apply reads_log|]. intros [[log cur] i].
  apply (tame_bind t 1 0); [|intros; tame]. destruct (_ && _); [|tame].
  apply (tame_bind t 1 0); [apply tame_init_entry|intros e; tame].
Qed.

Lemma tame_offsetGet t W a i : tame t 1 W (r_offsetGet a i).
Proof.
  unfold r_offsetGet. apply (tame_read _ _ _ _ _ c_log); [apply reads_log|]. intros [[log cur] k].
  destruct (_ || _); [tame|apply tame_init_entry].
Qed.

Lemma tame_iterator_current t W a : tame t 1 W (r_iterator_current a).
Proof.
  unfold r_iterator_current. apply (tame_read _ _ _ _ _ c_iterator); [apply reads_iterator|]. intros [[d cur] i].
  destruct (Z_ISNULL cur); [|tame]. apply tame_bind0; [tame|]. intros l.
  apply (tame_read _ _ _ _ _ c_log); [apply reads_log|]. intros [[log lc] k].
  destruct (below_size i log); [|tame]. apply (tame_bind t 1 0); [apply tame_init_entry|intros e; tame].
Qed.

(** [getLog] reads a struct with a callback, and [flush] writes it back. *)
Lemma reads_cb p h h' l c :
  get_profiler_obj p h = (h', Ok (l, c)) ->
  h' = h /\ class_at h p = Some c_profiler /\
  forall u d, get_profiler_obj p (set_cb u d h) = (set_cb u d h, Ok (l, if decide (p = u) then d else c)).
Proof.
  unfold get_profiler_obj, get_obj, class_at, get_state, mbind, M_bind, lift.
  destruct (objs h !! p) as [o|] eqn:Ho; [|done]. cbn [deref]. destruct (body o) eqn:Hbo; try discriminate.
  intros [= <- <- <-]. split_and!; [done|simpl; by rewrite Hbo|]. intros u d. rewrite (set_cb_at u d h p o Ho), Hbo.
  cbn [deref body]. by case_decide.
Qed.

Lemma tame_getLog t W p : tame t 0 W (r_getLog p).
Proof.
  intros h h' x Hb Ht HW. unfold r_getLog. unfold mbind at 1, M_bind at 1.
  destruct (get_profiler_obj p h) as [h1 [[l c]|msg|why|]] eqn:Hg; [|done..].
  destruct (reads_cb p h h1 l c Hg) as (-> & _ & Hcb). intros Hrun.
  destruct (tame_copy t W l h h' x Hb Ht HW Hrun) as (? & ? & ? & Hcb2). split_and!; [done..|]. intros u Hu Hs d.
  rewrite (bind_ok _ _ _ _ _ (Hcb u d)). by apply Hcb2.
Qed.

(** [ExcimerProfiler_flush] up to the assignment of the new log. *)
Definition flush_logs l : M heap (zval_ref * handle) :=
  old ← ZVAL_COPY l;
  _ ← Z_DELREF l;
  a ← zobj l;
  '(log, _, _) ← get_log_obj a;
  n ← object_init_ex (b_log (excimer_log_copy_options (obj_log ExcimerLog_new) log) z_null 0);
  mret (old, n).

Lemma tame_flush_logs t W l : tame t 1 W (flush_logs l).
Proof. unfold flush_logs. tame. apply tame_delref. Qed.

Lemma r_flush_eq p h :
  r_flush p h = ('(l, c) ← get_profiler_obj p; '(old, n) ← flush_logs l; _ ← put_body p (b_profiler (z_obj n) c); mret old) h.
Proof.
  unfold r_flush, flush_logs, mbind, M_bind, mret, M_ret. repeat (case_match; simplify_eq/=; try done).
Qed.

Lemma tame_flush t W p : tame t 1 W (r_flush p).
Proof.
  intros h h' x Hb Ht HW. rewrite r_flush_eq. unfold mbind at 1, M_bind at 1.
  destruct (get_profiler_obj p h) as [h1 [[l c]|msg|why|]] eqn:Hg; [|done..].
  destruct (reads_cb p h h1 l c Hg) as (-> & Hcl & Hcb). unfold mbind at 1, M_bind at 1.
  destruct (flush_logs l h) as [h1 [[old n]|msg|why|]] eqn:Hf; [|done..].
  destruct (tame_flush_logs t W l h h1 _ Hb Ht HW Hf) as (Hb1 & Hk1 & Hs1 & Hcb1). pose proof Hk1 as [Hn1 Hc1].
  assert (Hp : (p < next_handle h)%positive) by (apply Hb, class_alive_iff; by rewrite Hcl).
  destruct (objs h1 !! p) as [o|] eqn:Ho.
  2:{ unfold put_body, get_obj, mbind, M_bind, get_state, lift. by rewrite Ho. }
  rewrite (bind_ok _ _ _ _ _ (put_body_ok h1 p o (b_profiler (z_obj n) c) Ho)). intros [= <- <-].
  assert (Hbo : c_profiler = class_of (body o)).
  { specialize (Hc1 p Hp ltac:(eauto)). unfold class_at in Hc1, Hcl. rewrite Ho in Hc1. simpl in Hc1. congruence. }
  destruct (tame_update h1 p o (refcount o) (b_profiler (z_obj n) c) Hb1 Ho Hbo) as (Hb2 & Hk2 & Hs2).
  pose proof Hk2 as [Hn2 Hc2]. split_and!; [done| |lia|].
  - split; [lia|]. intros a Ha Hs. rewrite Hc2 by (lia || done). apply Hc1; [done|].
    by apply (keeps_classes_alive h1 _ a Hk2); [lia|].
  - intros u Hu Hs d. specialize (Ht u Hu).
    assert (Ht1 : is_Some (objs h1 !! u)) by (by apply (keeps_classes_alive h1 _ u Hk2); [lia|]).
    rewrite r_flush_eq, (bind_ok _ _ _ _ _ (Hcb u d)), (bind_ok _ _ _ _ _ (Hcb1 u Hu Ht1 d)).
    rewrite (bind_ok _ _ _ _ _ (put_body_ok _ _ _ _ (set_cb_at u d h1 p o Ho))), set_cb_insert. cbn [refcount]. by case_decide.
Qed.

Lemma tame_setFlushCallback t W p v : t <> Some p -> tame t 0 W (r_setFlushCallback p v).
Proof.
  intros Hne. unfold r_setFlushCallback. apply (tame_read _ _ _ _ _ c_profiler); [by apply reads_profiler|].
  intros [l c]. tame. by left.
Qed.

Lemma tame_profiler_new t W : tame t 2 W r_profiler_new.
Proof. unfold r_profiler_new. apply tame_alloc. intros p Hp. apply tame_alloc. intros l Hl. tame. by left. Qed.

Lemma tame_closure t W l : tame t 1 W (r_closure l).
Proof. unfold r_closure. apply tame_bind0; [apply tame_copy_all|]. intros zs. tame. Qed.

(** The operations that [n_call] runs as they are in [ObjectRefs]. *)
Definition plain (op : ref_op) : bool :=
  match op with op_release _ | op_clearFlushCallback _ | op_setCallback _ _ | op_clearCallback _ => false | _ => true end.

Lemma tame_run_op t op :
  plain op = true -> (changes_callback op = None \/ changes_callback op <> t) -> tame t 2 [] (run_op op).
Proof.
  intros Hp Hc. destruct op; try discriminate Hp; cbn [run_op].
  all: try (apply (tame_le _ 1); [|lia]; first [apply tame_current|apply tame_offsetGet|apply tame_iterator_current
    |apply tame_flush|apply tame_closure|apply tame_new]).
  all: try apply tame_profiler_new.
  all: try (unfold unit_null, r_set_log, r_next, r_rewind, r_entry_log, r_get_iterator, r_timer_new,
    r_iterator_move_forward, r_iterator_rewind, r_iterator_invalidate_current; by tame).
  - apply (tame_le _ 0); [apply tame_getLog|lia].
  - apply tame_bind0; [apply tame_setFlushCallback; destruct Hc as [Hc|Hc]; [discriminate Hc|by apply not_eq_sym]|]. intros _. tame.
Qed.

End tame.

(** ** Lemmas: stale callbacks *)

Section stale.
  Context {HT : Type -> Type -> Type} `{ZendHash HT}.
  Abbreviation heap := (heap HT).
  Implicit Types (h : heap) (a t : handle) (B : list (handle * (obj_class * zval_ref))).

Lemma stale_cons t k c B h : stale ((t, (k, c)) :: B) h = set_cb t c (stale B h).
Proof. done. Qed.

Lemma stale_next B h : next_handle (stale B h) = next_handle h.
Proof. induction B as [|[t [k c]] B IH]; [done|exact IH]. Qed.

Lemma stale_class B h a : class_at (stale B h) a = class_at h a.
Proof. induction B as [|[t [k c]] B IH]; [done|]. rewrite stale_cons. by rewrite set_cb_class. Qed.

Lemma stale_alive B h a : is_Some (objs (stale B h) !! a) <-> is_Some (objs h !! a).
Proof. by rewrite !class_alive_iff, stale_class. Qed.

Lemma stale_at B h a o : objs h !! a = Some o ->
  exists b, objs (stale B h) !! a = Some (ZObject HT (refcount o) b) /\ class_of b = class_of (body o) /\
    (a ∉ B.*1 -> b = body o).
Proof.
  intros Ha. induction B as [|[t [k c]] B (b & IHa & IHc & IHb)]; [exists (body o); by destruct o|].
  rewrite stale_cons. eexists. rewrite (set_cb_at t c _ a _ IHa). cbn [refcount body]. split_and!; [done| |].
  - case_decide; [by rewrite set_callback_class|done].
  - intros Hn. rewrite decide_False by set_solver. apply IHb. set_solver.
Qed.

Lemma size_set_cb t c h : size (objs (set_cb t c h)) = size (objs h).
Proof.
  destruct (objs h !! t) as [o|] eqn:Ho.
  - rewrite (set_cb_insert_eq t c h o Ho). cbn [objs set_objs]. by rewrite map_size_insert_Some by eauto.
  - f_equal. unfold set_cb. cbn [objs set_objs]. apply map_eq. intros a. destruct (decide (a = t)) as [->|Hne];
      [by rewrite lookup_alter_eq, Ho|by rewrite lookup_alter_ne].
Qed.

Lemma size_stale B h : size (objs (stale B h)) = size (objs h).
Proof. induction B as [|[t [k c]] B IH]; [done|]. rewrite stale_cons. by rewrite size_set_cb. Qed.

Lemma stale_bounded B h : bounded h -> bounded (stale B h).
Proof. intros Hb a Ha. rewrite stale_next. apply Hb. by apply stale_alive in Ha. Qed.

Lemma stale_knows W B h : knows W h -> knows W (stale B h).
Proof.
  intros HW a c Ha. rewrite stale_next, stale_class. destruct (HW a c Ha) as [? [Hn|?]]; (split; [done|]); [left|by right].
  apply eq_None_not_Some. rewrite stale_alive. by apply eq_None_not_Some.
Qed.

Lemma knows_nil h : knows [] h.
Proof. intros a c Ha. by apply elem_of_nil in Ha. Qed.

(** Tame code does the same with stale callbacks. *)
Lemma stale_tame {A} B n W (f : M heap A) h h' x :
  (forall t, t ∈ B.*1 -> tame (Some t) n W f /\ (t < next_handle h)%positive /\ is_Some (objs h' !! t)) ->
  bounded h -> knows W h -> f h = (h', Ok x) -> f (stale B h) = (stale B h', Ok x).
Proof.
  intros HB Hb HW Hrun. induction B as [|[t [k c]] B IH]; [done|]. rewrite !stale_cons.
  destruct (HB t) as (Ht & Hlt & Hs); [rewrite fmap_cons; set_solver|].
  apply (Ht (stale B h) (stale B h') x); [..|done|].
  - by apply stale_bounded.
  - intros u [= <-]. by rewrite stale_next.
  - by apply stale_knows.
  - apply IH. intros t' Ht'. apply HB. rewrite fmap_cons. set_solver.
  - by apply stale_alive.
Qed.

(** A change of a count. *)
Lemma stale_count B h a o b m :
  bounded h -> objs h !! a = Some o -> (forall t, t ∈ B.*1 -> is_Some (objs h !! t)) ->
  objs (stale B h) !! a = Some (ZObject HT (refcount o) b) ->
  set_objs (<[a := ZObject HT m b]> (objs (stale B h))) (stale B h)
  = stale B (set_objs (<[a := ZObject HT m (body o)]> (objs h)) h).
Proof.
  intros Hb Ha HB Hs. pose (f := (o ← get_obj a; put_obj a (ZObject HT m (body o))) : M heap unit).
  assert (Hrun : f h = (set_objs (<[a := ZObject HT m (body o)]> (objs h)) h, Ok tt)).
  { unfold f. by rewrite (bind_ok _ _ _ _ _ (get_obj_ok h a o Ha)). }
  assert (Hst : f (stale B h) = (stale B (set_objs (<[a := ZObject HT m (body o)]> (objs h)) h), Ok tt)).
  { apply (stale_tame B 0 [] f h); [|done|apply knows_nil|done]. intros t Ht. destruct (HB t Ht) as [ot Hot]. split_and!.
    - apply (tame_count (Some t) [] a (fun _ => m)).
    - apply Hb. eauto.
    - cbn [objs set_objs]. rewrite lookup_insert_is_Some'. eauto. }
  unfold f in Hst. rewrite (bind_ok _ _ _ _ _ (get_obj_ok _ a _ Hs)) in Hst. by injection Hst.
Qed.

Lemma stale_delete B h a : a ∉ B.*1 ->
  stale B (set_objs (delete a (objs h)) h) = set_objs (delete a (objs (stale B h))) (stale B h).
Proof.
  induction B as [|[t [k c]] B IH]; [done|]. rewrite fmap_cons. intros Hn. rewrite !stale_cons, IH by set_solver.
  apply heap_eq; [|done]. intros x. rewrite set_cb_lookup. cbn [objs set_objs].
  destruct (decide (x = a)) as [->|Hne]; [by rewrite !lookup_delete_eq|].
  rewrite !lookup_delete_ne by done. symmetry. apply (set_cb_lookup t c (stale B h) x).
Qed.

Lemma set_cb_stale t c B h : t ∉ B.*1 -> set_cb t c (stale B h) = stale B (set_cb t c h).
Proof.
  induction B as [|[t' [k' c']] B IH]; [done|]. rewrite fmap_cons. intros Hn. rewrite !stale_cons, <-IH by set_solver.
  apply heap_eq; [|done]. intros x. rewrite !set_cb_lookup. destruct (objs (stale B h) !! x) as [o|]; [|done].
  simpl. do 2 f_equal. repeat case_decide; try done. subst. set_solver.
Qed.

Lemma set_cb_twice t c c' h : set_cb t c (set_cb t c' h) = set_cb t c h.
Proof.
  apply heap_eq; [|done]. intros x. rewrite !set_cb_lookup. destruct (objs h !! x) as [o|]; [|done].
  simpl. do 2 f_equal. case_decide; [|done]. by destruct (body o).
Qed.

Lemma set_cb_same t c h o : objs h !! t = Some o -> set_callback_of c (body o) = body o -> set_cb t c h = h.
Proof.
  intros Ho Hc. apply heap_eq; [|done]. intros x. rewrite set_cb_lookup. destruct (decide (x = t)) as [->|Hne].
  - rewrite Ho. destruct o. simpl in *. by rewrite Hc.
  - by destruct (objs h !! x) as [[? ?]|].
Qed.

(** A callback that is taken out of its field, and is stale there. *)
Lemma stale_push t k c B h o :
  t ∉ B.*1 -> objs h !! t = Some o -> set_callback_of c (body o) = body o ->
  stale B h = stale ((t, (k, c)) :: B) (set_cb t z_null h).
Proof.
  intros Hn Ho Hc. by rewrite stale_cons, set_cb_stale, set_cb_twice, (set_cb_same t c h o).
Qed.

(** The field is overwritten. *)
Lemma put_stale t k c B h o b :
  t ∉ B.*1 -> bounded h -> (forall t, t ∈ B.*1 -> is_Some (objs h !! t)) ->
  objs h !! t = Some o -> class_of b = class_of (body o) ->
  put_body t b (stale ((t, (k, c)) :: B) h)
  = (stale B (set_objs (<[t := ZObject HT (refcount o) b]> (objs h)) h), Ok tt).
Proof.
  intros Hn Hb HB Ho Hc. destruct (stale_at B h t o Ho) as (b1 & Ho1 & Hb1 & _).
  rewrite stale_cons, (set_cb_body t c _ _ Ho1), put_body_over.
  apply (stale_tame B 0 [(t, class_of b)]); [|done| |by apply put_body_ok].
  - intros t' Ht'. destruct (HB t' Ht') as [o' Ho']. split_and!.
    + apply tame_put_body; [by apply list_elem_of_singleton|left]. intros [= ->]. done.
    + apply Hb. eauto.
    + cbn [objs set_objs]. rewrite lookup_insert_is_Some'. eauto.
  - intros a c' Ha. apply list_elem_of_singleton in Ha as [= -> ->]. split; [by apply Hb|right].
    unfold class_at. rewrite Ho. simpl. by rewrite Hc.
Qed.

End stale.

(** ** Lemmas: destructors *)

Section destructors_facts.
  Context {HT : Type -> Type -> Type} `{ZendHash HT}.
  Abbreviation heap := (heap HT).
  Abbreviation nstate := (nstate HT).
  Variable destructors : gmap handle (list php_op).
  Implicit Types (h : heap) (s : nstate) (a t p : handle) (E : list handle) (B : list (handle * (obj_class * zval_ref))).
  Abbreviation effort := (effort destructors).

Lemma effort_eq s : effort s = (size (objs (nheap s)) + pending destructors (called s))%nat.
Proof. done. Qed.

Lemma n_safe_bind {A C} (Q : C -> nstate -> Prop) (m : M nstate A) (k : A -> M nstate C) s :
  safe (fun x s1 => safe Q (k x) s1) m s -> safe Q (m ≫= k) s.
Proof. unfold safe, mbind, M_bind. by destruct (m s) as [s1 [x|msg|why|]]. Qed.

Lemma safe_mono {A} (Q Q' : A -> nstate -> Prop) (m : M nstate A) s :
  safe Q m s -> (forall x s', Q x s' -> Q' x s') -> safe Q' m s.
Proof. unfold safe. destruct (m s) as [s1 [x|msg|why|]]; auto. Qed.

Definition with_heap h s : nstate := NState HT h (called s) (php s) (frames s) (lost s) (busy s).

Lemma safe_heap {A} (Q : A -> nstate -> Prop) (f : M heap A) s h' x :
  f (nheap s) = (h', Ok x) -> Q x (with_heap h' s) -> safe Q (on_heap f) s.
Proof. intros Hf HQ. unfold safe, on_heap. by rewrite Hf. Qed.

Lemma n_inv_alive E s h a : ref_inv h (E ++ php s ++ frames s ++ lost s) -> a ∈ frames s -> is_Some (objs h !! a).
Proof. intros Hi Ha. apply (alive_handle h _ a Hi). set_solver. Qed.

Lemma ref_inv_bounded h R : ref_inv h R -> bounded h.
Proof. intros [Hrc _]. exact (rc_bound _ _ Hrc). Qed.

(** References move between [E], PHP variables, frames and the lost ones. *)
Lemma n_inv_move E E' s s' B :
  n_inv E s B -> nheap s' = nheap s -> busy s' = busy s ->
  E ++ php s ++ frames s ++ lost s ≡ₚ E' ++ php s' ++ frames s' ++ lost s' ->
  (forall t, t ∈ B.*1 -> t ∈ frames s -> t ∈ frames s') -> n_inv E' s' B.
Proof.
  intros (Hb & Hnd & h & Hh & Hi & HB) Hh' Hb' Hp Hf. split_and!; [congruence|done|]. exists h.
  split_and!; [congruence|by apply (ref_inv_perm h _ _ Hp)|]. intros t k c Ht.
  destruct (HB t k c Ht) as (? & ? & ?). split_and!; [|done|done]. apply Hf; [|done].
  apply list_elem_of_fmap. by exists (t, (k, c)).
Qed.

Lemma B_in_frames E s B t : n_inv E s B -> t ∈ B.*1 -> t ∈ frames s.
Proof.
  intros (_ & _ & h & _ & _ & HB) ([t' [k c]] & -> & Ht)%list_elem_of_fmap. by apply (HB t' k c).
Qed.

(** What a release does, and with [n] new objects. *)
Definition done_with (n : nat) E B s (_ : unit) (s' : nstate) : Prop :=
  n_inv E s' B /\ frames s' = frames s /\ (effort s' <= n + effort s)%nat.

(** *** Code around a release *)

Section level.
  Variables (D : zval_ref -> M nstate unit) (N : nat).
  Hypothesis D_safe : forall z E s B,
    n_inv (zrefs z ++ E) s B -> (effort s < N)%nat -> safe (done_with 0 E B s) (D z) s.

Lemma leave_safe l E s B fr :
  n_inv E s B -> frames s = l ++ fr -> (forall t, t ∈ B.*1 -> t ∈ fr) -> (effort s < N)%nat ->
  safe (fun _ s' => n_inv E s' B /\ frames s' = fr /\ (effort s' <= effort s)%nat) (leave_frame D l) s.
Proof.
  revert s. induction l as [|a l IH]; intros s Hinv Hfr HB Hn; [done|]. cbn [leave_frame].
  set (s1 := set_frames (tail (frames s)) s).
  assert (Hf1 : frames s1 = l ++ fr) by (simpl; by rewrite Hfr).
  assert (Hi1 : n_inv (a :: E) s1 B).
  { apply (n_inv_move E _ s); [done..| |].
    - rewrite Hf1, Hfr. simpl. perm_app.
    - intros t Ht _. rewrite Hf1. set_solver. }
  apply n_safe_bind. unfold safe at 1, modify. cbv beta iota. fold s1.
  apply n_safe_bind. eapply safe_mono; [by apply (D_safe (z_obj a) E s1 B Hi1)|].
  intros [] s2 (Hi2 & Hf2 & He2). eapply safe_mono; [apply IH; [done|congruence|done|]|].
  - change (effort s1) with (effort s) in He2. lia.
  - intros [] s3 (Hi3 & Hf3 & He3). split_and!; [done|done|]. change (effort s1) with (effort s) in He2. lia.
Qed.

Lemma two_safe z1 z2 E s B :
  n_inv (zrefs z1 ++ zrefs z2 ++ E) s B -> (effort s < N)%nat ->
  safe (done_with 0 E B s) (_ ← D z1; D z2) s.
Proof.
  intros Hinv Hn. apply n_safe_bind. eapply safe_mono; [by apply (D_safe z1 (zrefs z2 ++ E))|].
  intros [] s1 (Hi1 & Hf1 & He1). eapply safe_mono; [apply (D_safe z2 E s1 B Hi1); lia|].
  intros [] s2 (Hi2 & Hf2 & He2). split_and!; [done|congruence|lia].
Qed.

Lemma n_inv_perm E E' s B : E ≡ₚ E' -> n_inv E s B -> n_inv E' s B.
Proof. intros Hp Hi. apply (n_inv_move E E' s s B Hi); [done|done|by rewrite Hp|done]. Qed.

Lemma free_obj_safe (b : obj_body HT) E s B :
  n_inv (body_refs b ++ E) s B -> (effort s < N)%nat -> safe (done_with 0 E B s) (free_obj D b) s.
Proof.
  intros Hinv Hn. destruct b as [l c|c|log c i|l i|d c i|zs]; cbn [free_obj body_refs] in *;
    try (by apply D_safe); rewrite <-?app_assoc in Hinv.
  - by apply two_safe.
  - apply two_safe; [|done]. revert Hinv. apply n_inv_perm. rewrite !app_assoc. by rewrite (Permutation_app_comm (zrefs d)).
  - revert s Hinv Hn. induction zs as [|z zs IH]; intros s Hinv Hn; simpl in Hinv; [by split_and!|].
    cbn [free_captured]. rewrite <-app_assoc in Hinv. apply n_safe_bind.
    eapply safe_mono; [by apply (D_safe z)|]. intros [] s1 (Hi1 & Hf1 & He1).
    eapply safe_mono; [apply (IH s1 Hi1); lia|]. intros [] s2 (Hi2 & Hf2 & He2). split_and!; [done|congruence|lia].
Qed.

End level.

(** *** Operations that run no PHP code *)

Lemma stale_allowed op B h R : op_allowed op (stale B h) R = op_allowed op h R.
Proof.
  unfold op_allowed. induction (op_args op) as [|[a c] l IH]; [done|]. cbn [forallb]. rewrite IH.
  destruct c; [by rewrite stale_class|done].
Qed.

Lemma not_busy op a s B :
  php_allowed false op s = true -> changes_callback op = Some a -> busy s = B.*1 -> a ∉ B.*1.
Proof.
  intros Hal Hc Hb. unfold php_allowed in Hal. rewrite Hc, Hb in Hal. apply andb_prop in Hal as [_ Hal].
  by apply bool_decide_eq_true in Hal.
Qed.

Lemma stale_lost op s B h : php_allowed false op s = true -> busy s = B.*1 -> lost_by op (stale B h) = lost_by op h.
Proof.
  intros Hal Hb. destruct op; try done. simpl. pose proof (not_busy _ p s B Hal eq_refl Hb) as Hn.
  destruct (objs h !! p) as [o|] eqn:Ho.
  - destruct (stale_at B h p o Ho) as (b & -> & _ & Hbo). simpl. by rewrite (Hbo Hn).
  - destruct (objs (stale B h) !! p) eqn:He; [|done]. exfalso.
    assert (Hs : is_Some (objs h !! p)) by (apply (stale_alive B); eauto). rewrite Ho in Hs. by destruct Hs.
Qed.

(** Tame code in a state with stale callbacks. *)
Lemma tame_heap {A} (f : M heap A) n E E' s B h h' x :
  busy s = B.*1 -> NoDup B.*1 -> nheap s = stale B h -> ref_inv h (E ++ php s ++ frames s ++ lost s) ->
  (forall t k c, (t, (k, c)) ∈ B -> t ∈ frames s /\ class_at h t = Some k /\ set_cb t z_null h = h) ->
  tame None n [] f -> (forall t, t ∈ B.*1 -> tame (Some t) n [] f) ->
  f h = (h', Ok x) -> ref_inv h' (E' ++ php s ++ frames s ++ lost s) ->
  f (nheap s) = (stale B h', Ok x) /\ n_inv E' (with_heap (stale B h') s) B /\ (size (objs h') <= n + size (objs h))%nat /\
  keeps_classes h h'.
Proof.
  intros Hb Hnd Hh Hi HB Hnone Htame Hrun Hi'. pose proof (ref_inv_bounded _ _ Hi) as Hbd.
  destruct (Hnone h h' x Hbd ltac:(done) (knows_nil h) Hrun) as (_ & Hk & Hs & _).
  assert (Hal : forall t, t ∈ B.*1 -> t ∈ frames s).
  { intros t ([t' [k c]] & -> & Ht)%list_elem_of_fmap. by apply (HB t' k c). }
  split_and!; [| |done|done].
  - rewrite Hh. apply (stale_tame B n []); [|done|apply knows_nil|done]. intros t Ht. pose proof (Hal t Ht) as Hf.
    split_and!; [by apply Htame|apply Hbd|]; eapply n_inv_alive; eauto.
  - split_and!; [done|done|]. exists h'. split_and!; [done|exact Hi'|]. intros t k c Ht.
    destruct (HB t k c Ht) as (Hf & Hcl & Hnull).
    assert (Ht1 : t ∈ B.*1) by (apply list_elem_of_fmap; by exists (t, (k, c))).
    assert (Ha : is_Some (objs h !! t)) by (eapply n_inv_alive; eauto).
    assert (Ha' : is_Some (objs h' !! t)) by (eapply n_inv_alive; eauto).
    destruct Hk as [_ Hkc]. split_and!; [done|rewrite Hkc by auto; done|].
    destruct (Htame t Ht1 h h' x Hbd) as (_ & _ & _ & Hcb); [intros u [= <-]; by apply Hbd|apply knows_nil|done|].
    specialize (Hcb t eq_refl Ha' z_null). rewrite Hnull, Hrun in Hcb. by injection Hcb.
Qed.

Lemma plain_safe op E s B :
  plain op = true -> php_allowed false op s = true -> n_inv E s B ->
  safe (fun z s' => n_inv (zrefs z ++ lost_by op (nheap s) ++ E) s' B /\ frames s' = frames s /\ (effort s' <= 2 + effort s)%nat)
    (on_heap (run_op op)) s.
Proof.
  intros Hp Hal (Hb & Hnd & h & Hh & Hi & HB).
  assert (Hok : op_allowed op h (php s ++ frames s) = true).
  { pose proof Hal as Hal'. unfold php_allowed in Hal'. apply andb_prop in Hal' as [Hok _]. rewrite Hh, stale_allowed in Hok.
    by destruct op. }
  destruct (run_op_ok op h (php s ++ frames s) (E ++ lost s)) as (h' & z & Hrun & Hi'); [|done|].
  { revert Hi. apply ref_inv_perm. perm_app. }
  assert (Hl : lost_by op (nheap s) = lost_by op h) by (rewrite Hh; by apply (stale_lost op s B h)).
  destruct (tame_heap (run_op op) 2 E (zrefs z ++ lost_by op h ++ E) s B h h' z) as (Hr & Hn & Hsz & _); [done..| | |done| |].
  - apply tame_run_op; [done|]. destruct (changes_callback op); [by right|by left].
  - intros t Ht. apply tame_run_op; [done|]. right. intros Hc. by apply (not_busy op t s B Hal Hc).
  - revert Hi'. apply ref_inv_perm. assert (roots_after op (php s ++ frames s) z = zrefs z ++ php s ++ frames s) as ->
      by (by destruct op). perm_app.
  - apply (safe_heap _ _ _ _ _ Hr). split_and!; [by rewrite Hl|done|].
    rewrite !effort_eq. cbn [nheap called with_heap]. rewrite Hh, !size_stale. lia.
Qed.

(** *** Operations that release a callback *)

(** The class of [t] and its callback. *)
Definition cb_in h t k c : Prop := exists o, objs h !! t = Some o /\
  match body o with
  | b_profiler _ c' => k = c_profiler /\ c' = c
  | b_timer c' => k = c_timer /\ c' = c
  | _ => False
  end.

Lemma cb_in_null h t k c o :
  objs h !! t = Some o -> cb_in h t k c ->
  class_of (body o) = k /\ set_callback_of c (body o) = body o /\
  set_cb t z_null h = set_objs (<[t := ZObject HT (refcount o) (set_callback_of z_null (body o))]> (objs h)) h /\
  body_refs (body o) ≡ₚ body_refs (set_callback_of z_null (body o)) ++ zrefs c.
Proof.
  intros Ho (o' & Ho' & Hb). simplify_eq. rewrite (set_cb_insert_eq t z_null h o Ho).
  destruct (body o) as [l c'|c'| | | |] eqn:Hbo; try done; destruct Hb as [-> ->]; split_and!; try done.
  simpl. by rewrite app_nil_r.
Qed.

Lemma ref_inv_null h t k c R :
  ref_inv h R -> cb_in h t k c ->
  ref_inv (set_cb t z_null h) (zrefs c ++ R) /\ class_at h t = Some k.
Proof.
  intros Hi Hc. pose proof Hc as (o & Ho & Hbo). destruct (cb_in_null h t k c o Ho Hc) as (Hk & _ & -> & Hp).
  assert (Hcl : class_at h t = Some k) by (unfold class_at; rewrite Ho; simpl; by rewrite Hk). split; [|done].
  apply (put_body_inv h R t o _ (body_refs (set_callback_of z_null (body o))) (zrefs c) []);
    [done|done|apply set_callback_class| |done|by rewrite app_nil_r].
  pose proof (proj2 Hi t o Ho) as Hok. by destruct (body o).
Qed.

Section level_callbacks.
  Variables (D : zval_ref -> M nstate unit) (N : nat).
  Hypothesis D_safe : forall z E s B,
    n_inv (zrefs z ++ E) s B -> (effort s < N)%nat -> safe (done_with 0 E B s) (D z) s.

Lemma null_body t h o : set_cb t z_null h = h -> objs h !! t = Some o -> body o = set_callback_of z_null (body o).
Proof.
  intros Hnull Ho. rewrite (set_cb_insert_eq t z_null h o Ho) in Hnull. pose proof (f_equal (fun h => objs h !! t) Hnull) as Heq.
  simpl in Heq. rewrite lookup_insert_eq, Ho in Heq. injection Heq as Heq. by rewrite <-Heq at 1.
Qed.

(** After the release, the callback of [t] is stale, and [t] is not busy any more. *)
Definition left_stale t k c E B s s' : Prop :=
  busy s' = B.*1 /\ frames s' = frames s /\ (effort s' <= effort s)%nat /\
  exists h, nheap s' = stale ((t, (k, c)) :: B) h /\ ref_inv h (E ++ php s' ++ frames s' ++ lost s') /\
    forall t' k' c', (t', (k', c')) ∈ (t, (k, c)) :: B ->
      t' ∈ frames s' /\ class_at h t' = Some k' /\ set_cb t' z_null h = h.

Lemma releasing_safe t k c E s B h :
  busy s = B.*1 -> NoDup B.*1 -> nheap s = stale B h -> ref_inv h (E ++ php s ++ frames s ++ lost s) ->
  (forall t k c, (t, (k, c)) ∈ B -> t ∈ frames s /\ class_at h t = Some k /\ set_cb t z_null h = h) ->
  t ∉ B.*1 -> t ∈ frames s -> cb_in h t k c -> (effort s < N)%nat ->
  safe (fun _ => left_stale t k c E B s) (releasing D t c) s.
Proof.
  intros Hb Hnd Hh Hi HB Hn Ht Hc He. pose proof Hc as (o & Ho & _).
  destruct (cb_in_null h t k c o Ho Hc) as (Hk & Hsame & _). destruct (ref_inv_null h t k c _ Hi Hc) as [Hi1 Hcl].
  set (s1 := set_busy (t :: busy s) s).
  assert (Hinv1 : n_inv (zrefs c ++ E) s1 ((t, (k, c)) :: B)).
  { split_and!; [simpl; by rewrite Hb|rewrite fmap_cons; by constructor|]. exists (set_cb t z_null h). split_and!.
    - simpl. by rewrite Hh, (stale_push t k c B h o).
    - by rewrite <-app_assoc.
    - intros t' k' c' [[= -> -> ->]|Hin]%elem_of_cons.
      + by rewrite set_cb_class, set_cb_twice.
      + destruct (HB t' k' c' Hin) as (? & ? & Hnull). rewrite set_cb_class. split_and!; [done|done|].
        assert (Hne : t <> t') by (intros ->; apply Hn, list_elem_of_fmap; by exists (t', (k', c'))).
        rewrite <-Hnull at 2. apply heap_eq; [|done]. intros x. rewrite !set_cb_lookup.
        destruct (objs h !! x) as [ox|]; [|done]. simpl. do 2 f_equal. repeat case_decide; congruence. }
  apply n_safe_bind. unfold safe at 1, modify. cbv beta iota. fold s1.
  apply n_safe_bind. eapply safe_mono; [by apply (D_safe c E s1 _ Hinv1)|].
  intros [] s2 ((Hb2 & Hnd2 & h2 & Hh2 & Hi2 & HB2) & Hf2 & He2). unfold safe, modify.
  split_and!; [simpl; by rewrite Hb2|exact Hf2|exact He2|]. by exists h2.
Qed.

(** The field is overwritten with [z], a reference of the running operation. *)
Lemma overwrite_safe t k c z b E s0 s B h :
  busy s = B.*1 -> frames s = frames s0 -> (effort s <= effort s0)%nat -> NoDup B.*1 -> t ∉ B.*1 -> nheap s = stale ((t, (k, c)) :: B) h ->
  ref_inv h (zrefs z ++ E ++ php s ++ frames s ++ lost s) ->
  (forall t' k' c', (t', (k', c')) ∈ (t, (k, c)) :: B -> t' ∈ frames s /\ class_at h t' = Some k' /\ set_cb t' z_null h = h) ->
  (forall o, objs h !! t = Some o -> b = set_callback_of z (body o)) -> k = c_profiler \/ k = c_timer ->
  safe (done_with 0 E B s0) (on_heap (put_body t b)) s.
Proof.
  intros Hb Hf He Hnd Hn Hh Hi HB Hbz Hk. destruct (HB t k c) as (Ht & Hcl & Hnull); [by left|].
  pose proof (ref_inv_bounded _ _ Hi) as Hbd.
  assert (HBa : forall t', t' ∈ B.*1 -> is_Some (objs h !! t')).
  { intros t' ([t1 [k1 c1]] & -> & Hin)%list_elem_of_fmap. destruct (HB t1 k1 c1) as (_ & Hc1 & _); [by right|].
    apply class_alive_iff. simpl. by rewrite Hc1. }
  destruct (objs h !! t) as [o|] eqn:Ho; [|unfold class_at in Hcl; by rewrite Ho in Hcl].
  specialize (Hbz o eq_refl). unfold class_at in Hcl. rewrite Ho in Hcl. injection Hcl as Hcl.
  assert (Hcb : class_of b = class_of (body o)) by (rewrite Hbz; apply set_callback_class).
  eapply safe_heap; [rewrite Hh; by apply (put_stale t k c B h o b)|]. set (h' := set_objs _ h).
  pose proof (null_body t h o Hnull Ho) as Hbody.
  destruct (put_body_inv h (E ++ php s ++ frames s ++ lost s) t o b (body_refs (body o)) [] (zrefs z)) as [_ Hi'];
    [exact Hi|done|done| |by rewrite app_nil_r| |].
  - pose proof (proj2 Hi t o Ho) as Hok. rewrite Hbz. by destruct (body o).
  - rewrite Hbz. destruct (body o) as [l c'|c'| | | |]; simpl in Hcl; destruct Hk; simplify_eq/=; by rewrite ?app_nil_r.
  - split_and!; [|done|].
    + split_and!; [done|done|]. exists h'. split_and!; [done|exact Hi'|]. intros t' k' c' Hin.
      destruct (HB t' k' c') as (? & Hcl' & Hnull'); [by right|].
      assert (Hne : t' <> t) by (intros ->; apply Hn, list_elem_of_fmap; by exists (t, (k', c'))).
      split_and!; [done| |].
      * unfold class_at, h'. cbn [objs set_objs]. by rewrite lookup_insert_ne.
      * unfold h'. rewrite set_cb_insert, decide_False by done. by rewrite Hnull'.
    + rewrite effort_eq in He |- *. cbn [nheap called with_heap].
      rewrite Hh, size_stale in He. rewrite size_stale. cbn [objs set_objs h']. rewrite map_size_insert_Some by eauto. lia.
Qed.

Lemma n_safe_read {A} (Q : A -> nstate -> Prop) (f : M heap A) s x :
  f (nheap s) = (nheap s, Ok x) -> Q x s -> safe Q (on_heap f) s.
Proof. intros Hf HQ. apply (safe_heap Q f s _ x Hf). by destruct s. Qed.

(** What the structs of [h] look like in the heap, where callbacks may be stale. *)
Lemma read_timer h B t : t ∉ B.*1 -> class_at h t = Some c_timer ->
  exists c, get_timer_cb t (stale B h) = (stale B h, Ok c) /\ cb_in h t c_timer c.
Proof.
  intros Hn Hcl. destruct (timer_at h t Hcl) as (o & c & Ho & Hb & _).
  destruct (stale_at B h t o Ho) as (b & Hs & _ & Hbo). rewrite (Hbo Hn), Hb in Hs. exists c. split.
  - unfold get_timer_cb. by rewrite (bind_ok _ _ _ _ _ (get_obj_ok _ _ _ Hs)).
  - exists o. by rewrite Hb.
Qed.

Lemma read_profiler h B p : p ∉ B.*1 -> class_at h p = Some c_profiler ->
  exists o l c, objs h !! p = Some o /\ body o = b_profiler l c /\
    get_profiler_obj p (stale B h) = (stale B h, Ok (l, c)) /\ cb_in h p c_profiler c.
Proof.
  intros Hn Hcl. destruct (profiler_at h p Hcl) as (o & l & c & Ho & Hb & _).
  destruct (stale_at B h p o Ho) as (b & Hs & _ & Hbo). rewrite (Hbo Hn), Hb in Hs. exists o, l, c. split_and!; [done|done| |].
  - unfold get_profiler_obj. by rewrite (bind_ok _ _ _ _ _ (get_obj_ok _ _ _ Hs)).
  - exists o. by rewrite Hb.
Qed.

Lemma timer_body h t o b : class_at h t = Some c_timer -> objs h !! t = Some o -> b_timer b = set_callback_of b (body o).
Proof. unfold class_at. intros Hcl Ho. rewrite Ho in Hcl. injection Hcl as Hcl. by destruct (body o). Qed.

Lemma clear_callback_safe t E s B :
  n_inv E s B -> t ∉ busy s -> t ∈ frames s -> class_at (nheap s) t = Some c_timer -> (effort s < N)%nat ->
  safe (done_with 0 E B s) (n_clear_callback D t) s.
Proof.
  intros (Hb & Hnd & h & Hh & Hi & HB) Hn Ht Hcl He. rewrite Hb in Hn. rewrite Hh, stale_class in Hcl.
  destruct (read_timer h B t Hn Hcl) as (c & Hget & Hc). unfold n_clear_callback. apply n_safe_bind.
  apply (n_safe_read _ _ _ c); [by rewrite Hh|]. apply n_safe_bind.
  eapply safe_mono; [by apply (releasing_safe t c_timer c E s B h)|]. intros [] s2 (Hb2 & Hf2 & He2 & h2 & Hh2 & Hi2 & HB2).
  apply (overwrite_safe t c_timer c z_null _ E s s2 B h2); [done..| |by right].
  intros o. apply (timer_body h2 t o z_null). apply (HB2 t c_timer c). by left.
Qed.

Lemma set_callback_safe t v E s B :
  n_inv E s B -> t ∉ busy s -> t ∈ frames s -> v ∈ frames s -> class_at (nheap s) t = Some c_timer -> (effort s < N)%nat ->
  safe (done_with 0 E B s) (n_set_callback D t v) s.
Proof.
  intros (Hb & Hnd & h & Hh & Hi & HB) Hn Ht Hv Hcl He. rewrite Hb in Hn. rewrite Hh, stale_class in Hcl.
  destruct (read_timer h B t Hn Hcl) as (c & Hget & Hc). unfold n_set_callback. apply n_safe_bind.
  apply (n_safe_read _ _ _ c); [by rewrite Hh|]. apply n_safe_bind.
  eapply safe_mono; [by apply (releasing_safe t c_timer c E s B h)|]. intros [] s2 (Hb2 & Hf2 & He2 & h2 & Hh2 & Hi2 & HB2).
  set (B2 := (t, (c_timer, c)) :: B) in *.
  destruct (copy_obj h2 _ v Hi2) as (h3 & Hr3 & Hi3 & _); [eapply n_inv_alive; [exact Hi2|]; by rewrite Hf2|].
  destruct (tame_heap (ZVAL_COPY (z_obj v)) 0 E (v :: E) (set_busy B2.*1 s2) B2 h2 h3 (z_obj v)) as (Hr & Hn3 & Hsz & _);
    [done|unfold B2; rewrite fmap_cons; by constructor|done..|apply tame_copy|intros ? _; apply tame_copy|done|exact Hi3|].
  apply n_safe_bind. apply (safe_heap _ _ s2 _ _ Hr). set (s3 := with_heap (stale B2 h3) s2).
  destruct Hn3 as (_ & _ & h3' & Hh3 & Hi3' & HB3).
  eapply (overwrite_safe t c_timer c (z_obj v) _ E s s3 B h3'); [done|done| |done|done|exact Hh3|exact Hi3'|exact HB3| |by right].
  - rewrite (effort_eq s2), Hh2, size_stale in He2. rewrite (effort_eq s3). cbn [nheap called with_heap s3].
    rewrite size_stale. lia.
  - intros o. apply (timer_body h3' t o (z_obj v)). apply (HB3 t c_timer c). by left.
Qed.

Lemma clearFlushCallback_safe p E s B :
  n_inv E s B -> p ∉ busy s -> p ∈ frames s -> class_at (nheap s) p = Some c_profiler -> (effort s < N)%nat ->
  safe (done_with 0 E B s) (n_clearFlushCallback D p) s.
Proof.
  intros (Hb & Hnd & h & Hh & Hi & HB) Hn Hp Hcl He. rewrite Hb in Hn. rewrite Hh, stale_class in Hcl.
  destruct (read_profiler h B p Hn Hcl) as (o & l & c & _ & _ & Hget & Hc). unfold n_clearFlushCallback. apply n_safe_bind.
  apply (n_safe_read _ _ _ (l, c)); [by rewrite Hh|]. apply n_safe_bind.
  eapply safe_mono; [by apply (releasing_safe p c_profiler c E s B h)|]. intros [] s2 (Hb2 & Hf2 & He2 & h2 & Hh2 & Hi2 & HB2).
  destruct (HB2 p c_profiler c) as (_ & Hcl2 & _); [by left|].
  destruct (read_profiler h2 B p Hn Hcl2) as (o2 & l2 & c2 & Ho2 & Hb2' & Hget2 & _).
  destruct (reads_cb p _ _ l2 c2 Hget2) as (_ & _ & Hcb). specialize (Hcb p c). rewrite <-(stale_cons p c_profiler c B h2) in Hcb.
  apply n_safe_bind. eapply n_safe_read; [rewrite Hh2; exact Hcb|]. cbn beta iota.
  apply (overwrite_safe p c_profiler c z_null _ E s s2 B h2); [done..| |by left].
  intros o' Ho'. simplify_eq. by rewrite Hb2'.
Qed.

(** *** Frames and calls *)

Lemma with_frame_safe l (f : M nstate unit) E s B :
  n_inv E s B -> (forall a, a ∈ l -> a ∈ php s ++ frames s) -> (effort s < N)%nat ->
  (forall s', n_inv E s' B -> frames s' = l ++ frames s -> (effort s' <= effort s)%nat -> busy s' = busy s ->
    (forall a, a ∈ l -> class_at (nheap s') a = class_at (nheap s) a) -> safe (done_with 0 E B s') f s') ->
  safe (fun z s' => z = z_null /\ done_with 0 E B s tt s') (with_frame D l f) s.
Proof.
  intros Hinv Hl He Hf. pose proof Hinv as (Hb & Hnd & h & Hh & Hi & HB).
  destruct (copy_all_ok l h _ Hi) as (h1 & Hr1 & Hi1); [set_solver|].
  destruct (tame_heap (copy_all l) 0 E (l ++ E) s B h h1 (z_obj <$> l)) as (Hr & Hn1 & Hsz & Hk);
    [done..|apply tame_copy_all|intros ? _; apply tame_copy_all|done|by rewrite <-app_assoc|].
  unfold with_frame. apply n_safe_bind. apply (safe_heap _ _ _ _ _ Hr). apply n_safe_bind. unfold safe at 1, modify. cbv beta iota.
  set (s1 := set_frames _ _).
  assert (Hi2 : n_inv E s1 B).
  { apply (n_inv_move (l ++ E) E (with_heap (stale B h1) s) s1 B Hn1); [done..| |].
    - cbn [php frames lost s1 set_frames with_heap]. perm_app.
    - intros t _ Ht. cbn [frames s1 set_frames with_heap] in *. set_solver. }
  assert (He1 : (effort s1 <= effort s)%nat).
  { rewrite !effort_eq. cbn [nheap called s1 set_frames with_heap]. rewrite Hh, !size_stale. lia. }
  apply n_safe_bind. eapply safe_mono; [apply (Hf s1 Hi2); [done|done|done|]|].
  - intros a Ha. cbn [nheap s1 set_frames with_heap]. rewrite Hh, !stale_class. destruct Hk as [_ Hkc]. apply Hkc.
    + apply (ref_inv_bounded _ _ Hi). apply (alive_handle h _ a Hi). set_solver.
    + apply (alive_handle h1 _ a Hi1). set_solver.
  - intros [] s2 (Hi3 & Hf3 & He3). apply n_safe_bind.
    eapply safe_mono; [apply (leave_safe D N D_safe l E s2 B (frames s) Hi3); [done| |lia]|].
    + intros t Ht. by apply (B_in_frames E s B t Hinv).
    + intros [] s3 (Hi4 & Hf4 & He4). unfold safe, mret, M_ret. split; [done|]. split_and!; [done|done|lia].
Qed.

(** The arguments of an allowed operation that is not a release. *)
Lemma php_arg op s a c :
  php_allowed false op s = true -> (forall a, op <> op_release a) -> (a, c) ∈ op_args op ->
  a ∈ php s ++ frames s /\ match c with Some c => class_at (nheap s) a = Some c | None => True end.
Proof.
  intros Hal Hop Hin. unfold php_allowed in Hal. apply andb_prop in Hal as [Hal _].
  apply (allowed_arg op (nheap s)); [|done]. destruct op; try done. by destruct (Hop a0).
Qed.

Lemma php_not_busy op a s : php_allowed false op s = true -> changes_callback op = Some a -> a ∉ busy s.
Proof.
  intros Hal Hc. unfold php_allowed in Hal. rewrite Hc in Hal. apply andb_prop in Hal as [_ Hal].
  by apply bool_decide_eq_true in Hal.
Qed.

Lemma call_safe op E s B :
  n_inv E s B -> php_allowed false op s = true -> (effort s < N)%nat ->
  safe (fun z s' => done_with 2 (zrefs z ++ lost_by op (nheap s) ++ E) B s tt s') (n_call D op) s.
Proof.
  intros Hinv Hal He. destruct (plain op) eqn:Hp.
  { assert (n_call D op = on_heap (run_op op)) as -> by by destruct op. by apply plain_safe. }
  assert (Hframe : forall l f, (safe (fun z s' => z = z_null /\ done_with 0 E B s tt s') (with_frame D l f) s) ->
    safe (fun z s' => done_with 2 (zrefs z ++ [] ++ E) B s tt s') (with_frame D l f) s).
  { intros l f Hs. eapply safe_mono; [exact Hs|]. intros z s' [-> (? & ? & ?)]. split_and!; [done|done|lia]. }
  destruct op as [a|a|l| |p|p|p v|p| |t v|t|l st n now|l|l|l|l i|e|l|it|it|it|it]; try discriminate Hp; cbn [n_call lost_by].
  - unfold php_allowed in Hal. rewrite andb_true_r in Hal. destruct (allowed_arg _ _ _ a None Hal) as [Ha _]; [by left|].
    unfold n_release. apply n_safe_bind. unfold safe at 1, modify. cbv beta iota. set (s1 := set_php _ s).
    assert (Hi1 : n_inv (a :: E) s1 B).
    { apply (n_inv_move E _ s); [done..| |done]. cbn [php frames lost s1 set_php].
      rewrite (remove_one_perm a (php s) Ha) at 1. perm_app. }
    apply n_safe_bind. eapply safe_mono; [by apply (D_safe (z_obj a) E s1 B Hi1)|].
    intros [] s2 (Hi2 & Hf2 & He2). unfold safe, mret, M_ret. split_and!; [done|done|].
    change (effort s1) with (effort s) in He2. lia.
  - destruct (php_arg _ s p (Some c_profiler) Hal) as [Hin Hcl]; [done|by left|]. apply Hframe, with_frame_safe; [done| |done|].
    + intros a ->%list_elem_of_singleton. done.
    + intros s' Hi' Hf' He' Hb' Hc'. apply clearFlushCallback_safe; [done| |rewrite Hf'; by left| |lia].
      * rewrite Hb'. by apply (php_not_busy _ p s Hal).
      * rewrite Hc' by by left. done.
  - destruct (php_arg _ s t (Some c_timer) Hal) as [Hin Hcl]; [done|by left|].
    destruct (php_arg _ s v None Hal) as [Hin2 _]; [done|by right; left|]. apply Hframe, with_frame_safe; [done| |done|].
    + intros a [->|[->|Hx]%elem_of_cons]%elem_of_cons; [done|done|by apply elem_of_nil in Hx].
    + intros s' Hi' Hf' He' Hb' Hc'. apply set_callback_safe; [done| |rewrite Hf'; by left|rewrite Hf'; by right; left| |lia].
      * rewrite Hb'. by apply (php_not_busy _ t s Hal).
      * rewrite Hc' by by left. done.
  - destruct (php_arg _ s t (Some c_timer) Hal) as [Hin Hcl]; [done|by left|]. apply Hframe, with_frame_safe; [done| |done|].
    + intros a ->%list_elem_of_singleton. done.
    + intros s' Hi' Hf' He' Hb' Hc'. apply clear_callback_safe; [done| |rewrite Hf'; by left| |lia].
      * rewrite Hb'. by apply (php_not_busy _ t s Hal).
      * rewrite Hc' by by left. done.
Qed.

(** *** Programs *)

Lemma stale_value B h a o zs :
  objs (stale B h) !! a = Some o -> body o = b_value zs -> exists o', objs h !! a = Some o' /\ body o' = b_value zs.
Proof.
  revert o. induction B as [|[t [k c]] B IH]; intros o Ho Hb; [by exists o|]. rewrite stale_cons, set_cb_lookup in Ho.
  destruct (objs (stale B h) !! a) as [o1|]; [|done]. simpl in Ho. injection Ho as <-. apply (IH o1); [done|].
  simpl in Hb. case_decide; [|done]. by destruct (body o1).
Qed.

Lemma property_safe a x E s B :
  n_inv E s B -> property_allowed a x s = true ->
  safe (fun _ s' => done_with 0 (x :: E) B s tt s' /\ php s' = php s) (on_heap (Z_ADDREF (z_obj x))) s.
Proof.
  intros (Hb & Hnd & h & Hh & Hi & HB) Hal. unfold property_allowed in Hal. apply andb_prop in Hal as [_ Hal].
  rewrite Hh in Hal. destruct (objs (stale B h) !! a) as [o|] eqn:Ho; [|done].
  destruct (body o) as [| | | | |zs] eqn:Hbo; try done. apply bool_decide_eq_true in Hal.
  destruct (stale_value B h a o zs Ho Hbo) as (o' & Ho' & Hb').
  assert (Hx : is_Some (objs h !! x)).
  { destruct Hi as [Hrc _]. destruct (rc_alive h _ x Hrc) as [ox Hox]; [|by eauto]. apply elem_of_app. right.
    rewrite (heap_refs_delete _ a o' Ho'), Hb'. apply elem_of_app. left. apply list_elem_of_bind. exists (z_obj x).
    split; [by left|done]. }
  destruct Hi as [Hrc Hty]. destruct (addref_obj h _ x Hrc Hx) as (ox & Hox & Hrun & Hrc').
  set (h' := set_objs _ h) in *.
  destruct (tame_heap (Z_ADDREF (z_obj x)) 0 E (x :: E) s B h h' tt) as (Hr & Hn & Hsz & _);
    [done..|apply tame_addref|intros ? _; apply tame_addref|done| |].
  - split; [exact Hrc'|]. apply (typed_update h x ox); [done..|by apply (Hty x)].
  - apply (safe_heap _ _ _ _ _ Hr). split; [|done]. split_and!; [done|done|].
    rewrite !effort_eq. cbn [nheap called with_heap]. rewrite Hh, !size_stale. lia.
Qed.

Lemma step_safe o E s B :
  n_inv E s B -> (effort s < N)%nat -> safe (done_with 2 E B s) (php_step false D o) s.
Proof.
  intros Hinv He. unfold php_step. apply n_safe_bind. unfold safe at 1, get_state. cbv beta iota.
  destruct o as [op|a x].
  - destruct (php_allowed false op s) eqn:Hal; [|done]. apply n_safe_bind.
    eapply safe_mono; [by apply (call_safe op E s B)|]. intros z s1 (Hi1 & Hf1 & He1). unfold safe, modify.
    split_and!; [|done|done]. apply (n_inv_move _ E s1 _ B Hi1); [done..| |done].
    cbn [php frames lost lose set_php]. perm_app.
  - destruct (property_allowed a x s) eqn:Hal; [|done]. apply n_safe_bind.
    eapply safe_mono; [by apply (property_safe a x E s B)|]. intros [] s1 [(Hi1 & Hf1 & He1) Hp]. unfold safe, modify.
    split_and!; [|done|rewrite !effort_eq in *; simpl in *; lia]. apply (n_inv_move _ E s1 _ B Hi1); [done..| |done].
    cbn [php frames lost set_php]. perm_app.
Qed.

Lemma run_php_safe ops E s B :
  n_inv E s B -> (effort s + 2 * length ops <= N)%nat -> (effort s < N)%nat ->
  safe (done_with (2 * length ops) E B s) (run_php false D ops) s.
Proof.
  revert s. induction ops as [|o ops IH]; intros s Hinv He He'; [by split_and!|]. cbn [run_php length] in *.
  apply n_safe_bind. eapply safe_mono; [by apply (step_safe o E s B)|]. intros [] s1 (Hi1 & Hf1 & He1).
  destruct ops as [|o' ops].
  - split_and!; [done|done|simpl; lia].
  - eapply safe_mono; [apply (IH s1 Hi1); simpl in *; lia|]. intros [] s2 (Hi2 & Hf2 & He2).
    split_and!; [done|congruence|simpl in *; lia].
Qed.

End level_callbacks.

(** *** Releases with destructors *)

Lemma pending_called C a ops :
  a ∉ C -> destructors !! a = Some ops -> (pending destructors ({[a]} ∪ C) + weight ops = pending destructors C)%nat.
Proof.
  intros Ha Hops. unfold pending.
  assert (Hf : filter (fun kv => kv.1 ∉ C) destructors !! a = Some ops) by by apply map_lookup_filter_Some_2.
  rewrite <-(map_to_list_delete _ a ops Hf). cbn [sum_list_with snd].
  assert (filter (fun kv => kv.1 ∉ {[a]} ∪ C) destructors = delete a (filter (fun kv => kv.1 ∉ C) destructors)) as ->; [|lia].
  apply map_eq. intros x. apply option_eq. intros y. rewrite lookup_delete_Some, !map_lookup_filter_Some. simpl.
  rewrite not_elem_of_union, not_elem_of_singleton. naive_solver.
Qed.

Lemma destructor_of_Some a o s ops :
  destructor_of destructors a o s = Some ops -> (a ∉ called s) /\ destructors !! a = Some ops.
Proof. unfold destructor_of. destruct (class_of (body o)); try done; case_decide; done. Qed.

(** A change of a count, with the reference that it is for. *)
Lemma count_inv a o b n E E' s s' B h :
  busy s = B.*1 -> NoDup B.*1 -> nheap s = stale B h -> ref_inv h (E ++ php s ++ frames s ++ lost s) ->
  (forall t k c, (t, (k, c)) ∈ B -> t ∈ frames s /\ class_at h t = Some k /\ set_cb t z_null h = h) ->
  objs h !! a = Some o -> objs (stale B h) !! a = Some (ZObject HT (refcount o) b) -> 0 < n ->
  n = refcount o + occurrences a (E' ++ php s' ++ frames s' ++ lost s') - occurrences a (E ++ php s ++ frames s ++ lost s) ->
  (forall c, c <> a -> occurrences c (E' ++ php s' ++ frames s' ++ lost s') = occurrences c (E ++ php s ++ frames s ++ lost s)) ->
  busy s' = busy s -> (forall t, t ∈ frames s -> t ∈ frames s') ->
  nheap s' = set_objs (<[a := ZObject HT n b]> (objs (nheap s))) (nheap s) ->
  n_inv E' s' B /\ size (objs (nheap s')) = size (objs (nheap s)).
Proof.
  intros Hb Hnd Hh Hi HB Ho Hs Hn Hna Hother Hb' Hf Hh'. pose proof Hi as [Hrc Hty].
  pose proof (ref_inv_bounded _ _ Hi) as Hbd.
  assert (HBf : forall t, t ∈ B.*1 -> is_Some (objs h !! t)).
  { intros t ([t1 [k1 c1]] & -> & Ht)%list_elem_of_fmap. eapply n_inv_alive; [exact Hi|]. by apply (HB t1 k1 c1). }
  split; [|rewrite Hh', Hh; simpl; by rewrite map_size_insert_Some by eauto].
  rewrite Hh, (stale_count B h a o b) in Hh' by done. split_and!; [congruence|done|]. eexists. split_and!; [exact Hh'| |].
  - split; [|by apply (typed_update h a o); [..|apply (Hty a)]].
    apply (rc_update h _ _ a o n (body o) Hrc Ho Hn).
    + rewrite !(occurrences_app a _ (body_refs _)). lia.
    + intros c Hc. rewrite !(occurrences_app c _ (body_refs _)), Hother by done. done.
  - intros t k c Ht. destruct (HB t k c Ht) as (Htf & Hcl & Hnull). split_and!; [by auto| |].
    + unfold class_at in *. cbn [objs set_objs]. destruct (decide (t = a)) as [->|Hne].
      * rewrite lookup_insert_eq. rewrite Ho in Hcl. exact Hcl.
      * by rewrite lookup_insert_ne.
    + rewrite set_cb_insert, Hnull. case_decide as Heq; [|done]. subst t. by rewrite <-(null_body a h o Hnull Ho).
Qed.

(** The memory of an object that only the releasing code refers to. *)
Lemma delete_inv a o b E s B h :
  busy s = B.*1 -> NoDup B.*1 -> nheap s = stale B h -> ref_inv h (a :: E ++ php s ++ frames s ++ lost s) ->
  (forall t k c, (t, (k, c)) ∈ B -> t ∈ frames s /\ class_at h t = Some k /\ set_cb t z_null h = h) ->
  objs h !! a = Some o -> objs (stale B h) !! a = Some (ZObject HT (refcount o) b) -> refcount o = 1 ->
  (a ∉ B.*1 -> b = body o) ->
  let s' := with_heap (set_objs (delete a (objs (nheap s))) (nheap s)) s in
  n_inv (body_refs b ++ E) s' B /\ (S (effort s') = effort s)%nat.
Proof.
  intros Hb Hnd Hh Hi HB Ho Hs H1 Hbo s'. pose proof Hi as [Hrc Hty].
  pose proof (rc_count _ _ Hrc a) as Hc. rewrite Ho in Hc. destruct Hc as [Hc _].
  assert (Hna : a ∉ frames s).
  { intros Hin. rewrite H1 in Hc. rewrite app_comm_cons, !occurrences_app, occurrences_cons, decide_True in Hc by done.
    pose proof (occurrences_nonneg a E). pose proof (occurrences_nonneg a (php s)). pose proof (occurrences_nonneg a (lost s)).
    pose proof (occurrences_nonneg a (heap_refs (objs h))). pose proof (occurrences_nonneg a (frames s)).
    apply (occurrences_in a (frames s)); [lia|done]. }
  assert (HnB : a ∉ B.*1) by (intros ([t [k c]] & -> & Ht)%list_elem_of_fmap; apply Hna; by apply (HB t k c)).
  rewrite (Hbo HnB). split.
  - split_and!; [done|done|]. exists (set_objs (delete a (objs h)) h). split_and!.
    + cbn [nheap s' with_heap]. by rewrite Hh, stale_delete.
    + pose proof (rc_delete h _ a o Hrc Ho H1) as Hrc1. cbn [php frames lost s' with_heap].
      apply (ref_inv_perm _ (body_refs (body o) ++ E ++ php s ++ frames s ++ lost s)); [perm_app|].
      split; [done|]. apply (shrinks_typed h _ _ Hty Hrc1). apply shrinks_delete.
    + intros t k c Ht. destruct (HB t k c Ht) as (Htf & Hcl & Hnull). split_and!; [done| |].
      * unfold class_at in *. cbn [objs set_objs]. rewrite lookup_delete_ne; [done|]. by intros ->.
      * assert (Hne : a ∉ [(t, (k, z_null))].*1) by (intros ->%list_elem_of_singleton; done).
        change (stale [(t, (k, z_null))] (set_objs (delete a (objs h)) h) = set_objs (delete a (objs h)) h).
        rewrite (stale_delete _ h a Hne), stale_cons. change (stale [] h) with h. by rewrite Hnull.
  - rewrite !effort_eq. cbn [nheap called s' with_heap objs set_objs].
    rewrite map_size_delete_Some by (rewrite Hh; eauto). rewrite Hh, !size_stale.
    assert (size (objs h) <> 0)%nat by (apply (map_size_ne_0_lookup_2 _ a); eauto). lia.
Qed.

Lemma n_dtor_safe fuel z E s B :
  n_inv (zrefs z ++ E) s B -> (effort s < fuel)%nat -> safe (done_with 0 E B s) (n_dtor destructors false fuel z) s.
Proof.
  revert z E s B. induction fuel as [|fuel IH]; intros z E s B Hinv He; [lia|].
  destruct z as [| |a]; [by split_and!..|]. cbn [n_dtor zrefs] in *.
  pose proof Hinv as (Hb & Hnd & h & Hh & Hi & HB). pose proof Hi as [Hrc _].
  destruct (rc_alive h _ a Hrc) as [o Ho]; [set_solver|].
  destruct (stale_at B h a o Ho) as (b & Hs & Hcl & Hbo).
  pose proof (rc_count _ _ Hrc a) as Hc. rewrite Ho in Hc. destruct Hc as [Hc Hpos].
  apply n_safe_bind. apply (n_safe_read _ _ _ (ZObject HT (refcount o) b)); [rewrite Hh; by apply get_obj_ok|]. cbn [refcount body].
  destruct (Z.eqb_spec (refcount o - 1) 0) as [Hz|Hz].
  2:{ eapply safe_heap; [reflexivity|]. set (s1 := with_heap _ s).
    destruct (count_inv a o b (refcount o - 1) ([a] ++ E) E s s1 B h) as [Hi1 Hsz]; [done..|lia| | |done|done|done|].
    - cbn [php frames lost s1 with_heap]. rewrite <-app_assoc, (occurrences_app a [a]), occurrences_cons, decide_True by done.
      change (occurrences a []) with 0. lia.
    - intros c Hne. cbn [php frames lost s1 with_heap].
      rewrite <-app_assoc, (occurrences_app c [a]), occurrences_cons, decide_False by done. done.
    - split_and!; [done|done|]. rewrite !effort_eq, Hsz. done. }
  apply n_safe_bind. unfold safe at 1, get_state. cbv beta iota.
  destruct (destructor_of destructors a (ZObject HT (refcount o) b) s) as [ops|] eqn:Hd.
  - destruct (destructor_of_Some a _ s ops Hd) as [Hncall Hops].
    apply n_safe_bind. eapply safe_heap; [reflexivity|]. apply n_safe_bind. unfold safe at 1, modify. cbv beta iota.
    set (s1 := set_called _ _).
    destruct (count_inv a o b 2 ([a] ++ E) E s s1 B h) as [Hi1 Hsz]; [done..| | |done| |done|].
    + cbn [php frames lost s1 set_called set_frames with_heap]. rewrite !occurrences_app, !occurrences_cons, !decide_True by done.
      change (occurrences a []) with 0. lia.
    + intros c Hne. cbn [php frames lost s1 set_called set_frames with_heap].
      by rewrite !occurrences_app, !occurrences_cons, !decide_False by done.
    + intros t Ht. cbn [frames s1 set_called set_frames with_heap]. set_solver.
    + assert (He1 : (effort s1 + weight ops = effort s)%nat).
      { rewrite !effort_eq, Hsz. cbn [called s1 set_called set_frames with_heap]. rewrite <-(pending_called (called s) a ops) by done. lia. }
      unfold weight in He1. apply n_safe_bind.
      eapply safe_mono; [apply (run_php_safe (n_dtor destructors false fuel) fuel IH ops E s1 B Hi1); lia|].
      intros [] s2 (Hi2 & Hf2 & He2).
      eapply safe_mono; [apply (leave_safe (n_dtor destructors false fuel) fuel IH [a; a] E s2 B (frames s) Hi2)|].
      * rewrite Hf2. done.
      * intros t Ht. by apply (B_in_frames _ s B t Hinv).
      * lia.
      * intros [] s3 (Hi3 & Hf3 & He3). split_and!; [done|done|lia].
  - apply n_safe_bind. eapply safe_heap; [reflexivity|].
    destruct (delete_inv a o b E s B h) as [Hi1 He1]; [done..|lia|done|].
    eapply safe_mono; [apply (free_obj_safe (n_dtor destructors false fuel) fuel IH b E _ B Hi1); lia|].
    intros [] s2 (Hi2 & Hf2 & He2). split_and!; [done|done|lia].
Qed.

(** *** Releases without destructors *)

Lemma on_heap_bind {A C} (m : M heap A) (k : A -> M heap C) s :
  on_heap (m ≫= k) s = (on_heap m ≫= fun x => on_heap (k x)) s.
Proof. unfold on_heap, mbind, M_bind. by destruct (m (nheap s)) as [h [x|msg|why|]]. Qed.

Lemma bind_ext {X A C} (m m' : M X A) (k k' : A -> M X C) (x : X) :
  m x = m' x -> (forall y x', k y x' = k' y x') -> (m ≫= k) x = (m' ≫= k') x.
Proof. intros Hm Hk. unfold mbind, M_bind. rewrite Hm. by destruct (m' x) as [x' [y|msg|why|]]. Qed.

Lemma free_obj_on_heap (D : zval_ref -> M nstate unit) (d : zval_ref -> M heap unit) (b : obj_body HT) s :
  (forall z s, D z s = on_heap (d z) s) -> free_obj D b s = on_heap (free_obj d b) s.
Proof.
  intros HD. assert (Htwo : forall z1 z2 s, (_ ← D z1; D z2) s = on_heap (_ ← d z1; d z2) s).
  { intros z1 z2 s0. rewrite on_heap_bind. by apply bind_ext. }
  destruct b as [l c|c|log c i|l i|d0 c i|zs]; cbn [free_obj]; [by apply Htwo|by apply HD..|by apply Htwo|].
  revert s. induction zs as [|z zs IH]; intros s; cbn [free_captured]; [by destruct s|].
  rewrite on_heap_bind. by apply bind_ext.
Qed.

(** *** Entries and logs *)

Definition log_class (c : obj_class) : bool := match c with c_log | c_entry => true | _ => false end.

(** [z] is a log or an entry, if the object exists. *)
Definition log_ref h z : Prop :=
  forall x o, x ∈ zrefs z -> objs h !! x = Some o -> log_class (class_of (body o)) = true.

Definition log_closed h : Prop :=
  forall a o, objs h !! a = Some o ->
    match body o with b_log _ z _ | b_entry z _ => log_ref h z | _ => True end.

Lemma log_ref_delete h z a : log_ref h z -> log_ref (set_objs (delete a (objs h)) h) z.
Proof. intros Hz x o Hx. cbn [objs set_objs]. intros [_ Ho]%lookup_delete_Some. by apply (Hz x). Qed.

Lemma log_closed_delete h a : log_closed h -> log_closed (set_objs (delete a (objs h)) h).
Proof.
  intros Hc x o. cbn [objs set_objs]. intros [_ Ho]%lookup_delete_Some. pose proof (Hc x o Ho) as Hb.
  destruct (body o); try done; by apply log_ref_delete.
Qed.

Lemma typed_log_closed h : typed h -> log_closed h.
Proof.
  intros Ht a o Ho. pose proof (Ht a o Ho) as Hb.
  assert (Hz : forall c z, log_class c = true -> z_is h c z -> log_ref h z).
  { intros c z Hc (x & ox & -> & Hx & <-) x' o' ->%list_elem_of_singleton Ho'. by simplify_eq. }
  destruct (body o) as [| |log z i|z i| |]; try done; [|by apply (Hz c_log)].
  destruct Hb as [->|Hb]; [by intros x ox Hx%elem_of_nil|by apply (Hz c_entry)].
Qed.

Lemma dtor_log reenter fuel z s :
  log_closed (nheap s) -> log_ref (nheap s) z -> n_dtor destructors reenter fuel z s = on_heap (dtor_fuel fuel z) s.
Proof.
  revert z s. induction fuel as [|fuel IH]; intros z s Hcl Hz; (destruct z as [| |a]; [by destruct s..|]); [by destruct s|].
  cbn [n_dtor dtor_fuel]. destruct (objs (nheap s) !! a) as [o|] eqn:Ho.
  2:{ unfold on_heap, get_obj, mbind, M_bind, get_state, lift. by rewrite Ho. }
  assert (Hget : on_heap (get_obj a) s = (s, Ok o)) by (unfold on_heap; rewrite (get_obj_ok _ a o Ho); by destruct s).
  rewrite on_heap_bind, !(bind_ok _ _ _ _ _ Hget). destruct (refcount o - 1 =? 0); [|done].
  rewrite (bind_ok get_state _ s s s) by done.
  pose proof (Hz a o ltac:(by left) Ho) as Hc. pose proof (Hcl a o Ho) as Hb.
  assert (destructor_of destructors a o s = None) as -> by (unfold destructor_of; by destruct (class_of (body o))).
  set (h1 := set_objs (delete a (objs (nheap s))) (nheap s)).
  rewrite (bind_ok _ _ s (with_heap h1 s) tt) by done.
  rewrite on_heap_bind, (bind_ok _ _ s (with_heap h1 s) tt) by done. destruct (body o) as [| |log zc i|zl i| |]; try discriminate Hc; apply IH;
    (by apply log_closed_delete) || (by apply log_ref_delete).
Qed.

End destructors_facts.

(** ** Lemmas: runs of single operations *)

Section runs.
  Context {HT : Type -> Type -> Type} `{ZendHash HT}.
  Abbreviation heap := (heap HT).
  Abbreviation nstate := (nstate HT).
  Variables (destructors : gmap handle (list php_op)) (reenter : bool).
  Implicit Types (s : nstate) (h : heap) (a t : handle) (D : zval_ref -> M nstate unit).
  Abbreviation n_dtor := (n_dtor destructors reenter).

Lemma bind_crash {X A C} (m : M X A) (k : A -> M X C) (x x' : X) (why : string) :
  m x = (x', Crash why) -> (m ≫= k) x = (x', Crash why).
Proof. intros Hm. unfold mbind, M_bind. by rewrite Hm. Qed.

Lemma on_heap_ok {A} (f : M heap A) s h x : f (nheap s) = (h, Ok x) -> on_heap f s = (with_heap h s, Ok x).
Proof. intros Hf. unfold on_heap. by rewrite Hf. Qed.

Lemma on_heap_read {A} (f : M heap A) s x : f (nheap s) = (nheap s, Ok x) -> on_heap f s = (s, Ok x).
Proof. intros Hf. rewrite (on_heap_ok f s _ x Hf). by destruct s. Qed.

(** The state with [o] for the object [a]. *)
Definition put_at a (o : zobject HT) s : nstate := with_heap (set_objs (<[a := o]> (objs (nheap s))) (nheap s)) s.

Lemma put_at_eq a o s : objs (nheap (put_at a o s)) !! a = Some o.
Proof. apply lookup_insert_eq. Qed.

Lemma put_at_ne a o s x : x <> a -> objs (nheap (put_at a o s)) !! x = objs (nheap s) !! x.
Proof. intros Hne. by apply lookup_insert_ne. Qed.

(** The cases of [n_dtor]. *)
Lemma n_dtor_count fuel a o s :
  objs (nheap s) !! a = Some o -> refcount o <> 1 ->
  n_dtor (S fuel) (z_obj a) s = (put_at a (ZObject HT (refcount o - 1) (body o)) s, Ok tt).
Proof.
  intros Ho Hn. cbn [Destructors.n_dtor]. rewrite (bind_ok _ _ _ _ _ (on_heap_read _ s o (get_obj_ok _ a o Ho))).
  by rewrite (proj2 (Z.eqb_neq _ 0)) by lia.
Qed.

Lemma n_dtor_gone fuel a s :
  objs (nheap s) !! a = None -> n_dtor (S fuel) (z_obj a) s = (s, Crash "null pointer dereference").
Proof.
  intros Ho. cbn [Destructors.n_dtor]. apply bind_crash.
  unfold on_heap, get_obj, mbind, M_bind, get_state, lift. rewrite Ho. by destruct s.
Qed.

Lemma n_dtor_free fuel a s :
  objs (nheap s) !! a = Some (ZObject HT 1 (b_value [])) -> a ∈ called s ->
  n_dtor (S fuel) (z_obj a) s = (with_heap (set_objs (delete a (objs (nheap s))) (nheap s)) s, Ok tt).
Proof.
  intros Ho Hc. cbn [Destructors.n_dtor]. rewrite (bind_ok _ _ _ _ _ (on_heap_read _ s _ (get_obj_ok _ a _ Ho))).
  cbn [refcount body]. change (1 - 1 =? 0) with true. cbn iota. rewrite (bind_ok get_state _ s s s) by done.
  unfold destructor_of. cbn [class_of body]. by rewrite decide_True.
Qed.

Lemma n_dtor_script fuel a zs ops s :
  objs (nheap s) !! a = Some (ZObject HT 1 (b_value zs)) -> (a ∉ called s) -> destructors !! a = Some ops ->
  n_dtor (S fuel) (z_obj a) s =
  (_ ← run_php reenter (n_dtor fuel) ops; leave_frame (n_dtor fuel) [a; a])
    (set_called a (set_frames (a :: a :: frames s) (put_at a (ZObject HT 2 (b_value zs)) s))).
Proof.
  intros Ho Hc Hd. cbn [Destructors.n_dtor]. rewrite (bind_ok _ _ _ _ _ (on_heap_read _ s _ (get_obj_ok _ a _ Ho))).
  cbn [refcount body]. change (1 - 1 =? 0) with true. cbn iota. rewrite (bind_ok get_state _ s s s) by done.
  unfold destructor_of. cbn [class_of body]. by rewrite decide_False, Hd.
Qed.

(** The operation that clears the callback of an object of class [k]. *)
Definition clearing (k : obj_class) t : ref_op :=
  match k with c_profiler => op_clearFlushCallback t | _ => op_clearCallback t end.

Definition clear_method D (k : obj_class) t : M nstate unit :=
  match k with c_profiler => n_clearFlushCallback D t | _ => n_clear_callback D t end.

Lemma clearing_call D k t o s :
  objs (nheap s) !! t = Some o ->
  n_call D (clearing k t) s =
  (_ ← clear_method D k t; _ ← leave_frame D [t]; mret z_null)
    (set_frames (t :: frames s) (put_at t (ZObject HT (refcount o + 1) (body o)) s)).
Proof.
  intros Ho. assert (n_call D (clearing k t) = with_frame D [t] (clear_method D k t)) as -> by by destruct k.
  unfold with_frame. erewrite bind_ok; [|apply on_heap_ok; cbn [copy_all]; erewrite bind_ok; [reflexivity|];
    unfold ZVAL_COPY, Z_ADDREF; unfold mbind at 1, M_bind at 1; by rewrite (bind_ok _ _ _ _ _ (get_obj_ok _ t o Ho))].
  done.
Qed.

(** Reading the callback, up to the release. *)
Lemma clear_reads D k t c s :
  k = c_timer \/ k = c_profiler -> cb_in (nheap s) t k c ->
  exists rest, clear_method D k t s = (_ ← D c; rest) (set_busy (t :: busy s) s) /\
    forall s' o c', cb_in (nheap s') t k c' -> objs (nheap s') !! t = Some o ->
      rest s' = (put_at t (ZObject HT (refcount o) (set_callback_of z_null (body o))) (set_busy (tail (busy s')) s'), Ok tt).
Proof.
  intros Hk (o & Ho & Hb). destruct Hk as [-> | ->].
  - destruct (body o) as [l c'|c'| | | |] eqn:Hbo; try done; [by destruct Hb|]. destruct Hb as [_ ->].
    exists (_ ← modify (fun s => set_busy (tail (busy s)) s); on_heap (put_body t (b_timer z_null))). split.
    + unfold clear_method, n_clear_callback. erewrite bind_ok; [|apply on_heap_read; unfold get_timer_cb;
        rewrite (bind_ok _ _ _ _ _ (get_obj_ok _ t o Ho)), Hbo; reflexivity].
      unfold releasing, mbind, M_bind, modify. by destruct (D c _) as [s1 [[]|msg|why|]].
    + intros s' o2 c' (o' & Ho2 & Hb2) Ho'. rewrite Ho' in Ho2. injection Ho2 as <-. destruct (body o2) eqn:Hbo2; try done; [by destruct Hb2|].
      rewrite (bind_ok _ _ s' (set_busy (tail (busy s')) s') tt) by done.
      unfold on_heap. rewrite (put_body_ok _ t o2 _ Ho'). done.
  - destruct (body o) as [l c'|c'| | | |] eqn:Hbo; try done; [|by destruct Hb]. destruct Hb as [_ ->].
    exists (_ ← modify (fun s => set_busy (tail (busy s)) s); '(l, _) ← on_heap (get_profiler_obj t);
      on_heap (put_body t (b_profiler l z_null))). split.
    + unfold clear_method, n_clearFlushCallback. erewrite bind_ok; [|apply on_heap_read; unfold get_profiler_obj;
        rewrite (bind_ok _ _ _ _ _ (get_obj_ok _ t o Ho)), Hbo; reflexivity].
      unfold releasing, mbind, M_bind, modify. by destruct (D c _) as [s1 [[]|msg|why|]].
    + intros s' o2 c' (o' & Ho2 & Hb2) Ho'. rewrite Ho' in Ho2. injection Ho2 as <-. destruct (body o2) as [l2 c2| | | | |] eqn:Hbo2; try done; [|by destruct Hb2].
      rewrite (bind_ok _ _ s' (set_busy (tail (busy s')) s') tt) by done.
      erewrite bind_ok; [|apply on_heap_read; unfold get_profiler_obj;
        rewrite (bind_ok _ _ _ _ _ (get_obj_ok _ t o2 Ho')), Hbo2; reflexivity].
      unfold on_heap. rewrite (put_body_ok _ t o2 _ Ho'). done.
Qed.

Lemma clearing_allowed k t s :
  k = c_timer \/ k = c_profiler -> t ∈ php s ++ frames s -> class_at (nheap s) t = Some k ->
  php_allowed true (clearing k t) s = true.
Proof.
  intros Hk Ht Hcl. unfold php_allowed, op_allowed.
  destruct Hk as [-> | ->]; cbn [clearing op_args forallb changes_callback orb]; by rewrite Hcl, !bool_decide_true by done.
Qed.

Lemma cb_in_put h t k c n o : objs h !! t = Some o -> cb_in h t k c -> cb_in (set_objs (<[t := ZObject HT n (body o)]> (objs h)) h) t k c.
Proof.
  intros Ho (o' & Ho' & Hb). rewrite Ho in Ho'. injection Ho' as <-. exists (ZObject HT n (body o)).
  split; [apply lookup_insert_eq|exact Hb].
Qed.

Lemma cb_in_other h t k c (x : handle) o : x <> t -> cb_in h t k c -> cb_in (set_objs (<[x := o]> (objs h)) h) t k c.
Proof. intros Hne (o' & Ho' & Hb). exists o'. split; [by simpl; rewrite lookup_insert_ne|exact Hb]. Qed.

Lemma cb_in_class h t k c : cb_in h t k c -> class_at h t = Some k.
Proof. intros (o & Ho & Hb). unfold class_at. rewrite Ho. simpl. destruct (body o); try done; by destruct Hb as [-> _]. Qed.

(** The inner operation, called by the destructor of [c]: it drops the reference in
    the field of [t], which the outer operation has dropped before. *)
Lemma inner_clearing fuel k t c n b s :
  k = c_timer \/ k = c_profiler -> cb_in (nheap s) t k (z_obj c) -> c <> t -> 0 < n ->
  objs (nheap s) !! t = Some (ZObject HT n b) -> objs (nheap s) !! c = Some (ZObject HT 2 (b_value [])) ->
  exists s', n_call (n_dtor (S fuel)) (clearing k t) s = (s', Ok z_null) /\
    objs (nheap s') !! c = Some (ZObject HT 1 (b_value [])) /\ called s' = called s.
Proof.
  intros Hk Hcb Hne Hn Ho Hc. rewrite (clearing_call _ k t _ s Ho). cbn [refcount body].
  set (s1 := set_frames (t :: frames s) (put_at t (ZObject HT (n + 1) b) s)).
  assert (Hcb1 : cb_in (nheap s1) t k (z_obj c)) by by apply (cb_in_put (nheap s) t k (z_obj c) (n + 1) _ Ho).
  destruct (clear_reads (n_dtor (S fuel)) k t (z_obj c) s1 Hk Hcb1) as (rest & Hrun & Hrest).
  set (s2 := set_busy (t :: busy s1) s1) in *.
  assert (Hc2 : objs (nheap s2) !! c = Some (ZObject HT 2 (b_value []))) by (simpl; by rewrite lookup_insert_ne).
  rewrite (bind_ok (n_dtor (S fuel) (z_obj c)) _ _ _ _ (n_dtor_count fuel c _ s2 Hc2 ltac:(simpl; lia))) in Hrun.
  cbn [refcount body] in Hrun. set (s3 := put_at c _ s2) in *.
  assert (Ho3 : objs (nheap s3) !! t = Some (ZObject HT (n + 1) b)).
  { simpl. rewrite lookup_insert_ne by done. apply lookup_insert_eq. }
  assert (Hcb3 : cb_in (nheap s3) t k (z_obj c)) by by apply (cb_in_other (nheap s1)).
  rewrite (Hrest s3 _ (z_obj c) Hcb3 Ho3) in Hrun. cbn [refcount body] in Hrun.
  set (s4 := put_at t (ZObject HT (n + 1) (set_callback_of z_null b)) (set_busy (tail (busy s3)) s3)) in *.
  rewrite (bind_ok _ _ _ _ _ Hrun). cbn [leave_frame].
  set (s5 := set_frames (tail (frames s4)) s4).
  assert (Ho5 : objs (nheap s5) !! t = Some (ZObject HT (n + 1) (set_callback_of z_null b))) by apply lookup_insert_eq.
  pose proof (n_dtor_count fuel t _ s5 Ho5 ltac:(simpl; lia)) as Hr5. cbn [refcount body] in Hr5.
  eexists. split; [|split].
  - erewrite bind_ok; [reflexivity|]. rewrite (bind_ok _ _ s4 s5 tt) by done. rewrite (bind_ok _ _ _ _ _ Hr5). reflexivity.
  - simpl. rewrite !lookup_insert_ne by done. apply lookup_insert_eq.
  - done.
Qed.

End runs.

(** ** Properties *)

Section properties.
  Context {HT : Type -> Type -> Type} `{ZendHash HT}.
  Variable destructors : gmap handle (list php_op).
  Implicit Types (s : nstate HT).


(** The release of the cached entry of a log or an iterator runs no PHP code: it
    is the release of [ObjectRefs], for any destructors. *)
Theorem log_release_runs_no_php reenter fuel z s :
  typed (nheap s) -> z = z_null \/ z_is (nheap s) c_entry z ->
  n_dtor destructors reenter fuel z s = on_heap (dtor_fuel fuel z) s.
Proof.
  intros Ht Hz. apply dtor_log; [by apply typed_log_closed|].
  destruct Hz as [->|(x & o & -> & Hx & Hc)]; [by intros x o Hn%elem_of_nil|].
  intros x' o' ->%list_elem_of_singleton Ho'. simplify_eq. by rewrite Hc.
Qed.

(** Changing the callback in the destructor of the callback that is being released
    frees it twice: the field still has the reference that is being dropped. An
    object [c] that only the timer or profiler [t] refers to, and whose destructor
    clears the callback of [t], is used after it has been freed when PHP code
    clears the callback of [t]. *)
Theorem reentered_release_crashes fuel k t c o s :
  k = c_timer \/ k = c_profiler -> t ∈ php s -> cb_in (nheap s) t k (z_obj c) ->
  objs (nheap s) !! t = Some o -> 0 < refcount o ->
  objs (nheap s) !! c = Some (ZObject HT 1 (b_value [])) -> (c ∉ called s) ->
  destructors !! c = Some [p_op (clearing k t)] ->
  exists s' why, run_php true (n_dtor destructors true (S (S fuel))) [p_op (clearing k t)] s = (s', Crash why).
Proof.
  intros Hk Ht Hcb Ho Hpos Hc Hcalled Hd. pose proof (cb_in_class _ _ _ _ Hcb) as Hcl.
  assert (Hne : c <> t) by (intros ->; destruct Hk as [-> | ->]; unfold class_at in Hcl; by rewrite Hc in Hcl).
  pose proof (clearing_allowed k t s Hk ltac:(set_solver) Hcl) as Hal.
  set (s1 := set_frames (t :: frames s) (put_at t (ZObject HT (refcount o + 1) (body o)) s)).
  assert (Hcb1 : cb_in (nheap s1) t k (z_obj c)) by by apply (cb_in_put (nheap s) t k (z_obj c) _ o Ho).
  destruct (clear_reads (n_dtor destructors true (S (S fuel))) k t (z_obj c) s1 Hk Hcb1) as (rest & Hrun & _).
  set (s2 := set_busy (t :: busy s1) s1) in *.
  assert (Hc2 : objs (nheap s2) !! c = Some (ZObject HT 1 (b_value []))) by (simpl; by rewrite lookup_insert_ne).
  pose proof (n_dtor_script destructors true (S fuel) c [] _ s2 Hc2 Hcalled Hd) as Hdtor.
  set (s3 := set_called c _) in Hdtor.
  assert (Hcb3 : cb_in (nheap s3) t k (z_obj c)) by (by apply (cb_in_other (nheap s1))).
  destruct (inner_clearing destructors true fuel k t c (refcount o + 1) (body o) s3) as (s4 & Hin & Hc4 & Hcalled4);
    [done|done|done|lia|simpl; rewrite lookup_insert_ne by done; apply lookup_insert_eq|apply lookup_insert_eq|].
  assert (Hal3 : php_allowed true (clearing k t) s3 = true).
  { apply clearing_allowed; [done| |by apply (cb_in_class _ _ _ (z_obj c))].
    change (php s3) with (php s). apply elem_of_app. by left. }
  assert (Hcrash : exists s', n_dtor destructors true (S (S fuel)) (z_obj c) s2 = (s', Crash "null pointer dereference")).
  { set (s5 := lose (lost_by (clearing k t) (nheap s3)) (set_php (zrefs z_null ++ php s4) s4)).
    set (s6 := set_frames (tail (frames s5)) s5). set (s7 := with_heap (set_objs (delete c (objs (nheap s6))) (nheap s6)) s6).
    set (s8 := set_frames (tail (frames s7)) s7). exists s8. rewrite Hdtor.
    rewrite (bind_ok _ _ s3 s5 tt).
    - cbn [leave_frame]. rewrite (bind_ok _ _ s5 s6 tt) by done.
      rewrite (bind_ok _ _ s6 s7 tt) by (apply n_dtor_free; [exact Hc4|change (called s6) with (called s4); rewrite Hcalled4;
        change (called s3) with ({[c]} ∪ called s2); apply elem_of_union; left; by apply elem_of_singleton]).
      rewrite (bind_ok _ _ s7 s8 tt) by done. apply bind_crash. apply n_dtor_gone. apply lookup_delete_eq.
    - cbn [run_php]. rewrite (bind_ok _ _ s3 s5 tt); [done|]. unfold php_step.
      rewrite (bind_ok get_state _ s3 s3 s3) by done. rewrite Hal3. by rewrite (bind_ok _ _ _ _ _ Hin). }
  destruct Hcrash as [s' Hcrash]. exists s', "null pointer dereference".
  cbn [run_php]. apply bind_crash. unfold php_step. rewrite (bind_ok get_state _ s s s) by done. rewrite Hal.
  apply bind_crash. rewrite (clearing_call _ k t o s Ho). fold s1. apply bind_crash. rewrite Hrun. by apply bind_crash.
Qed.

(** In a process without destructors, releases are those of [ObjectRefs]. *)
Theorem no_destructors_no_code reenter fuel z s :
  n_dtor ∅ reenter fuel z s = on_heap (dtor_fuel fuel z) s.
Proof.
  revert z s. induction fuel as [|fuel IH]; intros z s; (destruct z as [| |a]; [by destruct s..|]); [by destruct s|].
  cbn [n_dtor dtor_fuel]. rewrite on_heap_bind. apply bind_ext; [done|]. intros o s1. destruct (refcount o - 1 =? 0); [|done].
  rewrite (bind_ok get_state _ s1 s1 s1) by done.
  assert (destructor_of ∅ a o s1 = None) as -> by (unfold destructor_of; destruct (class_of _); try done; by case_decide).
  rewrite on_heap_bind. apply bind_ext; [done|]. intros _ s2. by apply free_obj_on_heap.
Qed.

End properties.

(** ** Witnesses *)

Section witnesses.

(** A process where PHP code has the references [R]. *)
Definition ex_process (ops : list ref_op) (R : list handle) : nstate alist :=
  NState alist (ex_heap ops) ∅ R [] [] [].

(** A profiler 1 whose callback 5 nobody else refers to, and a timer 4 with the
    callback 3, both captured by 5. *)
Definition ex_guard_ops : list ref_op :=
  [op_profiler_new; op_closure []; op_timer_new; op_setCallback 4 3; op_closure [1%positive; 4%positive];
   op_setFlushCallback 1 5; op_release 5; op_release 4].

(** The destructor of 5 fetches the timer, clears its callback and flushes the profiler. *)
Definition ex_destructors : gmap handle (list php_op) :=
  {[5%positive := [p_property 5 4; p_op (op_clearCallback 4); p_op (op_flush 1)]]}.


Lemma log_release_runs_no_php_witness :
  exists s, n_dtor ex_destructors true 5 (z_obj 3) (ex_process (ex_log_ops ++ [op_current 2; op_release 3]) [2%positive])
    = (s, Ok tt) /\ objs (nheap s) !! 3%positive = None.
Proof.
  set (s0 := ex_process (ex_log_ops ++ [op_current 2; op_release 3]) [2%positive]).
  assert (Hi : ref_inv (nheap s0) [2%positive])
    by (apply (ex_heap_inv (ex_log_ops ++ [op_current 2; op_release 3]) [2%positive] []); vm_compute; reflexivity).
  rewrite (log_release_runs_no_php ex_destructors true 5 (z_obj 3) s0 (proj2 Hi)).
  - vm_compute. eexists. split; reflexivity.
  - right. vm_compute. eexists 3%positive, _. split; [reflexivity|]. split; reflexivity.
Defined.

(** A timer 1 whose callback 2 nobody else refers to. *)
Definition ex_timer_ops : list ref_op := [op_timer_new; op_closure []; op_setCallback 1 2; op_release 2].

Lemma reentered_release_crashes_witness :
  exists s' why, run_php true (n_dtor {[2%positive := [p_op (op_clearCallback 1)]]} true 2) [p_op (op_clearCallback 1)]
    (ex_process ex_timer_ops [1%positive]) = (s', Crash why).
Proof.
  assert (Ho : exists o, objs (nheap (ex_process ex_timer_ops [1%positive])) !! 1%positive = Some o /\ body o = b_timer (z_obj 2) /\
    0 < refcount o) by (vm_compute; eexists; repeat split).
  destruct Ho as (o & Ho & Hb & Hp).
  apply (reentered_release_crashes {[2%positive := [p_op (op_clearCallback 1)]]} 0 c_timer 1 2 o
    (ex_process ex_timer_ops [1%positive])).
  - left. reflexivity.
  - left.
  - exists o. split; [exact Ho|]. rewrite Hb. split; reflexivity.
  - exact Ho.
  - exact Hp.
  - vm_compute. reflexivity.
  - apply not_elem_of_empty.
  - reflexivity.
Defined.

End witnesses.
