(* ===== verification/Objects.v ===== *)
(** * The PHP objects that own a timer: [ExcimerProfiler] and [ExcimerTimer]

    Models the rest of [excimer.c]: the two classes, their timer callbacks, the
    rotation of the profiler's log, and [excimer_set_timeout]. The state is that
    of the timers, whose "world" is the store of objects. An object and the
    timer embedded in it have the same address. When an object is freed is the
    engine's decision; [ObjectRefs] has the reference counts.

    What PHP code does is a parameter: [is_callable] says which values can be
    called, and [call_function] what a call does to the state. *)

From S2P Require Import Prelude ZendHash Log LogTrace LogObject Timespec PendingList Timer TimerSystem.
From Stdlib Require Import Floats.SpecFloat.

(** A PHP value kept as a callback. *)
Inductive zcallback : Type :=
  | cb_undef
  | cb_null
  | cb_value (v : nat).

(** What is passed to a PHP function. *)
Inductive call_arg : Type :=
  | arg_log (log : handle)
  | arg_long (n : Z).

(** [ExcimerProfiler_obj] and [ExcimerTimer_obj] without their timer. *)
Record ExcimerProfiler_obj : Type := ProfilerObj {
  prof_period : timespec;
  prof_initial : timespec;
  prof_event_type : Z;
  prof_z_log : handle;
  prof_z_callback : zcallback;
  max_samples : Z;
  prof_need_reinit : bool
}.

Record ExcimerTimer_obj : Type := TimerObj {
  tobj_period : timespec;
  tobj_initial : timespec;
  tobj_event_type : Z;
  tobj_z_callback : zcallback;
  tobj_need_reinit : bool
}.

(** The objects, with what [EG(...)] says: the stack of the running code, and
    whether an exception is on its way. *)
Record objects {HT : Type -> Type -> Type} : Type := Objects {
  profilers : gmap ptr ExcimerProfiler_obj;
  timer_objs : gmap ptr ExcimerTimer_obj;
  logs : gmap handle (ExcimerLog_obj HT);
  next_ptr : positive;
  current_execute_data : list zend_execute_data;
  exception_pending : bool
}.
Arguments objects HT : clear implicits.

(** ** Floating-point arithmetic of the constructor and [setPeriod] *)

Definition EXCIMER_DEFAULT_PERIOD : double := S754_finite false 7205759403792794 (-56).
Definition EXCIMER_BILLION : Z := 1000000000.
Definition ddiv : double -> double -> double := SFdiv 53 1024.

(** The cast of a [double] to [uint64_t]. *)
Definition u64_of_double (x : double) : outcome Z :=
  match x with
  | S754_zero _ => Ok 0
  | S754_finite s m e =>
      let t := float_trunc (Zpos m) e in
      if (if s then t =? 0 else t <? 2 ^ 64) then Ok (if s then 0 else t)
      else Crash "floating-point value out of range of the integer type"
  | _ => Crash "floating-point value out of range of the integer type"
  end.

(** [php_mt_rand() * period / UINT32_MAX]. *)
Definition stagger (rand : Z) (period : double) : double :=
  ddiv (dmul (double_of_Z rand) period) (double_of_Z UINT32_MAX).

(** [period * EXCIMER_BILLION] as a [uint64_t]. *)
Definition period_ns (period : double) : outcome Z :=
  u64_of_double (dmul period (double_of_Z EXCIMER_BILLION)).

Section objects.
  Context {HT : Type -> Type -> Type} `{ZendHash HT} {TL OS : Type} `{Timerlib TL OS}.
  Abbreviation state := (tstate TL OS (objects HT)).
  Context (zts : bool) (is_callable : nat -> state -> bool)
    (call_function : nat -> call_arg -> M state unit)
    (php_mt_rand : OS -> OS * Z) (default_max_depth : Z).
  Implicit Types (s : state) (p : ptr) (self : nat).

(** ** Access to objects *)

Definition set_profilers m (w : objects HT) : objects HT :=
  Objects HT m (timer_objs w) (logs w) (next_ptr w) (current_execute_data w)
    (exception_pending w).
Definition set_timer_objs m (w : objects HT) : objects HT :=
  Objects HT (profilers w) m (logs w) (next_ptr w) (current_execute_data w)
    (exception_pending w).
Definition set_logs m (w : objects HT) : objects HT :=
  Objects HT (profilers w) (timer_objs w) m (next_ptr w) (current_execute_data w)
    (exception_pending w).
Definition set_next_ptr n (w : objects HT) : objects HT :=
  Objects HT (profilers w) (timer_objs w) (logs w) n (current_execute_data w) (exception_pending w).

Definition modify_world (f : objects HT -> objects HT) : M state unit :=
  modify (fun s => set_world (f (world s)) s).

Definition get_profiler p : M state ExcimerProfiler_obj :=
  s ← get_state; lift (deref (profilers (world s) !! p)).
Definition put_profiler p (f : ExcimerProfiler_obj -> ExcimerProfiler_obj) : M state unit :=
  o ← get_profiler p; modify_world (fun w => set_profilers (<[p := f o]> (profilers w)) w).

Definition get_timer_obj p : M state ExcimerTimer_obj :=
  s ← get_state; lift (deref (timer_objs (world s) !! p)).
Definition put_timer_obj p (f : ExcimerTimer_obj -> ExcimerTimer_obj) : M state unit :=
  o ← get_timer_obj p; modify_world (fun w => set_timer_objs (<[p := f o]> (timer_objs w)) w).

Definition get_log (h : handle) : M state (ExcimerLog_obj HT) :=
  s ← get_state; lift (deref (logs (world s) !! h)).
Definition put_log (h : handle) (o : ExcimerLog_obj HT) : M state unit :=
  modify_world (fun w => set_logs (<[h := o]> (logs w)) w).

(** Memory that nobody uses. *)
Definition alloc : M state positive :=
  s ← get_state;
  _ ← modify_world (set_next_ptr (Pos.succ (next_ptr (world s))));
  mret (next_ptr (world s)).

(** [object_init_ex(z, ExcimerLog_ce)]. *)
Definition new_log_object : M state handle :=
  h ← alloc; _ ← put_log h ExcimerLog_new; mret h.

Definition rand : M state Z :=
  s ← get_state; let '(o, r) := php_mt_rand (os s) in _ ← modify (set_os o); mret r.

(** [timerlib_clock_get_time(TIMERLIB_REAL, &ts)], whose result is not checked. *)
Definition clock_now : M state timespec :=
  s ← get_state;
  let '(o, (ts, _)) := timerlib_clock_get_time EXCIMER_REAL (os s) in
  _ ← modify (set_os o); mret ts.

(** ** Starting and stopping the timer of an object *)

(** The body of [ExcimerProfiler_start] and [ExcimerTimer_start];
    [clear_reinit] is the assignment [need_reinit = 0]. *)
Definition start_object self p (need_reinit : bool) (event_type : Z) (cb : timer_callback)
    (period initial : timespec) (clear_reinit : M state unit) : M state unit :=
  t ← load p;
  ok ←
    (if need_reinit || negb (is_valid t) then
       _ ← (if is_valid t then excimer_timer_destroy zts self p else mret tt);
       ok ← excimer_timer_init zts self p event_type cb (Some p);
       if negb ok then mret false else _ ← clear_reinit; mret true
     else mret true);
  if negb ok then mret tt else excimer_timer_start p period initial.

Definition stop_object p : M state unit :=
  t ← load p;
  if is_valid t then excimer_timer_stop p else mret tt.

(** ** [ExcimerProfiler] *)

Definition set_prof_reinit (b : bool) (o : ExcimerProfiler_obj) : ExcimerProfiler_obj :=
  ProfilerObj (prof_period o) (prof_initial o) (prof_event_type o) (prof_z_log o) (prof_z_callback o)
    (max_samples o) b.
Definition set_prof_log (h : handle) (o : ExcimerProfiler_obj) : ExcimerProfiler_obj :=
  ProfilerObj (prof_period o) (prof_initial o) (prof_event_type o) h (prof_z_callback o)
    (max_samples o) (prof_need_reinit o).
Definition set_prof_callback (cb : zcallback) (n : Z) (o : ExcimerProfiler_obj) : ExcimerProfiler_obj :=
  ProfilerObj (prof_period o) (prof_initial o) (prof_event_type o) (prof_z_log o) cb n (prof_need_reinit o).
Definition set_prof_event_type (e : Z) (o : ExcimerProfiler_obj) : ExcimerProfiler_obj :=
  ProfilerObj (prof_period o) (prof_initial o) e (prof_z_log o) (prof_z_callback o) (max_samples o)
    (prof_need_reinit o).
Definition set_prof_times (period initial : timespec) (o : ExcimerProfiler_obj) : ExcimerProfiler_obj :=
  ProfilerObj period initial (prof_event_type o) (prof_z_log o) (prof_z_callback o) (max_samples o)
    (prof_need_reinit o).

Definition ExcimerProfiler_start self p : M state unit :=
  o ← get_profiler p;
  start_object self p (prof_need_reinit o) (prof_event_type o) excimer_profiler_event_cb
    (prof_period o) (prof_initial o) (put_profiler p (set_prof_reinit false)).

Definition ExcimerProfiler_stop p : M state unit := stop_object p.

(** [zend_fcall_info_init]: the function to call, if the value is callable. *)
Definition zend_fcall_info_init (cb : zcallback) (s : state) : option nat :=
  match cb with
  | cb_value v => if is_callable v s then Some v else None
  | _ => None
  end.

(** The second half of a flush: the callback gets the old log. *)
Definition flush_callback p (cb : zcallback) (old : handle) : M state handle :=
  match cb with
  | cb_null => mret old
  | _ =>
      s ← get_state;
      match zend_fcall_info_init cb s with
      | None =>
          _ ← php_warning "ExcimerProfiler callback is not callable (during event)";
          _ ← ExcimerProfiler_stop p;
          mret old
      | Some v =>
          _ ← call_function v (arg_log old);
          mret old
      end
  end.

(** Returns the handle of the old log. *)
Definition ExcimerProfiler_flush p : M state handle :=
  o ← get_profiler p;
  let old := prof_z_log o in
  log_obj ← get_log old;
  (* Rotate the log *)
  h ← new_log_object;
  new_obj ← get_log h;
  _ ← put_log h (set_log (excimer_log_copy_options (obj_log new_obj) (obj_log log_obj)) new_obj);
  _ ← put_profiler p (set_prof_log h);
  flush_callback p (prof_z_callback o) old.

(** [excimer_log_add] on the log of an object; when it ends in a fatal error, the
    frames it added remain. *)
Definition add_sample (h : handle) (event_count now_ns : Z) : M state unit :=
  log_obj ← get_log h;
  s ← get_state;
  let '(log, r) := excimer_log_add (current_execute_data (world s)) event_count now_ns (obj_log log_obj) in
  _ ← put_log h (set_log log log_obj);
  lift r.

(** [entries_size >= max_samples] compares unsigned numbers. *)
Definition ExcimerProfiler_event (event_count : Z) p : M state unit :=
  o ← get_profiler p;
  now_ts ← clock_now;
  _ ← add_sample (prof_z_log o) event_count (timerlib_timespec_to_ns now_ts);
  log_obj ← get_log (prof_z_log o);
  o ← get_profiler p;
  if negb (max_samples o =? 0) && (wrap_u64 (max_samples o) <=? entries_size (obj_log log_obj)) then
    _ ← ExcimerProfiler_flush p; mret tt
  else mret tt.

Definition ExcimerProfiler_new : M state ptr :=
  p ← alloc;
  now_ts ← clock_now;
  h ← new_log_object;
  log_obj ← get_log h;
  r ← rand;
  initial ← lift (timerlib_timespec_from_double (stagger r EXCIMER_DEFAULT_PERIOD));
  period ← lift (timerlib_timespec_from_double EXCIMER_DEFAULT_PERIOD);
  ns ← lift (period_ns EXCIMER_DEFAULT_PERIOD);
  _ ← put_log h (set_log (set_period ns (set_epoch (timerlib_timespec_to_ns now_ts)
        (set_max_depth default_max_depth (obj_log log_obj)))) log_obj);
  _ ← modify (fun s => set_timers (<[p := zero_timer]> (timers s)) s);
  _ ← modify_world (fun w => set_profilers
        (<[p := ProfilerObj period initial EXCIMER_REAL h cb_null 0 true]> (profilers w)) w);
  mret p.

(** The profiler's timer is destroyed; then its memory is freed. *)
Definition ExcimerProfiler_free_object self p : M state unit :=
  t ← load p;
  _ ← (if is_valid t then excimer_timer_destroy zts self p else mret tt);
  _ ← modify (fun s => set_timers (delete p (timers s)) s);
  modify_world (fun w => set_profilers (delete p (profilers w)) w).

Definition ExcimerProfiler_dtor p : M state unit :=
  o ← get_profiler p;
  log_obj ← get_log (prof_z_log o);
  if negb (entries_size (obj_log log_obj) =? 0) then _ ← ExcimerProfiler_flush p; mret tt else mret tt.

Definition ExcimerProfiler_setPeriod p (period : double) : M state unit :=
  r ← rand;
  period_ts ← lift (timerlib_timespec_from_double period);
  initial_ts ← lift (timerlib_timespec_from_double (stagger r period));
  _ ← put_profiler p (set_prof_times period_ts initial_ts);
  o ← get_profiler p;
  log_obj ← get_log (prof_z_log o);
  ns ← lift (period_ns period);
  put_log (prof_z_log o) (set_log (set_period ns (obj_log log_obj)) log_obj).

Definition ExcimerProfiler_setEventType p (event_type : Z) : M state unit :=
  if negb (event_type =? EXCIMER_CPU) && negb (event_type =? EXCIMER_REAL) then
    php_warning "Invalid event type"
  else put_profiler p (fun o => set_prof_reinit true (set_prof_event_type event_type o)).

Definition ExcimerProfiler_setMaxDepth p (depth : Z) : M state unit :=
  o ← get_profiler p;
  log_obj ← get_log (prof_z_log o);
  put_log (prof_z_log o) (set_log (excimer_log_set_max_depth depth (obj_log log_obj)) log_obj).

Definition ExcimerProfiler_setFlushCallback p (v : nat) (samples : Z) : M state unit :=
  s ← get_state;
  if negb (is_callable v s) then php_warning "flush callback is not callable"
  else put_profiler p (set_prof_callback (cb_value v) samples).

Definition ExcimerProfiler_clearFlushCallback p : M state unit :=
  put_profiler p (set_prof_callback cb_null 0).

(** The methods [start] and [stop]. *)
Definition ExcimerProfiler_start_method self p : M state unit :=
  t ← load p;
  _ ← (if is_running t then ExcimerProfiler_stop p else mret tt);
  ExcimerProfiler_start self p.

Definition ExcimerProfiler_getLog p : M state handle := o ← get_profiler p; mret (prof_z_log o).

(** ** [ExcimerTimer] *)

Definition set_tobj_reinit (b : bool) (o : ExcimerTimer_obj) : ExcimerTimer_obj :=
  TimerObj (tobj_period o) (tobj_initial o) (tobj_event_type o) (tobj_z_callback o) b.
Definition set_tobj_callback (cb : zcallback) (o : ExcimerTimer_obj) : ExcimerTimer_obj :=
  TimerObj (tobj_period o) (tobj_initial o) (tobj_event_type o) cb (tobj_need_reinit o).
Definition set_tobj_event_type (e : Z) (o : ExcimerTimer_obj) : ExcimerTimer_obj :=
  TimerObj (tobj_period o) (tobj_initial o) e (tobj_z_callback o) (tobj_need_reinit o).
Definition set_tobj_initial (ts : timespec) (o : ExcimerTimer_obj) : ExcimerTimer_obj :=
  TimerObj (tobj_period o) ts (tobj_event_type o) (tobj_z_callback o) (tobj_need_reinit o).
Definition set_tobj_period (ts : timespec) (o : ExcimerTimer_obj) : ExcimerTimer_obj :=
  TimerObj ts (tobj_initial o) (tobj_event_type o) (tobj_z_callback o) (tobj_need_reinit o).

Definition ExcimerTimer_start self p : M state unit :=
  o ← get_timer_obj p;
  start_object self p (tobj_need_reinit o) (tobj_event_type o) excimer_timer_event_cb
    (tobj_period o) (tobj_initial o) (put_timer_obj p (set_tobj_reinit false)).

Definition ExcimerTimer_stop p : M state unit := stop_object p.

Definition ExcimerTimer_new : M state ptr :=
  p ← alloc;
  _ ← modify (fun s => set_timers (<[p := zero_timer]> (timers s)) s);
  _ ← modify_world (fun w => set_timer_objs
        (<[p := TimerObj (Timespec 0 0) (Timespec 0 0) EXCIMER_REAL cb_undef true]> (timer_objs w)) w);
  mret p.

Definition ExcimerTimer_free_object self p : M state unit :=
  t ← load p;
  _ ← (if is_valid t then excimer_timer_destroy zts self p else mret tt);
  _ ← modify (fun s => set_timers (delete p (timers s)) s);
  modify_world (fun w => set_timer_objs (delete p (timer_objs w)) w).

Definition ExcimerTimer_setEventType p (event_type : Z) : M state unit :=
  if negb (event_type =? EXCIMER_CPU) && negb (event_type =? EXCIMER_REAL) then
    php_warning "Invalid event type"
  else put_timer_obj p (fun o => set_tobj_reinit true (set_tobj_event_type event_type o)).

Definition ExcimerTimer_setInterval p (initial : double) : M state unit :=
  ts ← lift (timerlib_timespec_from_double initial);
  put_timer_obj p (set_tobj_initial ts).

Definition ExcimerTimer_setPeriod p (period : double) : M state unit :=
  ts ← lift (timerlib_timespec_from_double period);
  put_timer_obj p (set_tobj_period ts).

Definition ExcimerTimer_set_callback p (v : nat) : M state bool :=
  s ← get_state;
  if negb (is_callable v s) then
    _ ← php_warning "timer callback is not callable"; mret false
  else _ ← put_timer_obj p (set_tobj_callback (cb_value v)); mret true.

(** [None] is a null callback. *)
Definition ExcimerTimer_setCallback p (v : option nat) : M state unit :=
  match v with
  | None => put_timer_obj p (set_tobj_callback cb_null)
  | Some v => _ ← ExcimerTimer_set_callback p v; mret tt
  end.

Definition ExcimerTimer_start_method self p : M state unit :=
  t ← load p;
  _ ← (if is_running t then ExcimerTimer_stop p else mret tt);
  ExcimerTimer_start self p.

Definition ExcimerTimer_getTime p : M state double :=
  ts ← excimer_timer_get_time p;
  mret (timerlib_timespec_to_double ts).

Definition ExcimerTimer_event (event_count : Z) p : M state unit :=
  o ← get_timer_obj p;
  match tobj_z_callback o with
  | cb_null | cb_undef => mret tt
  | cb =>
      s ← get_state;
      match zend_fcall_info_init cb s with
      | None =>
          _ ← php_warning "ExcimerTimer callback is not callable (during event)";
          ExcimerTimer_stop p
      | Some v => call_function v (arg_long event_count)
      end
  end.

(** The returned object, or null. [zval_ptr_dtor] drops the only reference to
    the new object, which frees it. *)
Definition excimer_set_timeout self (v : nat) (initial : double) : M state (option ptr) :=
  p ← ExcimerTimer_new;
  ok ← ExcimerTimer_set_callback p v;
  return_value ←
    (if negb ok then _ ← ExcimerTimer_free_object self p; mret None else mret (Some p));
  ts ← lift (timerlib_timespec_from_double initial);
  _ ← put_timer_obj p (set_tobj_initial ts);
  _ ← ExcimerTimer_start self p;
  mret return_value.

(** ** Dispatch of timer callbacks *)

Definition run_timer_callback (cb : timer_callback) (data : option ptr) (n : Z) : M state unit :=
  p ← lift (deref data);
  match cb with
  | excimer_profiler_event_cb => ExcimerProfiler_event n p
  | excimer_timer_event_cb => ExcimerTimer_event n p
  end.

(** ** Specification *)

(** Runs of the profiler: one event after another. The result is the list of the
    logs that were replaced, in order. *)
Fixpoint run_events p (ns : list Z) : M state (list handle) :=
  match ns with
  | [] => mret []
  | n :: ns' =>
      before ← ExcimerProfiler_getLog p;
      _ ← ExcimerProfiler_event n p;
      after ← ExcimerProfiler_getLog p;
      rest ← run_events p ns';
      mret (if decide (before = after) then rest else before :: rest)
  end.

(** The event counts that the log [h] holds. *)
Definition log_counts s (h : handle) : list Z :=
  match logs (world s) !! h with
  | Some lo => entry_event_count <$> entries (obj_log lo)
  | None => []
  end.

(** The state after the log of profiler [p], which is [o], was rotated: [h] is
    the new log. *)
Definition rotated_log (lo : ExcimerLog_obj HT) : ExcimerLog_obj HT :=
  set_log (excimer_log_copy_options (obj_log ExcimerLog_new) (obj_log lo)) ExcimerLog_new.

Definition rotate s p (o : ExcimerProfiler_obj) (lo : ExcimerLog_obj HT) : state :=
  let h := next_ptr (world s) in
  set_world (Objects HT (<[p := set_prof_log h o]> (profilers (world s))) (timer_objs (world s))
    (<[h := rotated_log lo]> (logs (world s))) (Pos.succ h) (current_execute_data (world s))
    (exception_pending (world s))) s.

(** Handles below [next_ptr] are in use. *)
Definition handles_ok s : Prop := forall h, is_Some (logs (world s) !! h) -> (h < next_ptr (world s))%positive.

(** Profiler [p] with its log, which has room for [k] more samples. *)
Record profiler_ok s p (o : ExcimerProfiler_obj) (lo : ExcimerLog_obj HT) (k : nat) : Prop := ProfilerOk {
  po_profiler : profilers (world s) !! p = Some o;
  po_log : logs (world s) !! prof_z_log o = Some lo;
  po_handles : handles_ok s;
  po_wf : log_wf (obj_log lo);
  po_stack : stack_ok (current_execute_data (world s));
  po_timer : is_Some (timers s !! p);
  po_room : frames_size (obj_log lo) + Z.of_nat (k * length (current_execute_data (world s))) <= 2 ^ 32
}.

(** PHP code that leaves the objects and timers of the extension alone. *)
Definition call_neutral : Prop :=
  forall v a s, exists s', call_function v a s = (s', Ok tt) /\ world s' = world s /\ timers s' = timers s.

(** A timer library and a clock that do not fail. *)
Definition library_succeeds : Prop :=
  (forall event_type p o, (timerlib_timer_init event_type p o).2.2 = true) /\
  (forall tl period initial o, (timerlib_timer_start tl period initial o).2.2 = true).

(** The timer of [p] is valid and running. *)
Definition runs s p : Prop :=
  exists t, timers s !! p = Some t /\ is_valid t = true /\ is_running t = true.

End objects.

(** ** Lemmas *)

Section object_facts.
  Context {HT : Type -> Type -> Type} `{ZendHashLaws HT} {TL OS : Type} `{Timerlib TL OS}.
  Abbreviation state := (tstate TL OS (objects HT)).
  Context (zts : bool) (is_callable : nat -> state -> bool)
    (call_function : nat -> call_arg -> M state unit).
  Implicit Types (s : state) (p : ptr) (self : nat).

Lemma get_profiler_ok s p o : profilers (world s) !! p = Some o -> get_profiler p s = (s, Ok o).
Proof. intros Hp. unfold get_profiler, mbind, M_bind, get_state, lift. by rewrite Hp. Qed.

Lemma get_log_ok s h lo : logs (world s) !! h = Some lo -> get_log h s = (s, Ok lo).
Proof. intros Hh. unfold get_log, mbind, M_bind, get_state, lift. by rewrite Hh. Qed.

Lemma put_profiler_ok s p o f :
  profilers (world s) !! p = Some o ->
  put_profiler p f s = (set_world (set_profilers (<[p := f o]> (profilers (world s))) (world s)) s, Ok tt).
Proof. intros Hp. unfold put_profiler. by rewrite (bind_ok _ _ _ _ _ (get_profiler_ok s p o Hp)). Qed.

(** The first half of a flush: the log is replaced. *)
Lemma flush_rotates_spec s p o lo :
  profilers (world s) !! p = Some o -> logs (world s) !! prof_z_log o = Some lo ->
  ExcimerProfiler_flush is_callable call_function p s
  = flush_callback is_callable call_function p (prof_z_callback o) (prof_z_log o) (rotate s p o lo).
Proof.
  intros Hp Hl. unfold ExcimerProfiler_flush.
  rewrite (bind_ok _ _ _ _ _ (get_profiler_ok s p o Hp)).
  rewrite (bind_ok _ _ _ _ _ (get_log_ok s _ lo Hl)).
  set (h := next_ptr (world s)).
  set (s1 := set_world (set_logs (<[h := ExcimerLog_new]> (logs (world s)))
    (set_next_ptr (Pos.succ h) (world s))) s).
  rewrite (bind_ok new_log_object _ s s1 h) by done.
  rewrite (bind_ok _ _ _ _ _ (get_log_ok s1 h ExcimerLog_new (lookup_insert_eq _ _ _))).
  set (s2 := set_world (set_logs (<[h := rotated_log lo]> (logs (world s)))
    (set_next_ptr (Pos.succ h) (world s))) s).
  rewrite (bind_ok (put_log h _) _ s1 s2 tt).
  2:{ unfold put_log, modify_world, modify, s1, s2, set_logs, set_world. simpl. by rewrite insert_insert_eq. }
  rewrite (bind_ok _ _ _ _ _ (put_profiler_ok s2 p o _ Hp)).
  done.
Qed.

(** What the second half can be. *)
Lemma flush_callback_cases p cb old s :
  flush_callback is_callable call_function p cb old s = (s, Ok old) \/
  flush_callback is_callable call_function p cb old s =
    (_ ← php_warning "ExcimerProfiler callback is not callable (during event)";
     _ ← ExcimerProfiler_stop p; mret old) s \/
  exists v, flush_callback is_callable call_function p cb old s = (_ ← call_function v (arg_log old); mret old) s.
Proof.
  destruct cb as [| |v]; [by right; left|by left|]. right. unfold flush_callback.
  rewrite (bind_ok get_state _ s s s) by done. cbn [zend_fcall_info_init].
  destruct (is_callable v s); [right; by exists v|by left].
Qed.

(** The result of [excimer_timer_init] is that of the library. *)
Lemma init_succeeds s0 t0 self p et cb data s1 b :
  timers s0 !! p = Some t0 -> (forall event_type p o, (timerlib_timer_init event_type p o).2.2 = true) ->
  excimer_timer_init false self p et cb data s0 = (s1, Ok b) -> b = true.
Proof.
  intros Hp Hi. unfold excimer_timer_init. rewrite (bind_ok _ _ _ _ _ (store_ok s0 p t0 _ Hp)).
  set (s' := set_timers _ s0). set (t' := fresh_timer false self cb data : excimer_timer TL).
  assert (Hp' : timers s' !! p = Some t') by apply lookup_insert_eq.
  destruct (timerlib_timer_init et p (os s')) as [o1 [tl1 ok]] eqn:Hl.
  rewrite (bind_with_tl s' p t' _ _ o1 tl1 ok) by done.
  assert (ok = true) as -> by (rewrite <-(Hi et p (os s')), Hl; done). cbn [negb].
  set (s2 := set_timers _ (set_os o1 s')).
  assert (Hp2 : timers s2 !! p = Some (set_tl tl1 t')) by apply lookup_insert_eq.
  rewrite (bind_ok _ _ _ _ _ (modify_tls_ok s2 self _)).
  rewrite (bind_ok _ _ _ _ _ (store_mid s2 _ _ p _ _ Hp2)).
  rewrite (bind_ok _ _ _ _ _ (store_mid s2 _ _ p _ _ (lookup_insert_eq _ _ _))). by intros [= _ <-].
Qed.

(** Stopping the timer of an object changes no object. *)
Lemma stop_object_spec s p :
  is_Some (timers s !! p) ->
  exists s', stop_object p s = (s', Ok tt) /\ world s' = world s /\ is_Some (timers s' !! p).
Proof.
  intros [t Hp]. unfold stop_object. rewrite (bind_ok _ _ _ _ _ (load_ok s p t Hp)).
  destruct (is_valid t) eqn:Hv; [|by eexists].
  unfold excimer_timer_stop. rewrite (bind_ok _ _ _ _ _ (load_ok s p t Hp)), Hv. cbn [negb].
  destruct (is_running t); [|by eexists].
  destruct (timerlib_timer_stop (tl_timer t) (os s)) as [o [tl ok]] eqn:Hs.
  rewrite (bind_with_tl s p t _ _ o tl ok) by done.
  set (s1 := set_timers _ (set_os o s)).
  assert (Hp1 : timers s1 !! p = Some (set_tl tl t)) by apply lookup_insert_eq.
  destruct ok; [|by exists s1; eauto].
  rewrite (store_ok s1 p _ _ Hp1). eexists. split_and!; [done|done|]. simpl. rewrite lookup_insert_eq. eauto.
Qed.

(** A flush with PHP code that does not interfere. *)
Lemma flush_neutral s p o lo :
  call_neutral call_function -> profilers (world s) !! p = Some o ->
  logs (world s) !! prof_z_log o = Some lo -> is_Some (timers s !! p) ->
  exists s', ExcimerProfiler_flush is_callable call_function p s = (s', Ok (prof_z_log o)) /\
    world s' = world (rotate s p o lo) /\ is_Some (timers s' !! p).
Proof.
  intros Hcall Hp Hl Ht. rewrite (flush_rotates_spec s p o lo Hp Hl).
  destruct (flush_callback_cases p (prof_z_callback o) (prof_z_log o) (rotate s p o lo)) as [->|[->|[v ->]]].
  - by eexists.
  - set (s1 := (php_warning "ExcimerProfiler callback is not callable (during event)" (rotate s p o lo)).1).
    rewrite (bind_ok (php_warning _) _ _ s1 tt) by done.
    destruct (stop_object_spec s1 p) as (s' & Hrun & Hw & Hts); [done|].
    rewrite (bind_ok (ExcimerProfiler_stop p) _ s1 s' tt) by done. by exists s'.
  - destruct (Hcall v (arg_log (prof_z_log o)) (rotate s p o lo)) as (s' & Hrun & Hw & Hts).
    rewrite (bind_ok _ _ _ _ _ Hrun). exists s'. split_and!; [done..|]. by rewrite Hts.
Qed.

Lemma clock_now_ok s : exists o ts, clock_now s = (set_os o s, Ok ts).
Proof.
  unfold clock_now. rewrite (bind_ok get_state _ s s s) by done.
  destruct (timerlib_clock_get_time EXCIMER_REAL (os s)) as [o [ts b]]. by exists o, ts.
Qed.

(** The log object after a sample with [n] events. *)
Definition sampled (lo lo' : ExcimerLog_obj HT) (n : Z) (stack : list zend_execute_data) : Prop :=
  exists i now, log_wf (obj_log lo') /\
    entries (obj_log lo') = entries (obj_log lo) ++ [Entry i n now] /\
    frame_location <$> chain (frames (obj_log lo')) i = sample_locations (max_depth (obj_log lo)) stack /\
    max_depth (obj_log lo') = max_depth (obj_log lo) /\ epoch (obj_log lo') = epoch (obj_log lo) /\
    period (obj_log lo') = period (obj_log lo) /\
    frames_size (obj_log lo') <= frames_size (obj_log lo) + Z.of_nat (length stack).

Lemma add_sample_spec s p o lo k n now :
  profiler_ok s p o lo (S k) ->
  exists lo', sampled lo lo' n (current_execute_data (world s)) /\
    add_sample (prof_z_log o) n now s
    = (set_world (set_logs (<[prof_z_log o := lo']> (logs (world s))) (world s)) s, Ok tt).
Proof.
  intros [Hp Hl Hh Hwf Hst Ht Hroom]. set (stack := current_execute_data (world s)) in *.
  unfold add_sample. rewrite (bind_ok _ _ _ _ _ (get_log_ok s _ lo Hl)).
  rewrite (bind_ok get_state _ s s s) by done. fold stack.
  destruct (excimer_log_add stack n now (obj_log lo)) as [log' r] eqn:Hrun.
  pose proof (log_add_spec stack n now (obj_log lo) Hwf Hst) as Hspec. rewrite Hrun in Hspec.
  inversion Hspec as [logf i Hrec Hsz|logf Hbig Hsz]; subst; [|simpl in Hroom; lia].
  pose proof (log_add_wf _ _ _ _ _ Hwf Hst Hrun) as Hwf'.
  destruct Hrec as [Hext _ _ Hchain].
  eexists (set_log _ lo). split; [|done].
  exists i, now. split_and!; [done|done|done|apply (ext_max_depth _ _ Hext)|apply (ext_epoch _ _ Hext)|
    apply (ext_period _ _ Hext)|exact Hsz].
Qed.

Lemma rotated_wf (lo : ExcimerLog_obj HT) : log_wf (obj_log (rotated_log lo)).
Proof. by apply (wf_options (excimer_log_init (Log HT [] [] zend_new_array 0 0 0 0))), init_wf. Qed.

(** A profiler event: a sample, and a flush when the log is full. *)
Lemma event_step s p o lo k n :
  call_neutral call_function -> profiler_ok s p o lo (S k) ->
  exists s' lo', ExcimerProfiler_event is_callable call_function n p s = (s', Ok tt) /\
    sampled lo lo' n (current_execute_data (world s)) /\
    logs (world s') !! prof_z_log o = Some lo' /\
    (forall h lo0, h <> prof_z_log o -> logs (world s) !! h = Some lo0 -> logs (world s') !! h = Some lo0) /\
    (next_ptr (world s) <= next_ptr (world s'))%positive /\
    current_execute_data (world s') = current_execute_data (world s) /\
    if negb (max_samples o =? 0) && (wrap_u64 (max_samples o) <=? entries_size (obj_log lo'))
    then profiler_ok s' p (set_prof_log (next_ptr (world s)) o) (rotated_log lo') k /\
         (prof_z_log o < next_ptr (world s))%positive
    else profiler_ok s' p o lo' k.
Proof.
  intros Hcall Hok. unfold ExcimerProfiler_event.
  rewrite (bind_ok _ _ _ _ _ (get_profiler_ok s p o (po_profiler _ _ _ _ _ Hok))).
  destruct (clock_now_ok s) as (o0 & now & Hclock). rewrite (bind_ok _ _ _ _ _ Hclock).
  assert (Hok0 : profiler_ok (set_os o0 s) p o lo (S k)) by by destruct Hok.
  destruct (add_sample_spec _ p o lo k n (timerlib_timespec_to_ns now) Hok0) as (lo' & Hsam & Hadd).
  rewrite (bind_ok _ _ _ _ _ Hadd). cbn [world set_os] in *.
  set (s1 := set_world _ (set_os o0 s)). destruct Hok as [Hp Hl Hh Hwf Hst Ht Hroom].
  assert (Hl1 : logs (world s1) !! prof_z_log o = Some lo') by apply lookup_insert_eq.
  rewrite (bind_ok _ _ _ _ _ (get_log_ok s1 _ lo' Hl1)).
  rewrite (bind_ok _ _ _ _ _ (get_profiler_ok s1 p o Hp)).
  assert (Hold : (prof_z_log o < next_ptr (world s))%positive) by (apply Hh; eauto).
  pose proof Hsam as (i & t & Hwf' & _ & _ & _ & _ & _ & Hsz).
  destruct (negb (max_samples o =? 0) && _) eqn:Hc.
  - destruct (flush_neutral s1 p o lo' Hcall Hp Hl1 Ht) as (s' & Hrun & Hw & Hts).
    rewrite (bind_ok _ _ _ _ _ Hrun). exists s', lo'. rewrite Hw. cbn [world rotate set_world logs].
    change (next_ptr (world s1)) with (next_ptr (world s)).
    rewrite Hc. split_and!; [done|done| | |simpl; lia|done| |done].
    + rewrite lookup_insert_ne by lia. done.
    + intros h lo0 Hne Hlo. assert (h < next_ptr (world s))%positive by (apply Hh; eauto).
      rewrite lookup_insert_ne by lia. simpl. by rewrite lookup_insert_ne.
    + pose proof (wf_size_pos _ Hwf). split; rewrite ?Hw; simpl; [by rewrite lookup_insert_eq..| | |done|done|].
      * intros h. rewrite Hw. simpl. rewrite lookup_insert_is_Some'. intros [<-|Hs]; [lia|].
        rewrite lookup_insert_is_Some' in Hs. assert (h < next_ptr (world s))%positive; [|lia].
        apply Hh. destruct Hs as [<-|?]; eauto.
      * apply rotated_wf.
      * simpl in Hroom. unfold frames_size at 1. simpl. lia.
  - exists s1, lo'. rewrite Hc. split_and!; [done|done|done| |simpl; lia|done|].
    + intros h lo0 Hne Hlo. simpl. by rewrite lookup_insert_ne.
    + split; try done.
      * intros h Hsome. apply Hh. simpl in Hsome. rewrite lookup_insert_is_Some' in Hsome.
        destruct Hsome as [<-|?]; [eauto|done].
      * simpl. simpl in Hroom. lia.
Qed.

Lemma get_log_method_ok s p o lo k :
  profiler_ok s p o lo k -> ExcimerProfiler_getLog p s = (s, Ok (prof_z_log o)).
Proof.
  intros Hok. unfold ExcimerProfiler_getLog.
  by rewrite (bind_ok _ _ _ _ _ (get_profiler_ok s p o (po_profiler _ _ _ _ _ Hok))).
Qed.

Lemma log_counts_eq s h lo :
  logs (world s) !! h = Some lo -> log_counts s h = entry_event_count <$> entries (obj_log lo).
Proof. intros Hl. unfold log_counts. by rewrite Hl. Qed.

Lemma sampled_counts (lo lo' : ExcimerLog_obj HT) n stack :
  sampled lo lo' n stack ->
  entry_event_count <$> entries (obj_log lo') = (entry_event_count <$> entries (obj_log lo)) ++ [n].
Proof. intros (i & now & _ & He & _). by rewrite He, fmap_app. Qed.

(** A run of the profiler with a limit of [m] samples per log. *)
Lemma run_events_spec m ns s p o lo :
  call_neutral call_function -> profiler_ok s p o lo (length ns) ->
  max_samples o = m -> 0 < m < 2 ^ 63 -> entries_size (obj_log lo) < m ->
  exists s' retired o' lo',
    run_events is_callable call_function p ns s = (s', Ok retired) /\ profiler_ok s' p o' lo' 0 /\
    max_samples o' = m /\ entries_size (obj_log lo') < m /\
    Forall (fun h => Z.of_nat (length (log_counts s' h)) = m) retired /\
    concat (log_counts s' <$> retired) ++ log_counts s' (prof_z_log o')
      = log_counts s (prof_z_log o) ++ ns /\
    (forall h lo0, h <> prof_z_log o -> logs (world s) !! h = Some lo0 -> logs (world s') !! h = Some lo0).
Proof.
  intros Hcall. revert s o lo. induction ns as [|n ns IH]; intros s o lo Hok Hm Hm0 Hsz.
  { exists s, [], o, lo. rewrite app_nil_r. by split_and!. }
  cbn [run_events]. rewrite (bind_ok _ _ _ _ _ (get_log_method_ok s p o lo _ Hok)).
  destruct (event_step s p o lo (length ns) n Hcall Hok)
    as (s1 & lo1 & Hrun1 & Hsam & Hl1 & Hother & Hnext & Hstack & Hnew).
  rewrite (bind_ok _ _ _ _ _ Hrun1). pose proof (sampled_counts _ _ _ _ Hsam) as Hcounts.
  pose proof (log_counts_eq s _ lo (po_log _ _ _ _ _ Hok)) as Hc0.
  assert (Hsz1 : entries_size (obj_log lo1) = entries_size (obj_log lo) + 1).
  { destruct Hsam as (i & now & _ & He & _). unfold entries_size. rewrite He, length_app. simpl. lia. }
  rewrite (proj2 (Z.eqb_neq (max_samples o) 0)), Hm, wrap_u64_small in Hnew by (unfold is_u64; lia).
  cbn [negb andb] in Hnew. destruct (Z.leb_spec m (entries_size (obj_log lo1))).
  - destruct Hnew as [Hok1 Hold].
    rewrite (bind_ok _ _ _ _ _ (get_log_method_ok s1 p _ _ _ Hok1)). cbn [set_prof_log prof_z_log].
    destruct (IH s1 (set_prof_log (next_ptr (world s)) o) (rotated_log lo1) Hok1)
      as (s' & retired & o' & lo' & Hrun & Hok' & Hm' & Hsz' & Hall & Hcat & Hkeep);
      [done|done|unfold entries_size; simpl; lia|].
    rewrite (bind_ok _ _ _ _ _ Hrun). rewrite decide_False by lia.
    assert (Hold' : logs (world s') !! prof_z_log o = Some lo1) by (apply Hkeep; [simpl; lia|done]).
    exists s', (prof_z_log o :: retired), o', lo'. split_and!; [done..| | |].
    + constructor; [|done]. rewrite (log_counts_eq _ _ _ Hold'), length_fmap. unfold entries_size in *. lia.
    + rewrite fmap_cons. simpl. rewrite <-app_assoc, Hcat, (log_counts_eq _ _ _ Hold'), Hcounts, Hc0.
      rewrite (log_counts_eq s1 _ _ (po_log _ _ _ _ _ Hok1)). simpl. by rewrite <-app_assoc.
    + intros h lo0 Hne Hlo. apply Hkeep; [simpl|by apply Hother].
      assert (h < next_ptr (world s))%positive by (apply (po_handles _ _ _ _ _ Hok); eauto). lia.
  - rewrite (bind_ok _ _ _ _ _ (get_log_method_ok s1 p _ _ _ Hnew)).
    destruct (IH s1 o lo1 Hnew) as (s' & retired & o' & lo' & Hrun & Hok' & Hm' & Hsz' & Hall & Hcat & Hkeep);
      [done|done|lia|].
    rewrite (bind_ok _ _ _ _ _ Hrun). rewrite decide_True by done.
    exists s', retired, o', lo'. split_and!; [done..| |].
    + rewrite Hcat, (log_counts_eq s1 _ _ (po_log _ _ _ _ _ Hnew)), Hcounts, Hc0. by rewrite <-app_assoc.
    + intros h lo0 Hne Hlo. apply Hkeep; [done|by apply Hother].
Qed.

Lemma set_world_inv s l w : timer_inv s l -> timer_inv (set_world w s) l.
Proof. by intros []. Qed.

(** Making sure that the timer of an object is valid. *)
Lemma reinit_spec s l self p t (need : bool) et cb clear :
  timer_inv s l -> timers s !! p = Some t ->
  (forall s0, world s0 = world s -> exists w, clear s0 = (set_world w s0, Ok tt)) ->
  exists s1 l1 t1 b,
    (if need || negb (is_valid t) then
       _ ← (if is_valid t then excimer_timer_destroy false self p else mret tt);
       ok ← excimer_timer_init false self p et cb (Some p);
       if negb ok then mret false else _ ← clear; mret true
     else mret true : M state bool) s = (s1, Ok b) /\
    timer_inv s1 l1 /\ timers s1 !! p = Some t1 /\ is_valid t1 = b /\
    (library_succeeds (TL:=TL) (OS:=OS) -> b = true).
Proof.
  intros Hinv Hp Hclear. destruct (need || negb (is_valid t)) eqn:Hneed.
  2:{ exists s, l, t, true. apply orb_false_elim in Hneed as [_ Hv%negb_false_iff]. by split_and!. }
  assert (exists s0 l0 t0, (if is_valid t then excimer_timer_destroy false self p else mret tt) s = (s0, Ok tt) /\
    timer_inv s0 l0 /\ timers s0 !! p = Some t0 /\ is_valid t0 = false /\ world s0 = world s)
    as (s0 & l0 & t0 & Hrun0 & Hinv0 & Hp0 & Hv0 & Hw0).
  { destruct (is_valid t) eqn:Hv; [|by exists s, l, t].
    destruct (destroy_spec s l self p t Hinv Hp Hv) as (s' & t' & ? & ? & ? & ? & _ & _ & ?).
    by exists s', (queue_remove p l), t'. }
  rewrite (bind_ok _ _ _ _ _ Hrun0).
  destruct (init_spec s0 l0 self p t0 et cb (Some p) Hinv0 Hp0 Hv0)
    as (s1 & b & t1 & Hrun1 & Hinv1 & Hp1 & Hv1 & _ & _ & _ & _ & Ho).
  rewrite (bind_ok _ _ _ _ _ Hrun1).
  assert (Hlib : library_succeeds (TL:=TL) (OS:=OS) -> b = true) by 
    (intros [Hi _]; eapply (init_succeeds s0 t0); eauto).
  destruct b; cbn [negb].
  - destruct (Hclear s1) as [w Hc]; [destruct Ho as (_ & _ & Hw & _); congruence|].
    rewrite (bind_ok _ _ _ _ _ Hc). exists (set_world w s1), l0, t1, true.
    split_and!; [done|by apply set_world_inv|done..].
  - by exists s1, l0, t1, false.
Qed.

(** ** Properties *)


(** Flushing, whatever the callback does: before the callback is called the
    profiler has a new, empty, well-formed log with the options of the old one
    (depth limit, epoch and period), and the old log, unchanged, is what the
    callback receives and what [flush] returns. *)
Theorem flush_rotates s p o lo :
  profilers (world s) !! p = Some o -> logs (world s) !! prof_z_log o = Some lo -> handles_ok s ->
  let s1 := rotate s p o lo in
  ExcimerProfiler_flush is_callable call_function p s
  = match prof_z_callback o with
    | cb_null => (s1, Ok (prof_z_log o))
    | cb =>
        match zend_fcall_info_init is_callable cb s1 with
        | Some v => (_ ← call_function v (arg_log (prof_z_log o)); mret (prof_z_log o)) s1
        | None =>
            (_ ← php_warning "ExcimerProfiler callback is not callable (during event)";
             _ ← ExcimerProfiler_stop p; mret (prof_z_log o)) s1
        end
    end /\
  logs (world s1) !! prof_z_log o = Some lo /\
  exists o1 lo1, profilers (world s1) !! p = Some o1 /\ logs (world s1) !! prof_z_log o1 = Some lo1 /\
    prof_z_log o1 <> prof_z_log o /\ log_wf (obj_log lo1) /\ entries (obj_log lo1) = [] /\
    max_depth (obj_log lo1) = max_depth (obj_log lo) /\ epoch (obj_log lo1) = epoch (obj_log lo) /\
    period (obj_log lo1) = period (obj_log lo).
Proof.
  intros Hp Hl Hh. assert (prof_z_log o < next_ptr (world s))%positive by (apply Hh; eauto).
  split_and!; [|simpl; by rewrite lookup_insert_ne by lia|].
  { rewrite (flush_rotates_spec s p o lo Hp Hl). unfold flush_callback.
    destruct (prof_z_callback o); cbn; [done..|]. unfold mbind, M_bind at 1, get_state. by destruct (is_callable _ _). }
  eexists _, _. split_and!; [apply lookup_insert_eq|apply lookup_insert_eq|simpl; lia|apply rotated_wf|done..].
Qed.

(** Starting a profiler: the call always returns and keeps the timers well
    formed, whether the timer is started for the first time, started again or
    made anew after a change of the event type; and if the timer library does
    not fail and the period is not zero, the timer is valid and running
    afterwards. *)
Theorem profiler_start_runs s l self p o t :
  timer_inv s l -> timers s !! p = Some t -> profilers (world s) !! p = Some o ->
  exists s' l', ExcimerProfiler_start_method false self p s = (s', Ok tt) /\ timer_inv s' l' /\
    (library_succeeds (TL:=TL) (OS:=OS) -> timerlib_timespec_is_zero (prof_period o) = false -> runs s' p).
Proof.
  intros Hinv Hp Ho. unfold ExcimerProfiler_start_method. rewrite (bind_ok _ _ _ _ _ (load_ok s p t Hp)).
  assert (exists s0 t0, (if is_running t then ExcimerProfiler_stop p else mret tt) s = (s0, Ok tt) /\
    timer_inv s0 l /\ timers s0 !! p = Some t0 /\ world s0 = world s)
    as (s0 & t0 & Hrun0 & Hinv0 & Hp0 & Hw0).
  { destruct (is_running t) eqn:Hr; [|by exists s, t]. unfold ExcimerProfiler_stop, stop_object.
    rewrite (bind_ok _ _ _ _ _ (load_ok s p t Hp)).
    rewrite (tok_running _ _ _ (ti_timers _ _ Hinv _ _ Hp) Hr).
    destruct (stop_spec s l p t Hinv Hp) as (s0 & Hrun & Hinv0 & (_ & _ & Hw & _) & _).
    destruct (stop_object_spec s p) as (s0' & Hrun' & _ & [t0 Ht0]); [eauto|].
    unfold stop_object in Hrun'. rewrite (bind_ok _ _ _ _ _ (load_ok s p t Hp)) in Hrun'.
    rewrite (tok_running _ _ _ (ti_timers _ _ Hinv _ _ Hp) Hr) in Hrun'.
    rewrite Hrun in Hrun'. injection Hrun' as <-. by exists s0, t0. }
  rewrite (bind_ok _ _ _ _ _ Hrun0). unfold ExcimerProfiler_start. rewrite <-Hw0 in Ho.
  rewrite (bind_ok _ _ _ _ _ (get_profiler_ok s0 p o Ho)). unfold start_object.
  rewrite (bind_ok _ _ _ _ _ (load_ok s0 p t0 Hp0)).
  destruct (reinit_spec s0 l self p t0 (prof_need_reinit o) (prof_event_type o) excimer_profiler_event_cb
    (put_profiler p (set_prof_reinit false)) Hinv0 Hp0) as (s1 & l1 & t1 & b & Hrun1 & Hinv1 & Hp1 & Hv1 & Hlib).
  { intros s2 Hw2. rewrite (put_profiler_ok s2 p o) by (by rewrite Hw2). by eexists. }
  rewrite (bind_ok _ _ _ _ _ Hrun1). destruct b; cbn [negb].
  2:{ exists s1, l1. split_and!; [done..|]. intros Hl. by specialize (Hlib Hl). }
  destruct (start_spec s1 l1 p t1 (prof_period o) (prof_initial o) Hinv1 Hp1) as (s' & Hrun & Hinv' & _ & Heff).
  exists s', l1. split_and!; [done..|]. intros [_ Hstart] Hz. cbv zeta in Heff. rewrite Hv1 in Heff.
  assert (Hini : timerlib_timespec_is_zero
    (if timerlib_timespec_is_zero (prof_initial o) then prof_period o else prof_initial o) = false)
    by by destruct (timerlib_timespec_is_zero (prof_initial o)) eqn:?.
  rewrite Hini in Heff. cbn [negb andb] in Heff. set (ini := if timerlib_timespec_is_zero (prof_initial o) then _ else _) in *.
  pose proof (Hstart (tl_timer t1) (prof_period o) ini (os s1)) as Hok.
  destruct (timerlib_timer_start _ _ _ _) as [o1 [tl ok]]. simpl in Hok. subst ok s'.
  eexists. split; [apply lookup_insert_eq|]. done.
Qed.

(** A negative limit of samples is compared as an unsigned number: such a
    profiler never flushes on its own. *)
Theorem negative_limit_never_flushes s p o lo k n :
  call_neutral call_function -> profiler_ok s p o lo (S k) ->
  - 2 ^ 63 <= max_samples o < 0 -> entries_size (obj_log lo) + 1 < 2 ^ 63 ->
  exists s' lo', ExcimerProfiler_event is_callable call_function n p s = (s', Ok tt) /\
    profilers (world s') !! p = Some o /\ logs (world s') !! prof_z_log o = Some lo' /\
    entries_size (obj_log lo') = entries_size (obj_log lo) + 1.
Proof.
  intros Hcall Hok Hm Hsz.
  destruct (event_step s p o lo k n Hcall Hok) as (s' & lo' & Hrun & Hsam & Hl & _ & _ & _ & Hnew).
  assert (Hsz' : entries_size (obj_log lo') = entries_size (obj_log lo) + 1).
  { destruct Hsam as (i & now & _ & He & _). unfold entries_size. rewrite He, length_app. simpl. lia. }
  assert (Hw : wrap_u64 (max_samples o) = max_samples o + 2 ^ 64).
  { unfold wrap_u64. symmetry. apply (Zmod_unique _ _ (-1)); lia. }
  rewrite Hw, (proj2 (Z.leb_gt _ _)), andb_false_r in Hnew by lia.
  exists s', lo'. split_and!; [done|apply (po_profiler _ _ _ _ _ Hnew)|done|done].
Qed.

(** C40. [excimer_set_timeout] with a callback that is not callable: the new timer
    object is freed, but the function goes on to set its interval and to start
    it, which is a use of freed memory. *)
Theorem set_timeout_uses_freed_object s self v x ts :
  (forall s0, is_callable v s0 = false) -> timerlib_timespec_from_double x = Ok ts ->
  exists s' why, excimer_set_timeout false is_callable self v x s = (s', Crash why).
Proof.
  intros Hcall Hts. unfold excimer_set_timeout. set (p := next_ptr (world s)).
  assert (exists s1, ExcimerTimer_new s = (s1, Ok p) /\ timers s1 !! p = Some zero_timer) as (s1 & Hnew & Hp).
  { eexists. split; [done|]. simpl. by rewrite lookup_insert_eq. }
  rewrite (bind_ok _ _ _ _ _ Hnew).
  set (s2 := (php_warning "timer callback is not callable" s1).1).
  rewrite (bind_ok (ExcimerTimer_set_callback is_callable p v) _ s1 s2 false).
  2:{ unfold ExcimerTimer_set_callback. rewrite (bind_ok get_state _ s1 s1 s1), Hcall by done. done. }
  cbn [negb]. assert (exists s3, (_ ← ExcimerTimer_free_object false self p; mret None : M state (option ptr)) s2
    = (s3, Ok None) /\ timer_objs (world s3) !! p = None) as (s3 & Hfree & Hgone).
  { eexists. split.
    - unfold ExcimerTimer_free_object, mbind, M_bind. rewrite (load_ok s2 p zero_timer Hp). done.
    - simpl. apply lookup_delete_eq. }
  rewrite (bind_ok _ _ _ _ _ Hfree), Hts, (bind_ok (lift (Ok ts)) _ s3 s3 ts) by done.
  unfold put_timer_obj, get_timer_obj, mbind, M_bind, get_state, lift. rewrite Hgone. simpl. by eexists _, _.
Qed.

End object_facts.

(** ** Witnesses *)

Section witnesses.
  #[local] Existing Instance ex_timerlib.
  Abbreviation ex_obj_state := (tstate bool unit (objects alist)).

(** A profiler at address 1, with its log at 2, that flushes after [m] samples. *)
Definition ex_profiler (m : Z) : ExcimerProfiler_obj :=
  ProfilerObj (Timespec 0 100000000) (Timespec 0 42) EXCIMER_REAL 2 (cb_value 0) m true.

Definition ex_objects (m : Z) : objects alist :=
  Objects alist {[1%positive := ex_profiler m]} ∅ {[2%positive := LogObj alist (ex_log 0) None 0]} 3 ex_stack false.

Definition ex_profiling (m : Z) : ex_obj_state :=
  TState _ _ _ {[1%positive := ex_memory]} ∅ ∅ None None [] tt (ex_objects m).

Definition ex_call (v : nat) (a : call_arg) : M ex_obj_state unit := mret tt.

Lemma ex_call_neutral : call_neutral ex_call.
Proof. intros v a s. by exists s. Qed.

Lemma ex_profiling_inv m : timer_inv (ex_profiling m) [].
Proof.
  assert (Hmem : forall p t, timers (ex_profiling m) !! p = Some t -> t = ex_memory).
  { intros p t Hp. cbn [timers ex_profiling] in Hp. by apply lookup_singleton_Some in Hp as [_ <-]. }
  split; [| |done| |done].
  - split; [done|]. split; [apply NoDup_nil_2|]. intros a b Hab. by apply elem_of_nil in Hab.
  - intros p [t Hp]. right. exists t. split; [done|]. by rewrite (Hmem p t Hp).
  - intros p t Hp. rewrite (Hmem p t Hp). split; try done. by intros ?%elem_of_nil.
Qed.

Lemma ex_profiler_ok m : profiler_ok (ex_profiling m) 1 (ex_profiler m) (LogObj alist (ex_log 0) None 0) 5.
Proof.
  split; [done|done| |apply ex_log_wf|apply ex_stack_ok|done|vm_compute; discriminate].
  intros h [lo Hlo]. cbn in Hlo. apply lookup_singleton_Some in Hlo as [<- _]. done.
Qed.


Lemma flush_rotates_witness :
  ExcimerProfiler_flush (fun _ _ => true) ex_call 1 (ex_profiling 2)
  = (rotate (ex_profiling 2) 1 (ex_profiler 2) (LogObj alist (ex_log 0) None 0), Ok 2%positive).
Proof.
  destruct (flush_rotates (fun _ _ => true) ex_call (ex_profiling 2) 1 (ex_profiler 2)
    (LogObj alist (ex_log 0) None 0)) as [Hrun _].
  - reflexivity.
  - reflexivity.
  - apply (po_handles _ _ _ _ _ (ex_profiler_ok 2)).
  - exact Hrun.
Defined.

Lemma profiler_start_runs_witness :
  exists s', ExcimerProfiler_start_method false 0 1 (ex_profiling 2) = (s', Ok tt) /\ runs s' 1.
Proof.
  destruct (profiler_start_runs (HT:=alist) (ex_profiling 2) [] 0 1 (ex_profiler 2) ex_memory)
    as (s' & l' & Hrun & _ & Hruns).
  - apply ex_profiling_inv.
  - reflexivity.
  - reflexivity.
  - exists s'. split; [exact Hrun|]. apply Hruns; [split; reflexivity|reflexivity].
Defined.

Lemma negative_limit_never_flushes_witness :
  exists s' lo', ExcimerProfiler_event (fun _ _ => true) ex_call 1 1 (ex_profiling (-1)) = (s', Ok tt) /\
    profilers (world s') !! 1%positive = Some (ex_profiler (-1)) /\
    logs (world s') !! 2%positive = Some lo' /\ entries_size (obj_log lo') = 1.
Proof.
  apply (negative_limit_never_flushes (fun _ _ => true) ex_call (ex_profiling (-1)) 1 (ex_profiler (-1))
    (LogObj alist (ex_log 0) None 0) 4 1).
  - apply ex_call_neutral.
  - apply ex_profiler_ok.
  - simpl. lia.
  - vm_compute. reflexivity.
Defined.

Lemma set_timeout_uses_freed_object_witness :
  exists s' why, excimer_set_timeout false (fun _ _ => false) 0 0 EXCIMER_DEFAULT_PERIOD (ex_profiling 2)
    = (s', Crash why).
Proof.
  apply (set_timeout_uses_freed_object (HT:=alist) (fun _ _ => false) (ex_profiling 2) 0 0
    EXCIMER_DEFAULT_PERIOD (Timespec 0 100000000)).
  - reflexivity.
  - vm_compute. reflexivity.
Defined.

End witnesses.
