(* ===== verification/ObjectSystem.v ===== *)
(** * PHP programs and the objects they use

    A request as a sequence of events: PHP code calls the methods of the four
    classes, timers elapse, and the engine handles interrupts, whose callbacks
    call PHP functions again. PHP code is arbitrary: a function is any finite
    program that calls methods, decides what to do next by their results, and
    throws and catches exceptions. The events are composed from the definitions
    of [Objects], [LogObject] and [Timer], and every one of them is a sequence
    of steps of [TimerSystem].

    While an exception is pending the engine calls no PHP function:
    [zend_call_function] returns at once. The extension does not look at
    pending exceptions at all.

    A call is [allowed] when its object is alive, which the engine ensures by
    counting references, and when the numbers it passes have a meaning for the
    code: a conversion of a duration that is negative or too large is undefined,
    and [excimer_set_timeout] needs a callable value. Timers elapse between the
    events, not within them; [TimerSystem] has the finer interleavings. *)

From S2P Require Import Prelude ZendHash Log LogTrace LogFormat LogAggregate LogSpeedscope LogObject Timespec.
From S2P Require Import Doubles PendingList Timer TimerlibCommon TimerlibPosix TimerSystem Objects.
From Stdlib Require Import Floats.SpecFloat.

(** What the arithmetic of [timerlib_timer_get_time] promises. *)
Class TimerlibTotal (TL OS : Type) `{Timerlib TL OS} : Prop :=
  get_time_total tl o : exists o' r, timerlib_timer_get_time tl o = (o', Ok r).

(** Methods of [ExcimerLog] and [ExcimerLogEntry], with their arguments. *)
Inductive log_call : Type :=
  | log_formatCollapsed
  | log_getSpeedscopeData
  | log_aggregateByFunction
  | log_getEventCount
  | log_current
  | log_key
  | log_next
  | log_rewind
  | log_valid
  | log_count
  | log_offsetExists (offset : Z)
  | log_offsetGet (offset : Z)
  | log_offsetSet
  | log_offsetUnset.

Inductive entry_call : Type := entry_getTimestamp | entry_getEventCount | entry_getTrace.

(** A method call, or the end of an object's life: [profiler_dtor] and the
    [_free] calls are those of the engine when an object is released. *)
Inductive api_call : Type :=
  | profiler_new
  | profiler_setPeriod (p : ptr) (period : double)
  | profiler_setEventType (p : ptr) (event_type : Z)
  | profiler_setMaxDepth (p : ptr) (depth : Z)
  | profiler_setFlushCallback (p : ptr) (v : nat) (samples : Z)
  | profiler_clearFlushCallback (p : ptr)
  | profiler_start (p : ptr)
  | profiler_stop (p : ptr)
  | profiler_getLog (p : ptr)
  | profiler_flush (p : ptr)
  | profiler_dtor (p : ptr)
  | profiler_free (p : ptr)
  | timer_new
  | timer_setEventType (p : ptr) (event_type : Z)
  | timer_setInterval (p : ptr) (interval : double)
  | timer_setPeriod (p : ptr) (period : double)
  | timer_setCallback (p : ptr) (v : option nat)
  | timer_start (p : ptr)
  | timer_stop (p : ptr)
  | timer_getTime (p : ptr)
  | timer_free (p : ptr)
  | set_timeout (v : nat) (interval : double)
  | log_method (h : handle) (c : log_call)
  | entry_method (e : ExcimerLogEntry_obj) (c : entry_call).

(** What a call returns to PHP. *)
Inductive api_value : Type :=
  | v_void
  | v_profiler (p : ptr)
  | v_timer (p : ptr)
  | v_log (h : handle)
  | v_entry (e : ExcimerLogEntry_obj)
  | v_double (x : double)
  | v_bool (b : bool)
  | v_zval (z : zval)
  | v_null.

(** The type of the result that the comment before each method states. *)
Inductive api_type : Type :=
  | t_void | t_profiler | t_timer | t_timer_or_null | t_log | t_entry_or_null
  | t_double | t_bool | t_int | t_int_or_null | t_string | t_array.

Definition log_type (c : log_call) : api_type :=
  match c with
  | log_formatCollapsed => t_string
  | log_getSpeedscopeData | log_aggregateByFunction => t_array
  | log_getEventCount | log_count => t_int
  | log_key => t_int_or_null
  | log_current | log_offsetGet _ => t_entry_or_null
  | log_valid | log_offsetExists _ => t_bool
  | log_next | log_rewind | log_offsetSet | log_offsetUnset => t_void
  end.

Definition entry_type (c : entry_call) : api_type :=
  match c with
  | entry_getTimestamp => t_double
  | entry_getEventCount => t_int
  | entry_getTrace => t_array
  end.

Definition result_type (c : api_call) : api_type :=
  match c with
  | profiler_new => t_profiler
  | timer_new => t_timer
  | set_timeout _ _ => t_timer_or_null
  | profiler_getLog _ | profiler_flush _ => t_log
  | timer_getTime _ => t_double
  | log_method _ c => log_type c
  | entry_method _ c => entry_type c
  | _ => t_void
  end.

(** The calls of the engine when an object is released. *)
Definition is_release (c : api_call) : bool :=
  match c with profiler_dtor _ | profiler_free _ | timer_free _ => true | _ => false end.

(** PHP code. An exception that arrives from a call is caught; the handler can
    throw it again. [php_throw] leaves the function; [dtors] releases objects of
    its variables while the exception is pending. *)
Inductive php_program : Type :=
  | php_return
  | php_throw (dtors : list api_call)
  | php_call (c : api_call) (k : api_value -> php_program) (handler : php_program)
  | php_stack (stack : list zend_execute_data) (k : php_program).

Inductive event : Type :=
  | ev_call (c : api_call)
  | ev_stack (stack : list zend_execute_data)
  | ev_elapse (handler : nat) (p : ptr) (overrun : Z)
  | ev_interrupt.

#[export] Instance small_double_dec k x : Decision (small_double k x).
Proof. destruct x as [| | |[] m e]; apply _. Defined.

#[export] Instance stack_ok_dec stack : Decision (stack_ok stack).
Proof. unfold stack_ok, is_u32. apply _. Defined.

Section object_system.
  Context {HT : Type -> Type -> Type} `{ZendHash HT} {TL OS : Type} `{Timerlib TL OS}.
  Abbreviation state := (tstate TL OS (objects HT)).
  Context (is_callable : nat -> state -> bool) (php_mt_rand : OS -> OS * Z) (default_max_depth : Z)
    (body : nat -> call_arg -> php_program) (run_hook : interrupt_hook -> M state unit).
  Implicit Types (s : state) (p : ptr) (c : api_call).

(** ** Calls *)

Definition returns {A} (m : M state A) (f : A -> api_value) : M state api_value := a ← m; mret (f a).

Definition entry_or_null (e : option ExcimerLogEntry_obj) : api_value :=
  match e with Some e => v_entry e | None => v_null end.

Definition long_or_null (z : option Z) : api_value :=
  match z with Some z => v_zval (ZV_long z) | None => v_null end.

(** The methods of logs and entries, on the log objects of the request. *)
Definition run_log_call (h : handle) (c : log_call) : M state api_value :=
  o ← get_log h;
  match c with
  | log_formatCollapsed => str ← lift (ExcimerLog_formatCollapsed o); mret (v_zval (ZV_string str))
  | log_getSpeedscopeData => z ← lift (ExcimerLog_getSpeedscopeData o); mret (v_zval z)
  | log_aggregateByFunction =>
      result ← lift (ExcimerLog_aggregateByFunction o);
      mret (v_zval (ZV_array (map (prod_map id ZVAL_ARR) (zh_elems result))))
  | log_getEventCount => mret (v_zval (ZV_long (ExcimerLog_getEventCount o)))
  | log_current =>
      let '(o, e) := ExcimerLog_current h o in
      _ ← put_log h o;
      mret (entry_or_null e)
  | log_key => mret (long_or_null (ExcimerLog_key o))
  | log_next => _ ← put_log h (ExcimerLog_next o); mret v_void
  | log_rewind => _ ← put_log h (ExcimerLog_rewind o); mret v_void
  | log_valid => mret (v_bool (ExcimerLog_valid o))
  | log_count => mret (v_zval (ZV_long (ExcimerLog_count o)))
  | log_offsetExists offset => mret (v_bool (ExcimerLog_offsetExists o offset))
  | log_offsetGet offset => mret (entry_or_null (ExcimerLog_offsetGet h o offset))
  | log_offsetSet | log_offsetUnset => _ ← php_warning "ExcimerLog cannot be modified"; mret v_void
  end.

Definition run_entry_call (e : ExcimerLogEntry_obj) (c : entry_call) : M state api_value :=
  s ← get_state;
  match c with
  | entry_getTimestamp => x ← lift (ExcimerLogEntry_getTimestamp (logs (world s)) e); mret (v_double x)
  | entry_getEventCount =>
      n ← lift (ExcimerLogEntry_getEventCount (logs (world s)) e); mret (v_zval (ZV_long n))
  | entry_getTrace => l ← lift (ExcimerLogEntry_getTrace (logs (world s)) e); mret (v_zval (ZV_list l))
  end.

Definition run_api (call_function : nat -> call_arg -> M state unit) c : M state api_value :=
  match c with
  | profiler_new => returns (ExcimerProfiler_new php_mt_rand default_max_depth) v_profiler
  | profiler_setPeriod p x => returns (ExcimerProfiler_setPeriod php_mt_rand p x) (const v_void)
  | profiler_setEventType p e => returns (ExcimerProfiler_setEventType p e) (const v_void)
  | profiler_setMaxDepth p d => returns (ExcimerProfiler_setMaxDepth p d) (const v_void)
  | profiler_setFlushCallback p v n => returns (ExcimerProfiler_setFlushCallback is_callable p v n) (const v_void)
  | profiler_clearFlushCallback p => returns (ExcimerProfiler_clearFlushCallback p) (const v_void)
  | profiler_start p => returns (ExcimerProfiler_start_method false 0 p) (const v_void)
  | profiler_stop p => returns (ExcimerProfiler_stop p) (const v_void)
  | profiler_getLog p => returns (ExcimerProfiler_getLog p) v_log
  | profiler_flush p => returns (ExcimerProfiler_flush is_callable call_function p) v_log
  | profiler_dtor p => returns (ExcimerProfiler_dtor is_callable call_function p) (const v_void)
  | profiler_free p => returns (ExcimerProfiler_free_object false 0 p) (const v_void)
  | timer_new => returns ExcimerTimer_new v_timer
  | timer_setEventType p e => returns (ExcimerTimer_setEventType p e) (const v_void)
  | timer_setInterval p x => returns (ExcimerTimer_setInterval p x) (const v_void)
  | timer_setPeriod p x => returns (ExcimerTimer_setPeriod p x) (const v_void)
  | timer_setCallback p v => returns (ExcimerTimer_setCallback is_callable p v) (const v_void)
  | timer_start p => returns (ExcimerTimer_start_method false 0 p) (const v_void)
  | timer_stop p => returns (ExcimerTimer_stop p) (const v_void)
  | timer_getTime p => returns (ExcimerTimer_getTime p) v_double
  | timer_free p => returns (ExcimerTimer_free_object false 0 p) (const v_void)
  | set_timeout v x =>
      returns (excimer_set_timeout false is_callable 0 v x)
        (fun r => match r with Some p => v_timer p | None => v_null end)
  | log_method h c => run_log_call h c
  | entry_method e c => run_entry_call e c
  end.

Definition profiler_lives s p : Prop := is_Some (profilers (world s) !! p).
Definition timer_lives s p : Prop := is_Some (timer_objs (world s) !! p).

(** The log of an entry object is alive and has the entry. *)
Definition entry_lives s (e : ExcimerLogEntry_obj) : Prop :=
  match (entry_z_log e ≫= fun h => logs (world s) !! h) with
  | Some lo => is_Some (excimer_log_get_entry (obj_log lo) (entry_index e))
  | None => False
  end.

#[export] Instance entry_lives_dec s e : Decision (entry_lives s e).
Proof. unfold entry_lives. destruct (entry_z_log e ≫= _); apply _. Defined.

Definition allowed c s : bool :=
  match c with
  | profiler_new | timer_new => true
  | profiler_setPeriod p x => bool_decide (profiler_lives s p) && bool_decide (small_double 32 x)
  | profiler_setEventType p _ | profiler_setMaxDepth p _ | profiler_setFlushCallback p _ _
  | profiler_clearFlushCallback p | profiler_start p | profiler_stop p | profiler_getLog p
  | profiler_flush p | profiler_dtor p | profiler_free p => bool_decide (profiler_lives s p)
  | timer_setInterval p x | timer_setPeriod p x =>
      bool_decide (timer_lives s p) && bool_decide (small_double 62 x)
  | timer_setEventType p _ | timer_setCallback p _ | timer_start p | timer_stop p
  | timer_getTime p | timer_free p => bool_decide (timer_lives s p)
  | set_timeout v x => bool_decide (small_double 62 x) && is_callable v (ExcimerTimer_new s).1
  | log_method h _ => bool_decide (is_Some (logs (world s) !! h))
  | entry_method e _ => bool_decide (entry_lives s e)
  end.

(** ** PHP code *)

Definition set_stack (stack : list zend_execute_data) (w : objects HT) : objects HT :=
  Objects HT (profilers w) (timer_objs w) (logs w) (next_ptr w) stack (exception_pending w).
Definition set_exception (b : bool) (w : objects HT) : objects HT :=
  Objects HT (profilers w) (timer_objs w) (logs w) (next_ptr w) (current_execute_data w) b.

Definition not_allowed : string := "call not allowed".
Definition too_deep : string := "Maximum call stack size reached".

Definition enter_stack (stack : list zend_execute_data) : M state unit :=
  if decide (stack_ok stack) then modify_world (set_stack stack) else lift (Fatal not_allowed).

Definition checked_call call_function c : M state api_value :=
  s ← get_state;
  if allowed c s then run_api call_function c else lift (Fatal not_allowed).

(** Whether a call threw; if so the exception is caught. *)
Definition catch_exception : M state bool :=
  s ← get_state;
  _ ← modify_world (set_exception false);
  mret (exception_pending (world s)).

(** Objects are released one after the other. *)
Fixpoint unwind call_function (dtors : list api_call) : M state unit :=
  match dtors with
  | [] => mret tt
  | c :: dtors' =>
      if is_release c then _ ← checked_call call_function c; unwind call_function dtors'
      else lift (Fatal not_allowed)
  end.

Fixpoint run_program call_function (q : php_program) : M state unit :=
  match q with
  | php_return => mret tt
  | php_throw dtors => _ ← modify_world (set_exception true); unwind call_function dtors
  | php_call c k handler =>
      v ← checked_call call_function c;
      thrown ← catch_exception;
      run_program call_function (if (thrown : bool) then handler else k v)
  | php_stack stack k => _ ← enter_stack stack; run_program call_function k
  end.

(** [zend_call_function]: a call of a PHP function, [n] calls deep at most. Its
    stack frames are gone when it returns. Nothing is called while an exception
    is pending. *)
Fixpoint call_php (n : nat) (v : nat) (a : call_arg) : M state unit :=
  s ← get_state;
  if exception_pending (world s) then mret tt
  else
    match n with
    | O => lift (Fatal too_deep)
    | S n' =>
        _ ← run_program (call_php n') (body v a);
        modify_world (set_stack (current_execute_data (world s)))
    end.

(** ** Events of a request *)

Definition timer_valid s p : bool :=
  match timers s !! p with Some t => is_valid t | None => false end.

(** The engine calls the interrupt function when it finds the flag set. As many
    rounds of the loop as there are timers are enough. *)
Definition vm_interrupt_check (n : nat) : M state unit :=
  s ← get_state;
  if bool_decide (vm_interrupt s !! 0%nat = Some true) then
    _ ← modify (set_vm_interrupt (<[0%nat := false]> (vm_interrupt s)));
    excimer_timer_interrupt false (run_timer_callback is_callable (call_php n)) run_hook
      (S (size (timers s))) 0
  else mret tt.

Definition event_body (n : nat) (e : event) : M state api_value :=
  match e with
  | ev_call c => checked_call (call_php n) c
  | ev_stack stack => returns (enter_stack stack) (const v_void)
  | ev_elapse self p k =>
      s ← get_state;
      if timer_valid s p && (0 <=? k) && (k <? 2 ^ 31 - 1)
      then returns (excimer_timer_handle false self p k) (const v_void)
      else lift (Fatal not_allowed)
  | ev_interrupt => returns (vm_interrupt_check n) (const v_void)
  end.

(** [None] is an exception that reaches the code of the request, which catches
    it. The script ends with one that it does not catch. *)
Definition run_event (n : nat) (e : event) : M state (option api_value) :=
  v ← event_body n e;
  thrown ← catch_exception;
  mret (if (thrown : bool) then None else Some v).

Fixpoint run_request (n : nat) (es : list event) : M state (list (option api_value)) :=
  match es with
  | [] => mret []
  | e :: es' => v ← run_event n e; vs ← run_request n es'; mret (v :: vs)
  end.

(** ** Specification *)

(** The entry that a log object has cached is an entry of the log. *)
Definition cursor_ok (h : handle) (lo : ExcimerLog_obj HT) : Prop :=
  forall e, z_current lo = Some e ->
    entry_z_log e = Some h /\ is_Some (excimer_log_get_entry (obj_log lo) (entry_index e)).

(** Log objects live on and keep their entries. *)
Definition logs_grow (m m' : gmap handle (ExcimerLog_obj HT)) : Prop :=
  forall h lo, m !! h = Some lo ->
    exists lo', m' !! h = Some lo' /\ entries (obj_log lo) `prefix_of` entries (obj_log lo').

(** The invariant of the objects and their timers, when [l] is the pending list. *)
Record obj_inv s (l : list ptr) : Prop := ObjInv {
  oi_timers : timer_inv s l;
  oi_profilers : forall p o, profilers (world s) !! p = Some o ->
    is_Some (timers s !! p) /\ is_Some (logs (world s) !! prof_z_log o) /\ timer_objs (world s) !! p = None;
  oi_timer_objs : forall p o, timer_objs (world s) !! p = Some o -> is_Some (timers s !! p);
  oi_logs : forall h lo, logs (world s) !! h = Some lo ->
    (h < next_ptr (world s))%positive /\ log_wf (obj_log lo) /\ cursor_ok h lo;
  oi_addresses : forall p, is_Some (timers s !! p) -> (p < next_ptr (world s))%positive;
  oi_owner : forall p t, timers s !! p = Some t -> is_valid t = true ->
    user_data t = Some p /\
    match callback t with
    | Some excimer_profiler_event_cb => profiler_lives s p
    | Some excimer_timer_event_cb => timer_lives s p
    | None => False
    end;
  oi_stack : stack_ok (current_execute_data (world s))
}.

(** The value has the type and is alive. *)
Definition value_ok s (t : api_type) (v : api_value) : Prop :=
  match t, v with
  | t_void, v_void => True
  | t_profiler, v_profiler p => profiler_lives s p
  | t_timer, v_timer p => timer_lives s p
  | t_timer_or_null, v_timer p => timer_lives s p
  | t_timer_or_null, v_null => True
  | t_log, v_log h => is_Some (logs (world s) !! h)
  | t_entry_or_null, v_entry e => entry_lives s e
  | t_entry_or_null, v_null => True
  | t_double, v_double _ => True
  | t_bool, v_bool _ => True
  | (t_int | t_int_or_null), v_zval (ZV_long _) => True
  | t_int_or_null, v_null => True
  | t_string, v_zval (ZV_string _) => True
  | t_array, v_zval (ZV_array _ | ZV_list _) => True
  | _, _ => False
  end.

Definition quiet (a : label) : Prop := match a with LFire _ _ => False | _ => True end.

(** [s'] is reached from [s] by steps of the timers' system in which no timer
    elapses, and no entry of a log is lost. *)
Definition moves s s' : Prop :=
  (exists tr, Forall quiet tr /\ forall d, steps (Sys s [] d) tr (Sys s' [] d)) /\
  logs_grow (logs (world s)) (logs (world s')).

(** The fatal errors that a request can end with. *)
Definition fatal_ok (msg : string) : Prop :=
  msg = "Integer out of range" \/ msg = not_allowed \/ msg = too_deep.

(** What remains of the invariant after a fatal error: a log that was too full
    has a frame too many, but timers and objects still belong together. *)
Record live_inv s (l : list ptr) : Prop := LiveInv {
  li_timers : timer_inv s l;
  li_memory : forall p, profiler_lives s p \/ timer_lives s p -> is_Some (timers s !! p);
  li_apart : forall p, profiler_lives s p -> timer_lives s p -> False;
  li_addresses : forall p, is_Some (timers s !! p) -> (p < next_ptr (world s))%positive;
  li_owner : forall p t, timers s !! p = Some t -> is_valid t = true -> profiler_lives s p \/ timer_lives s p
}.

Definition fatal_end s (msg : string) : Prop := fatal_ok msg /\ exists l, live_inv s l.

(** Running [m] is safe: it keeps the invariant, adds no pending timer and
    makes steps of the system, or it ends in one of the fatal errors. *)
Definition safe {A} (m : M state A) s (l : list ptr) (Q : A -> state -> Prop) : Prop :=
  match m s with
  | (s', Ok a) => exists l', obj_inv s' l' /\ (length l' <= length l)%nat /\ moves s s' /\ Q a s'
  | (s', Fatal msg) => fatal_end s' msg
  | _ => False
  end.

(** The timers that elapse in a sequence of events. *)
Definition elapses (es : list event) : list (ptr * Z) :=
  omap (fun e => match e with ev_elapse _ p k => Some (p, k) | _ => None end) es.

Definition fires (tr : list label) : list (ptr * Z) :=
  omap (fun a => match a with LFire p k => Some (p, k) | _ => None end) tr.

End object_system.

(** ** Lemmas: steps *)

Section system_runs.
  Context {TL OS X : Type} `{Timerlib TL OS}.
  Implicit Types (y : sys TL OS X).

Lemma steps_app y tr y' tr' y'' : steps y tr y' -> steps y' tr' y'' -> steps y (tr ++ tr') y''.
Proof.
  intros H1 H2. induction H2 as [|? tr2 ? a ? H2 IH Hstep]; [by rewrite app_nil_r|].
  rewrite app_assoc. eapply steps_snoc; eauto.
Qed.

Lemma steps_one y a y' : step y a y' -> steps y [a] y'.
Proof. intros Hs. apply (steps_snoc y [] y a y'); [constructor|done]. Qed.

Lemma fires_app tr tr' : fires (tr ++ tr') = fires tr ++ fires tr'.
Proof. apply omap_app. Qed.

Lemma fires_quiet tr : Forall quiet tr -> fires tr = [].
Proof. induction 1 as [|[] tr Ha _ IH]; done. Qed.

End system_runs.

(** ** Lemmas: the invariant *)

Section object_system_facts.
  Context {HT : Type -> Type -> Type} `{ZendHashLaws HT} {TL OS : Type} `{TimerlibTotal TL OS}.
  Abbreviation state := (tstate TL OS (objects HT)).
  Context (is_callable : nat -> state -> bool) (php_mt_rand : OS -> OS * Z) (default_max_depth : Z)
    (body : nat -> call_arg -> php_program) (run_hook : interrupt_hook -> M state unit).
  Implicit Types (s : state) (p : ptr) (c : api_call) (l : list ptr).

#[global] Instance logs_grow_preorder : PreOrder (logs_grow (HT:=HT)).
Proof.
  split; [intros m h lo Hlo; by exists lo|]. intros m1 m2 m3 H12 H23 h lo Hlo. destruct (H12 h lo Hlo) as (lo2 & Hlo2 & Hp2).
  destruct (H23 h lo2 Hlo2) as (lo3 & Hlo3 & Hp3). exists lo3. split; [done|by etrans].
Qed.

Lemma logs_grow_some (m m' : gmap handle (ExcimerLog_obj HT)) h :
  logs_grow m m' -> is_Some (m !! h) -> is_Some (m' !! h).
Proof. intros Hg [lo Hlo]. destruct (Hg h lo Hlo) as (lo' & ? & _). eauto. Qed.

Lemma logs_grow_insert (m : gmap handle (ExcimerLog_obj HT)) h lo :
  (forall lo0, m !! h = Some lo0 -> entries (obj_log lo0) `prefix_of` entries (obj_log lo)) ->
  logs_grow m (<[h := lo]> m).
Proof.
  intros Hlo h' lo' Hh'. destruct (decide (h = h')) as [->|Hne].
  - exists lo. rewrite lookup_insert_eq. auto.
  - exists lo'. by rewrite lookup_insert_ne.
Qed.

Lemma get_entry_grows (log log' : excimer_log HT) i :
  entries log `prefix_of` entries log' -> is_Some (excimer_log_get_entry log i) ->
  is_Some (excimer_log_get_entry log' i).
Proof.
  intros [es He]. unfold excimer_log_get_entry, entries_size. rewrite He, length_app.
  destruct (0 <=? i) eqn:Hi, (wrap_u64 i <? Z.of_nat (length (entries log))) eqn:Hlt; bool_hyps;
    [|by intros []..].
  rewrite (proj2 (Z.ltb_lt _ _)) by lia. unfold array_get. cbn [andb].
  rewrite (proj2 (Z.leb_le _ _)) by lia. intros [e He']. exists e. by apply lookup_app_l_Some.
Qed.

Lemma cursor_follow h (lo lo' : ExcimerLog_obj HT) :
  cursor_ok h lo -> z_current lo' = z_current lo ->
  entries (obj_log lo) `prefix_of` entries (obj_log lo') -> cursor_ok h lo'.
Proof.
  intros Hc Hz Hp e He. rewrite Hz in He. destruct (Hc e He). split; [done|by eapply get_entry_grows].
Qed.

Lemma moves_refl s : moves s s.
Proof. split; [|done]. exists []. split; [done|constructor]. Qed.

Lemma moves_trans s1 s2 s3 : moves s1 s2 -> moves s2 s3 -> moves s1 s3.
Proof.
  intros [(tr1 & Hq1 & H1') Hl1] [(tr2 & Hq2 & H2') Hl2]. split; [|by etrans].
  exists (tr1 ++ tr2). split; [by apply Forall_app|]. intros d. by eapply steps_app.
Qed.

(** One step, by its label. *)
Lemma moves_step s s' a :
  quiet a -> (forall d, step (Sys s [] d) a (Sys s' [] d)) ->
  logs_grow (logs (world s)) (logs (world s')) -> moves s s'.
Proof. intros Hq Hs Hl. split; [|done]. exists [a]. split; [by constructor|]. intros d. by apply steps_one. Qed.

Lemma moves_other s s' :
  same_timers s s' -> logs_grow (logs (world s)) (logs (world s')) -> moves s s'.
Proof. intros Hs. apply (moves_step s s' LOther); [done|]. intros d. by constructor. Qed.

(** Rules for running code. *)

Lemma safe_run {A B} (m : M state A) (k : A -> M state B) s s1 a l l1 Q :
  m s = (s1, Ok a) -> obj_inv s1 l1 -> (length l1 <= length l)%nat -> moves s s1 ->
  (obj_inv s1 l1 -> safe (k a) s1 l1 Q) -> safe (m ≫= k) s l Q.
Proof.
  intros Hm Hinv Hle Hmv Hk. specialize (Hk Hinv). unfold safe in *. rewrite (bind_ok _ _ _ _ _ Hm).
  destruct (k a s1) as [s2 [b|msg|why|]]; [|done..].
  destruct Hk as (l2 & ? & ? & ? & ?). exists l2. split_and!; [done|lia|by eapply moves_trans|done].
Qed.

Lemma safe_read {A B} (m : M state A) (k : A -> M state B) s a l Q :
  m s = (s, Ok a) -> safe (k a) s l Q -> safe (m ≫= k) s l Q.
Proof. intros Hm Hk. unfold safe in *. by rewrite (bind_ok _ _ _ _ _ Hm). Qed.

Lemma safe_bind {A B} (m : M state A) (k : A -> M state B) s l Q R :
  safe m s l Q ->
  (forall a s1 l1, obj_inv s1 l1 -> moves s s1 -> Q a s1 -> safe (k a) s1 l1 R) ->
  safe (m ≫= k) s l R.
Proof.
  intros Hm Hk. unfold safe at 1 in Hm. destruct (m s) as [s1 [a|msg|why|]] eqn:Hrun; [|..|done|done].
  - destruct Hm as (l1 & Hinv & Hle & Hmv & HQ). by apply (safe_run m k s s1 a l l1); auto.
  - unfold safe, mbind, M_bind. by rewrite Hrun.
Qed.

Lemma safe_ret {A} (a : A) s l (Q : A -> state -> Prop) : obj_inv s l -> Q a s -> safe (mret a) s l Q.
Proof. intros Hinv HQ. exists l. split_and!; [done|lia|apply moves_refl|done]. Qed.

Lemma safe_end {A} (m : M state A) s s1 a l l1 (Q : A -> state -> Prop) :
  m s = (s1, Ok a) -> obj_inv s1 l1 -> (length l1 <= length l)%nat -> moves s s1 -> Q a s1 -> safe m s l Q.
Proof. intros Hm. unfold safe. rewrite Hm. eauto 10. Qed.

Lemma safe_eq {A} (m m' : M state A) s l Q : m s = m' s -> safe m' s l Q -> safe m s l Q.
Proof. unfold safe. by intros ->. Qed.

Lemma safe_weaken {A} (m : M state A) s l (Q R : A -> state -> Prop) :
  safe m s l Q -> (forall a s', Q a s' -> R a s') -> safe m s l R.
Proof.
  unfold safe. intros Hm HQ. destruct (m s) as [s1 [a|msg|why|]]; [|done..].
  destruct Hm as (l1 & ? & ? & ? & ?). exists l1. auto 10.
Qed.

(** After a fatal error. *)

Lemma obj_inv_live s l : obj_inv s l -> live_inv s l.
Proof.
  intros [Ht Hp Hto _ Ha Hown _]. split; [done| | |done|].
  - intros p [[o Ho]|[o Ho]]; [by apply (Hp p o)|by apply (Hto p o)].
  - intros p [o Ho] [o' Ho']. destruct (Hp p o Ho) as (_ & _ & Hn). congruence.
  - intros p t Hpt Hv. destruct (Hown p t Hpt Hv) as [_ Hcb]. destruct (callback t) as [[]|]; [by left|by right|done].
Qed.

Lemma live_set_logs s l m :
  live_inv s l -> live_inv (set_world (set_logs m (world s)) s) l.
Proof. intros [Ht Hm Ha Hn Hown]. split; try done. by apply set_world_inv. Qed.

(** Changes of the objects only. *)

Lemma put_profiler_inv s l p o :
  obj_inv s l -> profiler_lives s p -> is_Some (logs (world s) !! prof_z_log o) ->
  obj_inv (set_world (set_profilers (<[p := o]> (profilers (world s))) (world s)) s) l.
Proof.
  intros [Ht Hp Hto Hlog Ha Hown Hst] [o0 Ho0] Hl. split; try done; simpl.
  - by apply set_world_inv.
  - intros q oq [[<- <-]|[_ Hq]]%lookup_insert_Some; [|by apply Hp].
    destruct (Hp p o0 Ho0) as (? & _ & ?). by split_and!.
  - intros q t Hq Hv. destruct (Hown q t Hq Hv) as [Hu Hcb]. split; [done|].
    destruct (callback t) as [[]|]; [|done..]. unfold profiler_lives in *. simpl. rewrite lookup_insert_is_Some'. auto.
Qed.

Lemma put_timer_obj_inv s l p o :
  obj_inv s l -> timer_lives s p ->
  obj_inv (set_world (set_timer_objs (<[p := o]> (timer_objs (world s))) (world s)) s) l.
Proof.
  intros [Ht Hp Hto Hlog Ha Hown Hst] [o0 Ho0]. split; try done; simpl.
  - by apply set_world_inv.
  - intros q oq Hq. destruct (Hp q oq Hq) as (? & ? & ?). split_and!; [done..|].
    rewrite lookup_insert_ne; [done|]. intros ->. congruence.
  - intros q oq [[<- <-]|[_ Hq]]%lookup_insert_Some; [by apply (Hto p o0)|by apply (Hto q oq)].
  - intros q t Hq Hv. destruct (Hown q t Hq Hv) as [Hu Hcb]. split; [done|].
    destruct (callback t) as [[]|]; [done| |done]. unfold timer_lives in *. simpl. rewrite lookup_insert_is_Some'. auto.
Qed.

Lemma put_log_inv s l h lo :
  obj_inv s l -> is_Some (logs (world s) !! h) -> log_wf (obj_log lo) -> cursor_ok h lo ->
  obj_inv (set_world (set_logs (<[h := lo]> (logs (world s))) (world s)) s) l.
Proof.
  intros [Ht Hp Hto Hlog Ha Hown Hst] [lo0 Hlo0] Hwf Hc. split; try done; simpl.
  - by apply set_world_inv.
  - intros q oq Hq. destruct (Hp q oq Hq) as (? & ? & ?). split_and!; [done| |done].
    rewrite lookup_insert_is_Some'. auto.
  - intros h' lo' [[<- <-]|[_ Hh]]%lookup_insert_Some; [|by apply Hlog]. by destruct (Hlog h lo0 Hlo0).
Qed.

Lemma new_log_inv s l lo :
  obj_inv s l -> log_wf (obj_log lo) -> z_current lo = None ->
  obj_inv (set_world (set_logs (<[next_ptr (world s) := lo]> (logs (world s)))
    (set_next_ptr (Pos.succ (next_ptr (world s))) (world s))) s) l.
Proof.
  intros [Ht Hp Hto Hlog Ha Hown Hst] Hwf Hz. split; try done; simpl.
  - by apply set_world_inv.
  - intros q oq Hq. destruct (Hp q oq Hq) as (? & ? & ?). split_and!; [done| |done].
    rewrite lookup_insert_is_Some'. auto.
  - intros h' lo' [[<- <-]|[_ Hh]]%lookup_insert_Some.
    { split_and!; [lia|done|]. intros e He. congruence. }
    destruct (Hlog h' lo' Hh). split; [lia|done].
  - intros p Hs. specialize (Ha p Hs). lia.
Qed.

Lemma alloc_inv s l : obj_inv s l ->
  obj_inv (set_world (set_next_ptr (Pos.succ (next_ptr (world s))) (world s)) s) l.
Proof.
  intros [Ht Hp Hto Hlog Ha Hown Hst]. split; try done; simpl; [by apply set_world_inv| |].
  - intros h' lo' Hh. destruct (Hlog h' lo' Hh). split; [lia|done].
  - intros p Hs. specialize (Ha p Hs). lia.
Qed.

(** Changes that neither timers nor objects notice. *)
Lemma quiet_inv s s' l : same_timers s s' -> world s' = world s -> obj_inv s l -> obj_inv s' l.
Proof.
  intros Hsame Hw [Ht Hp Hto Hlog Ha Hown Hst]. pose proof Hsame as (Hts & _ & _).
  split; unfold profiler_lives, timer_lives; rewrite ?Hts, ?Hw; try done. by eapply same_timers_inv.
Qed.

(** There is no log yet at a fresh address. *)
Lemma fresh_log s l : obj_inv s l -> logs (world s) !! next_ptr (world s) = None.
Proof.
  intros Hinv. destruct (logs (world s) !! next_ptr (world s)) as [lo|] eqn:Hlo; [|done].
  destruct (oi_logs _ _ Hinv _ _ Hlo). lia.
Qed.

Lemma new_log_grows s l lo : obj_inv s l ->
  logs_grow (logs (world s)) (<[next_ptr (world s) := lo]> (logs (world s))).
Proof. intros Hinv. apply logs_grow_insert. by rewrite (fresh_log s l). Qed.

(** Timer operations. *)

Definition owner_ok s p (t : excimer_timer TL) : Prop :=
  user_data t = Some p /\
  match callback t with
  | Some excimer_profiler_event_cb => profiler_lives s p
  | Some excimer_timer_event_cb => timer_lives s p
  | None => False
  end.

Lemma timer_change_inv s s' l l' p t' :
  obj_inv s l -> timer_inv s' l' -> world s' = world s -> is_Some (timers s !! p) ->
  (forall q, q <> p -> erase_links <$> timers s' !! q = erase_links <$> timers s !! q) ->
  timers s' !! p = Some t' -> (is_valid t' = true -> owner_ok s p t') -> obj_inv s' l'.
Proof.
  intros [Ht Hp Hto Hlog Ha Hown Hst] Hinv Hw Hs0 Ho Hp' Hown'.
  assert (Hdom : forall q, is_Some (timers s' !! q) <-> is_Some (timers s !! q)).
  { intros q. destruct (decide (q = p)) as [->|Hne]; [by rewrite Hp'; split; eauto|].
    rewrite <-(fmap_is_Some erase_links (timers s' !! q)), Ho by done. apply fmap_is_Some. }
  split; rewrite ?Hw; unfold profiler_lives, timer_lives; rewrite ?Hw; try done.
  - intros q o Hq. rewrite Hdom. by apply Hp.
  - intros q o Hq. rewrite Hdom. by apply (Hto q o).
  - intros q Hq. by apply Ha, Hdom.
  - intros q t Hq Hv. destruct (decide (q = p)) as [->|Hne]; [by simplify_eq; apply Hown'|].
    specialize (Ho q Hne). rewrite Hq in Ho. destruct (timers s !! q) as [u|] eqn:Hu; [|done].
    apply (inj Some) in Ho. destruct (Hown q u Hu) as [Hud Hcb].
    { apply (f_equal is_valid) in Ho. simpl in Ho. congruence. }
    pose proof (f_equal user_data Ho) as Hud'. pose proof (f_equal callback Ho) as Hcb'. simpl in *.
    rewrite Hud', Hcb'. by split.
Qed.

Lemma only_timer_links p s s' q :
  only_timer p s s' -> q <> p -> erase_links <$> timers s' !! q = erase_links <$> timers s !! q.
Proof. intros (Ho & _) Hq. by rewrite Ho. Qed.

Lemma only_timer_world p s s' : only_timer p s s' -> world s' = world s.
Proof. by intros (_ & _ & ? & _). Qed.

Lemma only_timer_vm p s s' : only_timer p s s' -> vm_interrupt s' = vm_interrupt s.
Proof. by intros (_ & ? & _). Qed.

Lemma start_safe s l p period initial :
  obj_inv s l -> is_Some (timers s !! p) ->
  safe (excimer_timer_start p period initial) s l (fun _ s' => world s' = world s /\ is_Some (timers s' !! p)).
Proof.
  intros Hinv [t Hp]. destruct (start_spec s l p t period initial (oi_timers _ _ Hinv) Hp)
    as (s' & Hrun & Hinv' & Ho & Heff).
  pose proof (only_timer_world _ _ _ Ho) as Hw.
  assert (exists t', timers s' !! p = Some t' /\ (is_valid t' = true -> owner_ok s p t')) as (t' & Hp' & Hown).
  { cbv zeta in Heff. destruct (is_valid t && _) eqn:Hv.
    - apply andb_prop in Hv as [Hv _]. destruct (timerlib_timer_start _ _ _ _) as [o [tl ok]]. subst s'.
      eexists. split; [apply lookup_insert_eq|]. intros _. destruct (oi_owner _ _ Hinv p t Hp Hv). by destruct ok.
    - destruct Heff as [msg ->]. exists t. split; [done|]. by apply (oi_owner _ _ Hinv). }
  apply (safe_end _ s s' tt l l); [done| |lia| |by rewrite Hp'; eauto].
  - apply (timer_change_inv s s' l l p t'); eauto using only_timer_links.
  - apply (moves_step _ _ (LStart p)); [done| |by rewrite Hw]. intros d. by eapply step_start.
Qed.

Lemma stop_safe s l p :
  obj_inv s l -> is_Some (timers s !! p) ->
  safe (excimer_timer_stop p) s l (fun _ s' => world s' = world s /\ is_Some (timers s' !! p)).
Proof.
  intros Hinv [t Hp]. destruct (stop_spec s l p t (oi_timers _ _ Hinv) Hp) as (s' & Hrun & Hinv' & Ho & Heff).
  pose proof (only_timer_world _ _ _ Ho) as Hw.
  assert (exists t', timers s' !! p = Some t' /\ (is_valid t' = true -> owner_ok s p t')) as (t' & Hp' & Hown).
  { assert (Hold : is_valid t = true -> owner_ok s p t) by by apply (oi_owner _ _ Hinv).
    destruct (is_valid t) eqn:Hv; [|destruct Heff as [msg ->]; exists t; split; [done|congruence]].
    destruct (is_running t); [|subst s'; exists t; auto].
    destruct (timerlib_timer_stop _ _) as [o [tl ok]]. subst s'. eexists. split; [apply lookup_insert_eq|].
    intros _. destruct (Hold eq_refl). by destruct ok. }
  apply (safe_end _ s s' tt l l); [done| |lia| |by rewrite Hp'; eauto].
  - apply (timer_change_inv s s' l l p t'); eauto using only_timer_links.
  - apply (moves_step _ _ (LStop p)); [done| |by rewrite Hw]. intros d. by eapply step_stop.
Qed.

Lemma init_safe s l p et cb :
  obj_inv s l -> invalid_timer s p ->
  match cb with
  | excimer_profiler_event_cb => profiler_lives s p
  | excimer_timer_event_cb => timer_lives s p
  end ->
  safe (excimer_timer_init false 0 p et cb (Some p)) s l
    (fun _ s' => world s' = world s /\ is_Some (timers s' !! p)).
Proof.
  intros Hinv (t & Hp & Hv) Hcb.
  destruct (init_spec s l 0 p t et cb (Some p) (oi_timers _ _ Hinv) Hp Hv)
    as (s' & b & t' & Hrun & Hinv' & Hp' & Hv' & _ & _ & Hcb' & Hud & Ho).
  pose proof (only_timer_world _ _ _ Ho) as Hw.
  apply (safe_end _ s s' b l l); [done| |lia| |by rewrite Hp'; eauto].
  - apply (timer_change_inv s s' l l p t'); eauto using only_timer_links.
    intros _. split; [done|]. rewrite Hcb'. by destruct cb.
  - apply (moves_step _ _ (LInit p b)); [done| |by rewrite Hw].
    intros d. eapply step_init; [|done]. by exists t.
Qed.

Lemma destroy_safe s l p :
  obj_inv s l -> valid_timer s p ->
  safe (excimer_timer_destroy false 0 p) s l
    (fun _ s' => world s' = world s /\ invalid_timer s' p).
Proof.
  intros Hinv Hvt. pose proof Hvt as (t & Hp & Hv).
  destruct (destroy_spec s l 0 p t (oi_timers _ _ Hinv) Hp Hv)
    as (s' & t' & Hrun & Hinv' & Hp' & Hv' & Ho & Hvm & Hw).
  apply (safe_end _ s s' tt l (queue_remove p l)); [done| | | |by split; [|exists t']].
  - apply (timer_change_inv s s' l _ p t'); eauto. congruence.
  - apply length_filter.
  - apply (moves_step _ _ (LDestroy p)); [done| |by rewrite Hw].
    intros d. eapply step_destroy; [set_solver|done|done].
Qed.

Lemma timer_cases s l p : obj_inv s l -> is_Some (timers s !! p) ->
  exists t, timers s !! p = Some t /\ (is_valid t = true /\ valid_timer s p \/ is_valid t = false /\ invalid_timer s p).
Proof.
  intros _ [t Hp]. exists t. split; [done|]. destruct (is_valid t) eqn:Hv; [left|right]; (split; [done|by exists t]).
Qed.

(** Destroying the timer if there is one. *)
Lemma destroy_valid_safe s l p t :
  obj_inv s l -> timers s !! p = Some t ->
  safe (if is_valid t then excimer_timer_destroy false 0 p else mret tt) s l
    (fun _ s' => world s' = world s /\ invalid_timer s' p).
Proof.
  intros Hinv Hp. destruct (is_valid t) eqn:Hv.
  - apply destroy_safe; [done|by exists t].
  - apply safe_ret; [done|]. split; [done|by exists t].
Qed.

Lemma stop_object_safe s l p :
  obj_inv s l -> is_Some (timers s !! p) ->
  safe (stop_object p) s l (fun _ s' => world s' = world s /\ is_Some (timers s' !! p)).
Proof.
  intros Hinv [t Hp]. unfold stop_object. apply (safe_read _ _ s t); [by apply load_ok|].
  destruct (is_valid t); [apply stop_safe; eauto|apply safe_ret; by eauto].
Qed.

Lemma start_object_safe s l p need et cb period initial clear (R : objects HT -> Prop) :
  obj_inv s l -> is_Some (timers s !! p) -> R (world s) ->
  match cb with
  | excimer_profiler_event_cb => profiler_lives s p
  | excimer_timer_event_cb => timer_lives s p
  end ->
  (forall s1 l1, obj_inv s1 l1 -> is_Some (timers s1 !! p) -> world s1 = world s ->
    safe clear s1 l1 (fun _ s' => is_Some (timers s' !! p) /\ R (world s'))) ->
  safe (start_object false 0 p need et cb period initial clear) s l (fun _ s' => R (world s')).
Proof.
  intros Hinv [t Hp] HR Hcb Hclear. unfold start_object. apply (safe_read _ _ s t); [by apply load_ok|].
  apply (safe_bind _ _ s l (fun _ s' => is_Some (timers s' !! p) /\ R (world s'))).
  - destruct (need || negb (is_valid t)); [|by apply safe_ret; eauto].
    eapply safe_bind; [by apply destroy_valid_safe|]. intros _ s1 l1 Hinv1 _ [Hw1 Hiv1].
    eapply safe_bind; [apply init_safe; [done..|]|].
    { unfold profiler_lives, timer_lives in *. by rewrite Hw1. }
    intros [] s2 l2 Hinv2 _ [Hw2 Hs2]; cbn [negb]; [|by apply safe_ret; [|rewrite Hw2, Hw1]].
    eapply safe_bind; [apply Hclear; [done..|congruence]|]. intros [] s3 l3 Hinv3 _ Hs3. by apply safe_ret.
  - intros [] s1 l1 Hinv1 _ [Hs1 HR1]; cbn [negb]; [|by apply safe_ret].
    eapply safe_weaken; [by apply start_safe|]. by intros _ s2 [-> _].
Qed.

(** Primitive operations on objects. *)

Definition calm s s' : Prop := timers s' = timers s /\ world s' = world s.

Lemma calm_safe {A} (m : M state A) s s' a l (Q : A -> Prop) :
  m s = (s', Ok a) -> obj_inv s l -> same_timers s s' -> world s' = world s -> Q a ->
  safe m s l (fun a s' => Q a /\ calm s s').
Proof.
  intros Hrun Hinv Hsame Hw HQ. apply (safe_end _ s s' a l l); [done|by apply (quiet_inv s)|lia| |].
  - apply moves_other; [done|]. by rewrite Hw.
  - split; [done|]. split; [by destruct Hsame|done].
Qed.

Lemma warning_safe s l msg : obj_inv s l -> safe (php_warning msg) s l (fun _ s' => calm s s').
Proof.
  intros Hinv. eapply safe_weaken; [by apply (calm_safe _ s (php_warning msg s).1 tt l (fun _ => True))|]. by intros ? ? [].
Qed.

Lemma clock_safe s l : obj_inv s l -> safe clock_now s l (fun _ s' => calm s s').
Proof.
  intros Hinv. destruct (clock_now_ok s) as (o & ts & Hrun).
  eapply safe_weaken; [by apply (calm_safe _ s _ ts l (fun _ => True) Hrun)|]. by intros ? ? [].
Qed.

Lemma rand_safe s l :
  (forall o, is_u32 (php_mt_rand o).2) -> obj_inv s l ->
  safe (rand php_mt_rand) s l (fun r s' => is_u32 r /\ calm s s').
Proof.
  intros Hr Hinv. specialize (Hr (os s)). unfold rand.
  apply (calm_safe _ s (set_os (php_mt_rand (os s)).1 s) (php_mt_rand (os s)).2 l is_u32); [|done..].
  rewrite (bind_ok get_state _ s s s) by done. by destruct (php_mt_rand (os s)).
Qed.

Lemma put_profiler_safe s l p o f :
  obj_inv s l -> profilers (world s) !! p = Some o -> is_Some (logs (world s) !! prof_z_log (f o)) ->
  safe (put_profiler p f) s l
    (fun _ s' => s' = set_world (set_profilers (<[p := f o]> (profilers (world s))) (world s)) s).
Proof.
  intros Hinv Hp Hl. eapply safe_end; [by apply put_profiler_ok|apply put_profiler_inv; [done|by exists o|done]|lia| |done].
  by apply moves_other.
Qed.

Lemma get_timer_obj_ok s p o : timer_objs (world s) !! p = Some o -> get_timer_obj p s = (s, Ok o).
Proof. intros Hp. unfold get_timer_obj, mbind, M_bind, get_state, lift. by rewrite Hp. Qed.

Lemma put_timer_obj_safe s l p f :
  obj_inv s l -> timer_lives s p ->
  safe (put_timer_obj p f) s l (fun _ s' => timers s' = timers s /\ timer_lives s' p).
Proof.
  intros Hinv [o Hp]. eapply safe_end.
  - unfold put_timer_obj. by rewrite (bind_ok _ _ _ _ _ (get_timer_obj_ok s p o Hp)).
  - apply (put_timer_obj_inv s l p (f o)); [done|by exists o].
  - lia.
  - by apply moves_other.
  - split; [done|]. unfold timer_lives. simpl. rewrite lookup_insert_eq. eauto.
Qed.

Lemma put_log_safe s l h lo0 lo :
  obj_inv s l -> logs (world s) !! h = Some lo0 -> log_wf (obj_log lo) -> z_current lo = z_current lo0 ->
  entries (obj_log lo0) `prefix_of` entries (obj_log lo) ->
  safe (put_log h lo) s l
    (fun _ s' => s' = set_world (set_logs (<[h := lo]> (logs (world s))) (world s)) s).
Proof.
  intros Hinv Hl Hwf Hz Hp. destruct (oi_logs _ _ Hinv h lo0 Hl) as (_ & _ & Hc).
  eapply safe_end; [done|apply put_log_inv; [done|by eauto|done|by eapply cursor_follow]|lia| |done].
  apply moves_other; [done|]. apply logs_grow_insert. intros lo1 Hlo1. by simplify_eq.
Qed.

(** Moving the cursor of a log. *)
Lemma move_cursor_safe s l h lo lo' :
  obj_inv s l -> logs (world s) !! h = Some lo -> obj_log lo' = obj_log lo -> cursor_ok h lo' ->
  safe (put_log h lo') s l (fun _ s' => logs (world s') !! h = Some lo').
Proof.
  intros Hinv Hlo Hlog Hc. destruct (oi_logs _ _ Hinv h lo Hlo) as (_ & Hwf & _).
  eapply safe_end; [done|apply put_log_inv; [done|by eauto|by rewrite Hlog|done]|lia| |].
  - apply moves_other; [done|]. apply logs_grow_insert. intros lo0 Hlo0. simplify_eq. by rewrite Hlog.
  - apply lookup_insert_eq.
Qed.

Lemma current_cursor h (lo : ExcimerLog_obj HT) : cursor_ok h lo -> cursor_ok h (ExcimerLog_current h lo).1.
Proof.
  unfold ExcimerLog_current. intros Hc. destruct (z_current lo) as [e0|] eqn:Hz; [done|].
  destruct (below_size _ _); [|done]. intros e. unfold ExcimerLog_init_entry. cbn.
  destruct (excimer_log_get_entry _ _) as [en|] eqn:Hen; [|done]. intros [= <-]. cbn. eauto.
Qed.

Lemma lift_safe {A} (r : outcome A) a s l (Q : A -> state -> Prop) :
  r = Ok a -> obj_inv s l -> Q a s -> safe (lift r) s l Q.
Proof. intros ->. apply safe_ret. Qed.

(** Durations. *)

Lemma billion_small : small_double 30 (double_of_Z EXCIMER_BILLION).
Proof. vm_compute. split; discriminate. Qed.

Lemma stagger_small k r x :
  is_u32 r -> small_double k x -> 0 <= k <= 32 -> small_double (k + 3) (stagger r x).
Proof.
  intros Hr Hx Hk. unfold stagger, ddiv.
  assert (Hmax : double_of_Z UINT32_MAX = S754_finite false 9007199252643840 (-21)) by (vm_compute; reflexivity).
  rewrite Hmax. replace (k + 3) with (32 + k + 1 - (52 + -21) + 1) by lia.
  apply div_small; [apply mul_small; [by apply int_small|done|lia]|lia|lia].
Qed.

Lemma period_ns_defined x : small_double 32 x -> exists ns, period_ns x = Ok ns.
Proof.
  intros Hx. unfold period_ns.
  pose proof (mul_small 32 30 x _ Hx billion_small ltac:(lia)) as Hm.
  destruct (dmul x _) as [s| | |[] m e]; try done; [by exists 0|].
  destruct Hm as [He Hm]. pose proof (float_trunc_small m e 63 ltac:(lia) He Hm) as Ht.
  cbn -[Z.pow]. rewrite (proj2 (Z.ltb_lt _ _)) by lia. by eexists.
Qed.

Lemma default_period_small : small_double 0 EXCIMER_DEFAULT_PERIOD.
Proof. vm_compute. split; discriminate. Qed.

(** ** Lemmas: methods *)

Section methods.
  Context (call_function : nat -> call_arg -> M state unit).
  Hypothesis call_safe : forall v a s l, obj_inv s l -> safe (call_function v a) s l (fun _ _ => True).
  Hypothesis rand_ok : forall o, is_u32 (php_mt_rand o).2.

Lemma profiler_parts s l p :
  obj_inv s l -> profiler_lives s p ->
  exists o lo, profilers (world s) !! p = Some o /\ logs (world s) !! prof_z_log o = Some lo /\
    log_wf (obj_log lo) /\ is_Some (timers s !! p).
Proof.
  intros Hinv [o Ho]. destruct (oi_profilers _ _ Hinv p o Ho) as (Ht & [lo Hlo] & _).
  exists o, lo. by destruct (oi_logs _ _ Hinv _ _ Hlo) as (_ & ? & _).
Qed.

(** Changing fields of a profiler other than its log. *)
Lemma update_profiler_safe s l p f :
  obj_inv s l -> profiler_lives s p -> (forall o, prof_z_log (f o) = prof_z_log o) ->
  safe (put_profiler p f) s l (fun _ s' => timers s' = timers s).
Proof.
  intros Hinv Hp Hf. destruct (profiler_parts s l p Hinv Hp) as (o & lo & Ho & Hlo & _).
  eapply safe_weaken; [apply (put_profiler_safe s l p o); [done..|rewrite Hf; eauto]|]. by intros ? ? ->.
Qed.

Lemma stop_method_safe s l p :
  obj_inv s l -> is_Some (timers s !! p) -> safe (stop_object p) s l (fun _ _ => True).
Proof. intros Hinv Hs. eapply safe_weaken; [by apply stop_object_safe|]. done. Qed.

Lemma profiler_start_safe s l p :
  obj_inv s l -> profiler_lives s p -> safe (ExcimerProfiler_start_method false 0 p) s l (fun _ _ => True).
Proof.
  intros Hinv Hp. destruct (profiler_parts s l p Hinv Hp) as (o & lo & Ho & _ & _ & [t Ht]).
  unfold ExcimerProfiler_start_method. apply (safe_read _ _ s t); [by apply load_ok|].
  apply (safe_bind _ _ s l (fun _ s' => world s' = world s /\ is_Some (timers s' !! p))).
  { destruct (is_running t); [apply stop_object_safe; eauto|apply safe_ret; by eauto]. }
  intros [] s1 l1 Hinv1 _ [Hw1 Hs1]. unfold ExcimerProfiler_start.
  apply (safe_read _ _ s1 o); [apply get_profiler_ok; by rewrite Hw1|].
  apply (start_object_safe _ _ _ _ _ _ _ _ _ (fun _ => True)); [done..|by exists o; rewrite Hw1|].
  intros s2 l2 Hinv2 Hs2 Hw2.
  eapply safe_weaken; [apply update_profiler_safe; [done|exists o; congruence|done]|]. simpl. by intros _ s' ->.
Qed.

Lemma timer_start_safe s l p :
  obj_inv s l -> timer_lives s p -> safe (ExcimerTimer_start false 0 p) s l (fun _ s' => timer_lives s' p).
Proof.
  intros Hinv [o Ho]. pose proof (oi_timer_objs _ _ Hinv p o Ho) as Ht.
  unfold ExcimerTimer_start. apply (safe_read _ _ s o); [by apply get_timer_obj_ok|].
  apply (start_object_safe _ _ _ _ _ _ _ _ _ (fun w => is_Some (timer_objs w !! p))); [done|done|by exists o..|].
  intros s2 l2 Hinv2 Hs2 Hw2.
  eapply safe_weaken; [apply put_timer_obj_safe; [done|exists o; congruence]|]. by intros _ s' [-> ?].
Qed.

Lemma timer_start_method_safe s l p :
  obj_inv s l -> timer_lives s p -> safe (ExcimerTimer_start_method false 0 p) s l (fun _ _ => True).
Proof.
  intros Hinv [o Ho]. destruct (oi_timer_objs _ _ Hinv p o Ho) as [t Ht].
  unfold ExcimerTimer_start_method. apply (safe_read _ _ s t); [by apply load_ok|].
  apply (safe_bind _ _ s l (fun _ s' => world s' = world s /\ is_Some (timers s' !! p))).
  { destruct (is_running t); [apply stop_object_safe; eauto|apply safe_ret; by eauto]. }
  intros [] s1 l1 Hinv1 _ [Hw1 Hs1].
  eapply safe_weaken; [apply timer_start_safe; [done|]|done]. exists o. by rewrite Hw1.
Qed.

Lemma rotate_inv s l p o lo :
  obj_inv s l -> profilers (world s) !! p = Some o -> logs (world s) !! prof_z_log o = Some lo ->
  obj_inv (rotate s p o lo) l /\ moves s (rotate s p o lo).
Proof.
  intros Hinv Ho Hlo. pose proof (new_log_inv s l (rotated_log lo) Hinv (rotated_wf lo) eq_refl) as Hinv1. split.
  - apply (put_profiler_inv _ l p (set_prof_log (next_ptr (world s)) o) Hinv1); [by exists o|].
    simpl. rewrite lookup_insert_eq. eauto.
  - apply moves_other; [done|]. by apply (new_log_grows s l).
Qed.

Lemma flush_safe s l p :
  obj_inv s l -> profiler_lives s p ->
  safe (ExcimerProfiler_flush is_callable call_function p) s l (fun h s' => is_Some (logs (world s') !! h)).
Proof.
  intros Hinv Hp. destruct (profiler_parts s l p Hinv Hp) as (o & lo & Ho & Hlo & _ & Ht).
  destruct (rotate_inv s l p o lo Hinv Ho Hlo) as [Hinv1 Hmv].
  assert (Hl1 : is_Some (logs (world (rotate s p o lo)) !! prof_z_log o)) 
    by (eapply logs_grow_some; [apply Hmv|eauto]).
  pose (rest := flush_callback is_callable call_function p (prof_z_callback o) (prof_z_log o)).
  assert (Hrest : safe rest (rotate s p o lo) l (fun h s' => is_Some (logs (world s') !! h))).
  { destruct (flush_callback_cases is_callable call_function p (prof_z_callback o) (prof_z_log o)
      (rotate s p o lo)) as [Heq|[Heq|[v Heq]]].
    - apply (safe_eq _ (mret (prof_z_log o))); [done|by apply safe_ret].
    - apply (safe_eq _ _ _ _ _ Heq). eapply safe_bind; [by apply warning_safe|]. intros [] s1 l1 Hi1 [_ Hk1] [Ht1 _].
      eapply safe_bind; [apply stop_object_safe; [done|by rewrite Ht1]|]. intros [] s2 l2 Hi2 [_ Hk2] _.
      apply safe_ret; [done|]. by apply (logs_grow_some _ _ _ Hk2), (logs_grow_some _ _ _ Hk1).
    - apply (safe_eq _ _ _ _ _ Heq). eapply safe_bind; [by apply call_safe|]. intros [] s1 l1 Hi1 [_ Hk] _.
      apply safe_ret; [done|]. by apply (logs_grow_some _ _ _ Hk). }
  pose proof (flush_rotates_spec is_callable call_function s p o lo Ho Hlo) as Heq. fold rest in Heq.
  unfold safe in *. rewrite Heq. destruct (rest _) as [s2 [h|msg|why|]]; [|done..].
  destruct Hrest as (l2 & ? & ? & ? & ?). exists l2. split_and!; [done|done|by eapply moves_trans|done].
Qed.

(** A sample, recorded or too much for the log. *)
Lemma add_sample_safe s l h n now :
  obj_inv s l -> is_Some (logs (world s) !! h) ->
  safe (add_sample h n now) s l (fun _ s' =>
    timers s' = timers s /\ profilers (world s') = profilers (world s) /\ is_Some (logs (world s') !! h)).
Proof.
  intros Hinv [lo Hlo]. destruct (oi_logs _ _ Hinv h lo Hlo) as (_ & Hwf & _).
  unfold add_sample. apply (safe_read _ _ s lo); [by apply get_log_ok|]. apply (safe_read _ _ s s); [done|].
  pose proof (log_add_spec _ n now (obj_log lo) Hwf (oi_stack _ _ Hinv)) as Hspec.
  destruct (excimer_log_add _ n now (obj_log lo)) as [log' r] eqn:Hrun.
  inversion Hspec as [logf i Hrec Hsz|logf Hbig Hsz]; subst.
  - pose proof (log_add_wf _ _ _ _ _ Hwf (oi_stack _ _ Hinv) Hrun) as Hwf'.
    eapply safe_bind; [apply (put_log_safe s l h lo); [done..|by eexists]|]. intros [] s1 l1 Hi1 _ ->.
    apply safe_ret; [done|]. split_and!; [done..|]. simpl. rewrite lookup_insert_eq. eauto.
  - unfold safe. simpl. split; [by left|]. exists l. by apply live_set_logs, obj_inv_live.
Qed.

Lemma profiler_event_safe s l n p :
  obj_inv s l -> profiler_lives s p ->
  safe (ExcimerProfiler_event is_callable call_function n p) s l (fun _ _ => True).
Proof.
  intros Hinv Hp. destruct (profiler_parts s l p Hinv Hp) as (o & lo & Ho & Hlo & _ & Ht).
  unfold ExcimerProfiler_event. apply (safe_read _ _ s o); [by apply get_profiler_ok|].
  eapply safe_bind; [by apply clock_safe|]. intros now s1 l1 Hi1 _ [Ht1 Hw1].
  eapply safe_bind; [apply add_sample_safe; [done|rewrite Hw1; eauto]|]. intros [] s2 l2 Hi2 _ (Ht2 & Hp2 & [lo2 Hl2]).
  apply (safe_read _ _ s2 lo2); [by apply get_log_ok|].
  assert (Ho2 : profilers (world s2) !! p = Some o) by by rewrite Hp2, Hw1.
  apply (safe_read _ _ s2 o); [by apply get_profiler_ok|].
  destruct (negb _ && _); [|by apply safe_ret].
  eapply safe_bind; [apply flush_safe; [done|by exists o]|]. intros h s3 l3 Hi3 _ _. by apply safe_ret.
Qed.

Lemma dtor_safe s l p :
  obj_inv s l -> profiler_lives s p ->
  safe (ExcimerProfiler_dtor is_callable call_function p) s l (fun _ _ => True).
Proof.
  intros Hinv Hp. destruct (profiler_parts s l p Hinv Hp) as (o & lo & Ho & Hlo & _).
  unfold ExcimerProfiler_dtor. apply (safe_read _ _ s o); [by apply get_profiler_ok|].
  apply (safe_read _ _ s lo); [by apply get_log_ok|]. destruct (negb _); [|by apply safe_ret].
  eapply safe_bind; [by apply flush_safe|]. intros h s3 l3 Hi3 _ _. by apply safe_ret.
Qed.

(** Creating and freeing. *)

Lemma zero_alloc_inv s l p :
  obj_inv s l -> timers s !! p = None -> (p < next_ptr (world s))%positive ->
  obj_inv (set_timers (<[p := zero_timer]> (timers s)) s) l.
Proof.
  intros [Ht Hp Hto Hlog Ha Hown Hst] Hn Hlt. split; try done; simpl.
  - by apply alloc_step.
  - intros q o Hq. rewrite lookup_insert_is_Some'. destruct (Hp q o Hq) as (? & ? & ?). auto.
  - intros q o Hq. rewrite lookup_insert_is_Some'. right. by apply (Hto q o).
  - intros q. rewrite lookup_insert_is_Some'. intros [<-|Hq]; auto.
  - intros q t [[<- <-]|[_ Hq]]%lookup_insert_Some Hv; [done|]. by apply Hown.
Qed.

Lemma zero_alloc_moves s p : timers s !! p = None -> moves s (set_timers (<[p := zero_timer]> (timers s)) s).
Proof. intros Hn. apply (moves_step _ _ (LAlloc p)); [done| |done]. intros d. by constructor. Qed.

Lemma alloc_safe s l :
  obj_inv s l ->
  safe alloc s l (fun p s' => p = next_ptr (world s) /\ timers s' = timers s /\
    world s' = set_next_ptr (Pos.succ p) (world s)).
Proof.
  intros Hinv. eapply safe_end; [done|by apply alloc_inv|lia| |done]. by apply moves_other.
Qed.

Lemma fresh_address s l : obj_inv s l ->
  timers s !! next_ptr (world s) = None /\ profilers (world s) !! next_ptr (world s) = None /\
    timer_objs (world s) !! next_ptr (world s) = None.
Proof.
  intros Hinv. assert (Hn : timers s !! next_ptr (world s) = None).
  { destruct (timers s !! next_ptr (world s)) eqn:Hs; [|done].
    pose proof (oi_addresses _ _ Hinv (next_ptr (world s)) ltac:(eauto)). lia. }
  split_and!; [done|..].
  - destruct (profilers (world s) !! _) as [o|] eqn:Ho; [|done].
    destruct (oi_profilers _ _ Hinv _ _ Ho) as ([? ?] & _). congruence.
  - destruct (timer_objs (world s) !! _) as [o|] eqn:Ho; [|done].
    destruct (oi_timer_objs _ _ Hinv _ _ Ho). congruence.
Qed.

(** An object joins its memory. *)
Lemma add_profiler_inv s l p o :
  obj_inv s l -> invalid_timer s p -> profilers (world s) !! p = None -> timer_objs (world s) !! p = None ->
  is_Some (logs (world s) !! prof_z_log o) ->
  obj_inv (set_world (set_profilers (<[p := o]> (profilers (world s))) (world s)) s) l.
Proof.
  intros [Ht Hp Hto Hlog Ha Hown Hst] (t & Hpt & Hv) Hnone Htn Hl. split; try done; simpl.
  - by apply set_world_inv.
  - intros q oq [[<- <-]|[_ Hq]]%lookup_insert_Some; [|by apply Hp]. split_and!; eauto.
  - intros q u Hq Hvq. destruct (Hown q u Hq Hvq) as [Hu Hcb]. split; [done|].
    destruct (callback u) as [[]|]; [|done..]. unfold profiler_lives in *. simpl. rewrite lookup_insert_is_Some'. auto.
Qed.

Lemma add_timer_obj_inv s l p o :
  obj_inv s l -> invalid_timer s p -> profilers (world s) !! p = None ->
  obj_inv (set_world (set_timer_objs (<[p := o]> (timer_objs (world s))) (world s)) s) l.
Proof.
  intros [Ht Hp Hto Hlog Ha Hown Hst] (t & Hpt & Hv) Hnone. split; try done; simpl.
  - by apply set_world_inv.
  - intros q oq Hq. destruct (Hp q oq Hq) as (? & ? & ?). split_and!; [done..|].
    rewrite lookup_insert_ne; [done|]. intros ->. congruence.
  - intros q oq [[<- <-]|[_ Hq]]%lookup_insert_Some; [eauto|by apply (Hto q oq)].
  - intros q u Hq Hvq. destruct (Hown q u Hq Hvq) as [Hu Hcb]. split; [done|].
    destruct (callback u) as [[]|]; [done| |done]. unfold timer_lives in *. simpl. rewrite lookup_insert_is_Some'. auto.
Qed.

Lemma timer_new_safe s l :
  obj_inv s l -> safe ExcimerTimer_new s l (fun p s' => timer_lives s' p /\ s' = (ExcimerTimer_new s).1).
Proof.
  intros Hinv. destruct (fresh_address s l Hinv) as (Hn & Hpn & Htn). set (p := next_ptr (world s)) in *.
  pose (s1 := set_world (set_next_ptr (Pos.succ p) (world s)) s).
  assert (Hi1 : obj_inv s1 l) by by apply alloc_inv.
  set (s2 := set_timers (<[p := zero_timer]> (timers s1)) s1).
  assert (Hi2 : obj_inv s2 l) by (apply zero_alloc_inv; [done|done|simpl; lia]).
  eapply safe_end; [done|apply (add_timer_obj_inv s2 l p); [done| |done]|lia| |].
  - exists zero_timer. split; [apply lookup_insert_eq|done].
  - eapply moves_trans; [by apply (moves_other s s1)|].
    eapply moves_trans; [by apply (zero_alloc_moves s1)|]. by apply moves_other.
  - split; [|done]. unfold timer_lives. simpl. rewrite lookup_insert_eq. eauto.
Qed.

Lemma profiler_new_safe s l :
  obj_inv s l -> safe (ExcimerProfiler_new php_mt_rand default_max_depth) s l (fun p s' => profiler_lives s' p).
Proof.
  intros Hinv. destruct (fresh_address s l Hinv) as (Hn & Hpn & Htn).
  unfold ExcimerProfiler_new. eapply safe_bind; [by apply alloc_safe|].
  intros p s1 l1 Hi1 _ (Hp & Ht1 & Hw1). rewrite <-Hp in *.
  eapply safe_bind; [by apply clock_safe|]. intros now s2 l2 Hi2 _ [Ht2 Hw2].
  eapply safe_bind.
  { eapply safe_end; [done|apply (new_log_inv s2 l2 ExcimerLog_new); [done| |done]|lia| |].
    - apply init_wf.
    - apply moves_other; [done|]. by apply (new_log_grows s2 l2).
    - instantiate (1 := fun h s' => timers s' = timers s2 /\ profilers (world s') = profilers (world s2) /\
    timer_objs (world s') = timer_objs (world s2) /\ logs (world s') !! h = Some ExcimerLog_new /\
        next_ptr (world s') = Pos.succ (next_ptr (world s2))).
      split_and!; [done..| |done]. simpl. by rewrite lookup_insert_eq. }
  intros h s3 l3 Hi3 _ (Ht3 & Hp3 & Hto3 & Hlog3 & Hn3).
  apply (safe_read _ _ s3 ExcimerLog_new); [by apply get_log_ok|].
  eapply safe_bind; [by apply rand_safe|]. intros r s4 l4 Hi4 _ (Hr & Ht4 & Hw4).
  destruct (from_double_small (stagger r EXCIMER_DEFAULT_PERIOD)) as [ini Hini].
  { apply (small_mono 3); [lia|]. apply (stagger_small 0); [done|apply default_period_small|lia]. }
  destruct (from_double_small EXCIMER_DEFAULT_PERIOD) as [per Hper].
  { apply (small_mono 0); [lia|apply default_period_small]. }
  destruct (period_ns_defined EXCIMER_DEFAULT_PERIOD) as [ns Hns].
  { apply (small_mono 0); [lia|apply default_period_small]. }
  apply (safe_read _ _ s4 ini); [by rewrite Hini|]. apply (safe_read _ _ s4 per); [by rewrite Hper|].
  apply (safe_read _ _ s4 ns); [by rewrite Hns|].
  eapply safe_bind; [apply (put_log_safe s4 l4 h ExcimerLog_new); [done|by rewrite Hw4| |done..]|].
  { apply (wf_options (excimer_log_init (Log HT [] [] zend_new_array 0 0 0 0))); [done..|apply init_wf]. }
  intros [] s5 l5 Hi5 _ Hs5. assert (Hn5 : timers s5 !! p = None) by (subst s5; simpl; congruence).
  assert (Hlt : (p < next_ptr (world s5))%positive) by (subst s5; simpl; rewrite Hw4, Hn3, Hw2, Hw1; simpl; lia).
  clear Hini Hper Hns.
  eapply safe_run; [done|by apply (zero_alloc_inv s5 l5 p)|done|by apply zero_alloc_moves|]. intros Hi6.
  eapply safe_run; [reflexivity|apply (add_profiler_inv _ l5 p); [done|..]|lia|by apply moves_other|].
  - exists zero_timer. split; [apply lookup_insert_eq|done].
  - subst s5. simpl. by rewrite Hw4, Hp3, Hw2, Hw1.
  - subst s5. simpl. by rewrite Hw4, Hto3, Hw2, Hw1.
  - subst s5. simpl. rewrite lookup_insert_eq. eauto.
  - intros Hi7. apply safe_ret; [done|]. unfold profiler_lives. simpl. rewrite lookup_insert_eq. eauto.
Qed.

(** The memory of an object goes together with the object. *)
Lemma drop_inv s l p :
  obj_inv s l -> invalid_timer s p ->
  obj_inv (set_world (set_profilers (delete p (profilers (world s)))
    (set_timer_objs (delete p (timer_objs (world s))) (world s)))
    (set_timers (delete p (timers s)) s)) l.
Proof.
  intros [Ht Hp Hto Hlog Ha Hown Hst] Hiv. pose proof Hiv as (t & Hpt & Hv). split; try done; simpl.
  - by apply set_world_inv, free_step.
  - intros q o [Hne Hq]%lookup_delete_Some. destruct (Hp q o Hq) as (? & ? & ?).
    rewrite !lookup_delete_ne by done. by split_and!.
  - intros q o [Hne Hq]%lookup_delete_Some. rewrite lookup_delete_ne by done. by apply (Hto q o).
  - intros q [t' [_ Hq]%lookup_delete_Some]. apply Ha. eauto.
  - intros q u [Hne Hq]%lookup_delete_Some Hvq. destruct (Hown q u Hq Hvq) as [Hu Hcb]. split; [done|].
    unfold profiler_lives, timer_lives in *. simpl. by rewrite !lookup_delete_ne.
Qed.

(** The end of [ExcimerProfiler_free_object] and [ExcimerTimer_free_object]. *)
Lemma drop_safe s l p (drop : objects HT -> objects HT) :
  obj_inv s l -> invalid_timer s p ->
  drop (world s) = set_profilers (delete p (profilers (world s)))
    (set_timer_objs (delete p (timer_objs (world s))) (world s)) ->
  safe (_ ← modify (fun s => set_timers (delete p (timers s)) s); modify_world drop) s l (fun _ _ => True).
Proof.
  intros Hinv Hiv Hdrop. pose (s1 := set_timers (delete p (timers s)) s).
  apply (safe_end _ s (set_world (drop (world s)) s1) tt l l); [done|rewrite Hdrop; by apply drop_inv|lia| |done].
  apply (moves_trans _ s1); [|apply moves_other; [done|]; simpl; by rewrite Hdrop].
  apply (moves_step _ _ (LFree p)); [done| |done]. intros d. by constructor.
Qed.

Lemma profiler_free_safe s l p :
  obj_inv s l -> profiler_lives s p -> safe (ExcimerProfiler_free_object false 0 p) s l (fun _ _ => True).
Proof.
  intros Hinv Hp. destruct (profiler_parts s l p Hinv Hp) as (o & lo & Ho & _ & _ & [t Ht]).
  destruct (oi_profilers _ _ Hinv p o Ho) as (_ & _ & Hn).
  unfold ExcimerProfiler_free_object. apply (safe_read _ _ s t); [by apply load_ok|].
  eapply safe_bind; [by apply destroy_valid_safe|]. intros _ s1 l1 Hi1 _ [Hw1 Hiv1].
  apply drop_safe; [done..|]. rewrite Hw1. unfold set_timer_objs.
  rewrite (delete_id (timer_objs (world s))) by done. by destruct (world s).
Qed.

Lemma timer_free_safe s l p :
  obj_inv s l -> timer_lives s p -> safe (ExcimerTimer_free_object false 0 p) s l (fun _ _ => True).
Proof.
  intros Hinv [o Ho]. destruct (oi_timer_objs _ _ Hinv p o Ho) as [t Ht].
  assert (Hn : profilers (world s) !! p = None).
  { destruct (profilers (world s) !! p) as [o'|] eqn:Ho'; [|done].
    destruct (oi_profilers _ _ Hinv p o' Ho') as (_ & _ & Hn). congruence. }
  unfold ExcimerTimer_free_object. apply (safe_read _ _ s t); [by apply load_ok|].
  eapply safe_bind; [by apply destroy_valid_safe|]. intros _ s1 l1 Hi1 _ [Hw1 Hiv1].
  apply drop_safe; [done..|]. rewrite Hw1. unfold set_profilers.
  cbn [profilers set_timer_objs]. by rewrite (delete_id (profilers (world s))).
Qed.

(** Setters. *)

Lemma setPeriod_safe s l p x :
  obj_inv s l -> profiler_lives s p -> small_double 32 x ->
  safe (ExcimerProfiler_setPeriod php_mt_rand p x) s l (fun _ _ => True).
Proof.
  intros Hinv Hp Hx. unfold ExcimerProfiler_setPeriod.
  eapply safe_bind; [by apply rand_safe|]. intros r s1 l1 Hi1 _ (Hr & Ht1 & Hw1).
  destruct (from_double_small x) as [per Hper]; [by apply (small_mono 32)|].
  destruct (from_double_small (stagger r x)) as [ini Hini].
  { apply (small_mono 35); [lia|]. by apply (stagger_small 32). }
  destruct (period_ns_defined x Hx) as [ns Hns].
  apply (safe_read _ _ s1 per); [by rewrite Hper|]. apply (safe_read _ _ s1 ini); [by rewrite Hini|].
  rewrite Hns. clear Hper Hini Hns.
  assert (Hp1 : profiler_lives s1 p) by (unfold profiler_lives in *; by rewrite Hw1).
  destruct (profiler_parts s1 l1 p Hi1 Hp1) as (o & lo & Ho & Hlo & Hwf & _).
  eapply safe_bind; [apply (put_profiler_safe s1 l1 p o); [done..|simpl; by eauto]|]. intros [] s2 l2 Hi2 _ ->.
  set (s2 := set_world _ s1) in *. set (o2 := set_prof_times _ _ o) in *.
  apply (safe_read _ _ s2 o2); [by apply get_profiler_ok; simpl; apply lookup_insert_eq|].
  apply (safe_read _ _ s2 lo); [by apply get_log_ok|]. apply (safe_read _ _ s2 ns); [done|].
  eapply safe_weaken; [apply (put_log_safe _ _ _ lo); [done..| |done|done]|done]. by apply (wf_options (obj_log lo)).
Qed.

Lemma setMaxDepth_safe s l p d :
  obj_inv s l -> profiler_lives s p -> safe (ExcimerProfiler_setMaxDepth p d) s l (fun _ _ => True).
Proof.
  intros Hinv Hp. destruct (profiler_parts s l p Hinv Hp) as (o & lo & Ho & Hlo & Hwf & _).
  unfold ExcimerProfiler_setMaxDepth. apply (safe_read _ _ s o); [by apply get_profiler_ok|].
  apply (safe_read _ _ s lo); [by apply get_log_ok|].
  eapply safe_weaken; [apply (put_log_safe _ _ _ lo); [done..| |done|done]|done]. by apply (wf_options (obj_log lo)).
Qed.

Lemma set_timer_callback_safe s l p v :
  obj_inv s l -> timer_lives s p ->
  safe (ExcimerTimer_set_callback is_callable p v) s l (fun b s' => b = is_callable v s /\ timer_lives s' p).
Proof.
  intros Hinv Hp. unfold ExcimerTimer_set_callback. apply (safe_read _ _ s s); [done|].
  destruct (is_callable v s); cbn [negb].
  - eapply safe_bind; [by apply put_timer_obj_safe|]. intros [] s1 l1 Hi1 _ [_ Hl1]. by apply safe_ret.
  - eapply safe_bind; [by apply warning_safe|]. intros [] s1 l1 Hi1 _ [_ Hw1]. apply safe_ret; [done|].
    split; [done|]. unfold timer_lives in *. by rewrite Hw1.
Qed.

Lemma timer_event_safe s l n p :
  obj_inv s l -> timer_lives s p ->
  safe (ExcimerTimer_event is_callable call_function n p) s l (fun _ _ => True).
Proof.
  intros Hinv [o Ho]. pose proof (oi_timer_objs _ _ Hinv p o Ho) as Ht.
  unfold ExcimerTimer_event. apply (safe_read _ _ s o); [by apply get_timer_obj_ok|].
  destruct (tobj_z_callback o) as [| |v]; [by apply safe_ret..|]. apply (safe_read _ _ s s); [done|].
  cbn [zend_fcall_info_init]. destruct (is_callable v s); [by apply call_safe|].
  eapply safe_bind; [by apply warning_safe|]. intros [] s1 l1 Hi1 _ [Ht1 _].
  apply stop_method_safe; [done|by rewrite Ht1].
Qed.

Lemma get_time_safe s l p :
  obj_inv s l -> timer_lives s p -> safe (ExcimerTimer_getTime p) s l (fun _ _ => True).
Proof.
  intros Hinv [o Ho]. destruct (oi_timer_objs _ _ Hinv p o Ho) as [t Ht].
  unfold ExcimerTimer_getTime. eapply safe_bind; [|intros ts s1 l1 Hi1 _ _; by apply safe_ret].
  unfold excimer_timer_get_time. apply (safe_read _ _ s t); [by apply load_ok|].
  destruct (negb _ || _); [by apply (safe_ret _ _ _ (fun _ _ => True))|]. apply (safe_read _ _ s s); [done|].
  destruct (get_time_total (tl_timer t) (os s)) as (o' & r & Hr). rewrite Hr.
  eapply safe_run; [done|by apply (quiet_inv s)|done|by apply moves_other|]. intros Hi1.
  apply (safe_read _ _ _ r); [done|]. by apply safe_ret.
Qed.

Lemma set_timeout_safe s l v x :
  obj_inv s l -> small_double 62 x -> is_callable v (ExcimerTimer_new s).1 = true ->
  safe (excimer_set_timeout false is_callable 0 v x) s l
    (fun r s' => match r with Some p => timer_lives s' p | None => True end).
Proof.
  intros Hinv Hx Hv. unfold excimer_set_timeout. eapply safe_bind; [by apply timer_new_safe|].
  intros p s1 l1 Hi1 _ [Hp1 Hs1]. rewrite <-Hs1 in Hv.
  eapply safe_bind; [by apply set_timer_callback_safe|]. rewrite Hv. intros b s2 l2 Hi2 _ [-> Hp2]. cbn [negb].
  apply (safe_read _ _ s2 (Some p)); [done|].
  destruct (from_double_small x Hx) as [ts Hts]. apply (safe_read _ _ s2 ts); [by rewrite Hts|].
  eapply safe_bind; [by apply put_timer_obj_safe|]. intros [] s3 l3 Hi3 _ [_ Hp3].
  eapply safe_bind; [by apply timer_start_safe|]. intros [] s4 l4 Hi4 _ Hp4. by apply safe_ret.
Qed.

End methods.

(** ** Lemmas: logs and entries *)

Lemma offset_get_lives s h lo offset e :
  logs (world s) !! h = Some lo -> ExcimerLog_offsetGet h lo offset = Some e -> entry_lives s e.
Proof.
  intros Hlo. unfold ExcimerLog_offsetGet, ExcimerLog_init_entry. destruct (_ || _); [done|].
  destruct (excimer_log_get_entry (obj_log lo) offset) as [en|] eqn:Hen; [|done].
  intros [= <-]. unfold entry_lives. cbn. rewrite Hlo. eauto.
Qed.

Lemma run_log_call_safe s l h (c : log_call) :
  obj_inv s l -> is_Some (logs (world s) !! h) ->
  safe (run_log_call h c) s l (fun v s' => value_ok s' (log_type c) v).
Proof.
  intros Hinv [lo Hlo]. destruct (oi_logs _ _ Hinv h lo Hlo) as (_ & Hwf & Hc).
  unfold run_log_call. apply (safe_read _ _ s lo); [by apply get_log_ok|].
  destruct c as [| | | | | | | | | |offset|offset| |]; try (by apply safe_ret).
  - destruct (format_collapsed_table (obj_log lo) Hwf) as (table & Hrun & _).
    unfold ExcimerLog_formatCollapsed. rewrite Hrun. by eapply safe_read; [|apply safe_ret].
  - destruct (speedscope_data_spec (obj_log lo) Hwf) as (rows & samples & Hrun & _).
    unfold ExcimerLog_getSpeedscopeData. rewrite Hrun. by eapply safe_read; [|apply safe_ret].
  - destruct (aggr_by_func_spec (obj_log lo) Hwf) as (result & Hrun & _).
    unfold ExcimerLog_aggregateByFunction. rewrite Hrun. by eapply safe_read; [|apply safe_ret].
  - pose proof (current_cursor h lo Hc) as Hc'. destruct (ExcimerLog_current h lo) as [lo' e] eqn:Hcur.
    cbn in Hc'. assert (He : e = z_current lo' /\ obj_log lo' = obj_log lo).
    { unfold ExcimerLog_current in Hcur. injection Hcur as <- <-. split; [done|]. by repeat case_match. }
    destruct He as [-> Hlog]. eapply safe_bind; [by eapply move_cursor_safe|].
    intros [] s1 l1 Hi1 _ Hlo1. apply safe_ret; [done|].
    destruct (z_current lo') as [e|] eqn:Hz; [|done]. destruct (Hc' e Hz) as [He Hen].
    cbn. unfold entry_lives. rewrite He. cbn. by rewrite Hlo1.
  - unfold ExcimerLog_key. apply safe_ret; [done|]. by destruct (below_size _ _).
  - eapply safe_bind; [by eapply (move_cursor_safe _ _ _ lo)|]. intros [] s1 l1 Hi1 _ _. by apply safe_ret.
  - eapply safe_bind; [by eapply (move_cursor_safe _ _ _ lo)|]. intros [] s1 l1 Hi1 _ _. by apply safe_ret.
  - apply safe_ret; [done|]. destruct (ExcimerLog_offsetGet h lo offset) as [e|] eqn:He; [|done].
    by eapply offset_get_lives.
  - eapply safe_bind; [by apply warning_safe|]. intros [] s1 l1 Hi1 _ _. by apply safe_ret.
  - eapply safe_bind; [by apply warning_safe|]. intros [] s1 l1 Hi1 _ _. by apply safe_ret.
Qed.

Lemma entry_lookup_lives s l e :
  obj_inv s l -> entry_lives s e ->
  exists log en, entry_lookup (logs (world s)) e = Ok (log, en) /\ log_wf log /\
    0 <= frame_index en < frames_size log.
Proof.
  intros Hinv. unfold entry_lives, entry_lookup. destruct (entry_z_log e) as [h|]; [cbn|done].
  destruct (logs (world s) !! h) as [lo|] eqn:Hlo; [cbn|done]. intros [en Hen].
  destruct (oi_logs _ _ Hinv h lo Hlo) as (_ & Hwf & _).
  exists (obj_log lo), en. rewrite Hen. cbn. do 2 (split; [done|]).
  pose proof (wf_entries _ Hwf) as Hall. rewrite Forall_forall in Hall. apply Hall.
  unfold excimer_log_get_entry, array_get in Hen. destruct (_ && _); [|done].
  destruct (0 <=? _); [by eapply list_elem_of_lookup_2|done].
Qed.

Lemma run_entry_call_safe s l e (c : entry_call) :
  obj_inv s l -> entry_lives s e ->
  safe (run_entry_call e c) s l (fun v s' => value_ok s' (entry_type c) v).
Proof.
  intros Hinv Hlives. destruct (entry_lookup_lives s l e Hinv Hlives) as (log & en & Hrun & Hwf & Hi).
  unfold run_entry_call. apply (safe_read _ _ s s); [done|].
  destruct c; unfold ExcimerLogEntry_getTimestamp, ExcimerLogEntry_getEventCount, ExcimerLogEntry_getTrace;
    rewrite Hrun; cbn [obind].
  - by eapply safe_read; [|apply safe_ret].
  - by eapply safe_read; [|apply safe_ret].
  - rewrite trace_to_array_spec by done. by eapply safe_read; [|apply safe_ret].
Qed.

(** Changes of links and counters. *)
Lemma relinked_inv s l l' ts v p f :
  obj_inv s l -> timer_inv (mid s ts v) l' ->
  erase_links <$> ts = erase_links <$> alter f p (timers s) ->
  (forall t, is_valid (f t) = is_valid t /\ user_data (f t) = user_data t /\ callback (f t) = callback t) ->
  obj_inv (mid s ts v) l'.
Proof.
  intros [Ht Hp Hto Hlog Ha Hown Hst] Hinv He Hf.
  assert (Hdom : forall q, is_Some (ts !! q) <-> is_Some (timers s !! q)).
  { intros q. rewrite <-(fmap_is_Some erase_links (ts !! q)), <-lookup_fmap, He, lookup_fmap, fmap_is_Some.
    apply lookup_alter_is_Some. }
  split; try done; simpl.
  - intros q o Hq. rewrite Hdom. by apply Hp.
  - intros q o Hq. rewrite Hdom. by apply (Hto q o).
  - intros q Hq. by apply Ha, Hdom.
  - intros q t' Hq Hv. destruct (links_lookup _ _ q t' He Hq) as (u & Hu & Heu).
    pose proof (f_equal is_valid Heu) as Hvu. pose proof (f_equal user_data Heu) as Hdu.
    pose proof (f_equal callback Heu) as Hcu. simpl in Hvu, Hdu, Hcu. rewrite Hdu, Hcu.
    apply lookup_alter_Some in Hu as [(<- & t & Ht' & ->)|[_ Hu]]; [|by apply Hown; [|congruence]].
    destruct (Hf t) as (Hvf & -> & ->). apply (Hown p t Ht'). congruence.
Qed.

(** ** Lemmas: calls and events *)

Lemma returns_safe {A} (m : M state A) (f : A -> api_value) s l (Q : A -> state -> Prop) (R : api_value -> state -> Prop) :
  safe m s l Q -> (forall a s', Q a s' -> R (f a) s') -> safe (returns m f) s l R.
Proof.
  intros Hm HQ. unfold returns. eapply safe_bind; [done|]. intros a s1 l1 Hi1 _ Ha. apply safe_ret; auto.
Qed.

Section php.
  Context (call_function : nat -> call_arg -> M state unit).
  Hypothesis call_safe : forall v a s l, obj_inv s l -> safe (call_function v a) s l (fun _ _ => True).
  Hypothesis rand_ok : forall o, is_u32 (php_mt_rand o).2.

(** Every allowed call is safe and returns a value of its type. *)
Lemma run_api_safe s l c :
  obj_inv s l -> allowed is_callable c s = true ->
  safe (run_api is_callable php_mt_rand default_max_depth call_function c) s l
    (fun v s' => value_ok s' (result_type c) v).
Proof.
  intros Hinv Hok.
  assert (Hprof : forall p, bool_decide (profiler_lives s p) = true -> profiler_lives s p /\ is_Some (timers s !! p)).
  { intros p Hp%bool_decide_eq_true. split; [done|].
    by destruct (profiler_parts s l p Hinv Hp) as (? & ? & _ & _ & _ & ?). }
  assert (Htim : forall p, bool_decide (timer_lives s p) = true -> timer_lives s p /\ is_Some (timers s !! p)).
  { intros p [o Hp]%bool_decide_eq_true. split; [by exists o|]. by apply (oi_timer_objs _ _ Hinv p o). }
  destruct c as [|p x|p e|p d|p v n|p|p|p|p|p|p|p| |p e|p x|p x|p v|p|p|p|p|v x|h c|e c]; cbn [allowed run_api result_type] in *;
    repeat match goal with H : (_ && _)%bool = true |- _ => apply andb_prop in H as [? ?] end;
    try match goal with H : bool_decide (profiler_lives _ _) = true |- _ => apply Hprof in H as [? ?] end;
    try match goal with H : bool_decide (timer_lives _ _) = true |- _ => apply Htim in H as [? ?] end;
    try match goal with H : bool_decide (small_double _ _) = true |- _ => apply bool_decide_eq_true in H end.
  all: try (eapply returns_safe; [first [by apply (setPeriod_safe rand_ok)|by apply setMaxDepth_safe
    |by apply update_profiler_safe|by apply profiler_start_safe|by apply stop_method_safe
    |by apply (dtor_safe call_function call_safe)|by apply profiler_free_safe|by apply timer_start_method_safe
    |by apply get_time_safe|by apply timer_free_safe]|done]; fail).
  - eapply returns_safe; [by apply (profiler_new_safe rand_ok)|done].
  - unfold ExcimerProfiler_setEventType. destruct (negb _ && _).
    + eapply returns_safe; [by apply warning_safe|done].
    + eapply returns_safe; [by apply update_profiler_safe|done].
  - unfold ExcimerProfiler_setFlushCallback. eapply returns_safe; [apply (safe_read _ _ s s); [done|]|].
    + destruct (is_callable v s); cbn [negb].
      * eapply safe_weaken; [by apply update_profiler_safe|]. by instantiate (1 := fun _ _ => True).
      * eapply safe_weaken; [by apply warning_safe|done].
    + done.
  - destruct (profiler_parts s l p Hinv ltac:(done)) as (o & lo & Ho & Hlo & _).
    eapply returns_safe; [apply (safe_read _ _ s o); [by apply get_profiler_ok|]|].
    + apply (safe_ret _ _ _ (fun h s' => is_Some (logs (world s') !! h))); [done|by eauto].
    + done.
  - eapply returns_safe; [by apply (flush_safe call_function call_safe)|done].
  - eapply returns_safe; [by apply timer_new_safe|]. by intros p s' [].
  - unfold ExcimerTimer_setEventType. destruct (negb _ && _).
    + eapply returns_safe; [by apply warning_safe|done].
    + eapply returns_safe; [by apply put_timer_obj_safe|done].
  - unfold ExcimerTimer_setInterval. destruct (from_double_small x) as [ts Hts]; [done|].
    eapply returns_safe; [apply (safe_read _ _ s ts); [by rewrite Hts|by apply put_timer_obj_safe]|done].
  - unfold ExcimerTimer_setPeriod. destruct (from_double_small x) as [ts Hts]; [done|].
    eapply returns_safe; [apply (safe_read _ _ s ts); [by rewrite Hts|by apply put_timer_obj_safe]|done].
  - destruct v as [v|]; [|by eapply returns_safe; [by apply put_timer_obj_safe|done]].
    eapply returns_safe; [eapply safe_bind; [by apply set_timer_callback_safe|]|].
    + intros b s1 l1 Hi1 _ _. by apply (safe_ret _ _ _ (fun _ _ => True)).
    + done.
  - eapply returns_safe; [by apply set_timeout_safe|]. by intros [p|] s' Hp.
  - apply bool_decide_eq_true in Hok. by apply run_log_call_safe.
  - apply bool_decide_eq_true in Hok. by apply run_entry_call_safe.
Qed.

Lemma checked_call_safe s l c :
  obj_inv s l ->
  safe (checked_call is_callable php_mt_rand default_max_depth call_function c) s l
    (fun v s' => value_ok s' (result_type c) v).
Proof.
  intros Hinv. unfold checked_call. apply (safe_read _ _ s s); [done|].
  destruct (allowed is_callable c s) eqn:Hok; [by apply run_api_safe|]. unfold safe. simpl. split; [by right; left|exists l; by apply obj_inv_live].
Qed.

Lemma set_stack_inv s l stack :
  obj_inv s l -> stack_ok stack -> obj_inv (set_world (set_stack stack (world s)) s) l.
Proof. intros [Ht Hp Hto Hlog Ha Hown Hst] Hok. split; try done. by apply set_world_inv. Qed.

Lemma set_exception_inv s l b : obj_inv s l -> obj_inv (set_world (set_exception b (world s)) s) l.
Proof. intros [Ht Hp Hto Hlog Ha Hown Hst]. split; try done. by apply set_world_inv. Qed.

Lemma enter_stack_safe s l stack : obj_inv s l -> safe (enter_stack stack) s l (fun _ _ => True).
Proof.
  intros Hinv. unfold enter_stack. destruct (decide (stack_ok stack)).
  - eapply safe_end; [done|by apply set_stack_inv|done|by apply moves_other|done].
  - unfold safe. simpl. split; [by right; left|exists l; by apply obj_inv_live].
Qed.

Lemma set_exception_safe s l b :
  obj_inv s l -> safe (modify_world (set_exception b)) s l (fun _ _ => True).
Proof.
  intros Hinv. eapply safe_end; [done|by apply set_exception_inv|done|by apply moves_other|done].
Qed.

Lemma catch_safe s l : obj_inv s l ->
  safe catch_exception s l (fun b s' => b = exception_pending (world s) /\
    s' = set_world (set_exception false (world s)) s).
Proof.
  intros Hinv. apply (safe_read _ _ s s); [done|].
  eapply safe_end; [done|by apply set_exception_inv|done|by apply moves_other|done].
Qed.

Lemma unwind_safe cs s l :
  obj_inv s l ->
  safe (unwind is_callable php_mt_rand default_max_depth call_function cs) s l (fun _ _ => True).
Proof.
  revert s l. induction cs as [|c cs IH]; intros s l Hinv; cbn [unwind]; [by apply safe_ret|].
  destruct (is_release c).
  - eapply safe_bind; [by apply checked_call_safe|]. intros v s1 l1 Hi1 _ _. by apply IH.
  - unfold safe. simpl. split; [by right; left|exists l; by apply obj_inv_live].
Qed.

Lemma run_program_safe q s l :
  obj_inv s l ->
  safe (run_program is_callable php_mt_rand default_max_depth call_function q) s l (fun _ _ => True).
Proof.
  revert s l. induction q as [|cs|c k IH h IHh|stack k IH]; intros s l Hinv; cbn [run_program].
  - by apply safe_ret.
  - eapply safe_bind; [by apply set_exception_safe|]. intros [] s1 l1 Hi1 _ _. by apply unwind_safe.
  - eapply safe_bind; [by apply checked_call_safe|]. intros v s1 l1 Hi1 _ _.
    eapply safe_bind; [by apply catch_safe|]. intros [] s2 l2 Hi2 _ _; [by apply IHh|by apply IH].
  - eapply safe_bind; [by apply enter_stack_safe|]. intros [] s1 l1 Hi1 _ _. by apply IH.
Qed.

(** What the callback of a valid timer does. *)
Lemma run_callback_safe s l p t cb n :
  obj_inv s l -> timers s !! p = Some t -> is_valid t = true -> callback t = Some cb ->
  safe (run_timer_callback is_callable call_function cb (user_data t) n) s l (fun _ _ => True).
Proof.
  intros Hinv Hp Hv Hcb. destruct (oi_owner _ _ Hinv p t Hp Hv) as [Hud Hlive]. rewrite Hcb in Hlive.
  unfold run_timer_callback. rewrite Hud. apply (safe_read _ _ s p); [done|]. destruct cb.
  - by apply (profiler_event_safe call_function call_safe).
  - by apply (timer_event_safe call_function call_safe).
Qed.

End php.

Section requests.
  Hypothesis rand_ok : forall o, is_u32 (php_mt_rand o).2.
  Abbreviation php := (call_php is_callable php_mt_rand default_max_depth body).

Lemma call_php_safe n v a s l : obj_inv s l -> safe (php n v a) s l (fun _ _ => True).
Proof.
  revert v a s l. induction n as [|n IH]; intros v a s l Hinv; cbn [call_php];
    (apply (safe_read _ _ s s); [done|]); (destruct (exception_pending (world s)); [by apply safe_ret|]).
  { unfold safe. simpl. split; [by right; right|exists l; by apply obj_inv_live]. }
  eapply safe_bind; [by apply run_program_safe|].
  intros [] s1 l1 Hi1 _ _. eapply safe_end; [done|apply set_stack_inv; [done|apply (oi_stack _ _ Hinv)]|done| |done].
  by apply moves_other.
Qed.

(** The loop of [excimer_timer_interrupt], one interrupt deep. *)
Lemma interrupt_loop_safe n fuel s l :
  obj_inv s l -> (length l < fuel)%nat ->
  match interrupt_loop false (run_timer_callback is_callable (php n)) fuel 0 s with
  | (s', Ok _) => obj_inv s' [] /\
      (exists tr, Forall quiet tr /\ forall d, steps (Sys s [] (S d)) tr (Sys s' [] d)) /\
      logs_grow (logs (world s)) (logs (world s'))
  | (s', Fatal msg) => fatal_end s' msg
  | _ => False
  end.
Proof.
  revert s l. induction fuel as [|fuel IH]; intros s l Hinv Hfuel; [lia|]. cbn [interrupt_loop].
  destruct (dequeue_spec s l 0 (oi_timers _ _ Hinv)) as (ts & v & Hrun & Hinv1 & He).
  rewrite (bind_ok _ _ _ _ _ Hrun). destruct l as [|p l]; simpl in *.
  { rewrite <-(alter_id id (timers s) 1%positive) in He by done. split_and!; [|exists [LEnd]|done].
    - by apply (relinked_inv s [] [] ts v 1%positive id).
    - split; [by constructor|]. intros d. by eapply steps_one, step_end. }
  assert (Hi1 : obj_inv (mid s ts v) l) by by apply (relinked_inv s (p :: l) l ts v p (set_count 0)).
  assert (Hval : valid_timer (mid s ts v) p).
  { apply (relinked_valid s ts v p (set_count 0)); [done..|].
    apply (pending_dom s (p :: l)); [apply (oi_timers _ _ Hinv)|set_solver]. }
  destruct Hval as (t & Hp & Hv). rewrite (bind_ok _ _ _ _ _ (load_ok _ p t Hp)).
  destruct (tok_owner _ _ _ (ti_timers _ _ (oi_timers _ _ Hi1) _ _ Hp) Hv) as (_ & _ & cb & Hcb).
  rewrite Hcb, (bind_ok (lift (deref (Some cb))) _ _ (mid s ts v) cb) by done.
  pose proof (run_callback_safe (php n) (call_php_safe n) _ l p t cb (count_of s p) Hi1 Hp Hv Hcb) as Hsafe.
  unfold safe in Hsafe. unfold mbind, M_bind.
  destruct (run_timer_callback is_callable (php n) cb (user_data t) (count_of s p) (mid s ts v))
    as [s2 [u|msg|why|]]; [|done..].
  destruct Hsafe as (l2 & Hi2 & Hle & [(tr2 & Hq2 & Hst2) Hlog2] & _).
  specialize (IH s2 l2 Hi2 ltac:(lia)).
  destruct (interrupt_loop false _ fuel 0 s2) as [s3 [u'|msg|why|]]; [|done..].
  destruct IH as (Hi3 & (tr3 & Hq3 & Hst3) & Hlog3). split_and!; [done| |by etrans].
  exists ([LDeliver p (count_of s p)] ++ tr2 ++ tr3). split; [by constructor; [|apply Forall_app]|].
  intros d. eapply steps_app; [eapply steps_one; by eapply step_deliver|]. by eapply steps_app.
Qed.

Lemma pending_bound s l : timer_inv s l -> (length l <= size (timers s))%nat.
Proof.
  intros Hinv. destruct (ti_list _ _ Hinv) as [_ Hlk]. pose proof (proj1 Hlk) as Hnd.
  rewrite <-(size_list_to_set (C:=gset ptr) l) by done. rewrite <-size_dom. apply subseteq_size.
  intros q Hq%elem_of_list_to_set. apply elem_of_dom. destruct (pending_dom s l q Hinv Hq) as (t & ? & _). eauto.
Qed.

Hypothesis hook_ok : forall h s, exists s', run_hook h s = (s', Ok tt) /\ same_timers s s' /\ world s' = world s.

(** What an event does to the invariant and to the system of timers. *)
Definition event_result (es : list event) s s' : Prop :=
  (exists l, obj_inv s' l) /\
  exists tr, fires tr = elapses es /\ Forall fire_ok tr /\ forall d, steps (Sys s [] d) tr (Sys s' [] d).

Lemma quiet_fire_ok tr : Forall quiet tr -> Forall fire_ok tr.
Proof. intros Hq. apply (Forall_impl _ _ _ Hq). by intros []. Qed.

Lemma moves_result es s s' : elapses es = [] -> (exists l, obj_inv s' l) -> moves s s' -> event_result es s s'.
Proof.
  intros He Hinv [(tr & Hq & Hst) _]. split; [done|]. exists tr.
  rewrite He, fires_quiet by done. split_and!; [done|by apply quiet_fire_ok|done].
Qed.

Lemma interrupt_check_spec n s l :
  obj_inv s l ->
  match vm_interrupt_check is_callable php_mt_rand default_max_depth body run_hook n s with
  | (s', Ok _) =>
      (exists l', obj_inv s' l' /\ (vm_interrupt s !! 0%nat = Some true -> l' = [])) /\ moves s s'
  | (s', Fatal msg) => fatal_end s' msg
  | _ => False
  end.
Proof.
  intros Hinv. unfold vm_interrupt_check. rewrite (bind_ok get_state _ s s s) by done.
  destruct (bool_decide_reflect (vm_interrupt s !! 0%nat = Some true)) as [Hflag|Hno].
  2:{ split; [by exists l|apply moves_refl]. }
  set (s1 := set_vm_interrupt (<[0%nat := false]> (vm_interrupt s)) s). rewrite (bind_ok _ _ s s1 tt) by done.
  assert (Hi1 : obj_inv s1 l) by (destruct Hinv; split; try done; by apply flag_inv).
  pose proof (interrupt_loop_safe n (S (size (timers s))) s1 l Hi1) as Hloop.
  pose proof (pending_bound s l (oi_timers _ _ Hinv)). specialize (Hloop ltac:(lia)).
  unfold excimer_timer_interrupt, mbind at 1, M_bind.
  destruct (interrupt_loop false _ _ 0 s1) as [s2 [u|msg|why|]]; [|done..].
  destruct Hloop as (Hi2 & (tr & Hq & Hst) & Hlog).
  assert (Hmv : moves s s2).
  { split; [|done]. exists ([LBegin] ++ tr). split; [by constructor|]. intros d.
    eapply steps_app; [|apply Hst]. apply steps_one. by constructor. }
  rewrite (bind_ok get_state _ s2 s2 s2) by done.
  destruct (old_zend_interrupt_function s2) as [h|]; [|by split; [exists []|]].
  destruct (hook_ok h s2) as (s3 & -> & Hsame & Hw). split; [exists []; split; [by apply (quiet_inv s2)|done]|].
  eapply moves_trans; [done|]. apply moves_other; [done|by rewrite Hw].
Qed.

Lemma handle_spec s l self p k :
  obj_inv s l -> timer_valid s p = true -> 0 <= k < 2 ^ 31 - 1 ->
  exists s' l', excimer_timer_handle false self p k s = (s', Ok tt) /\ obj_inv s' l' /\
    forall d, steps (Sys s [] d) [LFire p k; LFlag p] (Sys s' [] d).
Proof.
  intros Hinv Hv Hk. unfold timer_valid in Hv. destruct (timers s !! p) as [t|] eqn:Hp; [|done].
  destruct (handle_locked_spec s l self p t k (oi_timers _ _ Hinv) Hp Hv) as (ts & v & Hrun & Hi1 & He).
  assert (Hinv1 : obj_inv (mid s ts v) (queue_add p l)) by by eapply relinked_inv.
  assert (Hval : valid_timer (mid s ts v) p) by (eapply relinked_valid; [done..|by exists t]).
  pose proof (raise_ok _ _ p Hi1 Hval) as Hraise. eexists _, (queue_add p l). split_and!.
  - unfold excimer_timer_handle. by rewrite (bind_ok _ _ _ _ _ Hrun).
  - destruct Hinv1. split; try done. by apply flag_inv.
  - intros d. apply (steps_snoc _ [LFire p k] (Sys (mid s ts v) [p] d)).
    + apply steps_one. eapply step_fire; [by exists t|done].
    + by apply (step_flag _ [] [] d p).
Qed.

(** The type of the value of an event. *)
Definition event_value_ok s (e : event) (v : api_value) : Prop :=
  match e with ev_call c => value_ok s (result_type c) v | _ => v = v_void end.

Lemma event_body_spec n e s l :
  obj_inv s l ->
  match event_body is_callable php_mt_rand default_max_depth body run_hook n e s with
  | (s', Ok v) => event_result [e] s s' /\ event_value_ok s' e v
  | (s', Fatal msg) => fatal_end s' msg
  | _ => False
  end.
Proof.
  intros Hinv. destruct e as [c|stack|self p k|]; cbn [event_body].
  - pose proof (checked_call_safe (php n) (call_php_safe n) rand_ok s l c Hinv) as Hsafe. unfold safe in Hsafe.
    destruct (checked_call _ _ _ _ c s) as [s' [v|msg|why|]]; [|done..].
    destruct Hsafe as (l' & Hi & _ & Hmv & Hv). split; [|done]. apply moves_result; [done|by exists l'|done].
  - pose proof (enter_stack_safe s l stack Hinv) as Hsafe. unfold safe in Hsafe. unfold returns, mbind, M_bind.
    destruct (enter_stack stack s) as [s' [v|msg|why|]]; [|done..].
    destruct Hsafe as (l' & Hi & _ & Hmv & Hv). split; [|done]. apply moves_result; [done|by exists l'|done].
  - rewrite (bind_ok get_state _ s s s) by done.
    destruct (timer_valid s p && (0 <=? k) && (k <? 2 ^ 31 - 1)) eqn:Hc;
      [|by split; [right; left|exists l; apply obj_inv_live]].
    apply andb_prop in Hc as [[Hv Hk1]%andb_prop Hk2]. bool_hyps.
    destruct (handle_spec s l self p k Hinv Hv) as (s' & l' & Hrun & Hi & Hst); [lia|].
    unfold returns. rewrite (bind_ok _ _ _ _ _ Hrun). split; [|done]. split; [by exists l'|].
    exists [LFire p k; LFlag p]. split_and!; [done| |done]. repeat constructor; done.
  - pose proof (interrupt_check_spec n s l Hinv) as Hsafe. unfold returns, mbind, M_bind.
    destruct (vm_interrupt_check _ _ _ _ _ n s) as [s' [v|msg|why|]]; [|done..].
    destruct Hsafe as [(l' & Hi & _) Hmv]. split; [|done]. apply moves_result; [done|by exists l'|done].
Qed.

Lemma event_result_then es s s1 s2 :
  event_result es s s1 -> (exists l, obj_inv s2 l) -> moves s1 s2 -> event_result es s s2.
Proof.
  intros [_ (tr & Hf & Hok & Hst)] Hinv [(tr2 & Hq & Hst2) _]. split; [done|]. exists (tr ++ tr2). split_and!.
  - by rewrite fires_app, (fires_quiet tr2), app_nil_r by done.
  - apply Forall_app. split; [done|by apply quiet_fire_ok].
  - intros d. by eapply steps_app.
Qed.

Lemma run_event_spec n e s l :
  obj_inv s l ->
  match run_event is_callable php_mt_rand default_max_depth body run_hook n e s with
  | (s', Ok v) => event_result [e] s s' /\ forall a, v = Some a -> event_value_ok s' e a
  | (s', Fatal msg) => fatal_end s' msg
  | _ => False
  end.
Proof.
  intros Hinv. pose proof (event_body_spec n e s l Hinv) as He. unfold run_event, mbind at 1, M_bind.
  destruct (event_body _ _ _ _ _ n e s) as [s1 [a|msg|why|]]; [|done..].
  destruct He as [Hres Hv]. destruct Hres as [[l1 Hi1] Hres].
  pose proof (catch_safe s1 l1 Hi1) as Hc. unfold safe in Hc. unfold mbind, M_bind.
  destruct (catch_exception s1) as [s2 [b|msg|why|]]; [|done..].
  destruct Hc as (l2 & Hi2 & _ & Hmv & -> & ->). split.
  - eapply event_result_then; [by split; [exists l1|]|by exists l2|done].
  - intros a0 Ha. destruct (exception_pending (world s1)); [done|]. injection Ha as ->.
    by destruct e.
Qed.

Lemma run_request_spec n es s l :
  obj_inv s l ->
  match run_request is_callable php_mt_rand default_max_depth body run_hook n es s with
  | (s', Ok vs) => event_result es s s' /\ length vs = length es
  | (s', Fatal msg) => fatal_end s' msg
  | _ => False
  end.
Proof.
  revert s l. induction es as [|e es IH]; intros s l Hinv; cbn [run_request].
  { split; [|done]. apply moves_result; [done|by exists l|apply moves_refl]. }
  pose proof (run_event_spec n e s l Hinv) as He. unfold mbind, M_bind.
  destruct (run_event _ _ _ _ _ n e s) as [s1 [v|msg|why|]]; [|done..].
  destruct He as [[[l1 Hi1] (tr1 & Hf1 & Hok1 & Hst1)] _]. specialize (IH s1 l1 Hi1).
  destruct (run_request _ _ _ _ _ n es s1) as [s2 [vs|msg|why|]]; [|done..].
  destruct IH as [[Hi2 (tr2 & Hf2 & Hok2 & Hst2)] Hlen]. split; [|simpl; lia]. split; [done|].
  exists (tr1 ++ tr2). split_and!.
  - rewrite fires_app, Hf1, Hf2. unfold elapses. by rewrite <-omap_app.
  - by apply Forall_app.
  - intros d. by eapply steps_app.
Qed.

End requests.

(** ** Properties *)

(** Calls are well typed: from any state that satisfies the invariant, an
    allowed call, whatever the PHP functions called on the way do, returns a
    value of the type that the method's prototype states, which denotes a live object, and
    keeps the invariant; the only other outcomes are the fatal errors of a
    full log, of a nested call that is not allowed or of too deep a recursion,
    never undefined behaviour. *)
Theorem calls_well_typed n c s l :
  (forall o, is_u32 (php_mt_rand o).2) -> obj_inv s l -> allowed is_callable c s = true ->
  match run_api is_callable php_mt_rand default_max_depth
          (call_php is_callable php_mt_rand default_max_depth body n) c s with
  | (s', Ok v) => value_ok s' (result_type c) v /\ exists l', obj_inv s' l' /\ (length l' <= length l)%nat
  | (s', Fatal msg) => fatal_end s' msg
  | _ => False
  end.
Proof.
  intros Hrand Hinv Hok. pose proof (run_api_safe _ (call_php_safe Hrand n) Hrand s l c Hinv Hok) as Hsafe.
  unfold safe in Hsafe. destruct (run_api _ _ _ _ c s) as [s' [v|msg|why|]]; [|done..].
  destruct Hsafe as (l' & Hi & Hle & _ & Hv). eauto.
Qed.


(** C9. Requests refine the system of timers: a request that ends is a run of
    the abstract system in which exactly the timers of the request's events
    elapse, in order. Hence the counter of every valid timer at the end holds
    the events of the request that its callback has not been told about. *)
Theorem request_refines n es s s' vs :
  (forall o, is_u32 (php_mt_rand o).2) ->
  (forall h s0, exists s1, run_hook h s0 = (s1, Ok tt) /\ same_timers s0 s1 /\ world s1 = world s0) ->
  obj_inv s [] ->
  run_request is_callable php_mt_rand default_max_depth body run_hook n es s = (s', Ok vs) ->
  exists tr, steps (Sys s [] 0) tr (Sys s' [] 0) /\ fires tr = elapses es /\
    forall p t, timers s' !! p = Some t -> is_valid t = true -> event_count t = wrap_i64 (owed p tr).
Proof.
  intros Hrand Hhook Hinv Hrun. pose proof (run_request_spec Hrand Hhook n es s [] Hinv) as Hspec.
  rewrite Hrun in Hspec. destruct Hspec as [[_ (tr & Hf & Hok & Hst)] _].
  exists tr. split_and!; [done..|].
  apply (steps_sound (Sys s [] 0) tr (Sys s' [] 0)); [by split; [apply (oi_timers _ _ Hinv)|]|done..].
Qed.

End object_system_facts.

(** The POSIX timer library keeps the promise. *)
#[export] Instance posix_total {E} `{PosixEnv E} : TimerlibTotal posix_timer (sys_os E).
Proof. intros tl o. cbn. destruct (posix_timer_get_time tl o) as [o' r]. by exists o', r. Qed.

(** ** Witnesses *)

Section witnesses.
  #[local] Existing Instance ex_timerlib.
  Abbreviation ex_obj_state := (tstate bool unit (objects alist)).

#[local] Instance ex_total : TimerlibTotal bool unit.
Proof. intros tl o. by eexists _, _. Qed.

(** A request before its first event. *)
Definition ex_request : ex_obj_state :=
  TState _ _ _ ∅ ∅ ∅ None None [] tt (Objects alist ∅ ∅ ∅ 1 [] false).

Lemma ex_request_inv : obj_inv ex_request [].
Proof.
  split; try done; [|by intros p [t Ht]|constructor].
  split; [| |done|done|done].
  - split; [done|]. split; [apply NoDup_nil_2|]. intros a b Hab. by apply elem_of_nil in Hab.
  - by intros p [t Hp].
Qed.

Definition ex_rand (o : unit) : unit * Z := (o, 5).
Definition ex_hook (h : interrupt_hook) : M ex_obj_state unit := mret tt.

(** The callback of the profiler reads the log and releases the profiler that is
    being flushed; that of a timer throws. *)
Definition ex_body (v : nat) (a : call_arg) : php_program :=
  match a with
  | arg_log h =>
      php_call (profiler_stop 1)
        (fun _ => php_call (log_method h log_formatCollapsed)
          (fun _ => php_throw [profiler_free 1]) php_return)
        php_return
  | arg_long _ => php_throw []
  end.

Definition ex_events : list event :=
  [ev_call profiler_new; ev_call (profiler_setFlushCallback 1 0 1); ev_call timer_new;
   ev_call (profiler_start 1); ev_stack ex_stack; ev_elapse 7 1 2; ev_interrupt;
   ev_call (set_timeout 0 EXCIMER_DEFAULT_PERIOD); ev_elapse 8 5 0].

Definition ex_run_request :=
  run_request (fun _ _ => true) ex_rand 1000 ex_body ex_hook 3 ex_events ex_request.

Lemma ex_rand_ok o : is_u32 (ex_rand o).2.
Proof. unfold is_u32. simpl. lia. Qed.

Lemma ex_hook_ok h s : exists s1, ex_hook h s = (s1, Ok tt) /\ same_timers s s1 /\ world s1 = world s.
Proof. by exists s. Qed.

Lemma calls_well_typed_witness :
  exists s' v, run_api (fun _ _ => true) ex_rand 1000
    (call_php (fun _ _ => true) ex_rand 1000 ex_body 3) profiler_new ex_request = (s', Ok v) /\
    value_ok s' t_profiler v.
Proof.
  pose proof (calls_well_typed (fun _ _ => true) ex_rand 1000 ex_body 3 profiler_new ex_request []
    ex_rand_ok ex_request_inv eq_refl) as Hok.
  destruct (run_api _ _ _ _ profiler_new ex_request) as [s' r] eqn:Hrun.
  assert (exists v, r = Ok v) as [v ->] by (vm_compute in Hrun; injection Hrun as _ <-; by eexists).
  exists s', v. split; [reflexivity|]. exact (proj1 Hok).
Defined.


(** The event of the timer of [excimer_set_timeout] is still to be reported. *)
Lemma request_refines_witness :
  exists tr, fires tr = [(1%positive, 2); (5%positive, 0)] /\
    forall t, timers ex_run_request.1 !! 5%positive = Some t -> is_valid t = true ->
      event_count t = wrap_i64 (owed 5 tr).
Proof.
  destruct ex_run_request as [s' r] eqn:Hrun.
  assert (exists vs, r = Ok vs) as [vs Hr].
  { assert (Hv : exists vs, ex_run_request.2 = Ok vs) by (vm_compute; eexists; reflexivity).
    rewrite Hrun in Hv. exact Hv. }
  subst r.
  destruct (request_refines (fun _ _ => true) ex_rand 1000 ex_body ex_hook 3 ex_events ex_request s' vs
    ex_rand_ok ex_hook_ok ex_request_inv Hrun) as (tr & _ & Hf & Hc).
  exists tr. split; [exact Hf|]. intros t. apply Hc.
Defined.

End witnesses.
