(* ===== verification/Exceptions.v ===== *)
(** * Exceptions thrown by callbacks

    What becomes of events and samples when a PHP function throws. The engine
    calls no PHP function while an exception is pending, and
    [excimer_timer_interrupt] and [ExcimerProfiler_dtor] do not ask whether one
    is: the timers that are still on the pending list are taken off it and their
    events are forgotten, and a profiler that is released while an exception
    leaves the function that owns it drops its samples. *)

From S2P Require Import Prelude ZendHash Log LogTrace LogObject Timespec Doubles.
From S2P Require Import PendingList Timer TimerlibCommon TimerlibPosix TimerSystem Objects ObjectSystem.
From Stdlib Require Import Floats.SpecFloat.

Create HintDb silent.

Section exceptions.
  Context {HT : Type -> Type -> Type} `{ZendHash HT} {TL OS : Type} `{Timerlib TL OS}.
  Abbreviation state := (tstate TL OS (objects HT)).
  Context (is_callable : nat -> state -> bool) (php_mt_rand : OS -> OS * Z) (default_max_depth : Z).
  Implicit Types (s : state) (p : ptr).

Definition pending s : Prop := exception_pending (world s) = true.

(** Code that behaves the same and leaves the exception pending. *)
Definition silent {A} (m m' : M state A) : Prop := forall s, pending s -> m s = m' s /\ pending (m s).1.

(** [zend_call_function] while an exception is pending. *)
Definition call_nothing (v : nat) (a : call_arg) : M state unit := mret tt.
Definition calls_silent (call_function : nat -> call_arg -> M state unit) : Prop :=
  forall v a, silent (call_function v a) (call_nothing v a).

(** ** Lemmas: code that runs while an exception is pending *)

Lemma silent_bind {A B} (m m' : M state A) (k k' : A -> M state B) :
  silent m m' -> (forall a, silent (k a) (k' a)) -> silent (m ≫= k) (m' ≫= k').
Proof.
  intros Hm Hk s Hs. destruct (Hm s Hs) as [Heq Hp]. unfold mbind, M_bind. rewrite <-Heq.
  destruct (m s) as [s1 [a|msg|why|]]; [by apply Hk|done..].
Qed.

Lemma silent_ret {A} (a : A) : silent (mret a) (mret a).
Proof. done. Qed.

Lemma silent_lift {A} (o : outcome A) : silent (lift o) (lift o).
Proof. done. Qed.

Lemma silent_get : silent get_state get_state.
Proof. done. Qed.

Lemma silent_set_timers ts : silent (modify (set_timers ts)) (modify (set_timers ts)).
Proof. done. Qed.

Lemma silent_set_os o : silent (modify (set_os o)) (modify (set_os o)).
Proof. done. Qed.

Lemma silent_delete p : silent (modify (fun s => set_timers (delete p (timers s)) s))
  (modify (fun s => set_timers (delete p (timers s)) s)).
Proof. done. Qed.

Lemma silent_tls self f : silent (modify_tls false self f) (modify_tls false self f).
Proof. done. Qed.

Lemma silent_warning msg : silent (php_warning msg) (php_warning msg).
Proof. done. Qed.

Lemma silent_world (f : objects HT -> objects HT) :
  (forall w, exception_pending (f w) = exception_pending w) -> silent (modify_world f) (modify_world f).
Proof. intros Hf s Hs. split; [done|]. unfold pending in *. simpl. by rewrite Hf. Qed.

End exceptions.

#[export] Hint Resolve silent_ret silent_lift silent_get silent_set_timers silent_set_os silent_delete
  silent_tls silent_warning : silent.
#[export] Hint Extern 1 (silent (modify_world _) _) => by apply silent_world : silent.

(** Walks through code whose parts are known to be silent. *)
Ltac silent :=
  repeat first
    [ solve [eauto with silent nocore]
    | apply silent_bind; [|intros ?]
    | match goal with |- silent (match ?x with _ => _ end) _ => destruct x end ].

Section silent_code.
  Context {HT : Type -> Type -> Type} `{ZendHash HT} {TL OS : Type} `{Timerlib TL OS}.
  Abbreviation state := (tstate TL OS (objects HT)).
  Context (is_callable : nat -> state -> bool) (php_mt_rand : OS -> OS * Z) (default_max_depth : Z).
  Implicit Types (s : state) (p : ptr).

Lemma silent_load p : silent (HT:=HT) (TL:=TL) (OS:=OS) (load p) (load p).
Proof. unfold load. silent. Qed.

Lemma silent_store p f : silent (HT:=HT) (TL:=TL) (OS:=OS) (store p f) (store p f).
Proof. unfold store. silent. Qed.

#[local] Hint Resolve silent_load silent_store : silent.

Lemma silent_with_tl {A} p (f : TL -> OS -> OS * (TL * A)) :
  silent (HT:=HT) (with_tl p f) (with_tl p f).
Proof. unfold with_tl. silent. Qed.

Lemma silent_lock self : silent (HT:=HT) (TL:=TL) (OS:=OS)
  (excimer_mutex_lock false self) (excimer_mutex_lock false self).
Proof. unfold excimer_mutex_lock. silent. Qed.

Lemma silent_unlock self : silent (HT:=HT) (TL:=TL) (OS:=OS)
  (excimer_mutex_unlock false self) (excimer_mutex_unlock false self).
Proof. apply silent_tls. Qed.

#[local] Hint Resolve silent_with_tl silent_lock silent_unlock : silent.

Lemma silent_remove self p : silent (HT:=HT) (TL:=TL) (OS:=OS)
  (pending_remove false self p) (pending_remove false self p).
Proof. unfold pending_remove. silent. Qed.

Lemma silent_dequeue self : silent (HT:=HT) (TL:=TL) (OS:=OS)
  (excimer_timer_pending_dequeue false self) (excimer_timer_pending_dequeue false self).
Proof. unfold excimer_timer_pending_dequeue, pending_pop. silent. Qed.

Lemma silent_stop p : silent (HT:=HT) (TL:=TL) (OS:=OS) (stop_object p) (stop_object p).
Proof. unfold stop_object, excimer_timer_stop. silent. Qed.

#[local] Hint Resolve silent_remove silent_dequeue silent_stop : silent.

Lemma silent_destroy self p : silent (HT:=HT) (TL:=TL) (OS:=OS)
  (excimer_timer_destroy false self p) (excimer_timer_destroy false self p).
Proof. unfold excimer_timer_destroy. silent. Qed.

End silent_code.

#[export] Hint Resolve silent_load silent_store silent_with_tl silent_dequeue silent_stop silent_destroy : silent.

Section silent_objects.
  Context {HT : Type -> Type -> Type} `{ZendHash HT} {TL OS : Type} `{Timerlib TL OS}.
  Abbreviation state := (tstate TL OS (objects HT)).
  Context (is_callable : nat -> state -> bool) (php_mt_rand : OS -> OS * Z) (default_max_depth : Z)
    (call_function : nat -> call_arg -> M state unit).
  Hypothesis call_silent : calls_silent call_function.
  Implicit Types (s : state) (p : ptr).

Lemma silent_get_profiler p : silent (HT:=HT) (TL:=TL) (OS:=OS) (get_profiler p) (get_profiler p).
Proof. unfold get_profiler. silent. Qed.

Lemma silent_get_log h : silent (HT:=HT) (TL:=TL) (OS:=OS) (get_log h) (get_log h).
Proof. unfold get_log. silent. Qed.

Lemma silent_get_timer_obj p : silent (HT:=HT) (TL:=TL) (OS:=OS) (get_timer_obj p) (get_timer_obj p).
Proof. unfold get_timer_obj. silent. Qed.

#[local] Hint Resolve silent_get_profiler silent_get_log silent_get_timer_obj : silent.

Lemma silent_call v a : silent (call_function v a) (call_nothing v a).
Proof. apply call_silent. Qed.

#[local] Hint Resolve silent_call : silent.

Lemma silent_flush p :
  silent (ExcimerProfiler_flush is_callable call_function p) (ExcimerProfiler_flush is_callable call_nothing p).
Proof.
  unfold ExcimerProfiler_flush, new_log_object, alloc, put_log, put_profiler, flush_callback, ExcimerProfiler_stop.
  silent.
Qed.

#[local] Hint Resolve silent_flush : silent.

Lemma silent_run_callback cb data n :
  silent (run_timer_callback is_callable call_function cb data n) (run_timer_callback is_callable call_nothing cb data n).
Proof.
  unfold run_timer_callback, ExcimerProfiler_event, ExcimerTimer_event, clock_now, add_sample, put_log, ExcimerTimer_stop.
  silent.
Qed.

#[local] Hint Resolve silent_run_callback : silent.

(** The loop of the interrupt function calls no PHP function. *)
Lemma silent_loop fuel self :
  silent (interrupt_loop false (run_timer_callback is_callable call_function) fuel self)
    (interrupt_loop false (run_timer_callback is_callable call_nothing) fuel self).
Proof. induction fuel as [|fuel IH]; cbn [interrupt_loop]; silent. Qed.

(** Neither does the release of objects. *)
Lemma silent_unwind cs :
  silent (unwind is_callable php_mt_rand default_max_depth call_function cs)
    (unwind is_callable php_mt_rand default_max_depth call_nothing cs).
Proof.
  induction cs as [|c cs IH]; cbn [unwind]; [silent|]. destruct (is_release c) eqn:Hc; [|silent].
  apply silent_bind; [|done]. unfold checked_call. apply silent_bind; [silent|]. intros s.
  destruct (allowed _ c s); [|silent].
  destruct c; try done; cbn [run_api]; unfold returns, ExcimerProfiler_dtor, ExcimerProfiler_free_object,
    ExcimerTimer_free_object; silent.
Qed.

End silent_objects.

(** ** Properties *)

Section exception_facts.
  Context {HT : Type -> Type -> Type} `{ZendHashLaws HT} {TL OS : Type} `{TimerlibTotal TL OS}.
  Abbreviation state := (tstate TL OS (objects HT)).
  Context (is_callable : nat -> state -> bool) (php_mt_rand : OS -> OS * Z) (default_max_depth : Z)
    (run_hook : interrupt_hook -> M state unit).
  Implicit Types (s : state) (p : ptr) (l : list ptr) (body : nat -> call_arg -> php_program).
  Abbreviation call_php := (call_php is_callable php_mt_rand default_max_depth).
  Abbreviation interrupt_check := (vm_interrupt_check is_callable php_mt_rand default_max_depth).

Lemma call_php_silent body n : calls_silent (call_php body n).
Proof.
  intros v a s Hs. unfold pending in Hs.
  destruct n; cbn [ObjectSystem.call_php]; rewrite (bind_ok get_state _ s s s), Hs by done; done.
Qed.

(** A call of a function that throws, which depends on no other function. *)
Definition throwing_call (cs : list api_call) : M state unit :=
  s ← get_state;
  _ ← modify_world (set_exception true);
  _ ← unwind is_callable php_mt_rand default_max_depth call_nothing cs;
  modify_world (set_stack (current_execute_data (world s))).

Lemma call_php_throws body n v a cs s :
  body v a = php_throw cs -> exception_pending (world s) = false ->
  call_php body (S n) v a s = throwing_call cs s /\
  match throwing_call cs s with (s', Ok _) => pending s' | _ => True end.
Proof.
  intros Hbody Hs. set (s1 := set_world (set_exception true (world s)) s).
  destruct (silent_unwind is_callable php_mt_rand default_max_depth (call_php body n)
    (call_php_silent body n) cs s1 eq_refl) as [Heq Hp].
  cbn [ObjectSystem.call_php]. unfold throwing_call. rewrite !(bind_ok get_state _ s s s), Hs, Hbody by done.
  cbn [run_program]. rewrite !(bind_ok (modify_world (set_exception true)) _ s s1 tt) by done. unfold mbind, M_bind. simpl. fold s1. rewrite !Heq in *.
  by destruct (unwind _ _ _ call_nothing cs s1) as [s2 [u|msg|why|]].
Qed.

(** The timer [p] has a PHP function [v] as its callback. *)
Definition has_callback s p (v : nat) : Prop :=
  exists t o, timers s !! p = Some t /\ callback t = Some excimer_timer_event_cb /\
    timer_objs (world s) !! p = Some o /\ tobj_z_callback o = cb_value v.

(** The loop of the interrupt function, when the callback of its first timer
    throws: the rest of it calls no PHP function. *)
Lemma loop_throws s l p v cs fuel :
  obj_inv s (p :: l) -> exception_pending (world s) = false -> has_callback s p v ->
  (forall s0, is_callable v s0 = true) ->
  exists m, forall body n, body v (arg_long (count_of s p)) = php_throw cs ->
    interrupt_loop false (run_timer_callback is_callable (call_php body (S n))) (S fuel) 0 s
    = (_ ← throwing_call cs; interrupt_loop false (run_timer_callback is_callable call_nothing) fuel 0) m /\
    match (_ ← throwing_call cs; interrupt_loop false (run_timer_callback is_callable call_nothing) fuel 0) m with
    | (s', Ok _) => pending s'
    | _ => True
    end.
Proof.
  intros Hinv Hpend (t & o & Ht & Hcb & Ho & Hv) Hcall.
  destruct (dequeue_spec s (p :: l) 0 (oi_timers _ _ Hinv)) as (ts & tv & Hrun & _ & He).
  pose proof (tok_pending _ _ _ (ti_timers _ _ (oi_timers _ _ Hinv) _ _ Ht) ltac:(left)) as Hvalid.
  destruct (oi_owner _ _ Hinv p t Ht Hvalid) as [Hud _]. simpl in He.
  assert (exists t', ts !! p = Some t' /\ user_data t' = Some p /\ callback t' = Some excimer_timer_event_cb)
    as (t' & Ht' & Hud' & Hcb').
  { pose proof (f_equal (.!! p) He) as Hp. rewrite !lookup_fmap, lookup_alter_eq, Ht in Hp.
    destruct (ts !! p) as [t'|]; [|done]. exists t'. injection Hp. intros. by split_and!; [|congruence..]. }
  exists (mid s ts tv). intros body n Hbody. cbn [interrupt_loop]. rewrite (bind_ok _ _ _ _ _ Hrun). cbn [head fmap option_fmap option_map].
  rewrite (bind_ok _ _ _ _ _ (load_ok (mid s ts tv) p t' Ht')), Hcb'.
  rewrite (bind_ok (lift (deref (Some _))) _ (mid s ts tv) (mid s ts tv) excimer_timer_event_cb) by done.
  unfold mbind, M_bind.
  assert (Hevent : run_timer_callback is_callable (call_php body (S n)) excimer_timer_event_cb (user_data t')
    (count_of s p) (mid s ts tv) = call_php body (S n) v (arg_long (count_of s p)) (mid s ts tv)).
  { unfold run_timer_callback. rewrite Hud', (bind_ok (lift (deref (Some p))) _ (mid s ts tv) (mid s ts tv) p) by done.
    unfold ExcimerTimer_event. rewrite (bind_ok _ _ _ _ _ (get_timer_obj_ok (mid s ts tv) p o Ho)), Hv.
    rewrite (bind_ok get_state _ (mid s ts tv) (mid s ts tv) (mid s ts tv)) by done. cbn [zend_fcall_info_init].
    by rewrite Hcall. }
  rewrite Hevent. destruct (call_php_throws body n v _ cs (mid s ts tv) Hbody Hpend) as [-> Hp2].
  destruct (throwing_call cs (mid s ts tv)) as [s2 [u|msg|why|]]; [|done..].
  destruct (silent_loop is_callable (call_php body (S n)) (call_php_silent body (S n)) fuel 0 s2 Hp2) as [<- Hp3].
  split; [done|]. by destruct (interrupt_loop _ _ fuel 0 s2) as [s3 [u'|msg|why|]].
Qed.

(** C16. An exception makes other timers lose their events. If the callback of
    the first pending timer throws, whatever objects it releases, the interrupt
    function goes on and takes every other timer off the pending list without
    calling its PHP function: what happens is the same for any other functions
    that PHP code has defined, the list is empty afterwards, the events of all
    timers are counted as delivered, and the exception is still pending; the only
    other outcome is one of the fatal errors. *)
Theorem throwing_callback_drops_events body n s p l v cs :
  (forall x, is_u32 (php_mt_rand x).2) ->
  (forall h s0, exists s1, run_hook h s0 = (s1, Ok tt) /\ same_timers s0 s1 /\ world s1 = world s0) ->
  (forall s0, is_callable v s0 = true) -> body v (arg_long (count_of s p)) = php_throw cs ->
  obj_inv s (p :: l) -> vm_interrupt s !! 0%nat = Some true -> exception_pending (world s) = false ->
  has_callback s p v ->
  (forall body' n', body' v (arg_long (count_of s p)) = php_throw cs ->
    interrupt_check body' run_hook (S n') s = interrupt_check body run_hook (S n) s) /\
  match interrupt_check body run_hook (S n) s with
  | (s', Ok _) =>
      obj_inv s' [] /\ pending s' /\
      forall q u, timers s' !! q = Some u -> is_valid u = true -> event_count u = 0
  | (s', Fatal msg) => fatal_end s' msg
  | _ => False
  end.
Proof.
  intros Hrand Hhook Hcall Hbody Hinv Hflag Hpend Hcb.
  pose proof (interrupt_check_spec is_callable php_mt_rand default_max_depth body run_hook Hrand Hhook (S n) s
    (p :: l) Hinv) as Hspec.
  set (s1 := set_vm_interrupt (<[0%nat := false]> (vm_interrupt s)) s).
  assert (Hi1 : obj_inv s1 (p :: l)) by (destruct Hinv; split; try done; by apply flag_inv).
  destruct (loop_throws s1 l p v cs (size (timers s)) Hi1 Hpend Hcb Hcall) as [m Hloop].
  assert (Hcheck : forall body' n', interrupt_check body' run_hook (S n') s
    = excimer_timer_interrupt false (run_timer_callback is_callable (call_php body' (S n'))) run_hook
        (S (size (timers s))) 0 s1).
  { intros body' n'. unfold vm_interrupt_check. rewrite (bind_ok get_state _ s s s), bool_decide_true by done.
    by rewrite (bind_ok _ _ s s1 tt) by done. }
  split.
  - intros body' n' Hbody'. rewrite !Hcheck. unfold excimer_timer_interrupt, mbind, M_bind.
    by rewrite (proj1 (Hloop body' n' Hbody')), (proj1 (Hloop body n Hbody)).
  - destruct (Hloop body n Hbody) as [Heq Hp]. rewrite <-Heq in Hp. clear Heq.
    rewrite Hcheck in *. unfold excimer_timer_interrupt in *. unfold mbind at 1, M_bind.
    unfold mbind at 1, M_bind in Hspec.
    destruct (interrupt_loop _ _ _ 0 s1) as [s2 [u|msg|why|]]; [|done..].
    rewrite (bind_ok get_state _ s2 s2 s2) by done. rewrite (bind_ok get_state _ s2 s2 s2) in Hspec by done.
    assert (Hp' : match (match old_zend_interrupt_function s2 with Some h => run_hook h | None => mret tt end) s2
      with (s', Ok _) => pending s' | _ => True end).
    { destruct (old_zend_interrupt_function s2) as [h|]; [|done].
      destruct (Hhook h s2) as (s3 & -> & _ & Hw). unfold pending. by rewrite Hw. }
    destruct (_ s2) as [s3 [u'|msg|why|]]; [|done..].
    destruct Hspec as [(l' & Hi3 & Hl') _]. rewrite Hl' in Hi3 by done. split_and!; [done..|].
    intros q w Hq Hvq. apply (tok_idle _ _ _ (ti_timers _ _ (oi_timers _ _ Hi3) _ _ Hq) Hvq). set_solver.
Qed.

(** The end of a profiler whose log has samples. *)
Lemma dtor_calls call_function s p o lo w :
  profilers (world s) !! p = Some o -> logs (world s) !! prof_z_log o = Some lo ->
  entries (obj_log lo) <> [] -> prof_z_callback o = cb_value w -> (forall s0, is_callable w s0 = true) ->
  ExcimerProfiler_dtor is_callable call_function p s
  = (_ ← call_function w (arg_log (prof_z_log o)); mret tt) (rotate s p o lo).
Proof.
  intros Ho Hlo Hne Hcb Hcall. unfold ExcimerProfiler_dtor.
  rewrite (bind_ok _ _ _ _ _ (get_profiler_ok s p o Ho)), (bind_ok _ _ _ _ _ (get_log_ok s _ lo Hlo)).
  assert ((entries_size (obj_log lo) =? 0) = false) as ->
    by (unfold entries_size; destruct (entries (obj_log lo)); [done|simpl; lia]).
  cbn [negb]. unfold mbind at 1, M_bind. rewrite (flush_rotates_spec _ _ s p o lo Ho Hlo), Hcb.
  unfold flush_callback. rewrite (bind_ok get_state _ _ (rotate s p o lo) (rotate s p o lo)) by done.
  cbn [zend_fcall_info_init]. rewrite Hcall. unfold mbind, M_bind.
  by destruct (call_function _ _ _) as [s1 [u|msg|why|]].
Qed.

Lemma profiler_free_ok s l p o :
  obj_inv s l -> profilers (world s) !! p = Some o ->
  exists s', ExcimerProfiler_free_object false 0 p s = (s', Ok tt) /\
    world s' = set_profilers (delete p (profilers (world s))) (world s).
Proof.
  intros Hinv Ho. destruct (oi_profilers _ _ Hinv p o Ho) as ([t Ht] & _).
  assert (exists s1, (if is_valid t then excimer_timer_destroy false 0 p else mret tt) s = (s1, Ok tt) /\
    world s1 = world s) as (s1 & Hrun & Hw).
  { destruct (is_valid t) eqn:Hv; [|by exists s].
    destruct (destroy_spec s l 0 p t (oi_timers _ _ Hinv) Ht Hv) as (s1 & t' & Hrun & _ & _ & _ & _ & _ & Hw).
    by exists s1. }
  unfold ExcimerProfiler_free_object. rewrite (bind_ok _ _ _ _ _ (load_ok s p t Ht)), (bind_ok _ _ _ _ _ Hrun).
  eexists. split; [done|]. simpl. by rewrite Hw.
Qed.

(** C17. A profiler that is released by an exception loses its samples. When a
    function that owns a profiler throws, the profiler is destroyed while the
    exception is pending: its log is replaced as for a flush, but the flush
    callback is not called with the old log, whatever it would do; the profiler
    is gone. If the same profiler is destroyed when no exception is pending, the
    callback is called with the log, as the documentation says. *)
Theorem unwinding_loses_samples body n s l p o lo v w a :
  (forall x, is_u32 (php_mt_rand x).2) -> (forall s0, is_callable w s0 = true) ->
  obj_inv s l -> exception_pending (world s) = false ->
  profilers (world s) !! p = Some o -> logs (world s) !! prof_z_log o = Some lo ->
  entries (obj_log lo) <> [] -> prof_z_callback o = cb_value w ->
  body v a = php_throw [profiler_dtor p; profiler_free p] ->
  (exists s', call_php body (S n) v a s = (s', Ok tt) /\ (exists l', obj_inv s' l') /\ pending s' /\
    profilers (world s') !! p = None /\ logs (world s') !! prof_z_log o = Some lo /\
    forall body' n', body' v a = body v a -> call_php body' (S n') v a s = (s', Ok tt)) /\
  (forall n', ExcimerProfiler_dtor is_callable (call_php body n') p s
    = (_ ← call_php body n' w (arg_log (prof_z_log o)); mret tt) (rotate s p o lo)).
Proof.
  intros Hrand Hcall Hinv Hpend Ho Hlo Hne Hcb Hbody.
  split; [|intros n'; by apply dtor_calls].
  assert (Hrun : exists s', throwing_call [profiler_dtor p; profiler_free p] s = (s', Ok tt) /\
    profilers (world s') !! p = None /\ logs (world s') !! prof_z_log o = Some lo).
  { set (s1 := set_world (set_exception true (world s)) s).
    assert (Hi1 : obj_inv s1 l) by by apply set_exception_inv.
    destruct (rotate_inv s1 l p o lo Hi1 Ho Hlo) as [Hi2 _].
    assert (Ho2 : profilers (world (rotate s1 p o lo)) !! p = Some (set_prof_log (next_ptr (world s1)) o))
      by (simpl; apply lookup_insert_eq).
    destruct (profiler_free_ok _ l p _ Hi2 Ho2) as (s3 & Hfree & Hw3).
    unfold throwing_call. rewrite (bind_ok get_state _ s s s) by done.
    rewrite (bind_ok (modify_world (set_exception true)) _ s s1 tt) by done. cbn [unwind is_release].
    assert (Hdtor : checked_call is_callable php_mt_rand default_max_depth call_nothing (profiler_dtor p) s1
      = (rotate s1 p o lo, Ok v_void)).
    { unfold checked_call. rewrite (bind_ok get_state _ s1 s1 s1) by done. cbn [allowed run_api].
      rewrite bool_decide_true by (by exists o). unfold returns.
      by rewrite (bind_ok _ _ _ _ _ (dtor_calls call_nothing s1 p o lo w Ho Hlo Hne Hcb Hcall)). }
    assert (Hfreed : checked_call is_callable php_mt_rand default_max_depth call_nothing (profiler_free p)
      (rotate s1 p o lo) = (s3, Ok v_void)).
    { unfold checked_call. rewrite (bind_ok get_state _ _ (rotate s1 p o lo) (rotate s1 p o lo)) by done.
      cbn [allowed run_api]. rewrite bool_decide_true by (by eexists). unfold returns.
      by rewrite (bind_ok _ _ _ _ _ Hfree). }
    eexists. split.
    - unfold mbind, M_bind. rewrite Hdtor. cbn. rewrite Hfreed. done.
    - simpl. rewrite Hw3. simpl. rewrite lookup_delete_eq, lookup_insert_ne; [done|].
      destruct (oi_logs _ _ Hinv _ _ Hlo). lia. }
  destruct Hrun as (s' & Hrun & Hgone & Hlog).
  destruct (call_php_throws body n v a _ s Hbody Hpend) as [Heq Hp]. rewrite Hrun in Heq, Hp.
  exists s'. split_and!; [done| |done..|].
  - pose proof (call_php_safe is_callable php_mt_rand default_max_depth body Hrand (S n) v a s l Hinv) as Hsafe.
    unfold safe in Hsafe. rewrite Heq in Hsafe. destruct Hsafe as (l' & Hi & _). by exists l'.
  - intros body' n' Hbody'. rewrite Hbody in Hbody'.
    destruct (call_php_throws body' n' v a _ s Hbody' Hpend) as [-> _]. done.
Qed.

End exception_facts.

(** ** Witnesses *)

Section witnesses.
  #[local] Existing Instance ex_timerlib.
  #[local] Existing Instance ex_total.
  Abbreviation ex_obj_state := (tstate bool unit (objects alist)).

(** Three timers with functions 0, 1 and 2; the first one throws. *)
Definition ex_throwing (v : nat) (a : call_arg) : php_program :=
  match v with
  | 0%nat => php_throw []
  | 9%nat => php_throw [profiler_dtor 1; profiler_free 1]
  | _ => php_return
  end.

Definition ex_two_timers : list event :=
  [ev_call (set_timeout 0 EXCIMER_DEFAULT_PERIOD); ev_call (set_timeout 1 EXCIMER_DEFAULT_PERIOD);
   ev_elapse 7 1 0; ev_elapse 8 2 4].

Definition ex_run (es : list event) : ex_obj_state :=
  (run_request (fun _ _ => true) ex_rand 1000 ex_throwing ex_hook 3 es ex_request).1.

Lemma ex_run_inv es vs :
  (run_request (fun _ _ => true) ex_rand 1000 ex_throwing ex_hook 3 es ex_request).2 = Ok vs ->
  exists l, obj_inv (ex_run es) l.
Proof.
  intros Hvs. unfold ex_run.
  pose proof (run_request_spec (fun _ _ => true) ex_rand 1000 ex_throwing ex_hook ex_rand_ok ex_hook_ok 3 es ex_request []
    ex_request_inv) as Hspec.
  destruct (run_request _ _ _ _ _ 3 es ex_request) as [s' r]. simpl in *. subst r. by destruct Hspec as [[Hi _] _].
Qed.

Definition ex_check (body : nat -> call_arg -> php_program) :=
  vm_interrupt_check (fun _ _ => true) ex_rand 1000 body ex_hook 3 (ex_run ex_two_timers).

(** The five events of the second timer are not reported, also if its function
    would have started it again. *)
Lemma throwing_callback_drops_events_witness :
  ex_check (fun v a => if decide (v = 0%nat) then php_throw [] else php_call (timer_start 2) (fun _ => php_return) php_return)
    = ex_check ex_throwing /\
  event_count <$> timers (ex_run ex_two_timers) !! 2%positive = Some 5 /\
  exists s', ex_check ex_throwing = (s', Ok tt) /\ obj_inv s' [] /\ pending s' /\
    event_count <$> timers s' !! 2%positive = Some 0.
Proof.
  destruct (ex_run_inv ex_two_timers [Some (v_timer 1); Some (v_timer 2); Some v_void; Some v_void])
    as [l Hinv]; [vm_compute; reflexivity|].
  assert (exists l', l = 1%positive :: l') as [l' ->].
  { destruct (ti_list _ _ (oi_timers _ _ Hinv)) as [Hhead _].
    assert (Hh : pending_head (get_tls 0 (ex_run ex_two_timers)) = Some 1%positive) by (vm_compute; reflexivity).
    rewrite Hh in Hhead. clear Hh. destruct l as [|q l]; [discriminate Hhead|]. injection Hhead as <-. by exists l. }
  destruct (throwing_callback_drops_events (fun _ _ => true) ex_rand 1000 ex_hook ex_throwing 2
    (ex_run ex_two_timers) 1 l' 0 [] ex_rand_ok ex_hook_ok ltac:(reflexivity) ltac:(reflexivity) Hinv
    ltac:(vm_compute; reflexivity) ltac:(vm_compute; reflexivity)) as [Hsame Hres].
  { unfold has_callback. do 2 eexists. split; [vm_compute; reflexivity|]. split; [reflexivity|].
    split; [vm_compute; reflexivity|reflexivity]. }
  split; [unfold ex_check; refine (Hsame _ 2%nat _); reflexivity|]. split; [vm_compute; reflexivity|].
  assert (Hok : (ex_check ex_throwing).2 = Ok tt) by (vm_compute; reflexivity).
  change (vm_interrupt_check _ _ _ _ _ _ _) with (ex_check ex_throwing) in Hres.
  assert (Hc : event_count <$> timers (ex_check ex_throwing).1 !! 2%positive = Some 0) by (vm_compute; reflexivity).
  destruct (ex_check ex_throwing) as [s' r]. cbn [snd] in Hok. rewrite Hok in Hres. destruct Hres as (Hi & Hp & _).
  exists s'. rewrite Hok. split; [reflexivity|]. split; [exact Hi|]. split; [exact Hp|exact Hc].
Defined.

(** A profiler with one sample, and a function that releases it by throwing. *)
Definition ex_profiled : list event :=
  [ev_call profiler_new; ev_call (profiler_setFlushCallback 1 3 100); ev_call (profiler_start 1);
   ev_stack ex_stack; ev_elapse 7 1 0; ev_interrupt].

Lemma unwinding_loses_samples_witness :
  exists s' o lo,
    profilers (world (ex_run ex_profiled)) !! 1%positive = Some o /\
    logs (world (ex_run ex_profiled)) !! prof_z_log o = Some lo /\ length (entries (obj_log lo)) = 1%nat /\
    call_php (fun _ _ => true) ex_rand 1000 ex_throwing 3 9 (arg_long 1) (ex_run ex_profiled) = (s', Ok tt) /\
    pending s' /\ profilers (world s') !! 1%positive = None.
Proof.
  destruct (ex_run_inv ex_profiled [Some (v_profiler 1); Some v_void; Some v_void; Some v_void; Some v_void; Some v_void])
    as [l Hinv]; [vm_compute; reflexivity|].
  assert (Ho : exists o lo, profilers (world (ex_run ex_profiled)) !! 1%positive = Some o /\
    logs (world (ex_run ex_profiled)) !! prof_z_log o = Some lo /\ length (entries (obj_log lo)) = 1%nat /\
    prof_z_callback o = cb_value 3).
  { do 2 eexists. split; [vm_compute; reflexivity|]. split; [vm_compute; reflexivity|]. split; reflexivity. }
  destruct Ho as (o & lo & Ho & Hlo & Hlen & Hcb).
  destruct (unwinding_loses_samples (fun _ _ => true) ex_rand 1000 ex_throwing 2 (ex_run ex_profiled) l 1 o lo 9 3
    (arg_long 1) ex_rand_ok ltac:(reflexivity) Hinv ltac:(vm_compute; reflexivity) Ho Hlo
    ltac:(intros Hnil; rewrite Hnil in Hlen; discriminate) Hcb ltac:(reflexivity)) as [(s' & Hrun & _ & Hp & Hgone & _) _].
  exists s', o, lo. split_and!; assumption.
Defined.

End witnesses.
