(* ===== verification/Methods.v ===== *)
(** * The methods as PHP sees them

    Models the tables of [excimer.c] that describe its functions to the engine
    (argument descriptions, methods, interfaces) and what each [PHP_METHOD] does
    before its work: the parsing of its arguments. A method is called on an
    object with a list of PHP values; the calls that the other files model
    follow.

    PHP values are numbers, as in [Objects]. How the engine converts a value to
    an integer or a float, or refuses to, is given by parameters; a refusal is
    an exception, as since PHP 8. Argument descriptions are those of PHP 8.1 and
    later, where return types can be tentative. *)

From S2P Require Import Prelude ZendHash Log LogTrace LogFormat LogAggregate LogSpeedscope LogObject.
From S2P Require Import Timespec Doubles PendingList Timer TimerlibCommon TimerlibPosix TimerSystem Objects ObjectSystem.
From Stdlib Require Import Ascii Floats.SpecFloat.

(** ** Functions and classes *)

(** The C functions that [PHP_METHOD] and [PHP_FUNCTION] define. *)
Inductive zend_function : Type :=
  | zim_ExcimerProfiler_setPeriod
  | zim_ExcimerProfiler_setEventType
  | zim_ExcimerProfiler_setMaxDepth
  | zim_ExcimerProfiler_setFlushCallback
  | zim_ExcimerProfiler_clearFlushCallback
  | zim_ExcimerProfiler_start
  | zim_ExcimerProfiler_stop
  | zim_ExcimerProfiler_getLog
  | zim_ExcimerProfiler_flush
  | zim_ExcimerLog___construct
  | zim_ExcimerLog_formatCollapsed
  | zim_ExcimerLog_getSpeedscopeData
  | zim_ExcimerLog_aggregateByFunction
  | zim_ExcimerLog_getEventCount
  | zim_ExcimerLog_current
  | zim_ExcimerLog_key
  | zim_ExcimerLog_next
  | zim_ExcimerLog_rewind
  | zim_ExcimerLog_valid
  | zim_ExcimerLog_count
  | zim_ExcimerLog_offsetExists
  | zim_ExcimerLog_offsetGet
  | zim_ExcimerLog_offsetSet
  | zim_ExcimerLog_offsetUnset
  | zim_ExcimerLogEntry___construct
  | zim_ExcimerLogEntry_getTimestamp
  | zim_ExcimerLogEntry_getEventCount
  | zim_ExcimerLogEntry_getTrace
  | zim_ExcimerTimer_setEventType
  | zim_ExcimerTimer_setInterval
  | zim_ExcimerTimer_setPeriod
  | zim_ExcimerTimer_setCallback
  | zim_ExcimerTimer_start
  | zim_ExcimerTimer_stop
  | zim_ExcimerTimer_getTime
  | zif_excimer_set_timeout.

#[export] Instance zend_function_eq_dec : EqDecision zend_function.
Proof. solve_decision. Defined.

Inductive zend_class : Type := ExcimerProfiler_ce | ExcimerLog_ce | ExcimerLogEntry_ce | ExcimerTimer_ce.

#[export] Instance zend_class_eq_dec : EqDecision zend_class.
Proof. solve_decision. Defined.

(** ** Argument descriptions *)

Inductive zend_type : Type := IS_VOID | IS_MIXED | IS_BOOL | IS_LONG | IS_ARRAY | IS_OBJECT (ce : zend_class).

Record zend_arg_info : Type := ArgInfo {
  required_num_args : Z;
  arg_names : list string;
  return_type : option zend_type
}.

(** [ZEND_BEGIN_ARG_INFO]: every argument is required, which -1 says. *)
Definition ARG_INFO (names : list string) : zend_arg_info := ArgInfo (-1) names None.

(** [ZEND_BEGIN_ARG_WITH_RETURN_OBJ_INFO_EX], [ZEND_BEGIN_ARG_WITH_RETURN_TYPE_INFO]
    and [ZEND_BEGIN_ARG_WITH_TENTATIVE_RETURN_TYPE_INFO_EX]. *)
Definition ARG_INFO_EX (required : Z) (t : zend_type) (names : list string) : zend_arg_info :=
  ArgInfo required names (Some t).

Definition arginfo (f : zend_function) : zend_arg_info :=
  match f with
  | zim_ExcimerProfiler_setPeriod => ARG_INFO ["period"]
  | zim_ExcimerProfiler_setEventType => ARG_INFO ["event_type"]
  | zim_ExcimerProfiler_setMaxDepth => ARG_INFO ["max_depth"]
  | zim_ExcimerProfiler_setFlushCallback => ARG_INFO ["callback"; "max_samples"]
  | zim_ExcimerProfiler_clearFlushCallback => ARG_INFO []
  | zim_ExcimerProfiler_start => ARG_INFO []
  | zim_ExcimerProfiler_stop => ARG_INFO []
  | zim_ExcimerProfiler_getLog => ARG_INFO_EX 0 (IS_OBJECT ExcimerLog_ce) []
  | zim_ExcimerProfiler_flush => ARG_INFO []
  | zim_ExcimerLog___construct => ARG_INFO []
  | zim_ExcimerLog_formatCollapsed => ARG_INFO []
  | zim_ExcimerLog_getSpeedscopeData => ARG_INFO []
  | zim_ExcimerLog_aggregateByFunction => ARG_INFO_EX (-1) IS_ARRAY []
  | zim_ExcimerLog_getEventCount => ARG_INFO []
  | zim_ExcimerLog_current => ARG_INFO_EX 0 IS_MIXED []
  | zim_ExcimerLog_key => ARG_INFO_EX 0 IS_MIXED []
  | zim_ExcimerLog_next => ARG_INFO_EX 0 IS_VOID []
  | zim_ExcimerLog_rewind => ARG_INFO_EX 0 IS_VOID []
  | zim_ExcimerLog_valid => ARG_INFO_EX 0 IS_BOOL []
  | zim_ExcimerLog_count => ARG_INFO_EX 0 IS_LONG []
  | zim_ExcimerLog_offsetExists => ARG_INFO_EX 1 IS_BOOL ["offset"]
  | zim_ExcimerLog_offsetGet => ARG_INFO_EX 1 IS_MIXED ["offset"]
  | zim_ExcimerLog_offsetSet => ARG_INFO_EX 2 IS_VOID ["offset"; "value"]
  | zim_ExcimerLog_offsetUnset => ARG_INFO_EX 1 IS_VOID ["offset"]
  | zim_ExcimerLogEntry___construct => ARG_INFO []
  | zim_ExcimerLogEntry_getTimestamp => ARG_INFO []
  | zim_ExcimerLogEntry_getEventCount => ARG_INFO []
  | zim_ExcimerLogEntry_getTrace => ARG_INFO []
  | zim_ExcimerTimer_setEventType => ARG_INFO ["event_type"]
  | zim_ExcimerTimer_setInterval => ARG_INFO ["interval"]
  | zim_ExcimerTimer_setPeriod => ARG_INFO ["period"]
  | zim_ExcimerTimer_setCallback => ARG_INFO ["callback"]
  | zim_ExcimerTimer_start => ARG_INFO []
  | zim_ExcimerTimer_stop => ARG_INFO []
  | zim_ExcimerTimer_getTime => ARG_INFO []
  | zif_excimer_set_timeout => ARG_INFO ["callback"; "interval"]
  end.

(** ** Tables *)

Inductive zend_acc : Type := ZEND_ACC_PRIVATE | ZEND_ACC_FINAL.

#[export] Instance zend_acc_eq_dec : EqDecision zend_acc.
Proof. solve_decision. Defined.

Record zend_function_entry : Type := FunctionEntry {
  fname : string;
  fe_handler : zend_function;
  fe_arginfo : zend_arg_info;
  fe_flags : list zend_acc
}.

Definition PHP_ME (name : string) (f : zend_function) (flags : list zend_acc) : zend_function_entry :=
  FunctionEntry name f (arginfo f) flags.

Definition ExcimerProfiler_methods : list zend_function_entry := [
  PHP_ME "setPeriod" zim_ExcimerProfiler_setPeriod [];
  PHP_ME "setEventType" zim_ExcimerProfiler_setEventType [];
  PHP_ME "setMaxDepth" zim_ExcimerProfiler_setMaxDepth [];
  PHP_ME "setFlushCallback" zim_ExcimerProfiler_setFlushCallback [];
  PHP_ME "clearFlushCallback" zim_ExcimerProfiler_clearFlushCallback [];
  PHP_ME "start" zim_ExcimerProfiler_start [];
  PHP_ME "stop" zim_ExcimerProfiler_stop [];
  PHP_ME "getLog" zim_ExcimerProfiler_getLog [];
  PHP_ME "flush" zim_ExcimerProfiler_flush []
].

Definition ExcimerLog_methods : list zend_function_entry := [
  PHP_ME "__construct" zim_ExcimerLog___construct [ZEND_ACC_PRIVATE; ZEND_ACC_FINAL];
  PHP_ME "formatCollapsed" zim_ExcimerLog_formatCollapsed [];
  PHP_ME "getSpeedscopeData" zim_ExcimerLog_getSpeedscopeData [];
  PHP_ME "aggregateByFunction" zim_ExcimerLog_aggregateByFunction [];
  PHP_ME "getEventCount" zim_ExcimerLog_getEventCount [];
  PHP_ME "current" zim_ExcimerLog_current [];
  PHP_ME "key" zim_ExcimerLog_key [];
  PHP_ME "next" zim_ExcimerLog_next [];
  PHP_ME "rewind" zim_ExcimerLog_rewind [];
  PHP_ME "valid" zim_ExcimerLog_valid [];
  PHP_ME "count" zim_ExcimerLog_count [];
  PHP_ME "offsetExists" zim_ExcimerLog_offsetExists [];
  PHP_ME "offsetGet" zim_ExcimerLog_offsetGet [];
  PHP_ME "offsetSet" zim_ExcimerLog_offsetSet [];
  PHP_ME "offsetUnset" zim_ExcimerLog_offsetUnset []
].

Definition ExcimerLogEntry_methods : list zend_function_entry := [
  PHP_ME "__construct" zim_ExcimerLogEntry___construct [ZEND_ACC_PRIVATE; ZEND_ACC_FINAL];
  PHP_ME "getTimestamp" zim_ExcimerLogEntry_getTimestamp [];
  PHP_ME "getEventCount" zim_ExcimerLogEntry_getEventCount [];
  PHP_ME "getTrace" zim_ExcimerLogEntry_getTrace []
].

Definition ExcimerTimer_methods : list zend_function_entry := [
  PHP_ME "setEventType" zim_ExcimerTimer_setEventType [];
  PHP_ME "setInterval" zim_ExcimerTimer_setInterval [];
  PHP_ME "setPeriod" zim_ExcimerTimer_setPeriod [];
  PHP_ME "setCallback" zim_ExcimerTimer_setCallback [];
  PHP_ME "start" zim_ExcimerTimer_start [];
  PHP_ME "stop" zim_ExcimerTimer_stop [];
  PHP_ME "getTime" zim_ExcimerTimer_getTime []
].

Definition excimer_functions : list zend_function_entry := [
  PHP_ME "excimer_set_timeout" zif_excimer_set_timeout []
].

Definition methods_of (ce : zend_class) : list zend_function_entry :=
  match ce with
  | ExcimerProfiler_ce => ExcimerProfiler_methods
  | ExcimerLog_ce => ExcimerLog_methods
  | ExcimerLogEntry_ce => ExcimerLogEntry_methods
  | ExcimerTimer_ce => ExcimerTimer_methods
  end.

(** Names of functions are compared without regard to case. *)
Definition ascii_tolower (c : ascii) : ascii :=
  let n := nat_of_ascii c in
  if ((65 <=? n) && (n <=? 90))%nat then ascii_of_nat (n + 32) else c.

Definition zend_str_tolower (s : string) : string := map_string ascii_tolower s.

Fixpoint find_function (lcname : string) (fes : list zend_function_entry) : option zend_function_entry :=
  match fes with
  | [] => None
  | fe :: fes' =>
      if bool_decide (zend_str_tolower (fname fe) = lcname) then Some fe else find_function lcname fes'
  end.

(** ** Calls *)

(** What [getThis()] is. A call of a function has no object. *)
Inductive object : Type :=
  | ref_none
  | ref_profiler (p : ptr)
  | ref_log (h : handle)
  | ref_entry (e : ExcimerLogEntry_obj)
  | ref_timer (p : ptr).

(** A call with its arguments parsed. *)
Inductive method_call : Type :=
  | mc_construct (class_name : string)
  | mc_api (c : api_call).

Inductive exception : Type := ArgumentCountError | TypeError.

Inductive return_value : Type :=
  | rv_zval (z : zval)
  | rv_bool (b : bool)
  | rv_double (x : double)
  | rv_object (o : object).

Inductive call_result : Type :=
  | returned (v : return_value)
  | thrown (e : exception).

Section methods.
  Context {HT : Type -> Type -> Type} `{ZendHash HT} {TL OS : Type} `{Timerlib TL OS}.
  Abbreviation state := (tstate TL OS (objects HT)).
  Context (is_callable : nat -> state -> bool) (php_mt_rand : OS -> OS * Z) (default_max_depth : Z)
    (zend_parse_arg_long : nat -> option Z) (zend_parse_arg_double : nat -> option double)
    (is_null : nat -> bool) (call_function : nat -> call_arg -> M state unit).
  Implicit Types (s : state) (args : list nat).

(** ** [ZEND_PARSE_PARAMETERS_START(n, n)] and the parameters that follow it *)

Definition zpp_0 {B} args (b : B) : exception + B :=
  match args with
  | [] => inr b
  | _ => inl ArgumentCountError
  end.

Definition zpp_1 {A B} (parse : nat -> option A) args (f : A -> B) : exception + B :=
  match args with
  | [v] => match parse v with Some a => inr (f a) | None => inl TypeError end
  | _ => inl ArgumentCountError
  end.

Definition zpp_2 {A A' B} (parse : nat -> option A) (parse' : nat -> option A') args (f : A -> A' -> B) :
    exception + B :=
  match args with
  | [v; v'] =>
      match parse v with
      | Some a => match parse' v' with Some a' => inr (f a a') | None => inl TypeError end
      | None => inl TypeError
      end
  | _ => inl ArgumentCountError
  end.

Definition Z_PARAM_LONG : nat -> option Z := zend_parse_arg_long.
Definition Z_PARAM_DOUBLE : nat -> option double := zend_parse_arg_double.
Definition Z_PARAM_ZVAL (v : nat) : option nat := Some v.

(** ** What each function parses, and what it then does

    Methods without [ZEND_PARSE_PARAMETERS_START] take any arguments. An object
    of another class gives a null pointer. *)

Definition parse_profiler_call (f : zend_function) (p : ptr) args : outcome (exception + api_call) :=
  match f with
  | zim_ExcimerProfiler_setPeriod => Ok (zpp_1 Z_PARAM_DOUBLE args (profiler_setPeriod p))
  | zim_ExcimerProfiler_setEventType => Ok (zpp_1 Z_PARAM_LONG args (profiler_setEventType p))
  | zim_ExcimerProfiler_setMaxDepth => Ok (zpp_1 Z_PARAM_LONG args (profiler_setMaxDepth p))
  | zim_ExcimerProfiler_setFlushCallback =>
      Ok (zpp_2 Z_PARAM_ZVAL Z_PARAM_LONG args (profiler_setFlushCallback p))
  | zim_ExcimerProfiler_clearFlushCallback => Ok (inr (profiler_clearFlushCallback p))
  | zim_ExcimerProfiler_start => Ok (zpp_0 args (profiler_start p))
  | zim_ExcimerProfiler_stop => Ok (zpp_0 args (profiler_stop p))
  | zim_ExcimerProfiler_getLog => Ok (zpp_0 args (profiler_getLog p))
  | zim_ExcimerProfiler_flush => Ok (zpp_0 args (profiler_flush p))
  | _ => Crash "null pointer"
  end.

Definition parse_timer_call (f : zend_function) (p : ptr) args : outcome (exception + api_call) :=
  match f with
  | zim_ExcimerTimer_setEventType => Ok (zpp_1 Z_PARAM_LONG args (timer_setEventType p))
  | zim_ExcimerTimer_setInterval => Ok (zpp_1 Z_PARAM_DOUBLE args (timer_setInterval p))
  | zim_ExcimerTimer_setPeriod => Ok (zpp_1 Z_PARAM_DOUBLE args (timer_setPeriod p))
  | zim_ExcimerTimer_setCallback =>
      Ok (zpp_1 Z_PARAM_ZVAL args (fun v => timer_setCallback p (if is_null v then None else Some v)))
  | zim_ExcimerTimer_start => Ok (zpp_0 args (timer_start p))
  | zim_ExcimerTimer_stop => Ok (zpp_0 args (timer_stop p))
  | zim_ExcimerTimer_getTime => Ok (zpp_0 args (timer_getTime p))
  | _ => Crash "null pointer"
  end.

Definition parse_log_call (f : zend_function) args : outcome (exception + log_call) :=
  match f with
  | zim_ExcimerLog_formatCollapsed => Ok (inr log_formatCollapsed)
  | zim_ExcimerLog_getSpeedscopeData => Ok (inr log_getSpeedscopeData)
  | zim_ExcimerLog_aggregateByFunction => Ok (inr log_aggregateByFunction)
  | zim_ExcimerLog_getEventCount => Ok (inr log_getEventCount)
  | zim_ExcimerLog_current => Ok (zpp_0 args log_current)
  | zim_ExcimerLog_key => Ok (zpp_0 args log_key)
  | zim_ExcimerLog_next => Ok (zpp_0 args log_next)
  | zim_ExcimerLog_rewind => Ok (zpp_0 args log_rewind)
  | zim_ExcimerLog_valid => Ok (zpp_0 args log_valid)
  | zim_ExcimerLog_count => Ok (zpp_0 args log_count)
  | zim_ExcimerLog_offsetExists => Ok (zpp_1 Z_PARAM_LONG args log_offsetExists)
  | zim_ExcimerLog_offsetGet => Ok (zpp_1 Z_PARAM_LONG args log_offsetGet)
  | zim_ExcimerLog_offsetSet => Ok (inr log_offsetSet)
  | zim_ExcimerLog_offsetUnset => Ok (inr log_offsetUnset)
  | _ => Crash "null pointer"
  end.

Definition parse_entry_call (f : zend_function) args : outcome (exception + entry_call) :=
  match f with
  | zim_ExcimerLogEntry_getTimestamp => Ok (zpp_0 args entry_getTimestamp)
  | zim_ExcimerLogEntry_getEventCount => Ok (zpp_0 args entry_getEventCount)
  | zim_ExcimerLogEntry_getTrace => Ok (zpp_0 args entry_getTrace)
  | _ => Crash "null pointer"
  end.

Definition parse_call (f : zend_function) (this : object) args : outcome (exception + method_call) :=
  match f, this with
  | zim_ExcimerLog___construct, _ => Ok (inr (mc_construct "ExcimerLog"))
  | zim_ExcimerLogEntry___construct, _ => Ok (inr (mc_construct "ExcimerLogEntry"))
  | zif_excimer_set_timeout, _ =>
      Ok (sum_map id mc_api (zpp_2 Z_PARAM_ZVAL Z_PARAM_DOUBLE args set_timeout))
  | _, ref_profiler p => let! r := parse_profiler_call f p args in Ok (sum_map id mc_api r)
  | _, ref_timer p => let! r := parse_timer_call f p args in Ok (sum_map id mc_api r)
  | _, ref_log h => let! r := parse_log_call f args in Ok (sum_map id (fun c => mc_api (log_method h c)) r)
  | _, ref_entry e => let! r := parse_entry_call f args in Ok (sum_map id (fun c => mc_api (entry_method e c)) r)
  | _, ref_none => Crash "null pointer"
  end.

(** ** What each function returns *)

Definition api_return (v : api_value) : return_value :=
  match v with
  | v_void | v_null => rv_zval ZV_null
  | v_profiler p => rv_object (ref_profiler p)
  | v_timer p => rv_object (ref_timer p)
  | v_log h => rv_object (ref_log h)
  | v_entry e => rv_object (ref_entry e)
  | v_double x => rv_double x
  | v_bool b => rv_bool b
  | v_zval z => rv_zval z
  end.

Definition run_call (c : method_call) : M state return_value :=
  match c with
  | mc_construct name => lift (Fatal (name +:+ " cannot be constructed directly"))
  | mc_api c => v ← run_api is_callable php_mt_rand default_max_depth call_function c; mret (api_return v)
  end.

(** The methods of an entry look the entry up before they parse their arguments. *)
Definition touch_entry (this : object) : M state unit :=
  match this with
  | ref_entry e => s ← get_state; _ ← lift (entry_lookup (logs (world s)) e); mret tt
  | _ => mret tt
  end.

Definition call_handler (f : zend_function) (this : object) args : M state call_result :=
  _ ← (if bool_decide (f = zim_ExcimerLogEntry___construct) then mret tt else touch_entry this);
  r ← lift (parse_call f this args);
  match r with
  | inl e => mret (thrown e)
  | inr c => v ← run_call c; mret (returned v)
  end.

(** A call of a method by its name, from outside of the class. *)
Definition class_of (o : object) : option zend_class :=
  match o with
  | ref_none => None
  | ref_profiler _ => Some ExcimerProfiler_ce
  | ref_log _ => Some ExcimerLog_ce
  | ref_entry _ => Some ExcimerLogEntry_ce
  | ref_timer _ => Some ExcimerTimer_ce
  end.

Definition function_table (o : object) : list zend_function_entry :=
  match class_of o with Some ce => methods_of ce | None => excimer_functions end.

(** The engine refuses an unknown or private method ([None]). *)
Definition find_method (o : object) (name : string) : option zend_function :=
  fe ← find_function (zend_str_tolower name) (function_table o);
  if bool_decide (ZEND_ACC_PRIVATE ∈ fe_flags fe) then None else Some (fe_handler fe).

End methods.

(** ** Specification: what [stubs/] documents *)

Inductive doc_type : Type :=
  | d_void | d_string | d_array | d_int | d_int_or_null | d_bool | d_float
  | d_log | d_entry_or_null | d_timer_or_null.

Inductive doc_param : Type := d_param_float | d_param_int | d_param_value.

(** The [@return] of each function. *)
Definition documented_type (f : zend_function) : doc_type :=
  match f with
  | zim_ExcimerProfiler_getLog | zim_ExcimerProfiler_flush => d_log
  | zim_ExcimerLog_formatCollapsed => d_string
  | zim_ExcimerLog_getSpeedscopeData | zim_ExcimerLog_aggregateByFunction
  | zim_ExcimerLogEntry_getTrace => d_array
  | zim_ExcimerLog_getEventCount | zim_ExcimerLog_count | zim_ExcimerLogEntry_getEventCount => d_int
  | zim_ExcimerLog_key => d_int_or_null
  | zim_ExcimerLog_current | zim_ExcimerLog_offsetGet => d_entry_or_null
  | zim_ExcimerLog_valid | zim_ExcimerLog_offsetExists => d_bool
  | zim_ExcimerLogEntry_getTimestamp | zim_ExcimerTimer_getTime => d_float
  | zif_excimer_set_timeout => d_timer_or_null
  | _ => d_void
  end.

(** The [@param]s of each function. *)
Definition documented_params (f : zend_function) : list doc_param :=
  match f with
  | zim_ExcimerProfiler_setPeriod | zim_ExcimerTimer_setPeriod | zim_ExcimerTimer_setInterval => [d_param_float]
  | zim_ExcimerProfiler_setEventType | zim_ExcimerProfiler_setMaxDepth | zim_ExcimerTimer_setEventType
  | zim_ExcimerLog_offsetExists | zim_ExcimerLog_offsetGet | zim_ExcimerLog_offsetUnset => [d_param_int]
  | zim_ExcimerProfiler_setFlushCallback => [d_param_value; d_param_int]
  | zim_ExcimerTimer_setCallback => [d_param_value]
  | zim_ExcimerLog_offsetSet => [d_param_int; d_param_value]
  | zif_excimer_set_timeout => [d_param_value; d_param_float]
  | _ => []
  end.

(** The functions that parse their arguments. *)
Definition checks_arguments (f : zend_function) : bool :=
  match f with
  | zim_ExcimerProfiler_clearFlushCallback | zim_ExcimerLog___construct | zim_ExcimerLog_formatCollapsed
  | zim_ExcimerLog_getSpeedscopeData | zim_ExcimerLog_aggregateByFunction | zim_ExcimerLog_getEventCount
  | zim_ExcimerLog_offsetSet | zim_ExcimerLog_offsetUnset | zim_ExcimerLogEntry___construct => false
  | _ => true
  end.

Definition api_doc_type (t : api_type) : doc_type :=
  match t with
  | t_void => d_void
  | t_profiler | t_timer | t_timer_or_null => d_timer_or_null
  | t_log => d_log
  | t_entry_or_null => d_entry_or_null
  | t_double => d_float
  | t_bool => d_bool
  | t_int => d_int
  | t_int_or_null => d_int_or_null
  | t_string => d_string
  | t_array => d_array
  end.

(** The methods that PHP code can call on an object. *)
Definition public_methods (o : object) : list zend_function :=
  fe_handler <$> filter (fun fe => ZEND_ACC_PRIVATE ∉ fe_flags fe) (function_table o).

Section method_spec.
  Context {HT : Type -> Type -> Type} {TL OS : Type}.
  Abbreviation state := (tstate TL OS (objects HT)).
  Context (zend_parse_arg_long : nat -> option Z) (zend_parse_arg_double : nat -> option double).
  Implicit Types (s : state) (o : object).

Definition param_ok (d : doc_param) (v : nat) : bool :=
  match d with
  | d_param_float => bool_decide (is_Some (zend_parse_arg_double v))
  | d_param_int => bool_decide (is_Some (zend_parse_arg_long v))
  | d_param_value => true
  end.

(** The arguments are those that are documented. *)
Fixpoint params_ok (ds : list doc_param) (args : list nat) : bool :=
  match ds, args with
  | [], [] => true
  | d :: ds', v :: args' => param_ok d v && params_ok ds' args'
  | _, _ => false
  end.

Definition accepts (f : zend_function) (args : list nat) : bool := params_ok (documented_params f) args.

(** An object is alive; an entry is one of a log that is alive. *)
Definition object_lives s o : Prop :=
  match o with
  | ref_none => True
  | ref_profiler p => profiler_lives s p
  | ref_log h => is_Some (logs (world s) !! h)
  | ref_entry e => entry_lives s e
  | ref_timer p => timer_lives s p
  end.

Definition value_typed s (d : doc_type) (v : return_value) : Prop :=
  match d, v with
  | d_void, rv_zval ZV_null => True
  | d_string, rv_zval (ZV_string _) => True
  | d_array, rv_zval (ZV_array _) => True
  | d_array, rv_zval (ZV_list _) => True
  | (d_int | d_int_or_null), rv_zval (ZV_long _) => True
  | (d_int_or_null | d_entry_or_null | d_timer_or_null), rv_zval ZV_null => True
  | d_bool, rv_bool _ => True
  | d_float, rv_double _ => True
  | d_log, rv_object (ref_log h) => object_lives s (ref_log h)
  | d_entry_or_null, rv_object (ref_entry e) => object_lives s (ref_entry e)
  | d_timer_or_null, rv_object (ref_timer p) => object_lives s (ref_timer p)
  | _, _ => False
  end.

(** The return type of an argument description holds of a value of the documented type. *)
Definition arginfo_type_ok (t : zend_type) (d : doc_type) : bool :=
  match t, d with
  | IS_MIXED, _ | IS_VOID, d_void | IS_BOOL, d_bool | IS_LONG, d_int | IS_ARRAY, d_array
  | IS_OBJECT ExcimerLog_ce, d_log => true
  | _, _ => false
  end.

(** The object that a call is made on. *)
Definition receiver (c : api_call) : object :=
  match c with
  | profiler_setPeriod p _ | profiler_setEventType p _ | profiler_setMaxDepth p _
  | profiler_setFlushCallback p _ _ | profiler_clearFlushCallback p | profiler_start p | profiler_stop p
  | profiler_getLog p | profiler_flush p | profiler_dtor p | profiler_free p => ref_profiler p
  | timer_setEventType p _ | timer_setInterval p _ | timer_setPeriod p _ | timer_setCallback p _
  | timer_start p | timer_stop p | timer_getTime p | timer_free p => ref_timer p
  | log_method h _ => ref_log h
  | entry_method e _ => ref_entry e
  | profiler_new | timer_new | set_timeout _ _ => ref_none
  end.

(** The numbers that a call passes have a meaning, and a callback can be called. *)
Definition values_ok (is_callable : nat -> state -> bool) `{Timerlib TL OS} (c : api_call) s : bool :=
  match c with
  | profiler_setPeriod _ x => bool_decide (small_double 32 x)
  | timer_setInterval _ x | timer_setPeriod _ x => bool_decide (small_double 62 x)
  | set_timeout v x => bool_decide (small_double 62 x) && is_callable v (ExcimerTimer_new s).1
  | _ => true
  end.

(** A parsed call belongs to a function and its object. *)
Definition call_fits o (f : zend_function) (c : method_call) : Prop :=
  match c with
  | mc_construct _ => False
  | mc_api c => documented_type f = api_doc_type (result_type c) /\ result_type c <> t_profiler /\ receiver c = o
  end.

End method_spec.

(** ** Lemmas *)

(** The tables are consistent: names are distinct, also when their case is
    ignored; each method is listed once, under its own class; the arguments that
    the tables describe are as many as are documented, all of them required, and
    the return types agree. *)
Lemma tables_consistent :
  Forall (fun fes => NoDup (zend_str_tolower ∘ fname <$> fes))
    [ExcimerProfiler_methods; ExcimerLog_methods; ExcimerLogEntry_methods; ExcimerTimer_methods; excimer_functions] /\
  NoDup (fe_handler <$> ExcimerProfiler_methods ++ ExcimerLog_methods ++ ExcimerLogEntry_methods ++
    ExcimerTimer_methods ++ excimer_functions) /\
  forall f, length (arg_names (arginfo f)) = length (documented_params f) /\
    (required_num_args (arginfo f) = -1 \/
     required_num_args (arginfo f) = Z.of_nat (length (documented_params f))) /\
    match return_type (arginfo f) with
    | Some t => arginfo_type_ok t (documented_type f) = true
    | None => True
    end.
Proof.
  split_and!.
  - repeat constructor; by apply (bool_decide_unpack _); vm_compute.
  - by apply (bool_decide_unpack _); vm_compute.
  - intros []; vm_compute; auto.
Qed.

Lemma find_method_public o name f : find_method o name = Some f -> f ∈ public_methods o.
Proof.
  unfold find_method, public_methods. generalize (zend_str_tolower name) as nm. intros nm.
  induction (function_table o) as [|fe fes IH]; cbn [find_function]; [done|].
  case_bool_decide as Hn; simpl.
  - case_bool_decide as Hp; [done|]. intros [= <-]. rewrite filter_cons_True by done. left.
  - intros Hf%IH. rewrite filter_cons. case_decide; [by right|done].
Qed.

Section method_facts.
  Context {HT : Type -> Type -> Type} `{ZendHashLaws HT} {TL OS : Type} `{TimerlibTotal TL OS}.
  Abbreviation state := (tstate TL OS (objects HT)).
  Context (is_callable : nat -> state -> bool) (php_mt_rand : OS -> OS * Z) (default_max_depth : Z)
    (zend_parse_arg_long : nat -> option Z) (zend_parse_arg_double : nat -> option double)
    (is_null : nat -> bool).
  Implicit Types (s : state) (o : object) (l : list ptr).
  Abbreviation parse := (parse_call zend_parse_arg_long zend_parse_arg_double is_null).
  Abbreviation accepts := (accepts zend_parse_arg_long zend_parse_arg_double).

(** Parsing accepts what is documented, and nothing else. *)
Definition parse_ok o (f : zend_function) (args : list nat) : Prop :=
  match parse f o args with
  | Ok (inl e) => checks_arguments f = true /\ accepts f args = false
  | Ok (inr c) => (checks_arguments f = true -> accepts f args = true) /\ call_fits o f c
  | _ => False
  end.

Lemma parse_call_spec o f args : f ∈ public_methods o -> parse_ok o f args.
Proof.
  unfold public_methods. destruct o; vm_compute (filter _ _); cbn [fmap list_fmap fe_handler];
    rewrite ?elem_of_cons, elem_of_nil; intros Hf; repeat destruct Hf as [->|Hf]; try done;
    unfold parse_ok; destruct args as [|v [|v' [|v'' args]]]; cbn;
    unfold Z_PARAM_LONG, Z_PARAM_DOUBLE;
    try destruct (zend_parse_arg_long v); try destruct (zend_parse_arg_double v);
    try destruct (zend_parse_arg_long v'); try destruct (zend_parse_arg_double v'); cbn; by split_and!.
Qed.

(** ** Calls *)

Lemma api_value_typed s t v :
  t <> t_profiler -> value_ok s t v -> value_typed s (api_doc_type t) (api_return v).
Proof. by destruct t, v as [| | | | | | |[]|]. Qed.

(** A call that [ObjectSystem] allows. *)
Lemma live_call_allowed s c :
  object_lives s (receiver c) -> values_ok is_callable c s = true -> allowed is_callable c s = true.
Proof.
  destruct c; cbn [receiver object_lives values_ok allowed]; intros Hl Hv;
    rewrite ?andb_true_iff, ?bool_decide_eq_true in *; auto.
Qed.

(** Logs and their entries stay alive. *)
Lemma moves_lives s s' h e :
  moves s s' ->
  (object_lives s (ref_log h) -> object_lives s' (ref_log h)) /\
  (object_lives s (ref_entry e) -> object_lives s' (ref_entry e)).
Proof.
  intros [_ Hg]. split; [by apply logs_grow_some|]. cbn. unfold entry_lives.
  destruct (entry_z_log e) as [h'|]; [cbn|done]. destruct (logs (world s) !! h') as [lo|] eqn:Hlo; [|done].
  destruct (Hg h' lo Hlo) as (lo' & -> & Hp). by eapply get_entry_grows.
Qed.

Section calls.
  Context (call_function : nat -> call_arg -> M state unit).
  Hypothesis call_safe : forall v a s l, obj_inv s l -> safe (call_function v a) s l (fun _ _ => True).
  Hypothesis rand_ok : forall x, is_u32 (php_mt_rand x).2.
  Abbreviation handler := (call_handler is_callable php_mt_rand default_max_depth
    zend_parse_arg_long zend_parse_arg_double is_null call_function).

Lemma run_call_safe s l o f c :
  obj_inv s l -> object_lives s o -> call_fits o f c ->
  (forall c', c = mc_api c' -> values_ok is_callable c' s = true) ->
  safe (run_call is_callable php_mt_rand default_max_depth call_function c) s l
    (fun v s' => value_typed s' (documented_type f) v).
Proof.
  intros Hinv Hlives Hfits Hal. destruct c as [nm|c]; cbn [call_fits run_call] in *; [done|].
  destruct Hfits as (-> & Hnp & <-). eapply safe_bind; [by apply run_api_safe, live_call_allowed; auto|].
  intros v s1 l1 Hi1 _ Hv. apply safe_ret; [done|]. by apply api_value_typed.
Qed.

Lemma touch_entry_ok s l o :
  obj_inv s l -> object_lives s o -> touch_entry o s = (s, Ok tt).
Proof.
  intros Hinv Hlives. destruct o as [|p|h|e|p]; try done.
  destruct (entry_lookup_lives s l e Hinv Hlives) as (log & en & Hrun & _).
  unfold touch_entry, get_state, lift, mbind, M_bind. by rewrite Hrun.
Qed.

Lemma handler_spec s l o f args :
  obj_inv s l -> object_lives s o -> f ∈ public_methods o ->
  (forall c, parse f o args = Ok (inr (mc_api c)) -> values_ok is_callable c s = true) ->
  match parse f o args with
  | Ok (inl e) => handler f o args s = (s, Ok (thrown e))
  | Ok (inr c) => safe (handler f o args) s l
      (fun r s' => exists v, r = returned v /\ value_typed s' (documented_type f) v)
  | _ => False
  end.
Proof.
  intros Hinv Hlives Hf Hal. pose proof (parse_call_spec o f args Hf) as Hparse. unfold parse_ok in Hparse.
  assert (Htouch : (if bool_decide (f = zim_ExcimerLogEntry___construct) then mret tt else touch_entry o) s
    = (s, Ok tt)) by (case_bool_decide; [done|by eapply touch_entry_ok]).
  destruct (parse f o args) as [[e|c]|msg|why|] eqn:Hp; [| |done..].
  - unfold call_handler. rewrite (bind_ok _ _ _ _ _ Htouch), Hp. done.
  - unfold call_handler. eapply safe_read; [done|]. rewrite Hp. eapply safe_read; [done|].
    eapply safe_bind; [apply (run_call_safe s l o f c); [done..|by destruct Hparse|by intros c' ->; apply Hal]|].
    intros v s1 l1 Hi1 _ Hv. apply safe_ret; eauto.
Qed.

End calls.

(** ** Properties *)


End method_facts.

(** ** Witness *)

Section witnesses.
  #[local] Existing Instance ex_timerlib.
  #[local] Existing Instance ex_total.
  Abbreviation ex_obj_state := (tstate bool unit (objects alist)).

(** A request with a log of one sample. *)
Definition ex_with_log : ex_obj_state :=
  TState _ _ _ ∅ ∅ ∅ None None [] tt
    (Objects alist ∅ ∅ {[ 1%positive := LogObj alist (ex_log1 0) None 0 ]} 2 [] false).

Lemma ex_with_log_inv : obj_inv ex_with_log [].
Proof.
  destruct ex_request_inv as [Ht _ _ _ _ _ Hst]. split; try done; [by destruct Ht; split| |by intros p [t Hp]].
  intros h lo Hlo. change (({[ 1%positive := LogObj alist (ex_log1 0) None 0 ]} : gmap handle _) !! h = Some lo) in Hlo.
  apply lookup_singleton_Some in Hlo as [<- <-]. split_and!; [done|apply ex_log1_wf|done].
Qed.

(** Numbers stand for themselves; 9 is no integer. *)
Definition ex_parse_long (v : nat) : option Z := if bool_decide (v = 9%nat) then None else Some (Z.of_nat v).

Definition ex_call_method (name : string) (args : list nat) : option (outcome call_result) :=
  f ← find_method (ref_log 1) name;
  Some (call_handler (fun _ _ => true) ex_rand 1000 ex_parse_long (fun _ => None) (fun _ => false)
    (call_php (fun _ _ => true) ex_rand 1000 ex_body 3) f (ref_log 1) args ex_with_log).2.


End witnesses.
