(* ===== verification/Lifecycle.v ===== *)
(** * The life of the module

    Models the entry points of [excimer.c] that the engine calls at the start and
    at the end of the process and of each request: what MINIT registers, RINIT,
    the release of the objects that a request has left, and the handler that
    runs after it ([ZEND_MODULE_POST_ZEND_DEACTIVATE_D]).

    A request runs to its end or to a fatal error; then the engine frees the
    objects that are left in any order, while timers that are not yet destroyed
    still elapse. No interrupt is handled any more at that point. *)

From S2P Require Import Prelude ZendHash Log LogTrace LogObject Timespec Doubles.
From S2P Require Import PendingList Timer TimerlibCommon TimerlibPosix TimerSystem Objects ObjectSystem Methods.

(** ** What MINIT registers *)

Inductive interface : Type := zend_ce_iterator | zend_ce_countable | zend_ce_arrayaccess.

(** The methods that PHP documents for its interfaces, with their parameters. *)
Definition interface_methods (i : interface) : list (string * nat) :=
  match i with
  | zend_ce_iterator => [("current", 0); ("key", 0); ("next", 0); ("rewind", 0); ("valid", 0)]%nat
  | zend_ce_countable => [("count", 0)]%nat
  | zend_ce_arrayaccess => [("offsetExists", 1); ("offsetGet", 1); ("offsetSet", 2); ("offsetUnset", 1)]%nat
  end.

(** A class with the handlers that are not the standard ones. *)
Record zend_class_entry : Type := ClassEntry {
  ce_class : zend_class;
  ce_name : string;
  ce_functions : list zend_function_entry;
  ce_dtor_obj : bool;
  ce_get_iterator : bool;
  ce_count_elements : bool;
  ce_interfaces : list interface
}.

(** [REGISTER_EXCIMER_CLASS]. *)
Definition register_class (ce : zend_class) (name : string) : zend_class_entry :=
  ClassEntry ce name (methods_of ce) false false false [].

Record registry : Type := Registry {
  ini_entries : list (string * string);
  constants : list (string * Z);
  classes : list zend_class_entry
}.

Definition excimer_ini_entries : list (string * string) := [("excimer.default_max_depth", "1000")].

(** [cpu_clock] is whether the platform has [TIMERLIB_HAVE_CPU_CLOCK]. *)
Definition excimer_constants (cpu_clock : bool) : list (string * Z) :=
  ("EXCIMER_REAL", EXCIMER_REAL) :: (if cpu_clock then [("EXCIMER_CPU", EXCIMER_CPU)] else []).

Definition excimer_classes : list zend_class_entry := [
  ClassEntry ExcimerProfiler_ce "ExcimerProfiler" (methods_of ExcimerProfiler_ce) true false false [];
  ClassEntry ExcimerLog_ce "ExcimerLog" (methods_of ExcimerLog_ce) false true true
    [zend_ce_iterator; zend_ce_countable; zend_ce_arrayaccess];
  register_class ExcimerLogEntry_ce "ExcimerLogEntry";
  register_class ExcimerTimer_ce "ExcimerTimer"
].

(** An object that a request has left. *)
Inductive object_ref : Type := profiler_ref (p : ptr) | timer_ref (p : ptr).

(** What happens while the engine frees objects. *)
Inductive release_step : Type :=
  | rel_free (r : object_ref)
  | rel_elapse (handler : nat) (p : ptr) (overrun : Z).

Definition released (xs : list release_step) : list object_ref :=
  omap (fun x => match x with rel_free r => Some r | _ => None end) xs.

(** The functions are given a registry where they register something. *)
Record zend_module_entry {S : Type} : Type := ModuleEntry {
  me_name : string;
  me_functions : list zend_function_entry;
  module_startup_func : bool -> registry -> M S registry;
  module_shutdown_func : registry -> M S registry;
  request_startup_func : M S unit;
  request_shutdown_func : option (M S unit);
  me_version : string;
  post_deactivate_func : M S unit
}.
Arguments zend_module_entry S : clear implicits.

Section lifecycle.
  Context {HT : Type -> Type -> Type} `{ZendHash HT} {TL OS : Type} `{Timerlib TL OS}.
  Abbreviation state := (tstate TL OS (objects HT)).
  Context (is_callable : nat -> state -> bool) (php_mt_rand : OS -> OS * Z) (default_max_depth : Z)
    (body : nat -> call_arg -> php_program) (run_hook : interrupt_hook -> M state unit).
  Implicit Types (s : state) (p : ptr) (r : object_ref) (reg : registry).

(** ** Module entry points *)

Definition PHP_MINIT (cpu_clock : bool) reg : M state registry :=
  _ ← excimer_timer_module_init;
  mret (Registry (ini_entries reg ++ excimer_ini_entries) (constants reg ++ excimer_constants cpu_clock)
          (classes reg ++ excimer_classes)).

(** The entries of the module are removed from the INI settings. *)
Definition PHP_MSHUTDOWN reg : M state registry :=
  _ ← excimer_timer_module_shutdown;
  mret (Registry (filter (fun e => e.1 ∉ excimer_ini_entries.*1) (ini_entries reg)) (constants reg) (classes reg)).

Definition PHP_RINIT : M state unit := excimer_timer_thread_init false 0.

Definition POST_ZEND_DEACTIVATE : M state unit := excimer_timer_thread_shutdown false 0.

(** The table of the module that the engine reads; there is no RSHUTDOWN. *)
Definition excimer_module_entry : zend_module_entry state :=
  ModuleEntry state "excimer" excimer_functions PHP_MINIT PHP_MSHUTDOWN PHP_RINIT None "1.2.5" POST_ZEND_DEACTIVATE.

(** ** A request of the engine *)

(** [EG(vm_interrupt)], [EG(current_execute_data)] and [EG(exception)] are reset. *)
Definition init_executor : M state unit :=
  _ ← modify (fun s => set_vm_interrupt (<[0%nat := false]> (vm_interrupt s)) s);
  modify_world (fun w => set_exception false (set_stack [] w)).

(** A fatal error ends the script, not the request. *)
Definition zend_try {A} (m : M state A) : M state (option A) := fun s =>
  match m s with
  | (s', Ok a) => (s', Ok (Some a))
  | (s', Fatal _) => (s', Ok None)
  | (s', Crash why) => (s', Crash why)
  | (s', Diverge) => (s', Diverge)
  end.

Definition free_object r : M state unit :=
  match r with
  | profiler_ref p => ExcimerProfiler_free_object false 0 p
  | timer_ref p => ExcimerTimer_free_object false 0 p
  end.

Definition run_release (x : release_step) : M state unit :=
  match x with
  | rel_free r => free_object r
  | rel_elapse self p k =>
      s ← get_state;
      if timer_valid s p && (0 <=? k) && (k <? 2 ^ 31 - 1) then excimer_timer_handle false self p k else mret tt
  end.

Fixpoint run_releases (xs : list release_step) : M state unit :=
  match xs with
  | [] => mret tt
  | x :: xs' => _ ← run_release x; run_releases xs'
  end.

(** [zend_objects_store_free_object_storage]; the logs go with their last references. *)
Definition free_object_storage (order : state -> list release_step) : M state unit :=
  s ← get_state;
  _ ← run_releases (order s);
  modify_world (set_logs ∅).

Definition php_request (n : nat) (es : list event) (order : state -> list release_step) :
    M state (option (list (option api_value))) :=
  _ ← init_executor;
  _ ← request_startup_func excimer_module_entry;
  r ← zend_try (run_request is_callable php_mt_rand default_max_depth body run_hook n es);
  _ ← default (mret tt) (request_shutdown_func excimer_module_entry);
  _ ← free_object_storage order;
  _ ← post_deactivate_func excimer_module_entry;
  mret r.

Fixpoint php_requests (rs : list (nat * list event * (state -> list release_step))) :
    M state (list (option (list (option api_value)))) :=
  match rs with
  | [] => mret []
  | (n, es, order) :: rs' => r ← php_request n es order; rs ← php_requests rs'; mret (r :: rs)
  end.

(** The process: the module starts, requests run one after the other, the module ends. *)
Definition php_process (cpu_clock : bool) reg rs : M state (registry * list (option (list (option api_value)))) :=
  reg ← module_startup_func excimer_module_entry cpu_clock reg;
  results ← php_requests rs;
  reg ← module_shutdown_func excimer_module_entry reg;
  mret (reg, results).

(** ** Specification *)

Definition ref_lives s r : Prop :=
  match r with profiler_ref p => profiler_lives s p | timer_ref p => timer_lives s p end.

(** The engine frees each object that is left once. *)
Definition frees_all (order : state -> list release_step) : Prop :=
  forall s, NoDup (released (order s)) /\ forall r, r ∈ released (order s) <-> ref_lives s r.

(** No object is left, no timer is valid or in the list, and RINIT will do. *)
Record ready s : Prop := Ready {
  rd_timers : timer_inv (put_tls 0 zero_tls s) [];
  rd_invalid : forall p t, timers s !! p = Some t -> is_valid t = false;
  rd_objects : profilers (world s) = ∅ /\ timer_objs (world s) = ∅ /\ logs (world s) = ∅;
  rd_addresses : forall p, is_Some (timers s !! p) -> (p < next_ptr (world s))%positive
}.

(** The thread ended as it should: the mutex is destroyed, so that the warning
    about active timers was not given. *)
Definition ended s : Prop :=
  get_tls 0 s = Tls Destroyed None 0.

End lifecycle.

(** ** Lemmas *)

(** The methods of every interface that a class implements are there, with as
    many parameters. *)
Lemma interfaces_complete ce i name n :
  ce ∈ excimer_classes -> i ∈ ce_interfaces ce -> (name, n) ∈ interface_methods i ->
  exists fe, find_function (zend_str_tolower name) (ce_functions ce) = Some fe /\
    length (arg_names (fe_arginfo fe)) = n.
Proof.
  assert (Hall : Forall (fun ce => Forall (fun i => Forall (fun mn =>
      match find_function (zend_str_tolower mn.1) (ce_functions ce) with
      | Some fe => length (arg_names (fe_arginfo fe)) = mn.2
      | None => False
      end) (interface_methods i)) (ce_interfaces ce)) excimer_classes)
    by (repeat constructor; vm_compute; reflexivity).
  rewrite Forall_forall in Hall. intros Hce Hi Hm. specialize (Hall ce Hce). rewrite Forall_forall in Hall.
  specialize (Hall i Hi). rewrite Forall_forall in Hall. specialize (Hall _ Hm). cbn [fst snd] in Hall.
  destruct (find_function _ _) as [fe|]; [by exists fe|done].
Qed.

Section lifecycle_facts.
  Context {HT : Type -> Type -> Type} `{ZendHashLaws HT} {TL OS : Type} `{TimerlibTotal TL OS}.
  Abbreviation state := (tstate TL OS (objects HT)).
  Context (is_callable : nat -> state -> bool) (php_mt_rand : OS -> OS * Z) (default_max_depth : Z)
    (body : nat -> call_arg -> php_program) (run_hook : interrupt_hook -> M state unit).
  Implicit Types (s : state) (p : ptr) (l : list ptr) (r : object_ref).

(** A change of the timers that neither adds memory nor makes a timer valid. *)
Lemma live_change s s' l l' :
  live_inv s l -> timer_inv s' l' -> world s' = world s ->
  (forall q, is_Some (timers s' !! q) <-> is_Some (timers s !! q)) ->
  (forall q, valid_timer s' q -> valid_timer s q) -> live_inv s' l'.
Proof.
  intros [Ht Hm Ha Hn Hown] Hinv Hw Hdom Hval. split; unfold profiler_lives, timer_lives in *; rewrite ?Hw; try done.
  - intros q Hq. by apply Hdom, Hm.
  - intros q Hq. by apply Hn, Hdom.
  - intros q t Hq Hv. destruct (Hval q) as (t0 & Hq0 & Hv0); [by exists t|]. by apply (Hown q t0).
Qed.

(** The end of an object: its timer is destroyed and its memory freed. *)
Lemma destroy_if_valid s l p t :
  live_inv s l -> timers s !! p = Some t ->
  exists s' l', (if is_valid t then excimer_timer_destroy false 0 p else mret tt) s = (s', Ok tt) /\
    live_inv s' l' /\ world s' = world s /\ invalid_timer s' p.
Proof.
  intros Hinv Hp. destruct (is_valid t) eqn:Hv; [|exists s, l; split_and!; try done; by exists t].
  destruct (destroy_spec s l 0 p t (li_timers _ _ Hinv) Hp Hv)
    as (s' & t' & Hrun & Hinv' & Hp' & Hv' & Ho & _ & Hw).
  exists s', (queue_remove p l). split_and!; [done| |done|by exists t'].
  apply (live_change s s' l); [done..| |].
  - intros q. destruct (decide (q = p)) as [->|Hne]; [by rewrite Hp'; split; eauto|].
    rewrite <-(fmap_is_Some erase_links (timers s' !! q)), Ho by done. apply fmap_is_Some.
  - intros q (u & Hu & Hvu). destruct (decide (q = p)) as [->|Hne]; [congruence|].
    specialize (Ho q Hne). rewrite Hu in Ho. destruct (timers s !! q) as [u0|] eqn:Hu0; [|done].
    apply (inj Some), (f_equal is_valid) in Ho. simpl in Ho. exists u0. split; [done|congruence].
Qed.

(** What is left when the object is gone. *)
Lemma live_drop s l p (drop : objects HT -> objects HT) :
  live_inv s l -> invalid_timer s p ->
  let s' := set_world (drop (world s)) (set_timers (delete p (timers s)) s) in
  next_ptr (drop (world s)) = next_ptr (world s) ->
  (forall q, q <> p -> (profiler_lives s' q <-> profiler_lives s q) /\ (timer_lives s' q <-> timer_lives s q)) ->
  ~ profiler_lives s' p -> ~ timer_lives s' p -> live_inv s' l.
Proof.
  intros [Ht Hm Ha Hn Hown] Hiv s' Hnp Hq Hpp Htp. pose proof Hiv as (t & Hpt & Hv). split.
  - by apply set_world_inv, free_step.
  - intros q Hl. destruct (decide (q = p)) as [->|Hne]; [naive_solver|]. simpl.
    rewrite lookup_delete_ne by done. apply Hm. destruct (Hq q Hne). naive_solver.
  - intros q Hl1 Hl2. destruct (decide (q = p)) as [->|Hne]; [done|]. destruct (Hq q Hne). apply (Ha q); naive_solver.
  - intros q [t' Hq']. simpl in *. apply lookup_delete_Some in Hq' as [_ Hq']. rewrite Hnp. apply Hn. eauto.
  - intros q u Hu Hvu. simpl in Hu. apply lookup_delete_Some in Hu as [Hne Hu]. destruct (Hq q) as [H1' H2']; [done|]. rewrite H1', H2'. by eapply Hown.
Qed.

Lemma free_object_spec s l r :
  live_inv s l -> ref_lives s r ->
  exists s' l', free_object r s = (s', Ok tt) /\ live_inv s' l' /\
    forall r', ref_lives s' r' <-> ref_lives s r' /\ r' <> r.
Proof.
  intros Hinv Hr. assert (Hmem : exists p t, timers s !! p = Some t /\ (r = profiler_ref p \/ r = timer_ref p)).
  { destruct r as [p|p]; destruct (li_memory _ _ Hinv p) as [t Ht]; auto; eauto. }
  destruct Hmem as (p & t & Ht & Hrp).
  destruct (destroy_if_valid s l p t Hinv Ht) as (s1 & l1 & Hrun & Hinv1 & Hw & Hiv).
  assert (Hlive : ref_lives s1 r) by (unfold ref_lives, profiler_lives, timer_lives in *; by rewrite Hw).
  assert (Hsame : forall r', ref_lives s r' <-> ref_lives s1 r')
    by (intros []; unfold ref_lives, profiler_lives, timer_lives; by rewrite Hw).
  setoid_rewrite Hsame. clear Hsame Hinv. destruct Hrp as [->| ->]; cbn [free_object].
  - unfold ExcimerProfiler_free_object. rewrite (bind_ok _ _ _ _ _ (load_ok s p t Ht)), (bind_ok _ _ _ _ _ Hrun).
    eexists _, l1. split; [done|]. pose proof (fun Hl => li_apart _ _ Hinv1 p Hlive Hl) as Hno. split.
    + apply (live_drop s1 l1 p (fun w => set_profilers (delete p (profilers w)) w)); [done..| | |done].
      * intros q Hne. unfold profiler_lives, timer_lives. simpl. by rewrite lookup_delete_ne.
      * unfold profiler_lives. simpl. rewrite lookup_delete_eq. by intros [].
    + intros [q|q]; simpl; unfold profiler_lives, timer_lives; simpl; [|naive_solver].
      rewrite lookup_delete_is_Some. naive_solver.
  - unfold ExcimerTimer_free_object. rewrite (bind_ok _ _ _ _ _ (load_ok s p t Ht)), (bind_ok _ _ _ _ _ Hrun).
    eexists _, l1. split; [done|]. pose proof (fun Hl => li_apart _ _ Hinv1 p Hl Hlive) as Hno. split.
    + apply (live_drop s1 l1 p (fun w => set_timer_objs (delete p (timer_objs w)) w)); [done..| |done|].
      * intros q Hne. unfold profiler_lives, timer_lives. simpl. by rewrite lookup_delete_ne.
      * unfold timer_lives. simpl. rewrite lookup_delete_eq. by intros [].
    + intros [q|q]; simpl; unfold profiler_lives, timer_lives; simpl; [naive_solver|].
      rewrite lookup_delete_is_Some. naive_solver.
Qed.

(** A timer elapses during the release. *)
Lemma elapse_spec s l self p k :
  live_inv s l ->
  exists s' l', run_release (rel_elapse self p k) s = (s', Ok tt) /\ live_inv s' l' /\
    forall r', ref_lives s' r' <-> ref_lives s r'.
Proof.
  intros Hinv. cbn [run_release]. rewrite (bind_ok get_state _ s s s) by done.
  destruct (timer_valid s p && (0 <=? k) && (k <? 2 ^ 31 - 1)) eqn:Hc; [|by exists s, l].
  apply andb_prop in Hc as [[Hv _]%andb_prop _]. unfold timer_valid in Hv.
  destruct (timers s !! p) as [t|] eqn:Hp; [|done].
  destruct (handle_locked_spec s l self p t k (li_timers _ _ Hinv) Hp Hv) as (ts & v & Hrun & Hi1 & He).
  assert (Hval : valid_timer (mid s ts v) p) by (eapply relinked_valid; [done..|by exists t]).
  unfold excimer_timer_handle. rewrite (bind_ok _ _ _ _ _ Hrun), (raise_ok _ _ p Hi1 Hval).
  eexists _, (queue_add p l). split_and!; [done| |by intros []].
  apply (live_change s _ l); [done|by apply flag_inv|done|..].
  - intros q. simpl. rewrite <-(fmap_is_Some erase_links (ts !! q)), <-lookup_fmap, He, lookup_fmap, fmap_is_Some.
    apply lookup_alter_is_Some.
  - intros q (u' & Hq & Hvu). simpl in Hq. destruct (links_lookup _ _ q u' He Hq) as (u & Hu & Heu).
    apply (f_equal is_valid) in Heu. simpl in Heu.
    apply lookup_alter_Some in Hu as [(<- & t' & Ht' & ->)|[_ Hu]]; [by exists t|exists u; split; [done|congruence]].
Qed.

Lemma run_releases_spec xs s l :
  live_inv s l -> NoDup (released xs) -> (forall r, r ∈ released xs <-> ref_lives s r) ->
  exists s' l', run_releases xs s = (s', Ok tt) /\ live_inv s' l' /\ forall r, ~ ref_lives s' r.
Proof.
  revert s l. induction xs as [|[r|self p k] xs IH]; intros s l Hinv Hnd Hr; cbn [run_releases].
  - exists s, l. split_and!; [done..|]. intros r Hl%Hr. by apply elem_of_nil in Hl.
  - cbn in Hnd, Hr. apply NoDup_cons in Hnd as [Hnin Hnd].
    destruct (free_object_spec s l r Hinv) as (s1 & l1 & Hrun & Hinv1 & Hr1); [apply Hr; left|].
    rewrite (bind_ok (run_release (rel_free r)) _ s s1 tt) by done. apply (IH s1 l1); [done..|].
    intros r'. rewrite Hr1, <-Hr, elem_of_cons. split; [|naive_solver].
    intros Hin. split; [by right|]. by intros ->.
  - destruct (elapse_spec s l self p k Hinv) as (s1 & l1 & Hrun & Hinv1 & Hr1).
    rewrite (bind_ok _ _ _ _ _ Hrun). apply (IH s1 l1); [done..|]. intros r'. by rewrite Hr1.
Qed.

(** When no object is left, no timer is valid and none is pending. *)
Lemma no_objects s l : live_inv s l -> (forall r, ~ ref_lives s r) ->
  l = [] /\ (forall p t, timers s !! p = Some t -> is_valid t = false) /\ timers_active (get_tls 0 s) = 0.
Proof.
  intros [Ht Hm Ha Hn Hown] Hno.
  assert (Hinv : forall p t, timers s !! p = Some t -> is_valid t = false).
  { intros p t Hp. destruct (is_valid t) eqn:Hv; [|done].
    destruct (Hown p t Hp Hv) as [Hl|Hl]; [by destruct (Hno (profiler_ref p))|by destruct (Hno (timer_ref p))]. }
  split_and!; [|done|].
  - destruct l as [|p l]; [done|]. destruct (pending_dom s (p :: l) p Ht) as (t & Hp & Hv); [left|].
    rewrite (Hinv p t Hp) in Hv. done.
  - rewrite (ti_active _ _ Ht). unfold num_valid.
    assert (Hz : filter (fun pt : ptr * excimer_timer TL => is_valid pt.2 = true) (timers s) = ∅).
    { apply map_empty_filter. intros p t Hp. simpl. by rewrite (Hinv p t Hp). }
    by rewrite Hz.
Qed.

Lemma no_refs s : (forall r, ~ ref_lives s r) -> profilers (world s) = ∅ /\ timer_objs (world s) = ∅.
Proof.
  intros Hno. split; apply map_empty; intros p; apply eq_None_not_Some; intros Hl;
    [by destruct (Hno (profiler_ref p))|by destruct (Hno (timer_ref p))].
Qed.

(** The thread-local storage at the end of the request, and the next RINIT. *)
Lemma reset_tls_inv s v :
  timer_inv s [] -> (forall p t, timers s !! p = Some t -> is_valid t = false) ->
  timers_active (get_tls 0 s) = 0 -> timer_inv (put_tls 0 zero_tls (put_tls 0 v s)) [].
Proof.
  intros [Hl Ht Hm Hok Ha] Hinv Hz. destruct Hl as [Hhd Hlk].
  split; rewrite ?get_put_tls; try done. transitivity (timers_active (get_tls 0 s)); [by rewrite Hz|done].
Qed.

Lemma deactivate_spec s l :
  live_inv s l -> (forall r, ~ ref_lives s r) ->
  let s1 := set_world (set_logs ∅ (world s)) s in
  exists s', POST_ZEND_DEACTIVATE s1 = (s', Ok tt) /\ ready s' /\ ended s' /\ warnings s' = warnings s.
Proof.
  intros Hinv Hno s1. destruct (no_objects s l Hinv Hno) as (-> & Hiv & Hz). pose proof (no_refs s Hno) as [Hp Hto].
  pose proof (li_timers _ _ Hinv) as Ht. unfold POST_ZEND_DEACTIVATE, excimer_timer_thread_shutdown, excimer_mutex_destroy.
  assert (Hg : get_tls 0 s1 = Tls Unlocked None 0).
  { change (get_tls 0 s1) with (get_tls 0 s). destruct (ti_list _ _ Ht) as [Hhd _]. pose proof (ti_mutex _ _ Ht) as Hm.
    destruct (get_tls 0 s). simpl in *. congruence. }
  rewrite (bind_ok get_state _ s1 s1 s1) by done. cbn [tls_key]. rewrite Hg. cbn [timers_active negb Z.eqb].
  rewrite (bind_ok get_state _ s1 s1 s1) by done. rewrite Hg. cbn [tls_mutex].
  exists (put_tls 0 (Tls Destroyed None 0) s1). split_and!; [by rewrite modify_tls_ok, Hg| | |done].
  - split; [|done|by split_and!|apply (li_addresses _ _ Hinv)]. apply reset_tls_inv; [|done|done].
    by apply set_world_inv.
  - unfold ended. apply get_put_tls.
Qed.

(** RINIT makes the state one in which a request can run. *)
Lemma request_start_spec s :
  ready s ->
  exists s1 s2, init_executor s = (s1, Ok tt) /\ PHP_RINIT s1 = (s2, Ok tt) /\ obj_inv s2 [].
Proof.
  intros [Ht Hiv (Hp & Hto & Hl) Ha]. eexists _, _. split_and!; [done..|].
  split; simpl; rewrite ?Hp, ?Hto, ?Hl; try done.
  - destruct Ht as [Hli Htr Hm Hok Hac]. by split.
  - intros p t Hpt Hv. rewrite (Hiv p t Hpt) in Hv. done.
  - constructor.
Qed.

Section processes.
  Hypothesis rand_ok : forall x, is_u32 (php_mt_rand x).2.
  Hypothesis hook_ok : forall h s, exists s', run_hook h s = (s', Ok tt) /\ same_timers s s' /\ world s' = world s.
  Abbreviation request := (php_request is_callable php_mt_rand default_max_depth body run_hook).

(** The script ends, by itself or with a fatal error, and leaves order. *)
Lemma script_spec n es s :
  obj_inv s [] ->
  exists s' l out, zend_try (run_request is_callable php_mt_rand default_max_depth body run_hook n es) s
    = (s', Ok out) /\ live_inv s' l /\ match out with Some vs => length vs = length es | None => True end.
Proof.
  intros Hinv. pose proof (run_request_spec is_callable php_mt_rand default_max_depth body run_hook
    rand_ok hook_ok n es s [] Hinv) as Hspec. unfold zend_try.
  destruct (run_request _ _ _ _ _ n es s) as [s' [vs|msg|why|]]; [| |done..].
  - destruct Hspec as [[[l Hi] _] Hlen]. exists s', l, (Some vs). split_and!; [done|by apply obj_inv_live|done].
  - destruct Hspec as [_ [l Hi]]. by exists s', l, None.
Qed.

Lemma php_request_spec n es order s :
  ready s -> frees_all order ->
  exists s' out, request n es order s = (s', Ok out) /\ ready s' /\ ended s' /\
    match out with Some vs => length vs = length es | None => True end.
Proof.
  intros Hready Horder. destruct (request_start_spec s Hready) as (s1 & s2 & Hrun1 & Hrun2 & Hinv).
  unfold php_request. cbn [excimer_module_entry request_startup_func request_shutdown_func post_deactivate_func default].
  rewrite (bind_ok _ _ _ _ _ Hrun1), (bind_ok _ _ _ _ _ Hrun2).
  destruct (script_spec n es s2 Hinv) as (s3 & l & r & Hrun3 & Hlive & Hlen).
  rewrite (bind_ok _ _ _ _ _ Hrun3), (bind_ok (mret tt) _ s3 s3 tt) by done.
  destruct (Horder s3) as [Hnd Hall].
  destruct (run_releases_spec (order s3) s3 l Hlive Hnd Hall) as (s4 & l4 & Hrun4 & Hlive4 & Hno).
  assert (Hfree : free_object_storage order s3 = (set_world (set_logs ∅ (world s4)) s4, Ok tt)).
  { unfold free_object_storage. rewrite (bind_ok get_state _ s3 s3 s3) by done. by rewrite (bind_ok _ _ _ _ _ Hrun4). }
  rewrite (bind_ok _ _ _ _ _ Hfree). destruct (deactivate_spec s4 l4 Hlive4 Hno) as (s5 & Hrun5 & Hready5 & Hended & _).
  rewrite (bind_ok _ _ _ _ _ Hrun5). by exists s5, r.
Qed.

Lemma php_requests_spec rs s :
  ready s -> Forall (fun rq => frees_all rq.2) rs ->
  exists s' results, php_requests is_callable php_mt_rand default_max_depth body run_hook rs s = (s', Ok results) /\
    ready s' /\ (rs <> [] -> ended s') /\
    Forall2 (fun rq out => match out with Some vs => length vs = length rq.1.2 | None => True end) rs results.
Proof.
  intros Hready Hall. revert s Hready. induction Hall as [|[[n es] order] rs Ho Hall IH]; intros s Hready.
  { by exists s, []. }
  cbn [php_requests]. destruct (php_request_spec n es order s Hready Ho) as (s1 & r & Hrun & Hready1 & Hended & Hlen).
  rewrite (bind_ok _ _ _ _ _ Hrun). destruct (IH s1 Hready1) as (s2 & results & Hrun2 & Hready2 & Hended2 & Hall2).
  rewrite (bind_ok _ _ _ _ _ Hrun2). exists s2, (r :: results). split_and!; [done|done| |by constructor].
  intros _. destruct rs as [|rq rs]; [|by apply Hended2]. cbn in Hrun2. by injection Hrun2 as -> _.
Qed.

End processes.

(** ** Properties *)

(** C10. Requests leave nothing behind: a process that serves any sequence of
    requests, each with any calls, timer events, interrupts and PHP callbacks,
    ended normally or by a fatal error, with its objects freed in any order
    while timers still elapse, neither crashes nor hangs; after the last request
    no timer is valid or pending, no timer is counted as active and the mutex is
    destroyed, so that the warning "Timer still active at thread termination",
    which the comment in [excimer_timer_thread_shutdown] rules out, is never
    given; and another request can start afresh. *)
Theorem requests_leave_nothing cpu_clock reg rs s :
  (forall x, is_u32 (php_mt_rand x).2) ->
  (forall h s0, exists s1, run_hook h s0 = (s1, Ok tt) /\ same_timers s0 s1 /\ world s1 = world s0) ->
  ready s -> Forall (fun rq => frees_all rq.2) rs ->
  exists s' reg' results,
    php_process is_callable php_mt_rand default_max_depth body run_hook cpu_clock reg rs s
      = (s', Ok (reg', results)) /\
    ready s' /\ (rs <> [] -> ended s') /\
    Forall2 (fun rq out => match out with Some vs => length vs = length rq.1.2 | None => True end) rs results.
Proof.
  intros Hrand Hhook Hready Hall. set (s0 := set_hooks (Some excimer_interrupt_hook) (zend_interrupt_function s) s).
  assert (Hready0 : ready s0) by (destruct Hready as [[] ? ? ?]; split; [split|..]; done).
  destruct (php_requests_spec Hrand Hhook rs s0 Hready0 Hall) as (s' & results & Hrun & Hr & He & Hlen).
  unfold php_process. cbn [excimer_module_entry module_startup_func module_shutdown_func].
  rewrite (bind_ok (PHP_MINIT cpu_clock reg) _ s s0 _) by done.
  rewrite (bind_ok _ _ _ _ _ Hrun). by eexists s', _, results.
Qed.

End lifecycle_facts.

(** ** Witness *)

Section witnesses.
  #[local] Existing Instance ex_timerlib.
  #[local] Existing Instance ex_total.
  Abbreviation ex_obj_state := (tstate bool unit (objects alist)).

(** The objects in the order of the maps; the timer at 5 elapses once more. *)
Definition ex_order (s : ex_obj_state) : list release_step :=
  rel_elapse 9 5 0 ::
  (rel_free <$> (profiler_ref <$> (map_to_list (profilers (world s))).*1) ++
     (timer_ref <$> (map_to_list (timer_objs (world s))).*1)).

Lemma released_frees (rs : list object_ref) : released (rel_free <$> rs) = rs.
Proof. induction rs as [|r rs IH]; [done|]. cbn. by f_equal. Qed.

Lemma keys_elem {A} (m : gmap ptr A) p : p ∈ (map_to_list m).*1 <-> is_Some (m !! p).
Proof.
  rewrite list_elem_of_fmap. split.
  - intros ([q a] & -> & Hin%elem_of_map_to_list). by exists a.
  - intros [a Ha]. exists (p, a). by rewrite elem_of_map_to_list.
Qed.

Lemma ex_order_frees : frees_all ex_order.
Proof.
  intros s. unfold ex_order. cbn [released omap list_omap]. change (list_omap _ ?l) with (released l).
  rewrite released_frees. split.
  - apply NoDup_app. split_and!; [| |].
    + apply NoDup_fmap; [by intros ?? [=]|apply NoDup_fst_map_to_list].
    + intros r (p & -> & _)%list_elem_of_fmap (q & Hq & _)%list_elem_of_fmap. done.
    + apply NoDup_fmap; [by intros ?? [=]|apply NoDup_fst_map_to_list].
  - intros r. rewrite elem_of_app, !list_elem_of_fmap. setoid_rewrite keys_elem. destruct r; simpl; naive_solver.
Qed.

Lemma ex_request_ready : ready ex_request.
Proof.
  split; try done; [|by intros p [t Hp]]. destruct (oi_timers _ _ ex_request_inv) as [Hl Ht Hm Hok Ha]. by split.
Qed.

(** Two requests; the second ends in a fatal error, with a profiler left running. *)
Definition ex_requests : list (nat * list event * (ex_obj_state -> list release_step)) :=
  [(3%nat, ex_events, ex_order);
   (0%nat, [ev_call profiler_new; ev_call (profiler_setFlushCallback 6 0 1); ev_call (profiler_start 6);
            ev_elapse 7 6 2; ev_interrupt], ex_order)].

Lemma requests_leave_nothing_witness :
  exists s' reg' results,
    php_process (fun _ _ => true) ex_rand 1000 ex_body ex_hook true (Registry [] [] []) ex_requests ex_request
      = (s', Ok (reg', results)) /\
    ended s' /\ length results = 2%nat.
Proof.
  destruct (requests_leave_nothing (fun _ _ => true) ex_rand 1000 ex_body ex_hook true (Registry [] [] [])
    ex_requests ex_request ex_rand_ok ex_hook_ok ex_request_ready) as (s' & reg' & results & Hrun & _ & He & Hlen).
  { repeat constructor; apply ex_order_frees. }
  exists s', reg', results. split; [exact Hrun|]. split; [apply He; discriminate|].
  apply Forall2_length in Hlen. symmetry. exact Hlen.
Defined.

End witnesses.
