(* ===== verification/Handlers.v ===== *)
(** * Object handlers: which objects the methods accept

    An object of [excimer.c] is a C struct that ends with the [zend_object] of PHP.
    [create_object] allocates it and gives it the handlers of its class; a method
    tells from the handlers whether the object that it is called on has such a
    struct ([excimer_check_object]). The methods do not look whether the check has
    failed. *)

From S2P Require Import Prelude ZendHash Log LogObject Methods.

(** The address of a table of handlers. *)
Inductive zend_object_handlers : Type :=
  | std_object_handlers
  | class_handlers (c : zend_class).

#[export] Instance zend_object_handlers_eq_dec : EqDecision zend_object_handlers.
Proof. solve_decision. Defined.

(** An object: its class by name, which can be a class of PHP code that extends
    one of [excimer.c], its handlers, and the struct that contains it, if any. *)
Record zend_object {S : Type} : Type := ZendObject {
  object_ce : string;
  object_handlers : zend_object_handlers;
  intern : option S
}.
Arguments zend_object S : clear implicits.

Inductive zvalue {S : Type} : Type :=
  | z_IS_OBJECT (o : zend_object S)
  | z_IS_NULL.
Arguments zvalue S : clear implicits.

Section handlers.
  Context {S : Type}.

  (** [zend_objects_clone_obj], the standard handler: it makes an object with
      [zend_objects_new], not with [create_object]. *)
  Variable zend_objects_clone_obj : zend_object S -> zend_object S.

Definition excimer_object_alloc_init (handlers : zend_object_handlers) (ce : string) (s : S) : zend_object S :=
  ZendObject S ce handlers (Some s).

(** The address of the struct, or null. *)
Definition excimer_check_object (object : zend_object S) (handlers : zend_object_handlers) : option (option S) :=
  if negb (bool_decide (object_handlers object = handlers)) then None else Some (intern object).

Definition EXCIMER_OBJ (c : zend_class) (object : zend_object S) : option (option S) :=
  excimer_check_object object (class_handlers c).

Definition EXCIMER_OBJ_Z (c : zend_class) (z : zvalue S) : option (option S) :=
  match z with z_IS_OBJECT o => EXCIMER_OBJ c o | z_IS_NULL => None end.

(** A null value has no object to look at. *)
Definition EXCIMER_OBJ_ZP (c : zend_class) (z : zvalue S) : outcome (option (option S)) :=
  match z with z_IS_OBJECT o => Ok (EXCIMER_OBJ c o) | z_IS_NULL => Crash "null pointer dereference" end.

(** [EXCIMER_NEW_OBJECT], for the class [c] or one that extends it. *)
Definition EXCIMER_NEW_OBJECT (c : zend_class) (ce : string) (s : S) : zend_object S :=
  excimer_object_alloc_init (class_handlers c) ce s.

(** The [clone_obj] of the handlers: [REGISTER_EXCIMER_CLASS] copies the standard
    handlers and replaces [offset] and [free_obj]; no class replaces [clone_obj]. *)
Definition clone_obj (handlers : zend_object_handlers) : zend_object S -> zend_object S :=
  match handlers with std_object_handlers | class_handlers _ => zend_objects_clone_obj end.

(** The start of every method of the class [c]: the fields of [$this]. *)
Definition method_this (c : zend_class) (this : zend_object S) : outcome S :=
  let! p := EXCIMER_OBJ_ZP c (z_IS_OBJECT this) in
  let! s := deref p in
  match s with Some x => Ok x | None => Crash "not a struct of this class" end.

(** The objects that PHP code can have: new ones, with any later contents of the
    struct, and clones. *)
Inductive made : zend_object S -> Prop :=
  | made_new c ce s : made (EXCIMER_NEW_OBJECT c ce s)
  | made_clone o : made o -> made (clone_obj (object_handlers o) o).

(** What PHP documents of the standard handler. *)
Hypothesis clone_std : forall o, object_handlers (zend_objects_clone_obj o) = std_object_handlers.
Hypothesis clone_ce : forall o, object_ce (zend_objects_clone_obj o) = object_ce o.

Lemma clone_handlers h o : object_handlers (clone_obj h o) = std_object_handlers.
Proof. destruct h; apply clone_std. Qed.

(** The check is sound: when it succeeds, there is a struct of the class at the
    address, whether the object is of the class itself or of one that extends it;
    a method that gets the fields of [$this] gets those of the right struct. *)
Theorem check_identifies c o :
  made o ->
  match EXCIMER_OBJ c o with
  | Some p => exists s, p = Some s /\ o = EXCIMER_NEW_OBJECT c (object_ce o) s /\ method_this c o = Ok s
  | None => forall ce s, o <> EXCIMER_NEW_OBJECT c ce s
  end.
Proof.
  intros Ho. unfold method_this, EXCIMER_OBJ_ZP, EXCIMER_OBJ, excimer_check_object.
  destruct Ho as [c' ce s|o Ho].
  - cbn [object_handlers EXCIMER_NEW_OBJECT excimer_object_alloc_init]. case_bool_decide as Hc; cbn [negb].
    + injection Hc as ->. by exists s.
    + intros ce' s' Heq. injection Heq. congruence.
  - rewrite bool_decide_false by (rewrite clone_handlers; done). cbn [negb]. intros ce s Heq.
    pose proof (f_equal object_handlers Heq) as Hh. by rewrite clone_handlers in Hh.
Qed.

(** A clone is an object of the same class, so PHP code can call the methods of the
    class on it, but it has no struct: each of them dereferences a null pointer. *)
Theorem cloned_object_crashes c ce s :
  let o := EXCIMER_NEW_OBJECT c ce s in
  let o' := clone_obj (object_handlers o) o in
  method_this c o = Ok s /\ object_ce o' = ce /\ method_this c o' = Crash "null pointer dereference".
Proof.
  intros o o'. split_and!.
  - unfold method_this, EXCIMER_OBJ_ZP, EXCIMER_OBJ, excimer_check_object, o. simpl. by rewrite bool_decide_true.
  - apply clone_ce.
  - unfold method_this, EXCIMER_OBJ_ZP, EXCIMER_OBJ, excimer_check_object, o'.
    by rewrite bool_decide_false by (rewrite clone_handlers; done).
Qed.

End handlers.

(** ** Entries without a log *)

(** An [ExcimerLogEntry] that PHP code has made without the constructor, as the
    constructor of a class that extends it can, has no log: its getters
    dereference a null pointer, whatever logs there are. *)
Theorem unconstructed_entry_crashes {HT : Type -> Type -> Type} `{ZendHash HT} (logs : gmap handle (ExcimerLog_obj HT)) :
  ExcimerLogEntry_getTimestamp logs ExcimerLogEntry_new = Crash "null pointer dereference" /\
  ExcimerLogEntry_getEventCount logs ExcimerLogEntry_new = Crash "null pointer dereference" /\
  ExcimerLogEntry_getTrace logs ExcimerLogEntry_new = Crash "null pointer dereference".
Proof. by split_and!. Qed.

(** ** Witnesses *)

(** What the standard handler does, as far as the hypotheses say. *)
Definition ex_clone (o : zend_object Z) : zend_object Z := ZendObject Z (object_ce o) std_object_handlers None.

Lemma check_identifies_witness :
  EXCIMER_OBJ ExcimerTimer_ce (EXCIMER_NEW_OBJECT ExcimerTimer_ce "MyTimer" 7) = Some (Some 7) /\
  forall ce s, ex_clone (EXCIMER_NEW_OBJECT ExcimerTimer_ce "MyTimer" 7) <> EXCIMER_NEW_OBJECT ExcimerTimer_ce ce s.
Proof.
  split.
  - destruct (check_identifies ex_clone (fun _ => eq_refl) ExcimerTimer_ce _ (made_new ex_clone ExcimerTimer_ce "MyTimer" 7))
      as (s & Hs & _). vm_compute in Hs. injection Hs as <-. vm_compute. reflexivity.
  - apply (check_identifies ex_clone (fun _ => eq_refl) ExcimerTimer_ce _
      (made_clone ex_clone _ (made_new ex_clone ExcimerTimer_ce "MyTimer" 7))).
Defined.

Lemma cloned_object_crashes_witness :
  method_this ExcimerTimer_ce (ex_clone (EXCIMER_NEW_OBJECT ExcimerTimer_ce "ExcimerTimer" 7))
    = Crash "null pointer dereference".
Proof. apply (cloned_object_crashes ex_clone (fun _ => eq_refl) (fun _ => eq_refl) ExcimerTimer_ce "ExcimerTimer" 7). Defined.
